(** * mail2Sql: the e-mail normalisation pipeline and its SQLite persistence

    A shallow embedding of [gmail_api.py] ([GmailAPI.extract_email_data] and
    its nested helpers, [save_extracted_email_as_json]) and of [sqlite_db.py]
    ([import_ExtractedEmailData], [insert_message], with the schema declared in
    [create_tables] and the pragma set in [open_db]).

    Conventions.
    - A Python [str] is a Rocq [string].  Character classes ([\s], [\w], [\b],
      [str.lower], [str.strip]) are the ASCII ones: the embedding is exact on
      ASCII text, which is what every header syntax handled here is made of.
    - A Python exception is a value of [pyerror]; code that may raise returns
      [result].
    - Functions of the Python standard library that the source calls ([re],
      [base64], [bytes.decode], [datetime], [json], [sqlite3]) are modelled
      next to the code that calls them, each in its own module.
    - The one function of the source that calls itself, [get_body_part],
      takes the room left on the stack of the interpreter as a parameter and
      raises [RecursionError] when there is none; the other calls are taken
      to find the room they need. *)

From Stdlib Require Import List String Ascii ZArith Bool Arith Lia DecimalString.
Import ListNotations.
Local Open Scope string_scope.
Local Open Scope list_scope.
Local Open Scope nat_scope.

(* ------------------------------------------------------------------ *)
(** ** Exceptions *)

Inductive pyerror : Set :=
| KeyError | IndexError | ValueError | TypeError | AttributeError
| OverflowError | Base64Error | ProgrammingError | IntegrityError
| RecursionError.

Inductive result (A : Type) : Type :=
| Ok (a : A)
| Raise (e : pyerror).
Arguments Ok {A} a.
Arguments Raise {A} e.

Definition bind {A B : Type} (m : result A) (f : A -> result B) : result B :=
  match m with
  | Ok a => f a
  | Raise e => Raise e
  end.

Notation "x <- m ;; k" := (bind m (fun x => k))
  (at level 61, m at next level, right associativity).

Definition is_ok {A : Type} (m : result A) : bool :=
  match m with Ok _ => true | Raise _ => false end.

(** [for x in l: acc = f acc x], stopping at the first exception. *)
Fixpoint foldM {A S : Type} (f : S -> A -> result S) (l : list A) (s : S) : result S :=
  match l with
  | [] => Ok s
  | x :: tl => s' <- f s x ;; foldM f tl s'
  end.

Fixpoint mapM {A B : Type} (f : A -> result B) (l : list A) : result (list B) :=
  match l with
  | [] => Ok []
  | x :: tl => y <- f x ;; ys <- mapM f tl ;; Ok (y :: ys)
  end.

(* ------------------------------------------------------------------ *)
(** ** Strings *)

Module Str.

Definition code (c : ascii) : nat := nat_of_ascii c.

Definition between (lo hi : nat) (c : ascii) : bool :=
  (lo <=? code c) && (code c <=? hi).

Definition is_digit : ascii -> bool := between 48 57.
Definition is_upper : ascii -> bool := between 65 90.
Definition is_lower : ascii -> bool := between 97 122.
Definition is_alpha (c : ascii) : bool := is_upper c || is_lower c.

(** [\w]: letters, digits and the underscore. *)
Definition is_word (c : ascii) : bool :=
  is_alpha c || is_digit c || (code c =? 95).

(** [\s] and [str.isspace]: tab, newline, vertical tab, form feed, carriage
    return, the four separators 28..31, and the space. *)
Definition is_space (c : ascii) : bool :=
  between 9 13 c || between 28 31 c || (code c =? 32).

Definition chr (n : nat) : ascii := ascii_of_nat n.

Definition lower_char (c : ascii) : ascii :=
  if is_upper c then chr (code c + 32) else c.

Definition chars (s : string) : list ascii := list_ascii_of_string s.
Definition str (l : list ascii) : string := string_of_list_ascii l.

(** [s.lower()] *)
Definition lower (s : string) : string := str (map lower_char (chars s)).

Fixpoint lstrip_chars (l : list ascii) : list ascii :=
  match l with
  | c :: tl => if is_space c then lstrip_chars tl else l
  | [] => []
  end.

(** [s.strip()] *)
Definition strip (s : string) : string :=
  str (rev (lstrip_chars (rev (lstrip_chars (chars s))))).

Fixpoint starts_with (p l : list ascii) : bool :=
  match p, l with
  | [], _ => true
  | a :: p', b :: l' => Ascii.eqb a b && starts_with p' l'
  | _ :: _, [] => false
  end.

(** [s.startswith(p)] *)
Definition startswith (s p : string) : bool := starts_with (chars p) (chars s).

Fixpoint contains_chars (p l : list ascii) : bool :=
  starts_with p l ||
  match l with
  | [] => false
  | _ :: tl => contains_chars p tl
  end.

(** [p in s] *)
Definition contains (p s : string) : bool := contains_chars (chars p) (chars s).

(** [s.replace(old, new)] for a non-empty [old]: occurrences are replaced from
    the left and do not overlap.  [fuel] bounds the number of characters still
    to be looked at; [List.length l] of it is what the scan needs. *)
Fixpoint replace_chars (fuel : nat) (old new l : list ascii) : list ascii :=
  match fuel with
  | O => l
  | S fuel' =>
      match l with
      | [] => []
      | c :: tl =>
          if starts_with old l
          then new ++ replace_chars fuel' old new (skipn (List.length old) l)
          else c :: replace_chars fuel' old new tl
      end
  end.

Definition replace (s old new : string) : string :=
  match chars old with
  | [] => s
  | o => str (replace_chars (List.length (chars s)) o (chars new) (chars s))
  end.

(** [s.split(sep)[0]]: the text before the first occurrence of the character. *)
Fixpoint before_char (sep : ascii) (l : list ascii) : list ascii :=
  match l with
  | [] => []
  | c :: tl => if Ascii.eqb c sep then [] else c :: before_char sep tl
  end.

Definition is_empty (s : string) : bool :=
  match s with EmptyString => true | _ => false end.

Definition opt_eqb (a : option string) (b : string) : bool :=
  match a with Some x => String.eqb x b | None => false end.

End Str.

(* ------------------------------------------------------------------ *)
(** ** Regular expressions: the backtracking matcher of [re]

    [re] explores alternatives from left to right and repetitions greedily,
    and keeps the first way of matching that succeeds.  The matcher below is
    that search written in continuation-passing style: [run r st k] matches
    [r] at [st] and hands every state reached to [k], in [re]'s order of
    preference, until [k] accepts one.  Only the constructs that the patterns
    of the source use are present. *)

Module Re.

Inductive regex : Type :=
| Eps                                 (* the empty pattern *)
| Chr (p : ascii -> bool)             (* one character of a class *)
| Cat (r1 r2 : regex)                 (* r1 r2 *)
| Alt (r1 r2 : regex)                 (* r1|r2 *)
| Star (r : regex)                    (* r*, greedy *)
| Group (n : nat) (r : regex)         (* capturing group number n *)
| WordB.                              (* \b *)

Definition Plus (r : regex) : regex := Cat r (Star r).
Definition Opt (r : regex) : regex := Alt r Eps.

(** A position in the subject: the character just before it (for [\b]), the
    text that remains, and the groups captured so far. *)
Record mstate : Type := MState {
  prev : option ascii;
  rest : list ascii;
  caps : list (nat * list ascii)
}.

Definition word_opt (c : option ascii) : bool :=
  match c with Some a => Str.is_word a | None => false end.

(** The text consumed between two positions of one run. *)
Definition consumed (st st' : mstate) : list ascii :=
  firstn (List.length (rest st) - List.length (rest st')) (rest st).

Definition set_cap (n : nat) (txt : list ascii) (st : mstate) : mstate :=
  MState (prev st) (rest st)
         ((n, txt) :: filter (fun c => negb (fst c =? n)) (caps st)).

Fixpoint run (r : regex) (st : mstate) (k : mstate -> option mstate)
  {struct r} : option mstate :=
  match r with
  | Eps => k st
  | Chr p =>
      match rest st with
      | c :: tl => if p c then k (MState (Some c) tl (caps st)) else None
      | [] => None
      end
  | Cat r1 r2 => run r1 st (fun st1 => run r2 st1 k)
  | Alt r1 r2 =>
      match run r1 st k with
      | Some st' => Some st'
      | None => run r2 st k
      end
  | Star r1 =>
      (* one more iteration first, then the continuation; an iteration that
         consumes nothing ends the repetition *)
      (fix loop (n : nat) (st0 : mstate) {struct n} : option mstate :=
         match n with
         | O => k st0
         | S n' =>
             match run r1 st0
                     (fun st1 =>
                        if List.length (rest st1) <? List.length (rest st0)
                        then loop n' st1 else None) with
             | Some st' => Some st'
             | None => k st0
             end
         end) (List.length (rest st)) st
  | Group n r1 => run r1 st (fun st1 => k (set_cap n (consumed st st1) st1))
  | WordB =>
      if xorb (word_opt (prev st)) (word_opt (hd_error (rest st)))
      then k st else None
  end.

(** [m.group(n)], with [''] for a group that took no part in the match, as
    [findall] reports it. *)
Definition group (n : nat) (st : mstate) : string :=
  match find (fun c => fst c =? n) (caps st) with
  | Some c => Str.str (snd c)
  | None => ""
  end.

Definition match_at (r : regex) (p : option ascii) (l : list ascii) : option mstate :=
  run r (MState p l []) Some.

(** [re.match(r, s)]: a match starting at the beginning of the subject. *)
Definition match_start (r : regex) (s : string) : option mstate :=
  match_at r None (Str.chars s).

(** [re.fullmatch(r, s)]: a match of the whole subject. *)
Definition fullmatch (r : regex) (s : string) : option mstate :=
  run r (MState None (Str.chars s) [])
      (fun st => match rest st with [] => Some st | _ => None end).

(** [re.search(r, s)]: the match at the leftmost position that has one. *)
Fixpoint search_from (r : regex) (p : option ascii) (l : list ascii) : option mstate :=
  match match_at r p l with
  | Some st => Some st
  | None =>
      match l with
      | [] => None
      | c :: tl => search_from r (Some c) tl
      end
  end.

Definition search (r : regex) (s : string) : option mstate :=
  search_from r None (Str.chars s).

(** [re.findall(r, s)]: the matches from left to right, each search resuming
    where the previous match ended (one character further after an empty
    match).  Every step moves on by at least one character, so
    [S (length s)] steps of [fuel] reach the end of the subject. *)
Fixpoint findall_from (fuel : nat) (r : regex) (p : option ascii) (l : list ascii)
  : list mstate :=
  match fuel with
  | O => []
  | S fuel' =>
      let next :=
        match l with
        | [] => []
        | c :: tl => findall_from fuel' r (Some c) tl
        end in
      match match_at r p l with
      | Some st =>
          if List.length (rest st) <? List.length l
          then st :: findall_from fuel' r (prev st) (rest st)
          else st :: next
      | None => next
      end
  end.

Definition findall (r : regex) (s : string) : list mstate :=
  findall_from (S (List.length (Str.chars s))) r None (Str.chars s).

(** Pattern building blocks. *)
Definition lit_char (c : ascii) : regex := Chr (Ascii.eqb c).

Fixpoint lit_chars (l : list ascii) : regex :=
  match l with
  | [] => Eps
  | [c] => lit_char c
  | c :: tl => Cat (lit_char c) (lit_chars tl)
  end.

(** A literal string. *)
Definition lit (s : string) : regex := lit_chars (Str.chars s).

(** A literal string under [re.IGNORECASE]. *)
Definition lit_i (s : string) : regex :=
  fold_right (fun c r => Cat (Chr (fun a => Ascii.eqb (Str.lower_char a) (Str.lower_char c))) r)
             Eps (Str.chars s).

Definition any_of (s : string) (c : ascii) : bool :=
  existsb (Ascii.eqb c) (Str.chars s).

(** [.]: any character but the newline. *)
Definition dot : regex := Chr (fun c => negb (Str.code c =? 10)).
Definition digit : regex := Chr Str.is_digit.
Definition word : regex := Chr Str.is_word.
Definition space : regex := Chr Str.is_space.

Fixpoint alts (l : list regex) : regex :=
  match l with
  | [] => Chr (fun _ => false)
  | [r] => r
  | r :: tl => Alt r (alts tl)
  end.

Fixpoint cats (l : list regex) : regex :=
  match l with
  | [] => Eps
  | [r] => r
  | r :: tl => Cat r (cats tl)
  end.

End Re.

(* ------------------------------------------------------------------ *)
(** ** Python values *)


Module Py.

(** [str(n)] for an integer. *)
Definition str_of_Z (z : Z) : string := NilZero.string_of_int (Z.to_int z).

Fixpoint zeros (n : nat) : string :=
  match n with O => "" | S n' => String "0" (zeros n') end.

(** ["%0<w>d" % n] for a natural [n]. *)
Definition pad (w : nat) (z : Z) : string :=
  let s := str_of_Z z in
  (zeros (w - String.length s) ++ s)%string.

(** A [datetime.datetime]; [tzoffset] is [utcoffset()] in microseconds,
    [None] for a naive value. *)
Record datetime : Set := Datetime {
  year : Z; month : Z; day : Z;
  hour : Z; minute : Z; second : Z; microsecond : Z;
  tzoffset : option Z
}.

Definition datetime_eqb (a b : datetime) : bool :=
  (year a =? year b)%Z && (month a =? month b)%Z && (day a =? day b)%Z &&
  (hour a =? hour b)%Z && (minute a =? minute b)%Z && (second a =? second b)%Z &&
  (microsecond a =? microsecond b)%Z &&
  match tzoffset a, tzoffset b with
  | Some x, Some y => (x =? y)%Z
  | None, None => true
  | _, _ => false
  end.

(** The offset as [+HH:MM], [+HH:MM:SS] or [+HH:MM:SS.ffffff]. *)
Definition str_of_offset (off : Z) : string :=
  let a := Z.abs off in
  let us := (a mod 1000000)%Z in
  let s := (a / 1000000)%Z in
  let hh := (s / 3600)%Z in
  let mm := ((s mod 3600) / 60)%Z in
  let ss := (s mod 60)%Z in
  ((if (off <? 0)%Z then "-" else "+") ++ pad 2 hh ++ ":" ++ pad 2 mm ++
   (if (ss =? 0)%Z && (us =? 0)%Z then ""
    else ":" ++ pad 2 ss ++ (if (us =? 0)%Z then "" else "." ++ pad 6 us)))%string.

(** [str(d)], which is [d.isoformat(" ")]. *)
Definition str_of_datetime (d : datetime) : string :=
  (pad 4 (year d) ++ "-" ++ pad 2 (month d) ++ "-" ++ pad 2 (day d) ++ " " ++
   pad 2 (hour d) ++ ":" ++ pad 2 (minute d) ++ ":" ++ pad 2 (second d) ++
   (if (microsecond d =? 0)%Z then "" else "." ++ pad 6 (microsecond d)) ++
   match tzoffset d with
   | Some off => str_of_offset off
   | None => ""
   end)%string.

(** The values the records are made of.  A [dict] keeps its items in
    insertion order; all the keys used are strings. *)
Unset Elimination Schemes.
Inductive pyval : Type :=
| PNone
| PBool (b : bool)
| PInt (z : Z)
| PStr (s : string)
| PDatetime (d : datetime)
| PTuple (l : list pyval)
| PList (l : list pyval)
| PDict (items : list (string * pyval)).
Set Elimination Schemes.

Definition dict : Type := list (string * pyval).

(** [bool(v)] *)
Definition truthy (v : pyval) : bool :=
  match v with
  | PNone => false
  | PBool b => b
  | PInt z => negb (z =? 0)%Z
  | PStr s => negb (Str.is_empty s)
  | PDatetime _ => true
  | PTuple l | PList l => match l with [] => false | _ => true end
  | PDict l => match l with [] => false | _ => true end
  end.

Fixpoint lookup (k : string) (d : dict) : option pyval :=
  match d with
  | [] => None
  | (k', v) :: tl => if String.eqb k k' then Some v else lookup k tl
  end.

(** [d.get(k, default)] *)
Definition get_or (d : dict) (k : string) (default : pyval) : pyval :=
  match lookup k d with Some v => v | None => default end.

(** [d.get(k)] *)
Definition get (d : dict) (k : string) : pyval := get_or d k PNone.

(** [v.get(k)] on a value that need not be a dict. *)
Definition get_attr (v : pyval) (k : string) : result pyval :=
  match v with
  | PDict d => Ok (get d k)
  | _ => Raise AttributeError
  end.

Definition of_opt_str (o : option string) : pyval :=
  match o with Some s => PStr s | None => PNone end.

Definition of_opt_Z (o : option Z) : pyval :=
  match o with Some z => PInt z | None => PNone end.

(** Python's [==] on these values; [True == 1] and [False == 0].  Timestamps
    are compared field by field. *)
Fixpoint eqb (a b : pyval) {struct a} : bool :=
  let eqb_list :=
    fix eqb_list (l1 l2 : list pyval) {struct l1} : bool :=
      match l1, l2 with
      | [], [] => true
      | x :: t1, y :: t2 => eqb x y && eqb_list t1 t2
      | _, _ => false
      end in
  let eqb_items :=
    fix eqb_items (l1 l2 : list (string * pyval)) {struct l1} : bool :=
      match l1, l2 with
      | [], [] => true
      | (k1, x) :: t1, (k2, y) :: t2 => String.eqb k1 k2 && eqb x y && eqb_items t1 t2
      | _, _ => false
      end in
  match a, b with
  | PNone, PNone => true
  | PBool x, PBool y => Bool.eqb x y
  | PBool x, PInt y => ((if x then 1 else 0) =? y)%Z
  | PInt x, PBool y => (x =? (if y then 1 else 0))%Z
  | PInt x, PInt y => (x =? y)%Z
  | PStr x, PStr y => String.eqb x y
  | PDatetime x, PDatetime y => datetime_eqb x y
  | PTuple x, PTuple y => eqb_list x y
  | PList x, PList y => eqb_list x y
  | PDict x, PDict y => eqb_items x y
  | _, _ => false
  end.

(** Whether [hash(v)] is defined: lists and dicts are not hashable. *)
Fixpoint hashable (v : pyval) : bool :=
  match v with
  | PList _ | PDict _ => false
  | PTuple l => forallb hashable l
  | _ => true
  end.

(** The white space that [int] skips at the two ends of an ASCII string:
    tab, newline, vertical tab, form feed, carriage return and the space.
    The separators 28..31 are not among it, unlike for [str.strip]. *)
Definition is_int_space (c : ascii) : bool :=
  Str.between 9 13 c || (Str.code c =? 32).

Fixpoint int_lstrip (l : list ascii) : list ascii :=
  match l with
  | c :: tl => if is_int_space c then int_lstrip tl else l
  | [] => []
  end.

(** [sys.get_int_max_str_digits()], which the program leaves at its
    default. *)
Definition int_max_str_digits : nat := 4300.

(** [int(s)] for a string: optional surrounding white space, an optional
    sign, then decimal digits, with single underscores allowed between
    digits; a [ValueError] for anything else, and for more digits than
    [int_max_str_digits], leading zeros counted, the sign and the underscores
    not. *)
Fixpoint int_digits (l : list ascii) (acc : Z) (after_digit : bool) : option Z :=
  match l with
  | [] => if after_digit then Some acc else None
  | c :: tl =>
      if Str.is_digit c
      then int_digits tl (acc * 10 + Z.of_nat (Str.code c - 48))%Z true
      else if (Str.code c =? 95) && after_digit
           then match tl with
                | d :: _ => if Str.is_digit d then int_digits tl acc false else None
                | [] => None
                end
           else None
  end.

Definition int_of_str (s : string) : result Z :=
  let l := rev (int_lstrip (rev (int_lstrip (Str.chars s)))) in
  let signed :=
    match l with
    | c :: tl =>
        if Str.code c =? 45 then option_map Z.opp (int_digits tl 0%Z false)
        else if Str.code c =? 43 then int_digits tl 0%Z false
        else int_digits l 0%Z false
    | [] => None
    end in
  match signed with
  | Some z =>
      if List.length (filter Str.is_digit l) <=? int_max_str_digits
      then Ok z else Raise ValueError
  | None => Raise ValueError
  end.

End Py.

(* ------------------------------------------------------------------ *)
(** ** [base64.urlsafe_b64decode] and [bytes.decode("utf-8", errors=...)] *)

Module Codec.

(** The value of a character of the alphabet.  The URL-safe decoder maps
    [-] and [_] to [+] and [/] before it decodes, so all four are accepted. *)
Definition b64_value (c : ascii) : option nat :=
  let n := Str.code c in
  if Str.is_upper c then Some (n - 65)
  else if Str.is_lower c then Some (n - 97 + 26)
  else if Str.is_digit c then Some (n - 48 + 52)
  else if (n =? 43) || (n =? 45) then Some 62
  else if (n =? 47) || (n =? 95) then Some 63
  else None.

(** The decoder's loop ([binascii.a2b_base64], not strict): [quad_pos] is the
    place in the current group of four, [leftchar] the bits not yet written,
    [pads] the padding characters seen since the last data character, [out]
    the bytes written, last first. *)
Record b64state : Set := B64 {
  quad_pos : nat; leftchar : nat; pads : nat; out : list ascii
}.

Definition b64_push (v : nat) (st : b64state) : b64state :=
  match quad_pos st with
  | 0 => B64 1 v 0 (out st)
  | 1 => B64 2 (v mod 16) 0 (Str.chr (leftchar st * 4 + v / 16) :: out st)
  | 2 => B64 3 (v mod 4) 0 (Str.chr (leftchar st * 16 + v / 4) :: out st)
  | _ => B64 0 0 0 (Str.chr (leftchar st * 64 + v) :: out st)
  end.

(** Characters outside the alphabet are skipped; padding that completes a
    group ends the decoding; a group left incomplete at the end is an error. *)
Fixpoint a2b_base64 (l : list ascii) (st : b64state) : result (list ascii) :=
  match l with
  | [] => if quad_pos st =? 0 then Ok (rev (out st)) else Raise Base64Error
  | c :: tl =>
      if Str.code c =? 61 then
        if 2 <=? quad_pos st then
          if 4 <=? quad_pos st + S (pads st) then Ok (rev (out st))
          else a2b_base64 tl (B64 (quad_pos st) (leftchar st) (S (pads st)) (out st))
        else a2b_base64 tl st
      else
        match b64_value c with
        | Some v => a2b_base64 tl (b64_push v st)
        | None => a2b_base64 tl st
        end
  end.

(** [base64.urlsafe_b64decode(s)] for a [str]: the string has to be ASCII. *)
Definition urlsafe_b64decode (s : string) : result (list ascii) :=
  if forallb (fun c => Str.code c <? 128) (Str.chars s)
  then a2b_base64 (Str.chars s) (B64 0 0 0 [])
  else Raise ValueError.

Inductive errors : Set := Replace | Ignore.

Definition is_cont (c : ascii) : bool := Str.between 128 191 c.

(** Whether [c2] may follow the lead byte [c]: a continuation byte, within
    the narrower range that [E0], [ED], [F0] and [F4] ask for. *)
Definition second_ok (c c2 : ascii) : bool :=
  is_cont c2 &&
  negb ((Str.code c =? 224) && (Str.code c2 <? 160)) &&
  negb ((Str.code c =? 237) && (160 <=? Str.code c2)) &&
  negb ((Str.code c =? 240) && (Str.code c2 <? 144)) &&
  negb ((Str.code c =? 244) && (144 <=? Str.code c2)).

(** The number of bytes of the sequence a lead byte announces; 0 for a byte
    that cannot start one. *)
Definition seq_len (c : ascii) : nat :=
  let n := Str.code c in
  if n <? 128 then 1
  else if n <? 194 then 0
  else if n <? 224 then 2
  else if n <? 240 then 3
  else if n <? 245 then 4
  else 0.

(** How the decoder reads the front of [l]: [inl n] for a well-formed
    sequence of [n] bytes, [inr n] for an error spanning [n] bytes.  A
    sequence cut short by the end of the data is one error up to the end. *)
Definition utf8_front (l : list ascii) : nat + nat :=
  match l with
  | [] => inr 0
  | c :: tl =>
      match seq_len c with
      | 0 => inr 1
      | 1 => inl 1
      | n =>
          match tl with
          | [] => inr 1
          | c2 :: tl2 =>
              if negb (second_ok c c2) then inr 1
              else if n =? 2 then inl 2
              else match tl2 with
                   | [] => inr 2
                   | c3 :: tl3 =>
                       if negb (is_cont c3) then inr 2
                       else if n =? 3 then inl 3
                       else match tl3 with
                            | [] => inr 3
                            | c4 :: _ => if is_cont c4 then inl 4 else inr 3
                            end
                   end
          end
      end
  end.

(** U+FFFD, in UTF-8. *)
Definition replacement : list ascii := [Str.chr 239; Str.chr 191; Str.chr 189].

Fixpoint utf8_decode (fuel : nat) (e : errors) (l : list ascii) : list ascii :=
  match fuel with
  | O => []
  | S fuel' =>
      match l with
      | [] => []
      | _ =>
          match utf8_front l with
          | inl n => firstn n l ++ utf8_decode fuel' e (skipn n l)
          | inr n =>
              (match e with Replace => replacement | Ignore => [] end)
                ++ utf8_decode fuel' e (skipn (Nat.max 1 n) l)
          end
      end
  end.

(** [b.decode("utf-8", errors=e)].  The text is kept as its UTF-8 bytes. *)
Definition decode (e : errors) (b : list ascii) : string :=
  Str.str (utf8_decode (List.length b) e b).

(** [base64.urlsafe_b64decode(s).decode("utf-8", errors=e)] *)
Definition b64_text (e : errors) (s : string) : result string :=
  b <- urlsafe_b64decode s ;; Ok (decode e b).

End Codec.

(* ------------------------------------------------------------------ *)
(** ** [datetime.fromisoformat] and [datetime.strptime] *)

Module DT.
Import Re.

Definition is_leap (y : Z) : bool :=
  ((y mod 4 =? 0) && (negb (y mod 100 =? 0) || (y mod 400 =? 0)))%Z.

Definition days_in_month (y m : Z) : Z :=
  (if m =? 2 then (if is_leap y then 29 else 28)
   else if (m =? 4) || (m =? 6) || (m =? 9) || (m =? 11) then 30
   else 31)%Z.

Definition in_range (lo hi x : Z) : bool := ((lo <=? x) && (x <=? hi))%Z.

Definition day_us : Z := 86400000000%Z.

(** The checks of the [datetime] and [timezone] constructors: the fields in
    range, the offset strictly within a day. *)
Definition make (y mo d h mi s us : Z) (tz : option Z) : option Py.datetime :=
  if in_range 1 9999 y && in_range 1 12 mo && in_range 1 (days_in_month y mo) d &&
     in_range 0 23 h && in_range 0 59 mi && in_range 0 59 s && in_range 0 999999 us &&
     match tz with
     | Some off => ((- day_us <? off) && (off <? day_us))%Z
     | None => true
     end
  then Some (Py.Datetime y mo d h mi s us tz)
  else None.

(** The number a run of digits denotes; 0 for the empty run. *)
Definition num (s : string) : Z :=
  fold_left (fun acc c => (acc * 10 + Z.of_nat (Str.code c - 48))%Z) (Str.chars s) 0%Z.

Definition digits (n : nat) : regex := cats (repeat digit n).

(** [YYYY-MM-DD[*HH[:MM[:SS[.fff[fff]]]][+HH:MM[:SS[.ffffff]]]]], the grammar
    that [fromisoformat] documents for Python 3.7 to 3.10; [*] is any one
    character.  Later versions read further ISO 8601 spellings, all of which
    begin with the four digits of the year as well. *)
Definition iso_re : regex :=
  cats [ Group 1 (digits 4); lit "-"; Group 2 (digits 2); lit "-"; Group 3 (digits 2);
         Opt (cats [ Chr (fun _ => true);
                     Group 4 (digits 2);
                     Opt (cats [ lit ":"; Group 5 (digits 2);
                                 Opt (cats [ lit ":"; Group 6 (digits 2);
                                             Opt (cats [ lit "."; Group 7 (digits 3);
                                                         Opt (Group 8 (digits 3)) ]) ]) ]);
                     Opt (cats [ Group 9 (Chr (any_of "+-"));
                                 Group 10 (digits 2); lit ":"; Group 11 (digits 2);
                                 Opt (cats [ lit ":"; Group 12 (digits 2);
                                             Opt (cats [ lit "."; Group 13 (digits 6) ]) ]) ]) ]) ].

Definition signed (sign : string) (z : Z) : Z :=
  if String.eqb sign "-" then (- z)%Z else z.

Definition fromisoformat (s : string) : option Py.datetime :=
  match fullmatch iso_re s with
  | None => None
  | Some m =>
      let g (n : nat) : Z := num (group n m) in
      let us := if Str.is_empty (group 8 m) then Z.mul (g 7) 1000
                else Z.add (Z.mul (g 7) 1000) (g 8) in
      let secs := Z.add (Z.add (Z.mul (g 10) 3600) (Z.mul (g 11) 60)) (g 12) in
      let tz :=
        if Str.is_empty (group 9 m) then None
        else Some (signed (group 9 m) (Z.add (Z.mul secs 1000000) (g 13))) in
      make (g 1) (g 2) (g 3) (g 4) (g 5) (g 6) us tz
  end.

Definition weekdays : list string := ["mon"; "tue"; "wed"; "thu"; "fri"; "sat"; "sun"].
Definition months : list string :=
  ["jan"; "feb"; "mar"; "apr"; "may"; "jun"; "jul"; "aug"; "sep"; "oct"; "nov"; "dec"].

Definition range_chr (lo hi : string) : regex :=
  match Str.chars lo, Str.chars hi with
  | [a], [b] => Chr (Str.between (Str.code a) (Str.code b))
  | _, _ => Chr (fun _ => false)
  end.

(** The pattern [_strptime] compiles ['%a, %d %b %Y %H:%M:%S %z'] to, under
    [re.IGNORECASE] and with the names of the C locale: every directive has
    its own alternatives, and white space in the format stands for [\s+].
    Groups 1 to 8 are [a d b Y H M S z]; 9 to 13 are the parts of [%z]. *)
Definition rfc2822_re : regex :=
  let ws := Plus space in
  cats [ Group 1 (alts (map lit_i weekdays)); lit ","; ws;
         Group 2 (alts [ Cat (lit "3") (range_chr "0" "1");
                         Cat (range_chr "1" "2") digit;
                         Cat (lit "0") (range_chr "1" "9");
                         range_chr "1" "9";
                         Cat (lit " ") (range_chr "1" "9") ]); ws;
         Group 3 (alts (map lit_i months)); ws;
         Group 4 (digits 4); ws;
         Group 5 (alts [ Cat (lit "2") (range_chr "0" "3");
                         Cat (range_chr "0" "1") digit;
                         digit ]); lit ":";
         Group 6 (alts [ Cat (range_chr "0" "5") digit; digit ]); lit ":";
         Group 7 (alts [ Cat (lit "6") (range_chr "0" "1");
                         Cat (range_chr "0" "5") digit;
                         digit ]); ws;
         Group 8 (Alt (cats [ Chr (any_of "+-"); Group 9 (digits 2);
                              Group 10 (Opt (lit ":"));
                              Group 11 (Cat (range_chr "0" "5") digit);
                              Opt (cats [ Group 12 (Opt (lit ":"));
                                          Group 13 (Cat (range_chr "0" "5") digit);
                                          Opt (Cat (lit ".")
                                                   (Group 14 (Cat digit
                                                      (cats (repeat (Opt digit) 5))))) ]) ])
                      (lit "Z")) ].

Fixpoint index_of (x : string) (l : list string) (i : Z) : option Z :=
  match l with
  | [] => None
  | y :: tl => if String.eqb x y then Some i else index_of x tl (i + 1)%Z
  end.

(** The offset that [%z] denotes, in microseconds.  When seconds are given,
    the two colons have to be both there or both absent; the fraction is
    padded to six digits. *)
Definition tz_of_match (m : mstate) : option Z :=
  let z := group 8 m in
  if String.eqb z "Z" then Some 0%Z
  else
    let has_sec := negb (Str.is_empty (group 13 m)) in
    if has_sec && negb (String.eqb (group 10 m) (group 12 m)) then None
    else
      let frac := group 14 m in
      let us := (num frac * 10 ^ Z.of_nat (6 - String.length frac))%Z in
      let secs := (num (group 9 m) * 3600 + num (group 11 m) * 60 + num (group 13 m))%Z in
      Some (signed (String.substring 0 1 z) (secs * 1000000 + us)%Z).

(** [datetime.strptime(s, '%a, %d %b %Y %H:%M:%S %z')]; [None] stands for the
    [ValueError].  The pattern has to match from the start and the match has
    to reach the end of the string; the day of the week is read and not
    compared with the date. *)
Definition strptime_rfc2822 (s : string) : option Py.datetime :=
  match match_start rfc2822_re s with
  | None => None
  | Some m =>
      match rest m with
      | _ :: _ => None
      | [] =>
          match index_of (Str.lower (group 3 m)) months 1%Z, tz_of_match m with
          | Some mo, Some off =>
              make (num (group 4 m)) mo (num (Str.strip (group 2 m)))
                   (num (group 5 m)) (num (group 6 m)) (num (group 7 m)) 0%Z (Some off)
          | _, _ => None
          end
      end
  end.

End DT.

(* ------------------------------------------------------------------ *)
(** ** [json]: documents, [json.dump(..., default=str)], [json.load],
       [json.dumps] *)

Module Json.
Import Py.

(** A JSON document.  The encoder writes such a document as text and the
    decoder reads the text back to the same document; the embedding stops at
    the document. *)
Unset Elimination Schemes.
Inductive json : Type :=
| JNull
| JBool (b : bool)
| JNum (z : Z)
| JStr (s : string)
| JArr (l : list json)
| JObj (items : list (string * json)).
Set Elimination Schemes.

(** What the encoder does with each value: lists and tuples both become
    arrays; a value it cannot serialise goes through [default], which is
    [str] here, and that is how a [datetime] becomes a string. *)
Fixpoint dump_default_str (v : pyval) : json :=
  match v with
  | PNone => JNull
  | PBool b => JBool b
  | PInt z => JNum z
  | PStr s => JStr s
  | PDatetime d => JStr (str_of_datetime d)
  | PTuple l => JArr (map dump_default_str l)
  | PList l => JArr (map dump_default_str l)
  | PDict items => JObj (map (fun kv => (fst kv, dump_default_str (snd kv))) items)
  end.

(** What the decoder builds: arrays become lists, objects dicts. *)
Fixpoint load (j : json) : pyval :=
  match j with
  | JNull => PNone
  | JBool b => PBool b
  | JNum z => PInt z
  | JStr s => PStr s
  | JArr l => PList (map load l)
  | JObj items => PDict (map (fun kv => (fst kv, load (snd kv))) items)
  end.

Definition hex_digit (n : N) : ascii :=
  let k := N.to_nat n in
  if k <? 10 then Str.chr (48 + k) else Str.chr (87 + k).

(** [\uXXXX] *)
Definition u_escape (n : N) : list ascii :=
  (Str.chars "\u" ++
   [hex_digit (n / 4096); hex_digit ((n / 256) mod 16);
    hex_digit ((n / 16) mod 16); hex_digit (n mod 16)])%N.

(** The escape of a code point under [ensure_ascii]: a surrogate pair above
    the basic plane. *)
Definition escape_code_point (n : N) : list ascii :=
  if (n <? 65536)%N then u_escape n
  else u_escape (55296 + (n - 65536) / 1024)%N
         ++ u_escape (56320 + (n - 65536) mod 1024)%N.

(** The code point of a well-formed UTF-8 sequence. *)
Definition code_point (l : list ascii) : N :=
  match map (fun c => N.of_nat (Str.code c)) l with
  | [a] => a
  | [a; b] => (a - 192) * 64 + (b - 128)
  | [a; b; c] => ((a - 224) * 64 + (b - 128)) * 64 + (c - 128)
  | [a; b; c; d] => (((a - 240) * 64 + (b - 128)) * 64 + (c - 128)) * 64 + (d - 128)
  | _ => 0
  end%N.

Fixpoint escape_chars (fuel : nat) (l : list ascii) : list ascii :=
  match fuel with
  | O => []
  | S fuel' =>
      match l with
      | [] => []
      | c :: tl =>
          let n := Str.code c in
          if n =? 34 then Str.chars "\" ++ [c] ++ escape_chars fuel' tl
          else if n =? 92 then Str.chars "\\" ++ escape_chars fuel' tl
          else if n =? 10 then Str.chars "\n" ++ escape_chars fuel' tl
          else if n =? 13 then Str.chars "\r" ++ escape_chars fuel' tl
          else if n =? 9 then Str.chars "\t" ++ escape_chars fuel' tl
          else if n =? 8 then Str.chars "\b" ++ escape_chars fuel' tl
          else if n =? 12 then Str.chars "\f" ++ escape_chars fuel' tl
          else if (32 <=? n) && (n <=? 126) then c :: escape_chars fuel' tl
          else
            match Codec.utf8_front l with
            | inl k => escape_code_point (code_point (firstn k l))
                         ++ escape_chars fuel' (skipn k l)
            | inr _ => u_escape (N.of_nat n) ++ escape_chars fuel' tl
            end
      end
  end.

Definition quote : string := String (Str.chr 34) EmptyString.

(** A string as the encoder writes it, [ensure_ascii] being on. *)
Definition dumps_str (s : string) : string :=
  (quote ++ Str.str (escape_chars (String.length s) (Str.chars s)) ++ quote)%string.

Fixpoint join (sep : string) (l : list string) : string :=
  match l with
  | [] => EmptyString
  | [x] => x
  | x :: tl => (x ++ sep ++ join sep tl)%string
  end.

(** [json.dumps(v)]: no [default] here, so a [datetime] is a [TypeError]. *)
Fixpoint dumps (v : pyval) : result string :=
  let dumps_list :=
    fix dumps_list (l : list pyval) : result (list string) :=
      match l with
      | [] => Ok []
      | x :: tl => s <- dumps x ;; ss <- dumps_list tl ;; Ok (s :: ss)
      end in
  let dumps_items :=
    fix dumps_items (l : list (string * pyval)) : result (list string) :=
      match l with
      | [] => Ok []
      | (k, x) :: tl =>
          s <- dumps x ;; ss <- dumps_items tl ;;
          Ok ((dumps_str k ++ ": " ++ s)%string :: ss)
      end in
  match v with
  | PNone => Ok "null"
  | PBool b => Ok (if b then "true" else "false")
  | PInt z => Ok (str_of_Z z)
  | PStr s => Ok (dumps_str s)
  | PDatetime _ => Raise TypeError
  | PTuple l | PList l => ss <- dumps_list l ;; Ok ("[" ++ join ", " ss ++ "]")%string
  | PDict items => ss <- dumps_items items ;; Ok ("{" ++ join ", " ss ++ "}")%string
  end.

End Json.

(* ------------------------------------------------------------------ *)
(** ** [gmail_api.py]: [GmailAPI.extract_email_data] *)

Module Gmail.
Import Py Re.

(** The message resource of the provider (format [full]).  A field is [None]
    when the dict has no such key; a header always has its name and value. *)
Record header : Set := Header { name : string; value : string }.

Record msgbody : Set := Body { data : option string; size : option Z }.

Unset Elimination Schemes.
Inductive part : Set := Part {
  partId : option string;
  mimeType : option string;
  filename : option string;
  headers : option (list header);
  body : option msgbody;
  parts : option (list part)
}.
Set Elimination Schemes.

Record message : Set := Message {
  id : option string;
  threadId : option string;
  labelIds : option (list string);
  snippet : option string;
  internalDate : option string;
  payload : option part
}.

(** The dict [{}] that [message.get("payload", {})] falls back to. *)
Definition empty_part : part := Part None None None None None None.

(** [get_header(name)]: the value of the first header of that name, the case
    of letters set aside. *)
Definition get_header (hs : list header) (nm : string) : option string :=
  option_map value
    (find (fun h => String.eqb (Str.lower (name h)) (Str.lower nm)) hs).

(** The class of the characters of a display name: any but [<], the comma,
    the double and the single quote, and white space. *)
Definition name_char (c : ascii) : bool :=
  negb ((Str.code c =? 60) || (Str.code c =? 44) || (Str.code c =? 34) ||
        (Str.code c =? 39) || Str.is_space c).

(** [[A-Za-z0-9._%+-]], [[A-Za-z0-9.-]] and [[A-Z|a-z]] *)
Definition local_char (c : ascii) : bool :=
  Str.is_alpha c || Str.is_digit c || any_of "._%+-" c.
Definition domain_char (c : ascii) : bool :=
  Str.is_alpha c || Str.is_digit c || any_of ".-" c.
Definition tld_char (c : ascii) : bool := Str.is_alpha c || any_of "|" c.

(** The pattern of [parse_recipients].  Its first alternative is a name,
    captured as group 1: runs of characters of the class above separated by
    white space; then [\s*<], group 2 [[^>]+] and [>].  Its second alternative
    is group 3: [\b[A-Za-z0-9._%+-]+@[A-Za-z0-9.-]+\.[A-Z|a-z]{2,}\b]. *)
Definition recipients_re : regex :=
  Alt (cats [ Group 1 (Cat (Plus (Chr name_char))
                           (Star (Cat (Plus space) (Plus (Chr name_char)))));
              Star space; lit "<";
              Group 2 (Plus (Chr (fun c => negb (Str.code c =? 62))));
              lit ">" ])
      (Group 3 (cats [ WordB; Plus (Chr local_char); lit "@";
                       Plus (Chr domain_char); lit ".";
                       Chr tld_char; Chr tld_char; Star (Chr tld_char); WordB ])).

Definition dquote : string := String (Str.chr 34) EmptyString.

(** [parse_recipients(header_value)] *)
Definition parse_recipients (header_value : option string) : list (string * string) :=
  match header_value with
  | None => []
  | Some hv =>
      if Str.is_empty hv then []
      else
        flat_map
          (fun m =>
             if negb (Str.is_empty (group 2 m))
             then [(Str.replace (Str.strip (group 1 m)) dquote EmptyString, group 2 m)]
             else if negb (Str.is_empty (group 3 m))
                  then [(EmptyString, group 3 m)]
                  else [])
          (findall recipients_re hv)
  end.

(** [[\w\.\-]] *)
Definition domain_word (c : ascii) : bool := Str.is_word c || any_of ".-" c.

(** [spf=(\w+)\s.*header\.from=([\w\.\-]+)] and its two companions. *)
Definition spf_re : regex :=
  cats [ lit "spf="; Group 1 (Plus word); space; Star dot;
         lit "header.from="; Group 2 (Plus (Chr domain_word)) ].
Definition dkim_re : regex :=
  cats [ lit "dkim="; Group 1 (Plus word); space; Star dot;
         lit "header.d="; Group 2 (Plus (Chr domain_word)) ].
Definition dmarc_re : regex := cats [ lit "dmarc="; Group 1 (Plus word) ].

(** [parse_auth_results(header_value)]: the dict of the verdicts found, or
    [None] when there is no header or nothing was found in it. *)
Definition parse_auth_results (header_value : option string) : pyval :=
  match header_value with
  | None => PNone
  | Some hv =>
      if Str.is_empty hv then PNone
      else
        let spf :=
          match search spf_re hv with
          | Some m => [("spf_status", PStr (group 1 m)); ("spf_domain", PStr (group 2 m))]
          | None => []
          end in
        let dkim :=
          match search dkim_re hv with
          | Some m => [("dkim_status", PStr (group 1 m)); ("dkim_domain", PStr (group 2 m))]
          | None => []
          end in
        let dmarc :=
          match search dmarc_re hv with
          | Some m => [("dmarc_status", PStr (group 1 m))]
          | None => []
          end in
        match spf ++ dkim ++ dmarc with
        | [] => PNone
        | auth_results => PDict auth_results
        end
  end.

(** [part.get("body", {}).get("data")] when it is truthy. *)
Definition inline_data (p : part) : option string :=
  match body p with
  | Some b =>
      match data b with
      | Some d => if Str.is_empty d then None else Some d
      | None => None
      end
  | None => None
  end.

(** [part.get("mimeType") == mime_type and part.get("body", {}).get("data")] *)
Definition is_body_of (mime_type : string) (p : part) : bool :=
  Str.opt_eqb (mimeType p) mime_type &&
  match inline_data p with Some _ => true | None => false end.

(** [base64.urlsafe_b64decode(part["body"]["data"]).decode("utf-8",
    errors="replace")] *)
Definition decode_body (p : part) : result string :=
  match inline_data p with
  | Some d => Codec.b64_text Codec.Replace d
  | None => Raise KeyError
  end.

(** [get_body_part(parts, mime_type)].  [Ok None] is the [None] returned when
    the loop ends; the text found in [part["parts"]] is returned only if it
    is truthy.  The function calls itself once for each level of nesting, on
    the stack of the interpreter: [frames] is the number of calls of
    [get_body_part] that can still be nested where it is called (the
    recursion limit, 1000 unless it is changed, less the calls in progress
    and the room that a turn of the loop takes for its library calls), and a
    call for which no room is left raises [RecursionError]. *)
Fixpoint get_body_part (frames : nat) (ps : list part) (mime_type : string)
  {struct frames} : result (option string) :=
  match frames with
  | O => Raise RecursionError
  | S below =>
      (fix loop (l : list part) : result (option string) :=
         match l with
         | [] => Ok None
         | p :: tl =>
             if is_body_of mime_type p
             then t <- decode_body p ;; Ok (Some t)
             else
               match parts p with
               | Some sub =>
                   result <- get_body_part below sub mime_type ;;
                   match result with
                   | Some t => if Str.is_empty t then loop tl else Ok (Some t)
                   | None => loop tl
                   end
               | None => loop tl
               end
         end) ps
  end.

(** The parsing of the [Date] header (lines 274 to 284): nothing for an absent
    or empty header; else the ISO parse of the header with [" (UTC)"] and
    [" (GMT)"] replaced by ["+00:00"] and every [T] by a space; else, when that
    raises, the RFC 2822 parse of the header as it is; else nothing. *)
Definition iso_input (s : string) : string :=
  Str.replace (Str.replace (Str.replace s " (UTC)" "+00:00") " (GMT)" "+00:00")
              "T" " ".

Definition parse_date (sent_timestamp_str : option string) : option datetime :=
  match sent_timestamp_str with
  | None => None
  | Some s =>
      if Str.is_empty s then None
      else
        match DT.fromisoformat (iso_input s) with
        | Some d => Some d
        | None => DT.strptime_rfc2822 s
        end
  end.

(** [<([^>]+)>] *)
Definition angle_re : regex :=
  cats [ lit "<"; Group 1 (Plus (Chr (fun c => negb (Str.code c =? 62)))); lit ">" ].

(** The sender (lines 286 to 296): [(sender_email, sender_name)]. *)
Definition parse_sender (sender_header : option string) : string * option string :=
  match sender_header with
  | None => (EmptyString, None)
  | Some h =>
      if Str.is_empty h then (EmptyString, None)
      else
        match search angle_re h with
        | Some m =>
            (group 1 m,
             Some (Str.replace
                     (Str.strip (Str.str (Str.before_char "<"%char (Str.chars h))))
                     dquote EmptyString))
        | None => (Str.strip h, None)
        end
  end.

(** [message["id"]] *)
Definition message_id_item (m : message) : result pyval :=
  match id m with
  | Some i => Ok (PStr i)
  | None => Raise KeyError
  end.

Definition body_size (p : part) : option Z :=
  match body p with Some b => size b | None => None end.

(** The entry appended to [attachments] for a part with a file name. *)
Definition attachment_of (m : message) (p : part) : result pyval :=
  mid <- message_id_item m ;;
  Ok (PDict [ ("message_id", mid);
              ("filename", of_opt_str (filename p));
              ("mime_type", of_opt_str (mimeType p));
              ("attachment_size", of_opt_Z (body_size p)) ]).

(** The entry appended to [additional_parts]. *)
Definition additional_part_of (p : part) : pyval :=
  PDict [ ("part_id", of_opt_str (partId p));
          ("mime_type", of_opt_str (mimeType p));
          ("filename", of_opt_str (filename p));
          ("size", PInt (match body_size p with Some z => z | None => 0%Z end)) ].

Definition has_filename (p : part) : bool :=
  match filename p with Some f => negb (Str.is_empty f) | None => false end.

(** [any(x in part.get("mimeType", "") for x in ["text/plain", "text/html"])] *)
Definition is_text_part (p : part) : bool :=
  let mt := match mimeType p with Some t => t | None => EmptyString end in
  Str.contains "text/plain" mt || Str.contains "text/html" mt.

(** The loop over [payload["parts"]] (lines 238 to 253): the attachments and
    the additional parts, each in the order of the parts. *)
Fixpoint classify_parts (m : message) (ps : list part)
  : result (list pyval * list pyval) :=
  match ps with
  | [] => Ok ([], [])
  | p :: tl =>
      if has_filename p then
        a <- attachment_of m p ;;
        r <- classify_parts m tl ;;
        Ok (a :: fst r, snd r)
      else if negb (is_text_part p) then
        r <- classify_parts m tl ;;
        Ok (fst r, additional_part_of p :: snd r)
      else classify_parts m tl
  end.

(** The entries of [xheaders] and of [labels]. *)
Definition xheader_of (m : message) (h : header) : result pyval :=
  mid <- message_id_item m ;;
  Ok (PDict [ ("message_id", mid);
              ("header_name", PStr (name h));
              ("header_value", PStr (value h)) ]).

Definition is_xheader (h : header) : bool :=
  Str.startswith (Str.lower (name h)) "x-".

Definition label_of (m : message) (label : string) : result pyval :=
  mid <- message_id_item m ;;
  Ok (PDict [ ("message_id", mid); ("label_name", PStr label) ]).

(** [int(message.get("internalDate", 0))] *)
Definition internal_date_ms (m : message) : result Z :=
  match internalDate m with
  | None => Ok 0%Z
  | Some s => int_of_str s
  end.

(** [base64.urlsafe_b64decode(raw_source).decode('utf-8', errors='ignore') if
    raw_source else None] *)
Definition decode_raw_source (raw_source : option string) : result pyval :=
  match raw_source with
  | None => Ok PNone
  | Some r =>
      if Str.is_empty r then Ok PNone
      else t <- Codec.b64_text Codec.Ignore r ;; Ok (PStr t)
  end.

Definition recipients_value (l : list (string * string)) : pyval :=
  PList (map (fun r => PTuple [PStr (fst r); PStr (snd r)]) l).

Definition of_opt_datetime (o : option datetime) : pyval :=
  match o with Some d => PDatetime d | None => PNone end.

(** The bodies and the two collections read off the payload (lines 227 to
    259): [(body_text, body_html, attachments, additional_parts)], with
    [frames] as for [get_body_part], which is called from here. *)
Definition walk_payload (frames : nat) (m : message) (pl : part)
  : result (pyval * pyval * list pyval * list pyval) :=
  match parts pl with
  | Some ps =>
      body_text <- get_body_part frames ps "text/plain" ;;
      body_html <- get_body_part frames ps "text/html" ;;
      r <- classify_parts m ps ;;
      Ok (of_opt_str body_text, of_opt_str body_html, fst r, snd r)
  | None =>
      match inline_data pl with
      | Some _ =>
          if Str.opt_eqb (mimeType pl) "text/plain"
          then t <- decode_body pl ;; Ok (PStr t, PNone, [], [])
          else if Str.opt_eqb (mimeType pl) "text/html"
               then t <- decode_body pl ;; Ok (PNone, PStr t, [], [])
               else Ok (PNone, PNone, [], [])
      | None => Ok (PNone, PNone, [], [])
      end
  end.

(** [extract_email_data(message, raw_source)], run where the stack of the
    interpreter has room for [frames] nested calls of [get_body_part]. *)
Definition extract_email_data (frames : nat) (m : message) (raw_source : option string)
  : result dict :=
  let pl := match payload m with Some p => p | None => empty_part end in
  let hs := match headers pl with Some l => l | None => [] end in
  let get_header := get_header hs in
  w <- walk_payload frames m pl ;;
  let '(body_text, body_html, attachments, additional_parts) := w in
  xheaders <- mapM (xheader_of m) (filter is_xheader hs) ;;
  labels <- mapM (label_of m)
              (match labelIds m with Some l => l | None => [] end) ;;
  let sent_timestamp := parse_date (get_header "Date") in
  let sender_header := get_header "From" in
  let '(sender_email, sender_name) := parse_sender sender_header in
  idms <- internal_date_ms m ;;
  raw <- decode_raw_source raw_source ;;
  Ok [ ("message_id", of_opt_str (id m));
       ("thread_id", of_opt_str (threadId m));
       ("sender_email", PStr sender_email);
       ("subject", of_opt_str (get_header "Subject"));
       ("body_text", body_text);
       ("body_html", body_html);
       ("sent_timestamp", of_opt_datetime sent_timestamp);
       ("internal_date_ms", PInt idms);
       ("date_received", of_opt_str (get_header "Received"));
       ("mime_type", of_opt_str (mimeType pl));
       ("content_transfer_encoding", of_opt_str (get_header "Content-Transfer-Encoding"));
       ("to_recipients", recipients_value (parse_recipients (get_header "To")));
       ("cc_recipients", recipients_value (parse_recipients (get_header "Cc")));
       ("bcc_recipients", recipients_value (parse_recipients (get_header "Bcc")));
       ("sender", of_opt_str sender_header);
       ("sender_name", of_opt_str sender_name);
       ("snippet", of_opt_str (snippet m));
       ("raw_source", raw);
       ("attachments", PList attachments);
       ("xheaders", PList xheaders);
       ("labels", PList labels);
       ("authentication_results", parse_auth_results (get_header "Authentication-Results"));
       ("additional_parts", PList additional_parts);
       ("return_path", of_opt_str (get_header "Return-Path"));
       ("header_sender", of_opt_str (get_header "Sender")) ].

(** The files written by [save_extracted_email_as_json]: one document per
    message, in the file [f"{message_id}.json"], which the model names by the
    message id it is formatted from. *)
Definition files : Type := list (pyval * Json.json).

(** [save_extracted_email_as_json(extracted_email)]: nothing is written for a
    record without a truthy [message_id].  The file system is taken to accept
    the write; an error there is caught by the source and leaves no
    document.  The message ids are taken to be those that the provider
    issues: plain tokens, each the name of a file of its own. *)
Definition save_extracted_email_as_json (extracted_email : dict) (fs : files) : files :=
  let message_id := get extracted_email "message_id" in
  if negb (truthy message_id) then fs
  else (message_id, Json.dump_default_str (PDict extracted_email))
         :: filter (fun f => negb (Py.eqb (fst f) message_id)) fs.

(** [get_email_by_message_id(message_id)], given what the two requests to the
    service return: the message in the format [full] with the [raw] field of
    the message in the format [raw], or nothing when a request fails with an
    [HttpError].  An exception of [extract_email_data] is not caught here. *)
Definition get_email_by_message_id (frames : nat)
  (response : option (message * option string)) : result (option dict) :=
  match response with
  | Some (metadata_message, raw) =>
      extracted_data <- extract_email_data frames metadata_message raw ;;
      Ok (Some extracted_data)
  | None => Ok None
  end.

End Gmail.

(* ------------------------------------------------------------------ *)
(** ** The store: the tables of [create_tables] under [PRAGMA foreign_keys =
       ON], as the statements of [insert_message] see them *)

Module Store.
Import Py.

Inductive sqlval : Set :=
| SNull
| SInt (z : Z)
| SText (s : string).

Definition sqlval_eqb (a b : sqlval) : bool :=
  match a, b with
  | SNull, SNull => true
  | SInt x, SInt y => (x =? y)%Z
  | SText x, SText y => String.eqb x y
  | _, _ => false
  end.

(** The SQL comparison [a = b] as a condition: never true on [NULL]. *)
Definition sql_eq (a b : sqlval) : bool :=
  match a, b with
  | SNull, _ | _, SNull => false
  | _, _ => sqlval_eqb a b
  end.

(** A row is the list of its columns, in the order given with each table.
    The keys that [AUTOINCREMENT] assigns are left out, and so are the columns
    that [insert_message] leaves [NULL]. *)
Definition row : Set := list sqlval.

Definition col (n : nat) (r : row) : sqlval := nth n r SNull.

(** - [email_address]: email (the primary key), display_name
    - [emails]: message_id (the primary key), thread_id, sender_email (which
      references [email_address]), subject, body_text, body_html,
      sent_timestamp, internal_date_ms, date_received, mime_type,
      content_transfer_encoding, charset, to_recipients, cc_recipients,
      bcc_recipients, return_path, header_sender, and the five label flags
    - the five tables of children, whose first column, message_id,
      references [emails] with [ON DELETE CASCADE]:
      [email_attachments] (filename, mime_type, attachment_size),
      [email_xheaders] (header_name, header_value),
      [email_labels] (label_name),
      [email_routing_headers] (header_name, header_value, hop_order),
      [email_authentication] (spf_status, spf_domain, dkim_status,
      dkim_domain, dkim_selector, dmarc_status, dmarc_policy). *)
Record db : Set := DB {
  email_address : list row;
  emails : list row;
  email_attachments : list row;
  email_xheaders : list row;
  email_labels : list row;
  email_routing_headers : list row;
  email_authentication : list row
}.

Inductive child : Set := Attachments | XHeaders | Labels | Routing | Authentication.

Definition children : list child := [Attachments; XHeaders; Labels; Routing; Authentication].

Definition table (t : child) (d : db) : list row :=
  match t with
  | Attachments => email_attachments d
  | XHeaders => email_xheaders d
  | Labels => email_labels d
  | Routing => email_routing_headers d
  | Authentication => email_authentication d
  end.

Definition set_table (t : child) (rows : list row) (d : db) : db :=
  match t with
  | Attachments =>
      DB (email_address d) (emails d) rows (email_xheaders d) (email_labels d)
         (email_routing_headers d) (email_authentication d)
  | XHeaders =>
      DB (email_address d) (emails d) (email_attachments d) rows (email_labels d)
         (email_routing_headers d) (email_authentication d)
  | Labels =>
      DB (email_address d) (emails d) (email_attachments d) (email_xheaders d) rows
         (email_routing_headers d) (email_authentication d)
  | Routing =>
      DB (email_address d) (emails d) (email_attachments d) (email_xheaders d)
         (email_labels d) rows (email_authentication d)
  | Authentication =>
      DB (email_address d) (emails d) (email_attachments d) (email_xheaders d)
         (email_labels d) (email_routing_headers d) rows
  end.

Definition set_emails (rows : list row) (d : db) : db :=
  DB (email_address d) rows (email_attachments d) (email_xheaders d) (email_labels d)
     (email_routing_headers d) (email_authentication d).

Definition set_email_address (rows : list row) (d : db) : db :=
  DB rows (emails d) (email_attachments d) (email_xheaders d) (email_labels d)
     (email_routing_headers d) (email_authentication d).

(** The value [sqlite3] binds for a parameter: [None], integers that fit 64
    bits and strings as they are, a [datetime] through its adapter
    ([isoformat] with a space); a list, a tuple or a dict is not supported. *)
Definition bind_param (v : pyval) : result sqlval :=
  match v with
  | PNone => Ok SNull
  | PBool b => Ok (SInt (if b then 1 else 0))
  | PInt z =>
      if ((- 2 ^ 63 <=? z) && (z <? 2 ^ 63))%Z then Ok (SInt z)
      else Raise OverflowError
  | PStr s => Ok (SText s)
  | PDatetime d => Ok (SText (str_of_datetime d))
  | PTuple _ | PList _ | PDict _ => Raise ProgrammingError
  end.

(** The affinity of a [TEXT] column: an integer is stored as its text.  An
    [INTEGER] column is taken to keep the value bound: the conversion it
    applies to a text that reads as a number is not modelled. *)
Definition as_text (v : sqlval) : sqlval :=
  match v with
  | SInt z => SText (str_of_Z z)
  | _ => v
  end.

(** The rows of a table whose first column equals [key]. *)
Definition with_key (key : sqlval) (rows : list row) : list row :=
  filter (fun r => sql_eq (col 0 r) key) rows.

Definition without_key (key : sqlval) (rows : list row) : list row :=
  filter (fun r => negb (sql_eq (col 0 r) key)) rows.

Definition has_key (key : sqlval) (rows : list row) : bool :=
  existsb (fun r => sql_eq (col 0 r) key) rows.

(** [SELECT 1 FROM emails WHERE message_id = ?] *)
Definition select_email_exists (message_id : sqlval) (d : db) : bool :=
  has_key (as_text message_id) (emails d).

(** [INSERT OR IGNORE INTO email_address (email, display_name) VALUES (?, ?)] *)
Definition insert_or_ignore_email_address (email display_name : sqlval) (d : db) : db :=
  if has_key (as_text email) (email_address d) then d
  else set_email_address (email_address d ++ [[as_text email; as_text display_name]]) d.

(** What deleting the row [key] of [emails] does: the row goes, and with it,
    by [ON DELETE CASCADE], the rows of every table of children that refer
    to it. *)
Definition delete_email_cascade (key : sqlval) (d : db) : db :=
  DB (email_address d)
     (without_key key (emails d))
     (without_key key (email_attachments d))
     (without_key key (email_xheaders d))
     (without_key key (email_labels d))
     (without_key key (email_routing_headers d))
     (without_key key (email_authentication d)).

(** A foreign key holds for a value that is [NULL] or is a key of the parent
    table. *)
Definition fk_ok (v : sqlval) (parent : list row) : bool :=
  match v with
  | SNull => true
  | _ => has_key v parent
  end.

(** [INSERT OR REPLACE INTO emails (...) VALUES (...)]: [REPLACE] first deletes
    the row that holds the same primary key, which cascades to its children;
    the new row is then subject to the foreign key of [sender_email], and the
    statement fails, leaving the tables as they were, when that address is
    neither [NULL] nor in [email_address]. *)
Definition insert_or_replace_email (r : row) (d : db) : result db :=
  let d1 := if has_key (col 0 r) (emails d) then delete_email_cascade (col 0 r) d else d in
  if fk_ok (col 2 r) (email_address d1)
  then Ok (set_emails (emails d1 ++ [r]) d1)
  else Raise IntegrityError.

(** [DELETE FROM <child> WHERE message_id = ?] *)
Definition delete_children (t : child) (message_id : sqlval) (d : db) : db :=
  set_table t (without_key (as_text message_id) (table t d)) d.

(** [INSERT INTO <child> (message_id, ...) VALUES (?, ...)], subject to the
    foreign key of [message_id]. *)
Definition insert_child (t : child) (r : row) (d : db) : result db :=
  if fk_ok (col 0 r) (emails d)
  then Ok (set_table t (table t d ++ [r]) d)
  else Raise IntegrityError.

(** The connection: what is committed, and what the connection itself sees,
    which includes the changes of the transaction that is open. *)
Record conn : Set := Conn { committed : db; current : db }.

Definition commit (c : conn) : conn := Conn (current c) (current c).
Definition rollback (c : conn) : conn := Conn (committed c) (committed c).

(** [UPDATE ... SET <column> = v], on one row; [n] is the place of the
    column. *)
Definition set_col (n : nat) (v : sqlval) (r : row) : row :=
  firstn n r ++ repeat SNull (n - List.length r) ++ v :: skipn (S n) r.

End Store.

(* ------------------------------------------------------------------ *)
(** ** [sqlite_db.py]: [SQLiteDB.import_ExtractedEmailData] and
       [SQLiteDB.insert_message] *)

Module SQLiteDB.
Import Py Store.

(** [import_ExtractedEmailData(filepath)]: the document of the file, read
    back; [None] when there is no such file. *)
Definition import_ExtractedEmailData (filepath : pyval) (fs : Gmail.files)
  : option pyval :=
  option_map (fun f => Json.load (snd f))
             (find (fun f => Py.eqb (fst f) filepath) fs).

(** The statements of one transaction: each acts on the tables the
    connection sees and may raise; what was written before an exception is
    still there when it is raised. *)
Definition tx (A : Type) : Type := db -> db * result A.

Definition ret {A : Type} (a : A) : tx A := fun d => (d, Ok a).

Definition tbind {A B : Type} (m : tx A) (f : A -> tx B) : tx B :=
  fun d =>
    match m d with
    | (d', Ok a) => f a d'
    | (d', Raise e) => (d', Raise e)
    end.

Notation "x <~ m ;; k" := (tbind m (fun x => k))
  (at level 61, m at next level, right associativity).

(** A computation of Python that touches no table. *)
Definition lift {A : Type} (r : result A) : tx A := fun d => (d, r).

(** [cursor.execute] of a statement; one that fails changes nothing. *)
Definition execute (stmt : db -> result db) : tx unit :=
  fun d =>
    match stmt d with
    | Ok d' => (d', Ok tt)
    | Raise e => (d, Raise e)
    end.

Definition execute_total (stmt : db -> db) : tx unit := fun d => (stmt d, Ok tt).

Fixpoint for_each {A : Type} (f : A -> tx unit) (l : list A) : tx unit :=
  match l with
  | [] => ret tt
  | x :: tl => _ <~ f x ;; for_each f tl
  end.

(** The right operand of [list + v]. *)
Definition as_list (v : pyval) : result (list pyval) :=
  match v with
  | PList l => Ok l
  | _ => Raise TypeError
  end.

(** [v[1]] *)
Definition subscript1 (v : pyval) : result pyval :=
  match v with
  | PTuple l | PList l =>
      match nth_error l 1 with Some x => Ok x | None => Raise IndexError end
  | PStr s =>
      match String.get 1 s with
      | Some c => Ok (PStr (String c EmptyString))
      | None => Raise IndexError
      end
  | PDict _ => Raise KeyError
  | _ => Raise TypeError
  end.

(** The items that [for x in v] and [tuple(v)] go through. *)
Definition py_iter (v : pyval) : result (list pyval) :=
  match v with
  | PTuple l | PList l => Ok l
  | PStr s => Ok (map (fun c => PStr (String c EmptyString)) (Str.chars s))
  | PDict items => Ok (map (fun kv => PStr (fst kv)) items)
  | _ => Raise TypeError
  end.

(** The elements of a [set] of tuples, each once.  The order in which Python
    goes through a set is not specified; the model takes the order of first
    occurrence.  Only the display name stored for an address that is listed
    under two names depends on it. *)
Fixpoint set_of (l : list (list pyval)) : list (list pyval) :=
  match l with
  | [] => []
  | x :: tl => x :: filter (fun y => negb (Py.eqb (PTuple x) (PTuple y))) (set_of tl)
  end.

(** [tuple(i) for i in all_recipients if i and i[1]], for one [i]. *)
Definition address_pair (i : pyval) : result (list (list pyval)) :=
  if truthy i then
    x <- subscript1 i ;;
    if truthy x then
      t <- py_iter i ;;
      if forallb hashable t then Ok [t] else Raise TypeError
    else Ok []
  else Ok [].

(** [set(tuple(i) for i in all_recipients if i and i[1])] *)
Definition address_pairs (email_data : dict) : result (list (list pyval)) :=
  to <- as_list (get_or email_data "to_recipients" (PList [])) ;;
  cc <- as_list (get_or email_data "cc_recipients" (PList [])) ;;
  bcc <- as_list (get_or email_data "bcc_recipients" (PList [])) ;;
  let all_recipients :=
    PTuple [get email_data "sender_name"; get email_data "sender_email"]
      :: to ++ cc ++ bcc in
  sel <- mapM address_pair all_recipients ;;
  Ok (set_of (List.concat sel)).

(** Step 1: every address of the message is made known to [email_address]. *)
Definition ensure_address (t : list pyval) : tx unit :=
  match t with
  | [name; email] =>
      e <~ lift (bind_param email) ;;
      n <~ lift (bind_param name) ;;
      execute_total (insert_or_ignore_email_address e n)
  | _ => lift (Raise ValueError)
  end.

Definition text_columns : list string :=
  ["thread_id"; "sender_email"; "subject"; "body_text"; "body_html"; "sent_timestamp"].

(** Step 2: the parameters of the parent row, [email_model_data], bound in the
    order of the columns. *)
Definition email_row (email_data : dict) (message_id : pyval) : result row :=
  to <- Json.dumps (get_or email_data "to_recipients" (PList [])) ;;
  cc <- Json.dumps (get_or email_data "cc_recipients" (PList [])) ;;
  bcc <- Json.dumps (get_or email_data "bcc_recipients" (PList [])) ;;
  mid <- bind_param message_id ;;
  front <- mapM (fun k => bind_param (get email_data k)) text_columns ;;
  idms <- bind_param (get email_data "internal_date_ms") ;;
  mid_cols <- mapM (fun k => bind_param (get email_data k))
                ["date_received"; "mime_type"; "content_transfer_encoding"; "charset"] ;;
  back <- mapM (fun k => bind_param (get email_data k)) ["return_path"; "header_sender"] ;;
  Ok (as_text mid :: map as_text front ++ [idms] ++ map as_text mid_cols
        ++ [SText to; SText cc; SText bcc] ++ map as_text back
        ++ repeat (SInt 0) 5).

(** The key of [email_data] that holds each collection, and the keys read
    from an entry, each with whether its column is a [TEXT] column. *)
Definition child_key (t : child) : string :=
  match t with
  | Attachments => "attachments"
  | XHeaders => "xheaders"
  | Labels => "labels"
  | Routing => "routing_headers"
  | Authentication => "authentication_results"
  end.

Definition child_columns (t : child) : list (string * bool) :=
  match t with
  | Attachments => [("filename", true); ("mime_type", true); ("attachment_size", false)]
  | XHeaders => [("header_name", true); ("header_value", true)]
  | Labels => [("label_name", true)]
  | Routing => [("header_name", true); ("header_value", true); ("hop_order", false)]
  | Authentication =>
      [("spf_status", true); ("spf_domain", true); ("dkim_status", true);
       ("dkim_domain", true); ("dkim_selector", true); ("dmarc_status", true);
       ("dmarc_policy", true)]
  end.

Definition store_as (text : bool) (v : sqlval) : sqlval :=
  if text then as_text v else v.

(** The row inserted for one entry: [(message_id, entry.get(...), ...)]. *)
Definition child_row (t : child) (message_id entry : pyval) : result row :=
  vals <- mapM (fun c => get_attr entry (fst c)) (child_columns t) ;;
  mid <- bind_param message_id ;;
  cols <- mapM bind_param vals ;;
  Ok (as_text mid :: map (fun vc => store_as (snd (snd vc)) (fst vc))
                         (combine cols (child_columns t))).

(** Step 3, for one of the first four collections: the rows of the message
    are deleted, then one row is inserted for each entry. *)
Definition replace_children (t : child) (email_data : dict) (message_id : pyval)
  : tx unit :=
  mid <~ lift (bind_param message_id) ;;
  _ <~ execute_total (delete_children t mid) ;;
  entries <~ lift (py_iter (get_or email_data (child_key t) (PList []))) ;;
  for_each (fun e => r <~ lift (child_row t message_id e) ;;
                     execute (insert_child t r)) entries.

(** Step 3, for the authentication results: only [if auth_data]. *)
Definition replace_authentication (email_data : dict) (message_id : pyval) : tx unit :=
  let auth_data := get email_data "authentication_results" in
  if truthy auth_data then
    mid <~ lift (bind_param message_id) ;;
    _ <~ execute_total (delete_children Authentication mid) ;;
    r <~ lift (child_row Authentication message_id auth_data) ;;
    execute (insert_child Authentication r)
  else ret tt.

(** The body of the [try] of [insert_message], up to the commit. *)
Definition insert_message_body (email_data : dict) (message_id : pyval) : tx unit :=
  pairs <~ lift (address_pairs email_data) ;;
  _ <~ for_each ensure_address pairs ;;
  r <~ lift (email_row email_data message_id) ;;
  _ <~ execute (insert_or_replace_email r) ;;
  _ <~ replace_children Attachments email_data message_id ;;
  _ <~ replace_children XHeaders email_data message_id ;;
  _ <~ replace_children Labels email_data message_id ;;
  _ <~ replace_children Routing email_data message_id ;;
  replace_authentication email_data message_id.

Inductive outcome : Set :=
| NotOpen                      (* no connection: nothing is done *)
| Skipped                      (* the message exists and is not to be updated *)
| Committed
| RolledBack (e : pyerror)     (* an exception inside the [try] *)
| Propagated (e : pyerror).    (* an exception before the [try] *)

(** [insert_message(email_data, update_if_exists)] on the connection
    [self.conn]. *)
Definition insert_message (self_conn : option conn) (email_data : dict)
  (update_if_exists : bool) : option conn * outcome :=
  match self_conn with
  | None => (None, NotOpen)
  | Some c =>
      let message_id := get email_data "message_id" in
      let found :=
        if update_if_exists then Ok false
        else mid <- bind_param message_id ;; Ok (select_email_exists mid (current c)) in
      match found with
      | Raise e => (Some c, Propagated e)
      | Ok true => (Some c, Skipped)
      | Ok false =>
          match insert_message_body email_data message_id (current c) with
          | (d, Ok _) => (Some (commit (Conn (committed c) d)), Committed)
          | (d, Raise e) => (Some (rollback (Conn (committed c) d)), RolledBack e)
          end
      end
  end.

(** What [delete_email] ends with. *)
Inductive deletion : Set :=
| DeleteNotOpen                      (* no connection: nothing is done *)
| NotFound                           (* no message of that id *)
| Cancelled                          (* the user did not answer [y] *)
| Deleted
| DeleteRolledBack (e : pyerror)     (* an exception inside the [try] *)
| DeletePropagated (e : pyerror).    (* an exception before the [try] *)

(** [delete_email(message_id, confirm)] on the connection [self.conn];
    [user_input] is the line that [input] reads when the user is asked.  The
    one statement of the [try] deletes the parent row, and the children go
    with it by [ON DELETE CASCADE]. *)
Definition delete_email (self_conn : option conn) (message_id : pyval)
  (confirm : bool) (user_input : string) : option conn * deletion :=
  match self_conn with
  | None => (None, DeleteNotOpen)
  | Some c =>
      match bind_param message_id with
      | Raise e => (Some c, DeletePropagated e)
      | Ok mid =>
          if negb (select_email_exists mid (current c)) then (Some c, NotFound)
          else if confirm && negb (String.eqb (Str.lower user_input) "y")
               then (Some c, Cancelled)
               else
                 match execute_total (delete_email_cascade (as_text mid)) (current c) with
                 | (d, Ok _) => (Some (commit (Conn (committed c) d)), Deleted)
                 | (d, Raise e) =>
                     (Some (rollback (Conn (committed c) d)), DeleteRolledBack e)
                 end
      end
  end.

(** [label_to_column_map] of [update_email_label_booleans]: each label with
    the place of its flag in a row of [emails]. *)
Definition label_to_column_map : list (string * nat) :=
  [ ("SPAM", 17); ("CATEGORY_PROMOTIONS", 18); ("CATEGORY_SOCIAL", 19);
    ("CATEGORY_FORUMS", 20); ("CATEGORY_PERSONAL", 21) ].

(** [UPDATE emails SET <column> = 0] *)
Definition reset_flag (column : nat) (d : db) : db :=
  set_emails (map (set_col column (SInt 0)) (emails d)) d.

(** [message_id IN (SELECT message_id FROM email_labels WHERE label_name = ?)]
    for the row [r] of [emails]. *)
Definition has_label (label_name : sqlval) (d : db) (r : row) : bool :=
  existsb (fun l => sql_eq (col 1 l) label_name && sql_eq (col 0 r) (col 0 l))
          (email_labels d).

(** [UPDATE emails SET <column> = 1 WHERE message_id IN (...)] *)
Definition raise_flag (column : nat) (label_name : sqlval) (d : db) : db :=
  set_emails (map (fun r => if has_label label_name d r
                            then set_col column (SInt 1) r else r) (emails d)) d.

(** [update_email_label_booleans()] *)
Definition update_email_label_booleans (self_conn : option conn) : option conn :=
  match self_conn with
  | None => None
  | Some c =>
      match for_each (fun lc =>
                        _ <~ execute_total (reset_flag (snd lc)) ;;
                        label_name <~ lift (bind_param (PStr (fst lc))) ;;
                        execute_total (raise_flag (snd lc) label_name))
                     label_to_column_map (current c) with
      | (d, Ok _) => Some (commit (Conn (committed c) d))
      | (d, Raise _) => Some (rollback (Conn (committed c) d))
      end
  end.

End SQLiteDB.

(* ------------------------------------------------------------------ *)
(** ** [main.py]: the run of the command *)

Module Main.
Import Py Store SQLiteDB.

(** The service as [main] uses it: what [list_tags()] returns, the ids that
    [get_message_ids_and_thread_ids_by_query] returns for the query of a
    label, and what the requests for a message return ([None] for an
    [HttpError]). *)
Record service : Type := Service {
  list_tags : option (list string);
  message_ids : string -> list string;
  get_message : string -> option (Gmail.message * option string)
}.

(** Step 2: the labels to process, or [None] when [main] returns before any
    processing. *)
Definition labels_to_process (all_available_labels : option (list string))
  (label : option (list string)) : option (list string) :=
  match all_available_labels with
  | None | Some [] => None
  | Some available =>
      let filtered_labels :=
        filter (fun l => negb (Str.contains "Delete_Status" l)) available in
      match label with
      | None | Some [] => Some filtered_labels
      | Some requested =>
          match filter (fun l => existsb (String.eqb l) filtered_labels) requested with
          | [] => None
          | valid_user_labels => Some valid_user_labels
          end
      end
  end.

(** Step 3: the ids already stored, read before the loop; none in update
    mode. *)
Definition existing_ids (update : bool) (c : conn) : list sqlval :=
  if update then [] else map (col 0) (emails (current c)).

(** The body of the inner loop of step 4 for one message id.  [Raise] is an
    exception that reaches the [except] of [main] and ends the run; [frames]
    is the room on the stack where [extract_email_data] runs. *)
Definition process_message (frames : nat) (svc : service) (update : bool) (existing : list sqlval)
  (c : conn) (message_id : string) : result conn :=
  if negb update && existsb (sqlval_eqb (SText message_id)) existing then Ok c
  else
    email_data <- Gmail.get_email_by_message_id frames (get_message svc message_id) ;;
    match email_data with
    | Some r =>
        if truthy (PDict r) then
          match insert_message (Some c) r update with
          | (_, Propagated e) => Raise e
          | (Some c', _) => Ok c'
          | (None, _) => Ok c
          end
        else Ok c
    | None => Ok c
    end.

(** Step 4: the loops over the labels and over the messages of each.  The
    connection that is left, with the exception that ended the run if there
    was one. *)
Fixpoint process_messages (frames : nat) (svc : service) (update : bool) (existing : list sqlval)
  (c : conn) (ids : list string) : conn * option pyerror :=
  match ids with
  | [] => (c, None)
  | message_id :: tl =>
      match process_message frames svc update existing c message_id with
      | Ok c' => process_messages frames svc update existing c' tl
      | Raise e => (c, Some e)
      end
  end.

Fixpoint process_labels (frames : nat) (svc : service) (update : bool) (existing : list sqlval)
  (c : conn) (labels : list string) : conn * option pyerror :=
  match labels with
  | [] => (c, None)
  | lbl :: tl =>
      match process_messages frames svc update existing c (message_ids svc lbl) with
      | (c', None) => process_labels frames svc update existing c' tl
      | (c', Some e) => (c', Some e)
      end
  end.

(** [main(update, label, ...)] between the opening and the closing of the
    connections. *)
Definition main (frames : nat) (svc : service) (update : bool)
  (label : option (list string)) (c : conn) : conn * option pyerror :=
  match labels_to_process (list_tags svc) label with
  | None => (c, None)
  | Some labels => process_labels frames svc update (existing_ids update c) c labels
  end.

End Main.

(* ------------------------------------------------------------------ *)
(** * Properties *)

Import Py Store SQLiteDB.

(** ** The notions the properties are stated with *)

(** The parts of a payload tree in depth-first order, a part before its
    children, the children in their own order. *)
Fixpoint nodes (p : Gmail.part) : list Gmail.part :=
  p :: match Gmail.parts p with
       | Some sub =>
           (fix go (l : list Gmail.part) : list Gmail.part :=
              match l with
              | [] => []
              | q :: tl => nodes q ++ go tl
              end) sub
       | None => []
       end.

Definition preorder (ps : list Gmail.part) : list Gmail.part := flat_map nodes ps.

(** How deep a list of parts is nested: 1 when no part of it has a list of
    parts of its own, and one more than the deepest of these lists
    otherwise.  [levels p] is that depth for the list of parts of [p], 0 when
    it has none. *)
Fixpoint levels (p : Gmail.part) : nat :=
  match Gmail.parts p with
  | Some sub =>
      S ((fix deepest (l : list Gmail.part) : nat :=
            match l with
            | [] => 0
            | q :: tl => Nat.max (levels q) (deepest tl)
            end) sub)
  | None => 0
  end.

Definition depth (ps : list Gmail.part) : nat :=
  S (fold_right (fun q n => Nat.max (levels q) n) 0 ps).

(** Every inline datum of the tree is well-formed base64. *)
Fixpoint data_ok (p : Gmail.part) : bool :=
  match Gmail.inline_data p with
  | Some d => is_ok (Codec.urlsafe_b64decode d)
  | None => true
  end &&
  match Gmail.parts p with
  | Some sub =>
      (fix all (l : list Gmail.part) : bool :=
         match l with
         | [] => true
         | q :: tl => data_ok q && all tl
         end) sub
  | None => true
  end.

(** What a value comes back as from the interchange document, in the words
    of the amended round trip: a timestamp as the string [str] gives it, a
    tuple as a list, everything else as it was. *)
Fixpoint reloaded (v : pyval) : pyval :=
  match v with
  | PDatetime d => PStr (str_of_datetime d)
  | PTuple l => PList (map reloaded l)
  | PList l => PList (map reloaded l)
  | PDict items => PDict (map (fun kv => (fst kv, reloaded (snd kv))) items)
  | _ => v
  end.

(** The values made of [None], booleans, integers, strings, lists and dicts
    only. *)
Fixpoint json_native (v : pyval) : bool :=
  match v with
  | PDatetime _ | PTuple _ => false
  | PList l => forallb json_native l
  | PDict items => forallb (fun kv => json_native (snd kv)) items
  | _ => true
  end.

(** The foreign keys of the five tables of children hold. *)
Definition integrity (d : db) : bool :=
  forallb (fun t => forallb (fun r => fk_ok (col 0 r) (emails d)) (table t d)) children.

(** The entries of a collection of a record, and the rows they stand for. *)
Definition entries_of (t : child) (email_data : dict) : result (list pyval) :=
  match t with
  | Authentication =>
      let a := get email_data "authentication_results" in
      if truthy a then Ok [a] else Ok []
  | _ => py_iter (get_or email_data (child_key t) (PList []))
  end.

Definition rows_of (t : child) (email_data : dict) : result (list row) :=
  es <- entries_of t email_data ;;
  mapM (child_row t (get email_data "message_id")) es.

(** ** Inputs of the examples *)

Definition quoted_header : string :=
  (Gmail.dquote ++ "Alice Smith" ++ Gmail.dquote ++ " <alice@x.com>")%string.

Definition leaf (mime_type data : string) : Gmail.part :=
  Gmail.Part None (Some mime_type) (Some EmptyString) None
             (Some (Gmail.Body (Some data) None)) None.

Definition multipart (mime_type : string) (hs : list Gmail.header)
  (ps : list Gmail.part) : Gmail.part :=
  Gmail.Part None (Some mime_type) None (Some hs) None (Some ps).

Definition message_with (hs : list Gmail.header) (ps : list Gmail.part)
  (internal_date : string) : Gmail.message :=
  Gmail.Message (Some "m1") (Some "t1") (Some ["INBOX"]) (Some "snippet")
                (Some internal_date) (Some (multipart "multipart/mixed" hs ps)).

Definition empty_db : db := DB [] [] [] [] [] [] [].
Definition fresh : conn := Conn empty_db empty_db.

(** [2025-04-15T10:30:00-07:00] and [2025-04-15T10:30:00+00:00] *)
Definition apr15_pdt : datetime := Datetime 2025 4 15 10 30 0 0 (Some (-25200000000)%Z).
Definition apr15_utc : datetime := Datetime 2025 4 15 10 30 0 0 (Some 0%Z).

(** A top-level [text/plain] leaf, then a [multipart/alternative] that holds
    a [text/html] leaf; the data are [plain body] and [<b>html</b>]. *)
Definition html_leaf : Gmail.part := leaf "text/html" "PGI-aHRtbDwvYj4=".
Definition plain_leaf : Gmail.part := leaf "text/plain" "cGxhaW4gYm9keQ==".
Definition example_tree : list Gmail.part :=
  [plain_leaf; multipart "multipart/alternative" [] [html_leaf]].

(** The room on the stack in the examples: of the 1000 calls that the
    interpreter admits, a few are in progress when [extract_email_data]
    runs. *)
Definition example_frames : nat := 990.

(** A [text/plain] leaf with the data of [hi], inside [n] lists of parts
    nested in one another. *)
Fixpoint nested (n : nat) : list Gmail.part :=
  match n with
  | O => [leaf "text/plain" "aGk="]
  | S n' => [multipart "multipart/mixed" [] (nested n')]
  end.

(** The payload and the headers that [extract_email_data] works on. *)
Definition payload_of (m : Gmail.message) : Gmail.part :=
  match Gmail.payload m with Some p => p | None => Gmail.empty_part end.

Definition headers_of (m : Gmail.message) : list Gmail.header :=
  match Gmail.headers (payload_of m) with Some l => l | None => [] end.

(** An entry of a collection carries the message id [i]: it is a dict whose
    key [message_id] holds [i]. *)
Definition carries (i : string) (e : pyval) : Prop :=
  exists d, e = PDict d /\ lookup "message_id" d = Some (PStr i).

(** An entry that is a dict without the key [message_id]. *)
Definition lacks_message_id (e : pyval) : Prop :=
  exists d, e = PDict d /\ lookup "message_id" d = None.

(** A message with a custom header, a label and a plain body; and one whose
    only part is an image without a file name. *)
Definition tagged_message : Gmail.message :=
  message_with [Gmail.Header "X-Mailer" "mutt"] [plain_leaf] "1700000000000".

Definition image_message : Gmail.message :=
  message_with [] [Gmail.Part (Some "1") (Some "image/png") None None None None]
               "1700000000000".

(** A message whose internal date is not a number; and a well-formed one
    whose [Date] and [To] headers cannot be parsed. *)
Definition bad_internal_date_message : Gmail.message :=
  Gmail.Message (Some "m1") (Some "t1") None None (Some "abc") None.

Definition garbage_headers_message : Gmail.message :=
  message_with [Gmail.Header "Date" "garbage"; Gmail.Header "To" "<<<"]
               [plain_leaf] "1700000000000".

(** A message with a sender, a recipient and a date. *)
Definition dated_message : Gmail.message :=
  message_with [ Gmail.Header "From" "Alice <alice@x.com>";
                 Gmail.Header "To" "Bob <bob@y.com>";
                 Gmail.Header "Date" "Tue, 15 Apr 2025 10:30:00 -0700" ]
               [plain_leaf] "1700000000000".

(** The record extracted from a message of the examples. *)
Definition record_of (m : Gmail.message) : dict :=
  match Gmail.extract_email_data example_frames m None with
  | Ok r => r
  | Raise _ => []
  end.

(** In the text [l], after [pre], come a [<], the non-empty text [w] without
    [>], and a [>]. *)
Definition bracketed (l pre w : list ascii) : Prop :=
  w <> [] /\ Forall (fun c => c <> ">"%char) w /\
  exists post, l = pre ++ "<"%char :: w ++ ">"%char :: post.

(** The fields of the record that hold the value of a header as it is, and
    those that hold a list of recipients, each with its header. *)
Definition header_fields : list (string * string) :=
  [ ("subject", "Subject"); ("date_received", "Received");
    ("content_transfer_encoding", "Content-Transfer-Encoding");
    ("sender", "From"); ("return_path", "Return-Path"); ("header_sender", "Sender") ].

Definition recipient_fields : list (string * string) :=
  [ ("to_recipients", "To"); ("cc_recipients", "Cc"); ("bcc_recipients", "Bcc") ].

(** A message without a [From] header, and one with two [Received] headers. *)
Definition no_from_message : Gmail.message :=
  message_with [Gmail.Header "To" "bob@y.com"] [plain_leaf] "1700000000000".

Definition two_hops_message : Gmail.message :=
  message_with [ Gmail.Header "From" "Alice <alice@x.com>";
                 Gmail.Header "Received" "hop1";
                 Gmail.Header "Received" "hop2" ]
               [plain_leaf] "1700000000000".

(** A pair of a name and a non-empty address, both strings, as [tuple] gives
    it. *)
Definition named_address (t : list pyval) : Prop :=
  exists n a, t = [PStr n; PStr a] /\ Str.is_empty a = false.

(** What replacing the rows of the message [k] in the table [t] by [rows]
    makes of the tables: the other tables are as they were; the table holds
    rows it held before, none of them of the message if it held none, and
    then [rows], which are all rows of the message. *)
Definition replaced (t : child) (k : sqlval) (rows : list row) (d d' : db) : Prop :=
  emails d' = emails d /\
  (forall t', t' <> t -> table t' d' = table t' d) /\
  Forall (fun r => col 0 r = k) rows /\
  exists kept,
    table t d' = kept ++ rows /\
    incl kept (table t d) /\
    (with_key k (table t d) = [] -> with_key k kept = []).

(** Two records of the message [m1]: the first with a label, a custom header
    and authentication results, the second with another label and no
    authentication results. *)
Definition first_fetch : Gmail.message :=
  message_with [ Gmail.Header "From" "Alice <alice@x.com>";
                 Gmail.Header "X-Mailer" "mutt";
                 Gmail.Header "Authentication-Results" "mx; spf=pass x header.from=x.com" ]
               [plain_leaf] "1700000000000".

Definition second_fetch : Gmail.message :=
  Gmail.Message (Some "m1") (Some "t1") (Some ["STARRED"; "IMPORTANT"]) (Some "snippet")
                (Some "1700000000000")
                (Some (multipart "multipart/mixed"
                                 [Gmail.Header "From" "Alice <alice@x.com>"] [plain_leaf])).

(** The message [m1] without a [From] header, fetched again with another
    label. *)
Definition no_from_relabelled : Gmail.message :=
  Gmail.Message (Some "m1") (Some "t1") (Some ["STARRED"]) (Some "snippet")
                (Some "1700000000000")
                (Some (multipart "multipart/mixed"
                                 [Gmail.Header "To" "bob@y.com"] [plain_leaf])).

(** A connection to a database in which the empty address is registered. *)
Definition seeded_db : db := DB [[SText EmptyString; SNull]] [] [] [] [] [] [].
Definition seeded : conn := Conn seeded_db seeded_db.

(** ** The notions of the further properties *)

(** The foreign key of [sender_email] holds in every row of [emails]; and
    every foreign key of the tables of the model holds. *)
Definition sender_fk (d : db) : bool :=
  forallb (fun r => fk_ok (col 2 r) (email_address d)) (emails d).

Definition consistent (d : db) : bool := integrity d && sender_fk d.

(** Every run of the statements [m], whether it ends or raises, takes the
    tables from a state to one that [P] relates to it. *)
Definition keeps {A : Type} (P : db -> db -> Prop) (m : tx A) : Prop :=
  forall d d' res, m d = (d', res) -> P d d'.

(** The rows of the messages other than [k] are what they were, in [emails]
    and in the five tables of children. *)
Definition others_untouched (k : sqlval) (d d' : db) : Prop :=
  without_key k (emails d') = without_key k (emails d) /\
  forall t, without_key k (table t d') = without_key k (table t d).

(** [email_address] has its former rows, unchanged and in place, followed by
    rows for addresses that it did not hold. *)
Definition addresses_extended (d d' : db) : Prop :=
  exists added,
    email_address d' = email_address d ++ added /\
    Forall (fun a => has_key (col 0 a) (email_address d) = false) added.

(** Step 3 of [insert_message]: the statements after the parent row. *)
Definition children_steps (email_data : dict) (message_id : pyval) : tx unit :=
  tbind (replace_children Attachments email_data message_id) (fun _ =>
  tbind (replace_children XHeaders email_data message_id) (fun _ =>
  tbind (replace_children Labels email_data message_id) (fun _ =>
  tbind (replace_children Routing email_data message_id) (fun _ =>
  replace_authentication email_data message_id)))).

(** A message [m2] with the label [SPAM]; and the message [m1] fetched again,
    its sender under another display name and with a recipient. *)
Definition other_fetch : Gmail.message :=
  Gmail.Message (Some "m2") (Some "t2") (Some ["SPAM"]) (Some "snippet")
                (Some "1700000000001")
                (Some (multipart "multipart/mixed"
                                 [Gmail.Header "From" "Carol <carol@z.com>"] [plain_leaf])).

Definition renamed_fetch : Gmail.message :=
  message_with [ Gmail.Header "From" "Alice Smith <alice@x.com>";
                 Gmail.Header "To" "Bob <bob@y.com>" ]
               [plain_leaf] "1700000000000".

(** The entries that [extract_email_data] builds for a part with a file
    name, a custom header and a label of the message [i]. *)
Definition attachment_entry (i : string) (p : Gmail.part) : pyval :=
  PDict [ ("message_id", PStr i);
          ("filename", of_opt_str (Gmail.filename p));
          ("mime_type", of_opt_str (Gmail.mimeType p));
          ("attachment_size", of_opt_Z (Gmail.body_size p)) ].

Definition xheader_entry (i : string) (h : Gmail.header) : pyval :=
  PDict [ ("message_id", PStr i);
          ("header_name", PStr (Gmail.name h));
          ("header_value", PStr (Gmail.value h)) ].

Definition label_entry (i label : string) : pyval :=
  PDict [ ("message_id", PStr i); ("label_name", PStr label) ].

(** A part that [additional_parts] lists: without a file name, and of a type
    that holds neither [text/plain] nor [text/html]. *)
Definition is_additional (p : Gmail.part) : bool :=
  negb (Gmail.has_filename p) && negb (Gmail.is_text_part p).

(** The parts directly under the payload, and the labels of the message. *)
Definition top_parts (m : Gmail.message) : list Gmail.part :=
  match Gmail.parts (payload_of m) with Some ps => ps | None => [] end.

Definition label_ids (m : Gmail.message) : list string :=
  match Gmail.labelIds m with Some l => l | None => [] end.

(** A column that holds a string or [NULL], an integer or [NULL]. *)
Definition opt_text (o : option string) : sqlval :=
  match o with Some s => SText s | None => SNull end.

Definition opt_int (o : option Z) : sqlval :=
  match o with Some z => SInt z | None => SNull end.

(** The rows of the children of the message [i]. *)
Definition attachment_row (i : string) (p : Gmail.part) : row :=
  [SText i; opt_text (Gmail.filename p); opt_text (Gmail.mimeType p);
   opt_int (Gmail.body_size p)].

Definition xheader_row (i : string) (h : Gmail.header) : row :=
  [SText i; SText (Gmail.name h); SText (Gmail.value h)].

Definition label_row (i label : string) : row := [SText i; SText label].

(** A message with an attachment, a part nested in a [multipart/related]
    that has a file name too, and an image without one. *)
Definition pdf_part : Gmail.part :=
  Gmail.Part (Some "2") (Some "application/pdf") (Some "report.pdf") None
             (Some (Gmail.Body None (Some 1024%Z))) None.

Definition inline_image : Gmail.part :=
  Gmail.Part (Some "3") (Some "image/png") None None
             (Some (Gmail.Body None (Some 77%Z))) None.

Definition attached_message : Gmail.message :=
  message_with [ Gmail.Header "From" "Alice <alice@x.com>";
                 Gmail.Header "X-Mailer" "mutt";
                 Gmail.Header "x-spam" "no" ]
               [ plain_leaf; pdf_part; inline_image;
                 multipart "multipart/related" [] [pdf_part] ]
               "1700000000000".

(** A record as the interchange document gives it back: every value
    reloaded. *)
Definition reloaded_record (r : dict) : dict :=
  map (fun kv => (fst kv, reloaded (snd kv))) r.

(** An integer that fits the 64 bits of the driver of the database. *)
Definition fits_int64 (z : Z) : Prop := (- 2 ^ 63 <= z < 2 ^ 63)%Z.

(** A pair of a name, or no name, and a non-empty address. *)
Definition address_tuple (t : list pyval) : Prop :=
  exists o a, t = [of_opt_str o; PStr a] /\ Str.is_empty a = false.

(** No two rows hold the same key in their first column; [NULL] is no key. *)
Fixpoint unique_keys (rows : list row) : bool :=
  match rows with
  | [] => true
  | r :: tl => negb (has_key (col 0 r) tl) && unique_keys tl
  end.

(** The primary keys of [emails] and of [email_address] are unique. *)
Definition keys_unique (d : db) : bool :=
  unique_keys (emails d) && unique_keys (email_address d).

(** The ways in which a pattern can take the matcher from one position to
    another: what a successful run of [Re.run] goes through, the order of
    preference set aside. *)
Inductive steps : Re.regex -> Re.mstate -> Re.mstate -> Prop :=
| steps_Eps st : steps Re.Eps st st
| steps_Chr p c pr tl cs :
    p c = true ->
    steps (Re.Chr p) (Re.MState pr (c :: tl) cs) (Re.MState (Some c) tl cs)
| steps_Cat r1 r2 st st1 st2 :
    steps r1 st st1 -> steps r2 st1 st2 -> steps (Re.Cat r1 r2) st st2
| steps_AltL r1 r2 st st' : steps r1 st st' -> steps (Re.Alt r1 r2) st st'
| steps_AltR r1 r2 st st' : steps r2 st st' -> steps (Re.Alt r1 r2) st st'
| steps_Star0 r st : steps (Re.Star r) st st
| steps_StarS r st st1 st2 :
    steps r st st1 -> steps (Re.Star r) st1 st2 -> steps (Re.Star r) st st2
| steps_Group n r st st1 :
    steps r st st1 ->
    steps (Re.Group n r) st (Re.set_cap n (Re.consumed st st1) st1)
| steps_WordB st : steps Re.WordB st st.

(** Every character that a class of the pattern admits satisfies [Q]. *)
Fixpoint classes (Q : ascii -> Prop) (r : Re.regex) : Prop :=
  match r with
  | Re.Chr p => forall c, p c = true -> Q c
  | Re.Cat r1 r2 | Re.Alt r1 r2 => classes Q r1 /\ classes Q r2
  | Re.Star r1 | Re.Group _ r1 => classes Q r1
  | Re.Eps | Re.WordB => True
  end.

(** No class of the pattern admits the character [x]; the pattern has no
    group. *)
Fixpoint excludes (x : ascii) (r : Re.regex) : bool :=
  match r with
  | Re.Chr p => negb (p x)
  | Re.Cat r1 r2 | Re.Alt r1 r2 => excludes x r1 && excludes x r2
  | Re.Star r1 | Re.Group _ r1 => excludes x r1
  | Re.Eps | Re.WordB => true
  end.

Fixpoint groupless (r : Re.regex) : bool :=
  match r with
  | Re.Group _ _ => false
  | Re.Cat r1 r2 | Re.Alt r1 r2 => groupless r1 && groupless r2
  | Re.Star r1 => groupless r1
  | _ => true
  end.

(** The characters that a display name cannot hold: [<], the comma and the
    two quotes. *)
Definition name_text (c : ascii) : Prop :=
  c <> "<"%char /\ c <> ","%char /\ c <> Str.chr 34 /\ c <> "'"%char.

(** A service with the label [INBOX], under which it lists the messages
    [m1] and [m2]; it returns [m1] as fetched the second time. *)
Definition example_service : Main.service :=
  Main.Service (Some ["INBOX"; "Delete_Status/Old"])
               (fun _ => ["m1"; "m2"])
               (fun i => if String.eqb i "m1" then Some (second_fetch, None)
                         else if String.eqb i "m2" then Some (other_fetch, None)
                              else None).

(** The rows of the key [k], in [emails] and in the tables of children. *)
Definition same_rows (k : sqlval) (d d' : db) : Prop :=
  with_key k (emails d') = with_key k (emails d) /\
  forall t, with_key k (table t d') = with_key k (table t d).

(** The keys of a record that [extract_email_data] returns. *)
Definition record_keys : list string :=
  [ "message_id"; "thread_id"; "sender_email"; "subject"; "body_text"; "body_html";
    "sent_timestamp"; "internal_date_ms"; "date_received"; "mime_type";
    "content_transfer_encoding"; "to_recipients"; "cc_recipients"; "bcc_recipients";
    "sender"; "sender_name"; "snippet"; "raw_source"; "attachments"; "xheaders";
    "labels"; "authentication_results"; "additional_parts"; "return_path";
    "header_sender" ].

(** The service of the examples, listing other messages under the label
    that is set aside. *)
Definition other_service : Main.service :=
  Main.Service (Main.list_tags example_service)
               (fun l => if Str.contains "Delete_Status" l then ["m9"]
                         else Main.message_ids example_service l)
               (Main.get_message example_service).

(** The foreign keys hold and the primary keys are unique, in what is
    committed and in what the connection sees. *)
Definition sound_connection (c : conn) : Prop :=
  consistent (committed c) = true /\ consistent (current c) = true /\
  keys_unique (committed c) = true /\ keys_unique (current c) = true.

(* ------------------------------------------------------------------ *)
(** ** The recipient parser *)

(** C1.  On the header of a quoted display name followed by the address in
    angle brackets, [parse_recipients] returns the address with an empty
    name: the quote stands between the name and [<], so the first alternative
    of the pattern, whose name part admits no quote, never matches, and the
    address is found by the second alternative.  The same header without the
    quotes gives the pair of the name and the address. *)
Theorem C1_quoted_name_is_lost :
  Gmail.parse_recipients (Some quoted_header) = [(EmptyString, "alice@x.com")] /\
  Gmail.parse_recipients (Some "Alice Smith <alice@x.com>")
    = [("Alice Smith", "alice@x.com")].
Proof. split; vm_compute; reflexivity. Qed.

(* ------------------------------------------------------------------ *)
(** ** The date normaliser *)

(** C9.  The two stages are tried in order and the first success is taken:
    the ISO parse of the normalised header, then the RFC 2822 parse of the
    header as it is.  The header of the example is read by the second stage
    as 10:30 on 15 April 2025 at UTC-7, [garbage] gives nothing, and a header
    in ISO form with a [ (UTC)] suffix is read by the first stage. *)
Theorem C9_date_stages :
  (forall s : string,
     Gmail.parse_date (Some s) =
       if Str.is_empty s then None
       else match DT.fromisoformat (Gmail.iso_input s) with
            | Some d => Some d
            | None => DT.strptime_rfc2822 s
            end) /\
  Gmail.iso_input "2025-04-15T10:30:00 (UTC)" = "2025-04-15 10:30:00+00:00" /\
  Gmail.parse_date (Some "2025-04-15T10:30:00 (UTC)") = Some apr15_utc /\
  DT.fromisoformat (Gmail.iso_input "Tue, 15 Apr 2025 10:30:00 -0700") = None /\
  Gmail.parse_date (Some "Tue, 15 Apr 2025 10:30:00 -0700") = Some apr15_pdt /\
  Gmail.parse_date (Some "garbage") = None /\
  Gmail.parse_date None = None.
Proof.
  split; [intro s; reflexivity|].
  repeat split; vm_compute; reflexivity.
Qed.

(* ------------------------------------------------------------------ *)
(** ** The walker of the payload tree *)

Lemma nodes_eq (p : Gmail.part) :
  nodes p = p :: match Gmail.parts p with
                 | Some sub => preorder sub
                 | None => []
                 end.
Proof.
  destruct p as [pid mt fn hs b [l|]]; reflexivity.
Qed.

(** One call of [get_body_part], the loop written with the function. *)
Lemma get_body_part_eq (frames : nat) (ps : list Gmail.part) (mt : string) :
  Gmail.get_body_part frames ps mt =
    match frames with
    | O => Raise RecursionError
    | S below =>
        match ps with
        | [] => Ok None
        | p :: tl =>
            if Gmail.is_body_of mt p
            then t <- Gmail.decode_body p ;; Ok (Some t)
            else
              match Gmail.parts p with
              | Some sub =>
                  result <- Gmail.get_body_part below sub mt ;;
                  match result with
                  | Some t => if Str.is_empty t
                              then Gmail.get_body_part (S below) tl mt
                              else Ok (Some t)
                  | None => Gmail.get_body_part (S below) tl mt
                  end
              | None => Gmail.get_body_part (S below) tl mt
              end
        end
    end.
Proof. destruct frames; [reflexivity|]. destruct ps; reflexivity. Qed.

Lemma levels_eq (p : Gmail.part) :
  levels p = match Gmail.parts p with Some sub => depth sub | None => 0 end.
Proof.
  destruct p as [pid mt fn hs b [l|]]; reflexivity.
Qed.

Lemma depth_cons (p : Gmail.part) (tl : list Gmail.part) :
  depth (p :: tl) = Nat.max (S (levels p)) (depth tl).
Proof. unfold depth. simpl. lia. Qed.

Lemma find_app {A : Type} (f : A -> bool) (l1 l2 : list A) :
  find f (l1 ++ l2) = match find f l1 with
                      | Some x => Some x
                      | None => find f l2
                      end.
Proof.
  induction l1 as [|a l1 IH]; simpl; [reflexivity|].
  destruct (f a); [reflexivity | exact IH].
Qed.

Lemma find_preorder_cons (f : Gmail.part -> bool) (p : Gmail.part) (tl : list Gmail.part) :
  find f (preorder (p :: tl)) =
    if f p then Some p
    else match find f match Gmail.parts p with
                      | Some sub => preorder sub
                      | None => []
                      end with
         | Some q => Some q
         | None => find f (preorder tl)
         end.
Proof.
  unfold preorder at 1. cbn [flat_map]. fold (preorder tl).
  rewrite find_app, nodes_eq. cbn [find]. destruct (f p); reflexivity.
Qed.

(** What a call of [get_body_part] with room for the nesting of its list
    returns, from the first body among the nodes of the list. *)
Lemma get_body_part_spec (mt : string) :
  forall frames ps,
    depth ps <= frames ->
    (find (Gmail.is_body_of mt) (preorder ps) = None ->
     Gmail.get_body_part frames ps mt = Ok None) /\
    (forall q t, find (Gmail.is_body_of mt) (preorder ps) = Some q ->
                 Gmail.decode_body q = Ok t -> Str.is_empty t = false ->
                 Gmail.get_body_part frames ps mt = Ok (Some t)).
Proof.
  induction frames as [|below IHf]; intros ps Hd; [unfold depth in Hd; lia|].
  induction ps as [|p tl IHl]; [split; [reflexivity | discriminate]|].
  rewrite depth_cons, levels_eq in Hd.
  assert (Htl : depth tl <= S below) by lia.
  specialize (IHl Htl). destruct IHl as [IHn IHs].
  rewrite get_body_part_eq, find_preorder_cons.
  destruct (Gmail.is_body_of mt p) eqn:E.
  - split; [discriminate|]. intros q t [= <-] Hq _. rewrite Hq. reflexivity.
  - destruct (Gmail.parts p) as [sub|]; [|split; [exact IHn | exact IHs]].
    assert (Hsub : depth sub <= below) by lia.
    destruct (IHf sub Hsub) as [Sn Ss].
    destruct (find (Gmail.is_body_of mt) (preorder sub)) as [q'|].
    + split; [discriminate|]. intros q t [= <-] Hq Ht.
      rewrite (Ss _ _ eq_refl Hq Ht). cbn [bind]. rewrite Ht. reflexivity.
    + rewrite (Sn eq_refl). cbn [bind]. split; [exact IHn | exact IHs].
Qed.

Lemma multipart_is_no_body (mt mime : string) (hs : list Gmail.header)
  (ps : list Gmail.part) :
  Gmail.is_body_of mt (multipart mime hs ps) = false.
Proof. unfold Gmail.is_body_of, multipart, Gmail.inline_data. simpl. apply andb_false_r. Qed.

(** A list nested more deeply than the stack has room for, with its only
    body at the bottom. *)
Lemma nested_is_too_deep :
  forall frames n, frames <= n ->
    Gmail.get_body_part frames (nested n) "text/plain" = Raise RecursionError.
Proof.
  induction frames as [|below IH]; intros n Hn; [reflexivity|].
  destruct n as [|n']; [lia|].
  rewrite get_body_part_eq. cbn [nested]. rewrite multipart_is_no_body.
  unfold multipart at 1. cbn [Gmail.parts].
  rewrite (IH n') by lia. reflexivity.
Qed.

Lemma nested_first_body (n : nat) :
  find (Gmail.is_body_of "text/plain") (preorder (nested n))
    = Some (leaf "text/plain" "aGk=").
Proof.
  induction n as [|n' IH]; [reflexivity|].
  cbn [nested]. rewrite find_preorder_cons, multipart_is_no_body.
  unfold multipart at 1. cbn [Gmail.parts]. rewrite IH. reflexivity.
Qed.

Lemma depth_nested (n : nat) : depth (nested n) = S n.
Proof.
  induction n as [|n' IH]; [reflexivity|].
  cbn [nested]. rewrite depth_cons, levels_eq. unfold multipart.
  cbn [Gmail.parts]. rewrite IH. unfold depth. simpl. lia.
Qed.

(** C8, amended.  With room on the stack for the nesting of the tree,
    [get_body_part] returns nothing when no part of the tree has the
    requested type and inline data; and when there is such a part, it
    returns the text of the first one in depth-first order, provided its data
    decode to a text that is not empty.  In the tree of the example the plain
    leaf at the top is returned for [text/plain] and the nested leaf for
    [text/html]; a byte sequence that is not UTF-8 is read as U+FFFD. *)
Theorem C8_first_body_in_depth_first_order :
  (forall frames ps mt,
     depth ps <= frames ->
     find (Gmail.is_body_of mt) (preorder ps) = None ->
     Gmail.get_body_part frames ps mt = Ok None) /\
  (forall frames ps mt p t,
     depth ps <= frames ->
     find (Gmail.is_body_of mt) (preorder ps) = Some p ->
     Gmail.decode_body p = Ok t ->
     Str.is_empty t = false ->
     Gmail.get_body_part frames ps mt = Ok (Some t)) /\
  depth example_tree = 2 /\
  (forall frames, 2 <= frames ->
     Gmail.get_body_part frames example_tree "text/plain" = Ok (Some "plain body") /\
     Gmail.get_body_part frames example_tree "text/html" = Ok (Some "<b>html</b>") /\
     Gmail.get_body_part frames example_tree "text/csv" = Ok None) /\
  Gmail.get_body_part 1 [leaf "text/plain" "4ig="] "text/plain"
    = Ok (Some (Str.str (Codec.replacement ++ Str.chars "("))).
Proof.
  split; [|split; [|split; [|split]]].
  - intros frames ps mt Hd. apply (get_body_part_spec mt frames ps Hd).
  - intros frames ps mt p t Hd. apply (get_body_part_spec mt frames ps Hd).
  - reflexivity.
  - intros frames Hf.
    assert (Hd : depth example_tree <= frames) by exact Hf.
    split; [|split].
    + apply (proj2 (get_body_part_spec "text/plain" frames _ Hd) plain_leaf);
        vm_compute; reflexivity.
    + apply (proj2 (get_body_part_spec "text/html" frames _ Hd) html_leaf);
        vm_compute; reflexivity.
    + apply (proj1 (get_body_part_spec "text/csv" frames _ Hd)). vm_compute; reflexivity.
  - vm_compute; reflexivity.
Qed.

(** A text found in a nested list of parts is returned only if it is
    truthy: here the first [text/plain] part in depth-first order, whose data
    decode to the empty text, is passed over for a later one. *)
Example nested_empty_text_is_passed_over :
  Gmail.get_body_part 2
    [multipart "multipart/alternative" [] [leaf "text/plain" "===="];
     leaf "text/plain" "c2Vjb25k"] "text/plain" = Ok (Some "second").
Proof. vm_compute; reflexivity. Qed.

(** A part of the requested type whose inline data are not well-formed
    base64: the decoding raises, and so does [get_body_part]. *)
Example malformed_data_raise :
  Gmail.get_body_part 1 [leaf "text/plain" "a"] "text/plain" = Raise Base64Error.
Proof. vm_compute; reflexivity. Qed.

Lemma C8_witness :
  depth example_tree <= example_frames /\
  find (Gmail.is_body_of "text/html") (preorder example_tree) = Some html_leaf /\
  Gmail.decode_body html_leaf = Ok "<b>html</b>" /\
  Str.is_empty "<b>html</b>" = false /\
  Gmail.get_body_part example_frames example_tree "text/html" = Ok (Some "<b>html</b>").
Proof.
  assert (H0 : depth example_tree <= example_frames)
    by (apply Nat.leb_le; vm_compute; reflexivity).
  assert (H1 : find (Gmail.is_body_of "text/html") (preorder example_tree) = Some html_leaf)
    by (vm_compute; reflexivity).
  assert (H2 : Gmail.decode_body html_leaf = Ok "<b>html</b>") by (vm_compute; reflexivity).
  assert (H3 : Str.is_empty "<b>html</b>" = false) by reflexivity.
  split; [exact H0 | split; [exact H1 | split; [exact H2 | split; [exact H3 |]]]].
  exact (proj1 (proj2 C8_first_body_in_depth_first_order) _ _ _ _ _ H0 H1 H2 H3).
Defined.

(** A tree within the data model that is nested more deeply than the stack
    has room for: its only [text/plain] leaf carries the well-formed data of
    [hi], and [get_body_part] raises [RecursionError] instead of returning
    that text.  This is so whatever the room; with the whole stack of the
    default limit, a tree of 1000 lists within one another is enough. *)
Lemma C8_counterexample :
  Gmail.decode_body (leaf "text/plain" "aGk=") = Ok "hi" /\
  find (Gmail.is_body_of "text/plain") (preorder (nested 1000))
    = Some (leaf "text/plain" "aGk=") /\
  Gmail.get_body_part 1000 (nested 1000) "text/plain" = Raise RecursionError /\
  (forall frames,
     depth (nested frames) = S frames /\
     find (Gmail.is_body_of "text/plain") (preorder (nested frames))
       = Some (leaf "text/plain" "aGk=") /\
     Gmail.get_body_part frames (nested frames) "text/plain" = Raise RecursionError).
Proof.
  split; [vm_compute; reflexivity|].
  split; [apply nested_first_body|].
  split; [apply nested_is_too_deep, Nat.le_refl|].
  intro frames. split; [apply depth_nested|].
  split; [apply nested_first_body | apply nested_is_too_deep, Nat.le_refl].
Qed.

(* ------------------------------------------------------------------ *)
(** ** The record built by [extract_email_data] *)

Ltac bind_inv H :=
  repeat match type of H with
         | bind ?m _ = Ok _ =>
             let E := fresh "E" in
             destruct m eqn:E; [simpl in H | discriminate H]
         end.

Lemma mapM_Forall {A B : Type} (f : A -> result B) (Q : B -> Prop) :
  (forall x y, f x = Ok y -> Q y) ->
  forall l ys, mapM f l = Ok ys -> Forall Q ys.
Proof.
  intros Hf. induction l as [|x tl IH]; simpl; intros ys H.
  - injection H as <-. constructor.
  - bind_inv H. injection H as <-. constructor; eauto.
Qed.

Lemma mapM_ok {A B : Type} (f : A -> result B) :
  forall l, (forall x, In x l -> is_ok (f x) = true) -> is_ok (mapM f l) = true.
Proof.
  induction l as [|x tl IH]; simpl; intros H; [reflexivity|].
  destruct (f x) eqn:E; simpl.
  - assert (Ht : is_ok (mapM f tl) = true) by (apply IH; auto).
    destruct (mapM f tl); [reflexivity | discriminate Ht].
  - specialize (H x (or_introl eq_refl)). rewrite E in H. discriminate H.
Qed.

(** The record is the dict of lines 299 to 325, built from the results of
    the steps before it. *)
Lemma extract_email_data_inv (frames : nat) (m : Gmail.message) (raw : option string) (r : dict) :
  Gmail.extract_email_data frames m raw = Ok r ->
  exists body_text body_html attachments additional_parts xheaders labels idms rawv,
    Gmail.walk_payload frames m (payload_of m)
      = Ok (body_text, body_html, attachments, additional_parts) /\
    mapM (Gmail.xheader_of m) (filter Gmail.is_xheader (headers_of m)) = Ok xheaders /\
    mapM (Gmail.label_of m)
         (match Gmail.labelIds m with Some l => l | None => [] end) = Ok labels /\
    Gmail.internal_date_ms m = Ok idms /\
    Gmail.decode_raw_source raw = Ok rawv /\
    r = [ ("message_id", of_opt_str (Gmail.id m));
          ("thread_id", of_opt_str (Gmail.threadId m));
          ("sender_email",
           PStr (fst (Gmail.parse_sender (Gmail.get_header (headers_of m) "From"))));
          ("subject", of_opt_str (Gmail.get_header (headers_of m) "Subject"));
          ("body_text", body_text);
          ("body_html", body_html);
          ("sent_timestamp",
           Gmail.of_opt_datetime
             (Gmail.parse_date (Gmail.get_header (headers_of m) "Date")));
          ("internal_date_ms", PInt idms);
          ("date_received", of_opt_str (Gmail.get_header (headers_of m) "Received"));
          ("mime_type", of_opt_str (Gmail.mimeType (payload_of m)));
          ("content_transfer_encoding",
           of_opt_str (Gmail.get_header (headers_of m) "Content-Transfer-Encoding"));
          ("to_recipients",
           Gmail.recipients_value
             (Gmail.parse_recipients (Gmail.get_header (headers_of m) "To")));
          ("cc_recipients",
           Gmail.recipients_value
             (Gmail.parse_recipients (Gmail.get_header (headers_of m) "Cc")));
          ("bcc_recipients",
           Gmail.recipients_value
             (Gmail.parse_recipients (Gmail.get_header (headers_of m) "Bcc")));
          ("sender", of_opt_str (Gmail.get_header (headers_of m) "From"));
          ("sender_name",
           of_opt_str (snd (Gmail.parse_sender (Gmail.get_header (headers_of m) "From"))));
          ("snippet", of_opt_str (Gmail.snippet m));
          ("raw_source", rawv);
          ("attachments", PList attachments);
          ("xheaders", PList xheaders);
          ("labels", PList labels);
          ("authentication_results",
           Gmail.parse_auth_results
             (Gmail.get_header (headers_of m) "Authentication-Results"));
          ("additional_parts", PList additional_parts);
          ("return_path", of_opt_str (Gmail.get_header (headers_of m) "Return-Path"));
          ("header_sender", of_opt_str (Gmail.get_header (headers_of m) "Sender")) ].
Proof.
  unfold Gmail.extract_email_data. fold (payload_of m). fold (headers_of m).
  intro H.
  destruct (Gmail.walk_payload frames m (payload_of m)) as [[[[bt bh] atts] adds]|] eqn:Ew;
    [simpl in H | discriminate H].
  bind_inv H.
  destruct (Gmail.parse_sender _) as [se sn] eqn:Es.
  bind_inv H.
  injection H as <-.
  exists bt, bh, atts, adds, a, a0, a1, a2. repeat split; reflexivity.
Qed.

Lemma classify_parts_entries (m : Gmail.message) :
  forall ps atts adds,
    Gmail.classify_parts m ps = Ok (atts, adds) ->
    (forall e, In e atts -> exists i, Gmail.id m = Some i /\ carries i e) /\
    (forall e, In e adds -> lacks_message_id e).
Proof.
  induction ps as [|p tl IH]; simpl; intros atts adds H.
  - injection H as <- <-. split; intros e [].
  - destruct (Gmail.has_filename p).
    + bind_inv H. injection H as <- <-.
      destruct a0 as [atts' adds']. destruct (IH _ _ eq_refl) as [Ha Hb].
      split; [|exact Hb].
      intros e [<-|He]; [|auto].
      unfold Gmail.attachment_of, Gmail.message_id_item in E.
      destruct (Gmail.id m) as [i|]; [|discriminate E].
      injection E as <-. exists i. split; [reflexivity|].
      eexists. split; reflexivity.
    + destruct (negb (Gmail.is_text_part p)).
      * bind_inv H. injection H as <- <-.
        destruct a as [atts' adds']. destruct (IH _ _ eq_refl) as [Ha Hb].
        split; [exact Ha|].
        intros e [<-|He]; [|auto].
        eexists. split; reflexivity.
      * eauto.
Qed.

Lemma walk_payload_entries (frames : nat) (m : Gmail.message) (pl : Gmail.part) bt bh atts adds :
  Gmail.walk_payload frames m pl = Ok (bt, bh, atts, adds) ->
  (forall e, In e atts -> exists i, Gmail.id m = Some i /\ carries i e) /\
  (forall e, In e adds -> lacks_message_id e).
Proof.
  unfold Gmail.walk_payload. intro H.
  destruct (Gmail.parts pl) as [ps|].
  - bind_inv H. injection H as <- <- <- <-.
    destruct a1 as [atts' adds']. apply (classify_parts_entries m ps). exact E1.
  - assert (Hnil : atts = [] /\ adds = []).
    { destruct (Gmail.inline_data pl);
        [destruct (Str.opt_eqb _ "text/plain");
         [|destruct (Str.opt_eqb _ "text/html")]|];
        try (bind_inv H); injection H as <- <- <- <-; auto. }
    destruct Hnil as [-> ->]. split; intros e [].
Qed.

Lemma xheader_carries (m : Gmail.message) (h : Gmail.header) (e : pyval) :
  Gmail.xheader_of m h = Ok e -> exists i, Gmail.id m = Some i /\ carries i e.
Proof.
  unfold Gmail.xheader_of, Gmail.message_id_item.
  destruct (Gmail.id m) as [i|]; [|discriminate].
  intros [= <-]. exists i. split; [reflexivity|]. eexists. split; reflexivity.
Qed.

Lemma label_carries (m : Gmail.message) (l : string) (e : pyval) :
  Gmail.label_of m l = Ok e -> exists i, Gmail.id m = Some i /\ carries i e.
Proof.
  unfold Gmail.label_of, Gmail.message_id_item.
  destruct (Gmail.id m) as [i|]; [|discriminate].
  intros [= <-]. exists i. split; [reflexivity|]. eexists. split; reflexivity.
Qed.

Lemma parse_auth_results_keys (h : option string) (d : dict) :
  Gmail.parse_auth_results h = PDict d -> lookup "message_id" d = None.
Proof.
  unfold Gmail.parse_auth_results.
  destruct h as [hv|]; [|discriminate].
  destruct (Str.is_empty hv); [discriminate|].
  destruct (Re.search Gmail.spf_re hv), (Re.search Gmail.dkim_re hv),
    (Re.search Gmail.dmarc_re hv); simpl; intros [= <-] || discriminate; reflexivity.
Qed.

(** C7, amended.  In every record that [extract_email_data] returns, each
    entry of [attachments], [xheaders] and [labels] is a dict whose
    [message_id] is the id of the message, which is the [message_id] of the
    record.  The entries of [additional_parts] and the dict of
    [authentication_results] have no key [message_id]. *)
Theorem C7_message_id_in_child_entries :
  forall frames m raw r,
    Gmail.extract_email_data frames m raw = Ok r ->
    (forall key, In key ["attachments"; "xheaders"; "labels"] ->
       exists l, get r key = PList l /\
         forall e, In e l ->
           exists i, Gmail.id m = Some i /\ get r "message_id" = PStr i /\ carries i e) /\
    (exists l, get r "additional_parts" = PList l /\
       forall e, In e l -> lacks_message_id e) /\
    (forall d, get r "authentication_results" = PDict d ->
       lookup "message_id" d = None).
Proof.
  intros frames m raw r H.
  destruct (extract_email_data_inv _ _ _ _ H)
    as (bt & bh & atts & adds & xs & ls & idms & rawv & Hw & Hx & Hl & _ & _ & ->).
  destruct (walk_payload_entries _ _ _ _ _ _ _ Hw) as [Hatt Hadd].
  assert (Hxs : Forall (fun e => exists i, Gmail.id m = Some i /\ carries i e) xs)
    by (eapply mapM_Forall; [apply xheader_carries | exact Hx]).
  assert (Hls : Forall (fun e => exists i, Gmail.id m = Some i /\ carries i e) ls)
    by (eapply mapM_Forall; [apply label_carries | exact Hl]).
  rewrite Forall_forall in Hxs, Hls.
  assert (Hid : forall l, (forall e, In e l -> exists i, Gmail.id m = Some i /\ carries i e) ->
                forall e, In e l ->
                exists i, Gmail.id m = Some i /\ of_opt_str (Gmail.id m) = PStr i /\ carries i e).
  { intros l Hl' e He. destruct (Hl' e He) as (i & Hi & Hc).
    exists i. rewrite Hi. auto. }
  split; [|split].
  - intros key [<-|[<-|[<-|[]]]]; eexists; (split; [reflexivity|]); apply Hid; assumption.
  - exists adds. split; [reflexivity | exact Hadd].
  - intros d Hd. apply (parse_auth_results_keys _ _ Hd).
Qed.

Lemma C7_witness :
  exists r,
    Gmail.extract_email_data example_frames tagged_message None = Ok r /\
    forall key, In key ["attachments"; "xheaders"; "labels"] ->
      exists l, get r key = PList l /\
        forall e, In e l ->
          exists i, Gmail.id tagged_message = Some i /\
                    get r "message_id" = PStr i /\ carries i e.
Proof.
  eexists. split.
  - vm_compute. reflexivity.
  - refine (proj1 (C7_message_id_in_child_entries example_frames tagged_message None _ _)).
    vm_compute. reflexivity.
Defined.

(** A message with a part that is neither a text nor an attachment: the
    entry of [additional_parts] has no [message_id]. *)
Lemma C7_counterexample :
  exists r e,
    Gmail.extract_email_data example_frames image_message None = Ok r /\
    get r "message_id" = PStr "m1" /\
    get r "additional_parts" = PList [PDict e] /\
    lookup "message_id" e = None.
Proof.
  eexists. eexists. vm_compute. repeat split.
Qed.

(* ------------------------------------------------------------------ *)
(** ** When [extract_email_data] returns *)

Lemma data_ok_eq (p : Gmail.part) :
  data_ok p =
    match Gmail.inline_data p with
    | Some d => is_ok (Codec.urlsafe_b64decode d)
    | None => true
    end &&
    match Gmail.parts p with
    | Some sub => forallb data_ok sub
    | None => true
    end.
Proof. destruct p as [pid mt fn hs b [l|]]; reflexivity. Qed.

Lemma decode_body_ok (mt : string) (p : Gmail.part) :
  data_ok p = true -> Gmail.is_body_of mt p = true ->
  exists t, Gmail.decode_body p = Ok t.
Proof.
  rewrite data_ok_eq. unfold Gmail.is_body_of, Gmail.decode_body, Codec.b64_text.
  destruct (Gmail.inline_data p) as [d|].
  - intros H _. apply andb_prop in H. destruct H as [H _].
    destruct (Codec.urlsafe_b64decode d); [eexists; reflexivity | discriminate H].
  - intros _ H. apply andb_prop in H. destruct H as [_ H]. discriminate H.
Qed.

Lemma get_body_part_ok (mt : string) :
  forall frames ps,
    depth ps <= frames ->
    forallb data_ok ps = true ->
    exists r, Gmail.get_body_part frames ps mt = Ok r.
Proof.
  induction frames as [|below IHf]; intros ps Hd; [unfold depth in Hd; lia|].
  induction ps as [|p tl IHl]; intro H; [eexists; reflexivity|].
  rewrite depth_cons, levels_eq in Hd.
  cbn [forallb] in H. apply andb_prop in H. destruct H as [Hp Htl].
  assert (Dtl : depth tl <= S below) by lia.
  specialize (IHl Dtl Htl).
  rewrite get_body_part_eq.
  destruct (Gmail.is_body_of mt p) eqn:E.
  - destruct (decode_body_ok _ _ Hp E) as [t ->]. eexists; reflexivity.
  - rewrite data_ok_eq in Hp. apply andb_prop in Hp. destruct Hp as [_ Hp].
    destruct (Gmail.parts p) as [sub|]; [|exact IHl].
    assert (Dsub : depth sub <= below) by lia.
    destruct (IHf sub Dsub Hp) as [[t|] ->]; cbn [bind]; [|exact IHl].
    destruct (Str.is_empty t); [exact IHl | eexists; reflexivity].
Qed.

Lemma classify_parts_ok (m : Gmail.message) (i : string) :
  Gmail.id m = Some i ->
  forall ps, exists r, Gmail.classify_parts m ps = Ok r.
Proof.
  intros Hi. induction ps as [|p tl [r IH]]; simpl.
  - eexists; reflexivity.
  - unfold Gmail.attachment_of, Gmail.message_id_item. rewrite Hi, IH. simpl.
    destruct (Gmail.has_filename p); [|destruct (negb _)]; eexists; reflexivity.
Qed.

Lemma walk_payload_ok (frames : nat) (m : Gmail.message) (i : string) (pl : Gmail.part) :
  Gmail.id m = Some i -> data_ok pl = true -> levels pl <= frames ->
  exists w, Gmail.walk_payload frames m pl = Ok w.
Proof.
  intros Hi H Hd. unfold Gmail.walk_payload. rewrite levels_eq in Hd.
  destruct (Gmail.parts pl) as [ps|] eqn:Ep.
  - assert (Hps : forallb data_ok ps = true).
    { rewrite data_ok_eq, Ep in H. apply andb_prop in H. apply H. }
    destruct (get_body_part_ok "text/plain" frames ps Hd Hps) as [bt ->].
    destruct (get_body_part_ok "text/html" frames ps Hd Hps) as [bh ->].
    destruct (classify_parts_ok m i Hi ps) as [r ->].
    eexists; reflexivity.
  - destruct (Gmail.inline_data pl) as [d|] eqn:Ed; [|eexists; reflexivity].
    assert (Hdec : exists t, Gmail.decode_body pl = Ok t).
    { unfold Gmail.decode_body, Codec.b64_text. rewrite Ed.
      rewrite data_ok_eq, Ed in H. apply andb_prop in H. destruct H as [H _].
      destruct (Codec.urlsafe_b64decode d); [eexists; reflexivity | discriminate H]. }
    destruct Hdec as [t ->].
    destruct (Str.opt_eqb _ "text/plain"); [|destruct (Str.opt_eqb _ "text/html")];
      eexists; reflexivity.
Qed.

Lemma is_ok_ex {A : Type} (m : result A) : is_ok m = true -> exists a, m = Ok a.
Proof. destruct m; [eexists; reflexivity | discriminate]. Qed.

(** C3, amended.  For a message that carries an id, whose internal date is
    absent or an integer literal, whose inline data and raw source are
    well-formed base64 and whose payload is nested no deeper than the stack
    has room for (every header having a name and a value, as the type of the
    headers has it), [extract_email_data] returns a record.  In it a [Date]
    header that neither stage can parse leaves [sent_timestamp] at [None], an
    absent internal date gives 0, the recipient fields are lists whatever
    the headers hold, empty when nothing is found in them, and what is
    absent is at its default: [None] for a header, a thread id, a snippet or
    a raw source that is absent, the empty address and no name without
    [From], no labels without [labelIds], and no body, no type and empty
    collections without a payload. *)
Theorem C3_extraction_returns :
  forall frames m raw,
    Gmail.id m <> None ->
    is_ok (Gmail.internal_date_ms m) = true ->
    is_ok (Gmail.decode_raw_source raw) = true ->
    data_ok (payload_of m) = true ->
    levels (payload_of m) <= frames ->
    exists r,
      Gmail.extract_email_data frames m raw = Ok r /\
      (Gmail.parse_date (Gmail.get_header (headers_of m) "Date") = None ->
       get r "sent_timestamp" = PNone) /\
      (Gmail.internalDate m = None -> get r "internal_date_ms" = PInt 0) /\
      (forall key, In key ["to_recipients"; "cc_recipients"; "bcc_recipients"] ->
         exists l, get r key = PList l) /\
      (forall key h, In (key, h) recipient_fields ->
         Gmail.parse_recipients (Gmail.get_header (headers_of m) h) = [] ->
         get r key = PList []) /\
      (forall key h, In (key, h) header_fields ->
         Gmail.get_header (headers_of m) h = None -> get r key = PNone) /\
      (Gmail.get_header (headers_of m) "Date" = None -> get r "sent_timestamp" = PNone) /\
      (Gmail.get_header (headers_of m) "From" = None ->
         get r "sender_email" = PStr EmptyString /\ get r "sender_name" = PNone) /\
      (Gmail.get_header (headers_of m) "Authentication-Results" = None ->
         get r "authentication_results" = PNone) /\
      (Gmail.threadId m = None -> get r "thread_id" = PNone) /\
      (Gmail.snippet m = None -> get r "snippet" = PNone) /\
      (Gmail.labelIds m = None -> get r "labels" = PList []) /\
      (raw = None -> get r "raw_source" = PNone) /\
      (Gmail.headers (payload_of m) = None -> get r "xheaders" = PList []) /\
      (Gmail.payload m = None ->
         Forall (fun key => get r key = PNone) ["body_text"; "body_html"; "mime_type"] /\
         Forall (fun key => get r key = PList [])
                ["attachments"; "additional_parts"; "xheaders"]).
Proof.
  intros frames m raw Hid Hint Hraw Hdata Hdepth.
  destruct (Gmail.id m) as [i|] eqn:Ei; [clear Hid | contradiction].
  destruct (walk_payload_ok frames m i _ Ei Hdata Hdepth) as [[[[bt bh] atts] adds] Hw].
  destruct (is_ok_ex _ (mapM_ok (Gmail.xheader_of m) (filter Gmail.is_xheader (headers_of m))
             (fun x _ => ltac:(unfold Gmail.xheader_of, Gmail.message_id_item;
                               rewrite Ei; reflexivity)))) as [xs Hx].
  destruct (is_ok_ex _ (mapM_ok (Gmail.label_of m)
             (match Gmail.labelIds m with Some l => l | None => [] end)
             (fun x _ => ltac:(unfold Gmail.label_of, Gmail.message_id_item;
                               rewrite Ei; reflexivity)))) as [ls Hl].
  destruct (is_ok_ex _ Hint) as [idms Hi].
  destruct (is_ok_ex _ Hraw) as [rawv Hr].
  assert (He : exists r, Gmail.extract_email_data frames m raw = Ok r).
  { unfold Gmail.extract_email_data. fold (payload_of m). fold (headers_of m).
    rewrite Hw. simpl. rewrite Hx, Hl. simpl.
    destruct (Gmail.parse_sender _). rewrite Hi, Hr. simpl. eexists; reflexivity. }
  destruct He as [r He]. exists r. split; [exact He|].
  destruct (extract_email_data_inv _ _ _ _ He)
    as (bt' & bh' & atts' & adds' & xs' & ls' & idms' & rawv' &
        Hw' & Hx' & Hl' & Hi' & Hr' & ->).
  repeat match goal with |- _ /\ _ => split end.
  - intros Hd. cbn. rewrite Hd. reflexivity.
  - intros Hn. unfold Gmail.internal_date_ms in Hi'. rewrite Hn in Hi'.
    injection Hi' as <-. reflexivity.
  - intros key [<-|[<-|[<-|[]]]]; eexists; reflexivity.
  - intros key h [[= <- <-]|[[= <- <-]|[[= <- <-]|[]]]] Hn; cbn; rewrite Hn; reflexivity.
  - intros key h [[= <- <-]|[[= <- <-]|[[= <- <-]|[[= <- <-]|[[= <- <-]|[[= <- <-]|[]]]]]]] Hn;
      cbn; rewrite Hn; reflexivity.
  - intros Hn. cbn. rewrite Hn. reflexivity.
  - intros Hn. cbn. rewrite Hn. split; reflexivity.
  - intros Hn. cbn. rewrite Hn. reflexivity.
  - intros Hn. cbn. rewrite Hn. reflexivity.
  - intros Hn. cbn. rewrite Hn. reflexivity.
  - intros Hn. rewrite Hn in Hl'. injection Hl' as <-. reflexivity.
  - intros Hn. subst raw. injection Hr' as <-. reflexivity.
  - intros Hn. unfold headers_of in Hx'. rewrite Hn in Hx'. injection Hx' as <-.
    reflexivity.
  - intros Hn. unfold payload_of in Hw'. rewrite Hn in Hw'. injection Hw' as <- <- <- <-.
    unfold headers_of, payload_of in Hx'. rewrite Hn in Hx'. injection Hx' as <-.
    split; repeat constructor. cbn. unfold payload_of. rewrite Hn. reflexivity.
Qed.

Lemma C3_witness :
  Gmail.id garbage_headers_message <> None /\
  is_ok (Gmail.internal_date_ms garbage_headers_message) = true /\
  is_ok (Gmail.decode_raw_source (Some "aGVsbG8=")) = true /\
  data_ok (payload_of garbage_headers_message) = true /\
  levels (payload_of garbage_headers_message) <= example_frames /\
  Gmail.parse_date (Gmail.get_header (headers_of garbage_headers_message) "Date") = None /\
  Gmail.parse_recipients (Gmail.get_header (headers_of garbage_headers_message) "To") = [] /\
  Gmail.get_header (headers_of garbage_headers_message) "Subject" = None /\
  exists r,
    Gmail.extract_email_data example_frames garbage_headers_message (Some "aGVsbG8=")
      = Ok r /\
    get r "sent_timestamp" = PNone /\
    get r "to_recipients" = PList [] /\
    get r "subject" = PNone /\
    get r "raw_source" = PStr "hello".
Proof.
  assert (H1 : Gmail.id garbage_headers_message <> None) by discriminate.
  assert (H2 : is_ok (Gmail.internal_date_ms garbage_headers_message) = true)
    by (vm_compute; reflexivity).
  assert (H3 : is_ok (Gmail.decode_raw_source (Some "aGVsbG8=")) = true)
    by (vm_compute; reflexivity).
  assert (H4 : data_ok (payload_of garbage_headers_message) = true)
    by (vm_compute; reflexivity).
  assert (H5 : levels (payload_of garbage_headers_message) <= example_frames)
    by (apply Nat.leb_le; vm_compute; reflexivity).
  assert (H6 : Gmail.parse_date
                 (Gmail.get_header (headers_of garbage_headers_message) "Date") = None)
    by (vm_compute; reflexivity).
  assert (H7 : Gmail.parse_recipients
                 (Gmail.get_header (headers_of garbage_headers_message) "To") = [])
    by (vm_compute; reflexivity).
  assert (H8 : Gmail.get_header (headers_of garbage_headers_message) "Subject" = None)
    by (vm_compute; reflexivity).
  repeat match goal with |- _ /\ _ => split; [assumption|] end.
  destruct (C3_extraction_returns example_frames garbage_headers_message (Some "aGVsbG8=")
              H1 H2 H3 H4 H5)
    as (r & He & Hd & _ & _ & Hto & Hh & _).
  exists r. split; [exact He|]. split; [exact (Hd H6)|].
  split; [exact (Hto _ _ (or_introl eq_refl) H7)|].
  split; [exact (Hh _ _ (or_introl eq_refl) H8)|].
  assert (Hc : Gmail.extract_email_data example_frames garbage_headers_message
                 (Some "aGVsbG8=")
               = Ok (match Gmail.extract_email_data example_frames
                             garbage_headers_message (Some "aGVsbG8=") with
                     | Ok x => x | Raise _ => [] end)) by (vm_compute; reflexivity).
  rewrite Hc in He. injection He as <-. vm_compute. reflexivity.
Defined.

(** A message whose internal date is not an integer literal: [int] raises a
    [ValueError], and no record is returned.  So does an internal date with
    one of the separators 28 to 31 at an end, which [str.strip] would
    remove. *)
Lemma C3_counterexample :
  Gmail.extract_email_data example_frames bad_internal_date_message None
    = Raise ValueError /\
  Py.int_of_str (String (Str.chr 31) "12") = Raise ValueError /\
  Py.int_of_str " 12 " = Ok 12%Z.
Proof. repeat split; vm_compute; reflexivity. Qed.

(** [int] takes 4300 digits and no more. *)
Example int_takes_4300_digits :
  Py.int_of_str (Py.zeros 4300) = Ok 0%Z /\
  Py.int_of_str (Py.zeros 4301) = Raise ValueError.
Proof. split; vm_compute; reflexivity. Qed.

(* ------------------------------------------------------------------ *)
(** ** The interchange document *)

(** Induction on a value, the items of a container being a list. *)
Lemma pyval_induction (P : pyval -> Prop)
  (HNone : P PNone)
  (HBool : forall b, P (PBool b))
  (HInt : forall z, P (PInt z))
  (HStr : forall s, P (PStr s))
  (HDatetime : forall d, P (PDatetime d))
  (HTuple : forall l, Forall P l -> P (PTuple l))
  (HList : forall l, Forall P l -> P (PList l))
  (HDict : forall items, Forall (fun kv => P (snd kv)) items -> P (PDict items)) :
  forall v, P v.
Proof.
  fix IH 1.
  intros [ | b | z | s | d | l | l | items ].
  - exact HNone.
  - apply HBool.
  - apply HInt.
  - apply HStr.
  - apply HDatetime.
  - apply HTuple. induction l as [|x tl IHl]; constructor; [apply IH | exact IHl].
  - apply HList. induction l as [|x tl IHl]; constructor; [apply IH | exact IHl].
  - apply HDict. induction items as [|[k x] tl IHl]; constructor; [apply IH | exact IHl].
Qed.

Lemma map_ext_Forall {A B : Type} (f g : A -> B) (l : list A) :
  Forall (fun x => f x = g x) l -> map f l = map g l.
Proof. induction 1; simpl; congruence. Qed.

(** Reading back what was written gives the reloaded value. *)
Lemma load_dump (v : pyval) : Json.load (Json.dump_default_str v) = reloaded v.
Proof.
  induction v as [ | b | z | s | d | l IH | l IH | items IH ] using pyval_induction;
    simpl; try reflexivity.
  - f_equal. rewrite map_map. apply map_ext_Forall, IH.
  - f_equal. rewrite map_map. apply map_ext_Forall, IH.
  - f_equal. rewrite map_map. apply map_ext_Forall.
    eapply Forall_impl; [|exact IH]. intros [k x] H; simpl in *. now rewrite H.
Qed.

Lemma reloaded_native (v : pyval) : json_native v = true -> reloaded v = v.
Proof.
  induction v as [ | b | z | s | d | l IH | l IH | items IH ] using pyval_induction;
    simpl; try reflexivity; try discriminate.
  - intro H. f_equal. rewrite <- (map_id l) at 2. apply map_ext_Forall.
    rewrite Forall_forall in *. intros x Hx. apply IH; [exact Hx|].
    rewrite forallb_forall in H. apply H, Hx.
  - intro H. f_equal. rewrite <- (map_id items) at 2. apply map_ext_Forall.
    rewrite Forall_forall in *. intros [k x] Hx. simpl. f_equal.
    apply (IH _ Hx). rewrite forallb_forall in H. apply (H _ Hx).
Qed.

Lemma lookup_map (f : pyval -> pyval) (k : string) (items : dict) :
  lookup k (map (fun kv => (fst kv, f (snd kv))) items) = option_map f (lookup k items).
Proof.
  induction items as [|[k' x] tl IH]; simpl; [reflexivity|].
  destruct (String.eqb k k'); [reflexivity | exact IH].
Qed.

(** C4, amended.  A record with a message id is written to its file, and
    reading the file back gives the record with every value reloaded: each
    field is found again under its key; a value made of [None], booleans,
    integers, strings, lists and dicts comes back as it was; a timestamp
    comes back as the string that [str] gives it; and a pair of a name and an
    address comes back as the list of that name and that address. *)
Theorem C4_round_trip :
  forall (r : dict) (fs : Gmail.files) (i : string),
    get r "message_id" = PStr i ->
    i <> EmptyString ->
    exists r',
      import_ExtractedEmailData (PStr i) (Gmail.save_extracted_email_as_json r fs)
        = Some (PDict r') /\
      (forall k, lookup k r' = option_map reloaded (lookup k r)) /\
      (forall k v, lookup k r = Some v -> json_native v = true -> lookup k r' = Some v) /\
      (forall k d, lookup k r = Some (PDatetime d) ->
                   lookup k r' = Some (PStr (str_of_datetime d))) /\
      (forall k l, lookup k r = Some (Gmail.recipients_value l) ->
                   lookup k r' = Some (PList (map (fun p => PList [PStr (fst p); PStr (snd p)]) l))).
Proof.
  intros r fs i Hid Hi.
  exists (map (fun kv => (fst kv, reloaded (snd kv))) r).
  assert (Hl : forall k, lookup k (map (fun kv => (fst kv, reloaded (snd kv))) r)
                         = option_map reloaded (lookup k r)) by (intro k; apply lookup_map).
  split; [|split; [exact Hl | split; [|split]]].
  - unfold Gmail.save_extracted_email_as_json, import_ExtractedEmailData.
    rewrite Hid. simpl.
    destruct i as [|c i']; [contradiction|]. simpl.
    rewrite Ascii.eqb_refl, String.eqb_refl. simpl.
    f_equal. f_equal. rewrite map_map. apply map_ext_Forall, Forall_forall.
    intros [k x] _. simpl. now rewrite load_dump.
  - intros k v Hk Hn. rewrite Hl, Hk. simpl. now rewrite reloaded_native.
  - intros k d Hk. rewrite Hl, Hk. reflexivity.
  - intros k l Hk. rewrite Hl, Hk. simpl. unfold Gmail.recipients_value.
    rewrite map_map. reflexivity.
Qed.

Lemma C4_witness :
  exists r,
    Gmail.extract_email_data example_frames dated_message None = Ok r /\
    get r "message_id" = PStr "m1" /\
    "m1" <> EmptyString /\
    exists r',
      import_ExtractedEmailData (PStr "m1") (Gmail.save_extracted_email_as_json r [])
        = Some (PDict r') /\
      (forall k, lookup k r' = option_map reloaded (lookup k r)) /\
      (forall k v, lookup k r = Some v -> json_native v = true -> lookup k r' = Some v) /\
      (forall k d, lookup k r = Some (PDatetime d) ->
                   lookup k r' = Some (PStr (str_of_datetime d))) /\
      (forall k l, lookup k r = Some (Gmail.recipients_value l) ->
                   lookup k r' = Some (PList (map (fun p => PList [PStr (fst p); PStr (snd p)]) l))).
Proof.
  eexists. split; [vm_compute; reflexivity|].
  split; [reflexivity|]. split; [discriminate|].
  refine (C4_round_trip _ [] "m1" _ _); [reflexivity | discriminate].
Defined.

(** The record of a message with a date and a recipient: after the round
    trip the timestamp is a string and the recipient a list, neither equal
    to what the record held. *)
Lemma C4_counterexample :
  exists r r',
    Gmail.extract_email_data example_frames dated_message None = Ok r /\
    import_ExtractedEmailData (PStr "m1") (Gmail.save_extracted_email_as_json r [])
      = Some (PDict r') /\
    get r "sent_timestamp" = PDatetime apr15_pdt /\
    get r' "sent_timestamp" = PStr "2025-04-15 10:30:00-07:00" /\
    get r "to_recipients" = PList [PTuple [PStr "Bob"; PStr "bob@y.com"]] /\
    get r' "to_recipients" = PList [PList [PStr "Bob"; PStr "bob@y.com"]] /\
    PDict r' <> PDict r.
Proof.
  eexists. eexists.
  split; [vm_compute; reflexivity|].
  split; [vm_compute; reflexivity|].
  split; [reflexivity|]. split; [reflexivity|].
  split; [reflexivity|]. split; [reflexivity|].
  intro H. injection H as H. discriminate H.
Qed.

(* ------------------------------------------------------------------ *)
(** ** The transaction of [insert_message] *)

(** C6.  When a step of [insert_message] raises, inside the [try] or before
    it, the database is what it was before the call: what the transaction had
    written is undone by the rollback, and the connection sees the committed
    tables, or, for an exception before the [try], what it saw before.  On a
    connection without uncommitted changes the connection as a whole is as it
    was. *)
Theorem C6_failure_leaves_prior_state :
  forall (c : conn) (r : dict) (u : bool) (c' : option conn) (o : outcome),
    insert_message (Some c) r u = (c', o) ->
    (exists e, o = RolledBack e \/ o = Propagated e) ->
    exists c'',
      c' = Some c'' /\
      committed c'' = committed c /\
      (current c'' = committed c \/ current c'' = current c) /\
      (current c = committed c -> c'' = c).
Proof.
  intros [cm cu] r u c' o. unfold insert_message.
  destruct (if u then Ok false else _) as [[|]|e0];
    [| destruct (insert_message_body _ _ _) as [d [[]|e1]] |];
    intros [= <- <-] [e [H|H]]; try discriminate H; eexists;
    (split; [reflexivity|]); simpl;
    (split; [reflexivity|]); (split; [auto|]); intros ->; reflexivity.
Qed.

Lemma C6_witness :
  insert_message (Some fresh) (record_of no_from_message) true
    = (Some fresh, RolledBack IntegrityError) /\
  email_address (fst (insert_message_body (record_of no_from_message) (PStr "m1") empty_db))
    = [[SText "bob@y.com"; SText EmptyString]] /\
  exists c'',
    Some fresh = Some c'' /\
    committed c'' = committed fresh /\
    (current c'' = committed fresh \/ current c'' = current fresh) /\
    (current fresh = committed fresh -> c'' = fresh).
Proof.
  assert (H : insert_message (Some fresh) (record_of no_from_message) true
              = (Some fresh, RolledBack IntegrityError)) by (vm_compute; reflexivity).
  split; [exact H | split; [vm_compute; reflexivity |]].
  exact (C6_failure_leaves_prior_state fresh _ true _ _ H
           (ex_intro _ IntegrityError (or_introl eq_refl))).
Defined.

(* ------------------------------------------------------------------ *)
(** ** The routing headers *)

(** C2.  A record returned by [extract_email_data] has no key
    [routing_headers]: of the [Received] headers it keeps the first one only,
    as [date_received], and the rows that [insert_message] would write to
    [email_routing_headers] for it are none.  For the message of the example,
    which has two [Received] headers, the write commits one parent row and no
    routing row. *)
Theorem C2_routing_headers_are_not_extracted :
  (forall frames m raw r,
     Gmail.extract_email_data frames m raw = Ok r ->
     lookup "routing_headers" r = None /\
     get r "date_received" = of_opt_str (Gmail.get_header (headers_of m) "Received") /\
     rows_of Routing r = Ok []) /\
  (exists r c,
     Gmail.extract_email_data example_frames two_hops_message None = Ok r /\
     get r "date_received" = PStr "hop1" /\
     insert_message (Some fresh) r true = (Some c, Committed) /\
     List.length (with_key (SText "m1") (emails (committed c))) = 1 /\
     email_routing_headers (committed c) = []).
Proof.
  split.
  - intros frames m raw r H.
    destruct (extract_email_data_inv _ _ _ _ H)
      as (bt & bh & atts & adds & xs & ls & idms & rawv & _ & _ & _ & _ & _ & ->).
    repeat split; reflexivity.
  - eexists. eexists.
    split; [vm_compute; reflexivity|].
    split; [reflexivity|].
    split; [vm_compute; reflexivity|].
    split; reflexivity.
Qed.

Lemma C2_witness :
  Gmail.extract_email_data example_frames two_hops_message None = Ok (record_of two_hops_message) /\
  lookup "routing_headers" (record_of two_hops_message) = None /\
  get (record_of two_hops_message) "date_received"
    = of_opt_str (Gmail.get_header (headers_of two_hops_message) "Received") /\
  rows_of Routing (record_of two_hops_message) = Ok [].
Proof.
  assert (H : Gmail.extract_email_data example_frames two_hops_message None
              = Ok (record_of two_hops_message)) by (vm_compute; reflexivity).
  split; [exact H|].
  exact (proj1 C2_routing_headers_are_not_extracted example_frames two_hops_message None _ H).
Defined.

(* ------------------------------------------------------------------ *)
(** ** Writing a message twice *)

Lemma has_key_app (k : sqlval) (l1 l2 : list row) :
  has_key k (l1 ++ l2) = has_key k l1 || has_key k l2.
Proof. apply existsb_app. Qed.

Lemma sql_eq_true (a b : sqlval) : sql_eq a b = true -> a = b /\ b <> SNull.
Proof.
  destruct a, b; simpl; try discriminate; intro H.
  - apply Z.eqb_eq in H. subst. split; [reflexivity | discriminate].
  - apply String.eqb_eq in H. subst. split; [reflexivity | discriminate].
Qed.

Lemma sql_eq_text_refl (i : string) : sql_eq (SText i) (SText i) = true.
Proof. simpl. apply String.eqb_refl. Qed.

Lemma with_key_app (k : sqlval) (l1 l2 : list row) :
  with_key k (l1 ++ l2) = with_key k l1 ++ with_key k l2.
Proof. apply filter_app. Qed.

Lemma with_key_without_key (k : sqlval) (l : list row) :
  with_key k (without_key k l) = [].
Proof.
  unfold with_key, without_key.
  induction l as [|r tl IH]; simpl; [reflexivity|].
  destruct (sql_eq (col 0 r) k) eqn:E; simpl; [exact IH|].
  rewrite E. exact IH.
Qed.

Lemma with_key_all (k : sqlval) (l : list row) :
  Forall (fun r => sql_eq (col 0 r) k = true) l -> with_key k l = l.
Proof.
  unfold with_key. induction 1 as [|r tl Hr _ IH]; simpl; [reflexivity|].
  rewrite Hr, IH. reflexivity.
Qed.

Lemma has_key_false (k : sqlval) (l : list row) :
  has_key k l = false -> with_key k l = [].
Proof.
  unfold has_key, with_key. induction l as [|r tl IH]; simpl; [reflexivity|].
  destruct (sql_eq (col 0 r) k); simpl; [discriminate | exact IH].
Qed.

Lemma has_key_In (k : sqlval) (l : list row) :
  has_key k l = true <-> exists r, In r l /\ sql_eq (col 0 r) k = true.
Proof. apply existsb_exists. Qed.

Lemma without_key_incl (k : sqlval) (l : list row) : incl (without_key k l) l.
Proof. intros r Hr. apply filter_In in Hr. apply Hr. Qed.

Lemma all_children (t : child) : In t children.
Proof. destruct t; simpl; auto 6. Qed.

Lemma integrity_spec (d : db) :
  integrity d = true <->
  forall t c, In c (table t d) -> fk_ok (col 0 c) (emails d) = true.
Proof.
  unfold integrity. rewrite forallb_forall. split.
  - intros H t c Hc. specialize (H t (all_children t)).
    rewrite forallb_forall in H. apply H, Hc.
  - intros H t _. rewrite forallb_forall. intros c Hc. apply (H t c Hc).
Qed.

Lemma table_set_table_same (t : child) (rows : list row) (d : db) :
  table t (set_table t rows d) = rows.
Proof. destruct t; reflexivity. Qed.

Lemma table_set_table_other (t t' : child) (rows : list row) (d : db) :
  t' <> t -> table t' (set_table t rows d) = table t' d.
Proof. destruct t, t'; intro H; try reflexivity; contradiction. Qed.

Lemma emails_set_table (t : child) (rows : list row) (d : db) :
  emails (set_table t rows d) = emails d.
Proof. destruct t; reflexivity. Qed.

Lemma tbind_ok {A B : Type} (m : tx A) (f : A -> tx B) (d d' : db) (b : B) :
  tbind m f d = (d', Ok b) ->
  exists d1 a, m d = (d1, Ok a) /\ f a d1 = (d', Ok b).
Proof.
  unfold tbind. destruct (m d) as [d1 [a|e]]; [eauto | discriminate].
Qed.

Lemma lift_ok {A : Type} (r : result A) (d d' : db) (a : A) :
  lift r d = (d', Ok a) -> r = Ok a /\ d' = d.
Proof. unfold lift. intros [= <- ->]. auto. Qed.

(** Step 1 leaves the messages and their children alone. *)
Lemma ensure_address_frame (t : list pyval) (d d' : db) (res : result unit) :
  ensure_address t d = (d', res) ->
  emails d' = emails d /\ forall c, table c d' = table c d.
Proof.
  destruct t as [|name [|email [|x tl]]]; simpl;
    try (unfold lift; intros [= <- _]; auto).
  unfold tbind, lift, execute_total.
  destruct (bind_param email) as [e|]; [|intros [= <- _]; auto].
  destruct (bind_param name) as [n|]; [|intros [= <- _]; auto].
  intros [= <- _]. unfold insert_or_ignore_email_address.
  destruct (has_key _ _); [auto|]. split; [reflexivity | intros []; reflexivity].
Qed.

Lemma for_each_ensure_address_frame (ps : list (list pyval)) :
  forall d d' res,
    for_each ensure_address ps d = (d', res) ->
    emails d' = emails d /\ forall c, table c d' = table c d.
Proof.
  induction ps as [|t tl IH]; simpl; intros d d' res H.
  - unfold ret in H. injection H as <- _. auto.
  - unfold tbind in H. destruct (ensure_address t d) as [d1 [[]|e]] eqn:E.
    + destruct (ensure_address_frame _ _ _ _ E) as [He Ht].
      destruct (IH _ _ _ H) as [He' Ht'].
      split; [congruence | intro c; rewrite Ht', Ht; reflexivity].
    + injection H as <- _. apply (ensure_address_frame _ _ _ _ E).
Qed.

(** Step 2: what [INSERT OR REPLACE] makes of a database whose foreign keys
    hold.  The message has the new parent row and no other, and no child row
    is left of it: its former parent row took them along, and without a
    former parent row there were none. *)
Lemma parent_replaced (i : string) (rw : row) (d d' : db) :
  integrity d = true ->
  col 0 rw = SText i ->
  insert_or_replace_email rw d = Ok d' ->
  with_key (SText i) (emails d') = [rw] /\
  (forall t, with_key (SText i) (table t d') = []) /\
  integrity d' = true.
Proof.
  intros Hint Hk. rewrite integrity_spec in Hint.
  unfold insert_or_replace_email. rewrite Hk.
  assert (Hrw : with_key (SText i) [rw] = [rw]).
  { apply with_key_all. constructor; [|constructor]. rewrite Hk. apply sql_eq_text_refl. }
  destruct (has_key (SText i) (emails d)) eqn:Ehk.
  - destruct (fk_ok _ _); [|discriminate]. intros [= <-].
    split; [|split].
    + simpl. rewrite with_key_app, with_key_without_key, Hrw. reflexivity.
    + intros []; simpl; apply with_key_without_key.
    + apply integrity_spec. intros t c Hc.
      assert (Hc' : In c (without_key (SText i) (table t d))) by (destruct t; exact Hc).
      apply filter_In in Hc'. destruct Hc' as [Hin Hne].
      specialize (Hint t c Hin).
      cbn [emails set_emails].
      destruct (col 0 c) as [|z|s] eqn:Ec; [reflexivity| |];
        simpl in Hint |- *; rewrite has_key_app; apply orb_true_intro; left;
        apply has_key_In in Hint; destruct Hint as (p & Hp & Hpk);
        apply has_key_In; exists p; (split; [|exact Hpk]);
        apply filter_In; (split; [exact Hp|]);
        apply sql_eq_true in Hpk; destruct Hpk as [-> _]; exact Hne.
  - destruct (fk_ok _ _); [|discriminate]. intros [= <-].
    assert (Hnone : forall t, with_key (SText i) (table t d) = []).
    { intro t. unfold with_key.
      destruct (filter _ (table t d)) as [|c tl] eqn:Ef; [reflexivity|exfalso].
      assert (Hc : In c (filter (fun r => sql_eq (col 0 r) (SText i)) (table t d)))
        by (rewrite Ef; left; reflexivity).
      apply filter_In in Hc. destruct Hc as [Hin Hck].
      specialize (Hint t c Hin). apply sql_eq_true in Hck. destruct Hck as [Hck _].
      rewrite Hck in Hint. simpl in Hint. rewrite Ehk in Hint. discriminate Hint. }
    split; [|split].
    + simpl. rewrite with_key_app, (has_key_false _ _ Ehk), Hrw. reflexivity.
    + intro t. specialize (Hnone t). destruct t; exact Hnone.
    + apply integrity_spec. intros t c Hc.
      assert (Hc' : In c (table t d)) by (destruct t; exact Hc).
      specialize (Hint t c Hc').
      simpl. destruct (col 0 c); [reflexivity| |];
        simpl in Hint |- *; rewrite has_key_app, Hint; reflexivity.
Qed.

Lemma child_eq_dec (a b : child) : {a = b} + {a <> b}.
Proof. decide equality. Defined.

Lemma sql_eq_refl (k : sqlval) : k <> SNull -> sql_eq k k = true.
Proof.
  destruct k; simpl; intro H; [contradiction | apply Z.eqb_refl | apply String.eqb_refl].
Qed.

Lemma child_row_key (t : child) (i : string) (e : pyval) (rw : row) :
  child_row t (PStr i) e = Ok rw -> col 0 rw = SText i.
Proof.
  unfold child_row. intro H.
  destruct (mapM _ (child_columns t)) as [vals|]; [simpl in H | discriminate H].
  destruct (mapM bind_param vals) as [cols|]; [simpl in H | discriminate H].
  injection H as <-. reflexivity.
Qed.

Lemma email_row_key (r : dict) (i : string) (rw : row) :
  email_row r (PStr i) = Ok rw -> col 0 rw = SText i.
Proof.
  unfold email_row. intro H.
  destruct (Json.dumps _) as [to|]; [simpl in H | discriminate H].
  destruct (Json.dumps _) as [cc|]; [simpl in H | discriminate H].
  destruct (Json.dumps _) as [bcc|]; [simpl in H | discriminate H].
  bind_inv H. injection H as <-. reflexivity.
Qed.

(** The loop that inserts the rows of a collection appends them, in order,
    to the table of the collection. *)
Lemma insert_children_spec (t : child) (mid : pyval) :
  forall es d d',
    for_each (fun e => r <~ lift (child_row t mid e) ;; execute (insert_child t r)) es d
      = (d', Ok tt) ->
    exists rows,
      mapM (child_row t mid) es = Ok rows /\
      table t d' = table t d ++ rows /\
      emails d' = emails d /\
      (forall t', t' <> t -> table t' d' = table t' d).
Proof.
  induction es as [|e tl IH]; simpl; intros d d' H.
  - unfold ret in H. injection H as <-. exists []. rewrite app_nil_r. auto.
  - apply tbind_ok in H. destruct H as (d1 & [] & H1 & H2).
    apply tbind_ok in H1. destruct H1 as (d0 & rw & Hl & Hx).
    apply lift_ok in Hl. destruct Hl as [Hrow ->].
    unfold execute, insert_child in Hx.
    destruct (fk_ok _ _); [|discriminate Hx]. injection Hx as <-.
    destruct (IH _ _ H2) as (rows & Hm & Ht & He & Ho).
    exists (rw :: rows). rewrite Hrow, Hm. simpl. split; [reflexivity|].
    rewrite Ht, He, table_set_table_same, emails_set_table, <- app_assoc. simpl.
    split; [reflexivity | split; [reflexivity|]].
    intros t' Hne. rewrite (Ho t' Hne). apply table_set_table_other, Hne.
Qed.

Lemma rows_have_key (t : child) (i : string) (es : list pyval) (rows : list row) :
  mapM (child_row t (PStr i)) es = Ok rows ->
  Forall (fun r => col 0 r = SText i) rows.
Proof. apply mapM_Forall. intros e rw. apply child_row_key. Qed.

(** Step 3 for one of the first four collections. *)
Lemma replace_children_replaced (t : child) (r : dict) (i : string) (d d' : db) :
  get r "message_id" = PStr i ->
  t <> Authentication ->
  replace_children t r (PStr i) d = (d', Ok tt) ->
  exists rows, rows_of t r = Ok rows /\ replaced t (SText i) rows d d'.
Proof.
  intros Hid Hne H. unfold replace_children in H.
  apply tbind_ok in H. destruct H as (d1 & mid & Hb & H).
  apply lift_ok in Hb. destruct Hb as [Hb ->]. simpl in Hb. injection Hb as <-.
  apply tbind_ok in H. destruct H as (d2 & [] & Hdel & H).
  unfold execute_total in Hdel. injection Hdel as <-.
  apply tbind_ok in H. destruct H as (d3 & es & Hes & H).
  apply lift_ok in Hes. destruct Hes as [Hes ->].
  destruct (insert_children_spec _ _ _ _ _ H) as (rows & Hm & Ht & He & Ho).
  exists rows. split.
  - unfold rows_of, entries_of. rewrite Hid.
    destruct t; try contradiction; rewrite Hes; exact Hm.
  - unfold replaced, delete_children in *. simpl as_text in *.
    rewrite emails_set_table in He. rewrite table_set_table_same in Ht.
    split; [exact He | split; [|split]].
    + intros t' Hne'. rewrite (Ho t' Hne'). apply table_set_table_other, Hne'.
    + apply (rows_have_key _ _ _ _ Hm).
    + exists (without_key (SText i) (table t d)).
      split; [exact Ht | split; [apply without_key_incl|]].
      intros _. apply with_key_without_key.
Qed.

(** Step 3 for the authentication results. *)
Lemma replace_authentication_replaced (r : dict) (i : string) (d d' : db) :
  get r "message_id" = PStr i ->
  replace_authentication r (PStr i) d = (d', Ok tt) ->
  exists rows, rows_of Authentication r = Ok rows /\
               replaced Authentication (SText i) rows d d'.
Proof.
  intros Hid. unfold replace_authentication, rows_of, entries_of. rewrite Hid.
  destruct (truthy (get r "authentication_results")).
  - intro H.
    apply tbind_ok in H. destruct H as (d1 & mid & Hb & H).
    apply lift_ok in Hb. destruct Hb as [Hb ->]. simpl in Hb. injection Hb as <-.
    apply tbind_ok in H. destruct H as (d2 & [] & Hdel & H).
    unfold execute_total in Hdel. injection Hdel as <-.
    apply tbind_ok in H. destruct H as (d3 & rw & Hrow & H).
    apply lift_ok in Hrow. destruct Hrow as [Hrow ->].
    unfold execute, insert_child in H.
    destruct (fk_ok _ _); [|discriminate H]. injection H as <-.
    exists [rw]. split; [simpl; rewrite Hrow; reflexivity|].
    unfold replaced, delete_children. simpl as_text.
    split; [reflexivity | split; [|split]].
    + intros t' Hne'. destruct t'; try reflexivity; contradiction.
    + constructor; [apply (child_row_key _ _ _ _ Hrow) | constructor].
    + exists (without_key (SText i) (table Authentication d)).
      split; [reflexivity | split; [apply without_key_incl|]].
      intros _. apply with_key_without_key.
  - unfold ret. intros [= <-]. exists []. split; [reflexivity|].
    unfold replaced. split; [reflexivity | split; [reflexivity | split; [constructor|]]].
    exists (table Authentication d). rewrite app_nil_r.
    split; [reflexivity | split; [apply incl_refl | auto]].
Qed.

(** What a replacement does to the rows of the message in each table. *)
Lemma replaced_with_key (t : child) (k : sqlval) (rows : list row) (d d' : db) :
  replaced t k rows d d' ->
  k <> SNull ->
  with_key k (table t d) = [] ->
  forall t', with_key k (table t' d')
             = if child_eq_dec t' t then rows else with_key k (table t' d).
Proof.
  intros (He & Ho & Hk & kept & Ht & Hincl & Hnone) Hnn Hempty t'.
  destruct (child_eq_dec t' t) as [->|Hne].
  - rewrite Ht, with_key_app, (Hnone Hempty). simpl.
    apply with_key_all. eapply Forall_impl; [|exact Hk].
    intros rw ->. apply sql_eq_refl, Hnn.
  - rewrite (Ho t' Hne). reflexivity.
Qed.

Lemma replaced_integrity (t : child) (k : sqlval) (rows : list row) (d d' : db) :
  replaced t k rows d d' ->
  has_key k (emails d) = true ->
  integrity d = true ->
  integrity d' = true.
Proof.
  intros (He & Ho & Hk & kept & Ht & Hincl & _) Hp Hint.
  rewrite integrity_spec in *. intros t' c Hc. rewrite He.
  destruct (child_eq_dec t' t) as [->|Hne].
  - rewrite Ht in Hc. apply in_app_or in Hc. destruct Hc as [Hc|Hc].
    + apply (Hint t c), Hincl, Hc.
    + rewrite Forall_forall in Hk. rewrite (Hk c Hc).
      destruct k; [reflexivity | exact Hp | exact Hp].
  - rewrite (Ho t' Hne) in Hc. apply (Hint t' c Hc).
Qed.

Lemma replaced_emails (t : child) (k : sqlval) (rows : list row) (d d' : db) :
  replaced t k rows d d' -> emails d' = emails d.
Proof. intros [He _]. exact He. Qed.

Lemma with_key_has_key (k : sqlval) (l : list row) (rw : row) :
  with_key k l = [rw] -> has_key k l = true.
Proof.
  intro H. apply has_key_In. exists rw.
  assert (Hin : In rw (with_key k l)) by (rewrite H; left; reflexivity).
  apply filter_In in Hin. exact Hin.
Qed.

Ltac through W :=
  rewrite W;
  match goal with
  | |- context [child_eq_dec ?a ?b] =>
      let E := fresh "E" in
      destruct (child_eq_dec a b) as [E|E];
      [try discriminate E | try (exfalso; apply E; reflexivity)]
  end.

(** One committed write, on a database whose foreign keys hold: the message
    has the parent row of the record and no other, each table of children
    holds for it the rows of the record and no other, and the foreign keys
    still hold. *)
Lemma insert_message_body_spec (r : dict) (i : string) (d d' : db) :
  integrity d = true ->
  get r "message_id" = PStr i ->
  insert_message_body r (PStr i) d = (d', Ok tt) ->
  (exists rw, email_row r (PStr i) = Ok rw /\ with_key (SText i) (emails d') = [rw]) /\
  (forall t, exists rows, rows_of t r = Ok rows /\ with_key (SText i) (table t d') = rows) /\
  integrity d' = true.
Proof.
  intros Hint Hid H. unfold insert_message_body in H.
  apply tbind_ok in H. destruct H as (d0 & ps & Hps & H).
  apply lift_ok in Hps. destruct Hps as [Hps ->].
  apply tbind_ok in H. destruct H as (d1 & [] & Hfe & H).
  destruct (for_each_ensure_address_frame _ _ _ _ Hfe) as [He1 Ht1].
  assert (Hint1 : integrity d1 = true).
  { apply integrity_spec. intros t c Hc. rewrite He1. rewrite Ht1 in Hc.
    apply (proj1 (integrity_spec d) Hint t c Hc). }
  apply tbind_ok in H. destruct H as (d1' & rw & Hrow & H).
  apply lift_ok in Hrow. destruct Hrow as [Hrow ->].
  apply tbind_ok in H. destruct H as (d2 & [] & Hx & H).
  unfold execute in Hx.
  destruct (insert_or_replace_email rw d1) as [d2'|] eqn:Eins; [|discriminate Hx].
  injection Hx as <-.
  destruct (parent_replaced i rw d1 d2' Hint1 (email_row_key _ _ _ Hrow) Eins)
    as (Hp2 & Hc2 & Hint2).
  assert (Hnn : SText i <> SNull) by discriminate.
  apply tbind_ok in H. destruct H as (d3 & [] & HA & H).
  destruct (replace_children_replaced Attachments r i _ _ Hid ltac:(discriminate) HA)
    as (rowsA & HrA & RA).
  apply tbind_ok in H. destruct H as (d4 & [] & HX & H).
  destruct (replace_children_replaced XHeaders r i _ _ Hid ltac:(discriminate) HX)
    as (rowsX & HrX & RX).
  apply tbind_ok in H. destruct H as (d5 & [] & HL & H).
  destruct (replace_children_replaced Labels r i _ _ Hid ltac:(discriminate) HL)
    as (rowsL & HrL & RL).
  apply tbind_ok in H. destruct H as (d6 & [] & HR & H).
  destruct (replace_children_replaced Routing r i _ _ Hid ltac:(discriminate) HR)
    as (rowsR & HrR & RR).
  destruct (replace_authentication_replaced r i _ _ Hid H) as (rowsU & HrU & RU).
  pose proof (replaced_with_key _ _ _ _ _ RA Hnn (Hc2 Attachments)) as WA.
  assert (PX : with_key (SText i) (table XHeaders d3) = [])
    by (through WA; exact (Hc2 XHeaders)).
  pose proof (replaced_with_key _ _ _ _ _ RX Hnn PX) as WX.
  assert (PL : with_key (SText i) (table Labels d4) = [])
    by (through WX; through WA; exact (Hc2 Labels)).
  pose proof (replaced_with_key _ _ _ _ _ RL Hnn PL) as WL.
  assert (PR : with_key (SText i) (table Routing d5) = [])
    by (through WL; through WX; through WA; exact (Hc2 Routing)).
  pose proof (replaced_with_key _ _ _ _ _ RR Hnn PR) as WR.
  assert (PU : with_key (SText i) (table Authentication d6) = [])
    by (through WR; through WL; through WX; through WA; exact (Hc2 Authentication)).
  pose proof (replaced_with_key _ _ _ _ _ RU Hnn PU) as WU.
  pose proof (replaced_emails _ _ _ _ _ RA) as EA.
  pose proof (replaced_emails _ _ _ _ _ RX) as EX.
  pose proof (replaced_emails _ _ _ _ _ RL) as EL.
  pose proof (replaced_emails _ _ _ _ _ RR) as ER.
  pose proof (replaced_emails _ _ _ _ _ RU) as EU.
  pose proof (with_key_has_key _ _ _ Hp2) as K2.
  assert (K3 : has_key (SText i) (emails d3) = true) by (rewrite EA; exact K2).
  assert (K4 : has_key (SText i) (emails d4) = true) by (rewrite EX; exact K3).
  assert (K5 : has_key (SText i) (emails d5) = true) by (rewrite EL; exact K4).
  assert (K6 : has_key (SText i) (emails d6) = true) by (rewrite ER; exact K5).
  split; [|split].
  - exists rw. split; [exact Hrow|]. rewrite EU, ER, EL, EX, EA. exact Hp2.
  - intros t.
    destruct t; eexists; (split; [eassumption|]).
    + through WU. through WR. through WL. through WX. through WA. reflexivity.
    + through WU. through WR. through WL. through WX. reflexivity.
    + through WU. through WR. through WL. reflexivity.
    + through WU. through WR. reflexivity.
    + through WU. reflexivity.
  - apply (replaced_integrity _ _ _ _ _ RU K6).
    apply (replaced_integrity _ _ _ _ _ RR K5).
    apply (replaced_integrity _ _ _ _ _ RL K4).
    apply (replaced_integrity _ _ _ _ _ RX K3).
    apply (replaced_integrity _ _ _ _ _ RA K2).
    exact Hint2.
Qed.

(** C5, amended.  Two records of the message [i] are written one after the
    other, with [update_if_exists], on a connection whose tables satisfy
    their foreign keys, and the second write commits.  Then the message has one
    parent row, that of the second record, and in each of the five tables of
    children exactly the rows of the second record, in their order: no row
    of the first write is left, and none for the authentication results when
    the second record has none, because the replacement of the parent row
    took the former children along. *)
Theorem C5_second_write_replaces_first :
  forall (c0 c1 c2 : conn) (r1 r2 : dict) (i : string) (o1 : outcome),
    integrity (committed c0) = true ->
    integrity (current c0) = true ->
    get r1 "message_id" = PStr i ->
    get r2 "message_id" = PStr i ->
    insert_message (Some c0) r1 true = (Some c1, o1) ->
    insert_message (Some c1) r2 true = (Some c2, Committed) ->
    current c2 = committed c2 /\
    (exists rw, email_row r2 (PStr i) = Ok rw /\
                with_key (SText i) (emails (committed c2)) = [rw]) /\
    (forall t, exists rows,
        rows_of t r2 = Ok rows /\
        with_key (SText i) (table t (committed c2)) = rows).
Proof.
  intros c0 c1 c2 r1 r2 i o1 Hcm Hcu Hid1 Hid2 H1 H2.
  assert (Hint1 : integrity (current c1) = true).
  { unfold insert_message in H1. rewrite Hid1 in H1.
    destruct (insert_message_body r1 (PStr i) (current c0)) as [d [[]|e]] eqn:E1;
      injection H1 as <- _; simpl.
    - apply (insert_message_body_spec _ _ _ _ Hcu Hid1 E1).
    - exact Hcm. }
  unfold insert_message in H2. rewrite Hid2 in H2.
  destruct (insert_message_body r2 (PStr i) (current c1)) as [d [[]|e]] eqn:E2;
    [|discriminate H2].
  injection H2 as <-. simpl.
  destruct (insert_message_body_spec _ _ _ _ Hint1 Hid2 E2) as (Hp & Hc & _).
  split; [reflexivity | split; [exact Hp | exact Hc]].
Qed.

Lemma C5_witness :
  exists c1 c2,
    integrity (committed fresh) = true /\
    integrity (current fresh) = true /\
    get (record_of first_fetch) "message_id" = PStr "m1" /\
    get (record_of second_fetch) "message_id" = PStr "m1" /\
    insert_message (Some fresh) (record_of first_fetch) true = (Some c1, Committed) /\
    insert_message (Some c1) (record_of second_fetch) true = (Some c2, Committed) /\
    email_labels (committed c1) = [[SText "m1"; SText "INBOX"]] /\
    email_authentication (committed c1)
      = [[SText "m1"; SText "pass"; SText "x.com"; SNull; SNull; SNull; SNull; SNull]] /\
    email_labels (committed c2)
      = [[SText "m1"; SText "STARRED"]; [SText "m1"; SText "IMPORTANT"]] /\
    email_authentication (committed c2) = [] /\
    current c2 = committed c2 /\
    (exists rw, email_row (record_of second_fetch) (PStr "m1") = Ok rw /\
                with_key (SText "m1") (emails (committed c2)) = [rw]) /\
    (forall t, exists rows,
        rows_of t (record_of second_fetch) = Ok rows /\
        with_key (SText "m1") (table t (committed c2)) = rows).
Proof.
  eexists. eexists.
  split; [reflexivity|]. split; [reflexivity|].
  split; [vm_compute; reflexivity|]. split; [vm_compute; reflexivity|].
  split; [vm_compute; reflexivity|]. split; [vm_compute; reflexivity|].
  split; [reflexivity|]. split; [reflexivity|].
  split; [reflexivity|]. split; [reflexivity|].
  refine (C5_second_write_replaces_first fresh _ _ (record_of first_fetch)
            (record_of second_fetch) "m1" Committed _ _ _ _ _ _);
    vm_compute; reflexivity.
Defined.

(** Two records extracted from the message [m1] without a [From] header,
    written one after the other to an empty database: each write fails on
    the foreign key of the sender and is rolled back, so that no parent row
    is left for the message.  And when the first write is one that commits,
    the second leaves the rows of the first: the label of the first record
    is still there, that of the second is not. *)
Lemma C5_counterexample :
  Gmail.extract_email_data example_frames no_from_message None
    = Ok (record_of no_from_message) /\
  Gmail.extract_email_data example_frames no_from_relabelled None
    = Ok (record_of no_from_relabelled) /\
  get (record_of no_from_message) "message_id" = PStr "m1" /\
  get (record_of no_from_relabelled) "message_id" = PStr "m1" /\
  insert_message (Some fresh) (record_of no_from_message) true
    = (Some fresh, RolledBack IntegrityError) /\
  insert_message (Some fresh) (record_of no_from_relabelled) true
    = (Some fresh, RolledBack IntegrityError) /\
  with_key (SText "m1") (emails (committed fresh)) = [] /\
  with_key (SText "m1") (emails (current fresh)) = [] /\
  exists c1,
    insert_message (Some fresh) (record_of first_fetch) true = (Some c1, Committed) /\
    insert_message (Some c1) (record_of no_from_relabelled) true
      = (Some c1, RolledBack IntegrityError) /\
    rows_of Labels (record_of no_from_relabelled) = Ok [[SText "m1"; SText "STARRED"]] /\
    with_key (SText "m1") (email_labels (committed c1)) = [[SText "m1"; SText "INBOX"]].
Proof.
  repeat match goal with |- _ /\ _ => split; [vm_compute; reflexivity|] end.
  eexists. split; [vm_compute; reflexivity|].
  repeat split; vm_compute; reflexivity.
Qed.

(* ------------------------------------------------------------------ *)
(** ** A message without a sender *)

Lemma address_pair_of_recipient (n a : string) :
  address_pair (PTuple [PStr n; PStr a])
    = Ok (if Str.is_empty a then [] else [[PStr n; PStr a]]).
Proof. unfold address_pair. simpl. destruct (Str.is_empty a); reflexivity. Qed.

Lemma address_pairs_of_recipients (l : list (string * string)) :
  exists sel,
    mapM address_pair (map (fun r => PTuple [PStr (fst r); PStr (snd r)]) l) = Ok sel /\
    Forall named_address (List.concat sel).
Proof.
  induction l as [|[n a] tl (sel & Hs & Hf)]; simpl.
  - exists []. split; [reflexivity | constructor].
  - rewrite address_pair_of_recipient, Hs. simpl.
    eexists. split; [reflexivity|]. simpl.
    destruct (Str.is_empty a) eqn:Ea; simpl; [exact Hf|].
    constructor; [exists n, a; auto | exact Hf].
Qed.

Lemma set_of_Forall (Q : list pyval -> Prop) (l : list (list pyval)) :
  Forall Q l -> Forall Q (set_of l).
Proof.
  induction 1 as [|x tl Hx _ IH]; simpl; constructor; [exact Hx|].
  rewrite Forall_forall in *. intros y Hy. apply filter_In in Hy. apply IH, Hy.
Qed.

(** Making the addresses of the message known adds no row for the empty
    address, and cannot fail. *)
Lemma ensure_addresses_keep_empty_out (ps : list (list pyval)) :
  Forall named_address ps ->
  forall d, has_key (SText EmptyString) (email_address d) = false ->
  exists d', for_each ensure_address ps d = (d', Ok tt) /\
             has_key (SText EmptyString) (email_address d') = false.
Proof.
  induction 1 as [|t tl (n & a & -> & Ha) _ IH]; intros d Hd; simpl.
  - exists d. split; [reflexivity | exact Hd].
  - unfold tbind at 1. simpl.
    set (d1 := insert_or_ignore_email_address (SText a) (SText n) d).
    assert (H1 : has_key (SText EmptyString) (email_address d1) = false).
    { unfold d1, insert_or_ignore_email_address. simpl.
      destruct (has_key (SText a) (email_address d)); [exact Hd|].
      simpl. rewrite has_key_app, Hd. simpl.
      destruct a; [discriminate Ha | reflexivity]. }
    destruct (IH d1 H1) as (d' & Hf & Hk). exists d'. split; [exact Hf | exact Hk].
Qed.

(** The third column of the parent row is the bound [sender_email]. *)
Lemma email_row_sender (r : dict) (mid : pyval) (rw : row) :
  email_row r mid = Ok rw ->
  exists v, bind_param (get r "sender_email") = Ok v /\ col 2 rw = as_text v.
Proof.
  unfold email_row, text_columns. intro H. cbn [mapM] in H.
  destruct (Json.dumps _) as [to|]; [simpl in H | discriminate H].
  destruct (Json.dumps _) as [cc|]; [simpl in H | discriminate H].
  destruct (Json.dumps _) as [bcc|]; [simpl in H | discriminate H].
  destruct (bind_param mid) as [m|]; [simpl in H | discriminate H].
  destruct (bind_param (get r "thread_id")) as [v1|]; [simpl in H | discriminate H].
  destruct (bind_param (get r "sender_email")) as [v2|]; [simpl in H | discriminate H].
  destruct (bind_param (get r "subject")) as [v3|]; [simpl in H | discriminate H].
  destruct (bind_param (get r "body_text")) as [v4|]; [simpl in H | discriminate H].
  destruct (bind_param (get r "body_html")) as [v5|]; [simpl in H | discriminate H].
  destruct (bind_param (get r "sent_timestamp")) as [v6|]; [simpl in H | discriminate H].
  bind_inv H. injection H as <-.
  exists v2. split; reflexivity.
Qed.

(** C10, amended.  When the headers hold no [From], the record that
    [extract_email_data] returns has the empty string as [sender_email] and
    no [sender_name]; the parent row built from it has the empty string as
    its [sender_email]; [insert_message] does not register the empty address,
    so that, unless [email_address] already holds a row for it, the foreign
    key rejects the parent row and the write is rolled back; and a write that
    commits leaves a parent row whose [sender_email] is the empty string. *)
Theorem C10_message_without_sender :
  forall frames m raw r,
    Gmail.get_header (headers_of m) "From" = None ->
    Gmail.extract_email_data frames m raw = Ok r ->
    get r "sender_email" = PStr EmptyString /\
    get r "sender_name" = PNone /\
    (forall rw, email_row r (get r "message_id") = Ok rw -> col 2 rw = SText EmptyString) /\
    (forall c, has_key (SText EmptyString) (email_address (current c)) = false ->
       exists e, insert_message (Some c) r true = (Some (rollback c), RolledBack e)) /\
    (forall c c' i,
       Gmail.id m = Some i ->
       integrity (current c) = true ->
       insert_message (Some c) r true = (Some c', Committed) ->
       exists rw, with_key (SText i) (emails (committed c')) = [rw] /\
                  col 2 rw = SText EmptyString).
Proof.
  intros frames m raw r Hfrom H.
  destruct (extract_email_data_inv _ _ _ _ H)
    as (bt & bh & atts & adds & xs & ls & idms & rawv & _ & _ & _ & _ & _ & Hr).
  rewrite Hfrom in Hr. simpl in Hr.
  assert (Hse : get r "sender_email" = PStr EmptyString) by (rewrite Hr; reflexivity).
  assert (Hrow : forall rw mid, email_row r mid = Ok rw -> col 2 rw = SText EmptyString).
  { intros rw mid Hrw. destruct (email_row_sender _ _ _ Hrw) as (v & Hv & ->).
    rewrite Hse in Hv. injection Hv as <-. reflexivity. }
  split; [exact Hse | split; [rewrite Hr; reflexivity | split; [intros rw; apply Hrow|]]].
  split; [|intros c c' i Hi Hint Hw;
           assert (Hid : get r "message_id" = PStr i) by (rewrite Hr; cbn; rewrite Hi; reflexivity);
           unfold insert_message in Hw; rewrite Hid in Hw;
           destruct (insert_message_body r (PStr i) (current c)) as [d [[]|e]] eqn:Eb;
           [|discriminate Hw]; injection Hw as <-; simpl;
           destruct (insert_message_body_spec _ _ _ _ Hint Hid Eb) as ((rw & Hrw & Hk) & _ & _);
           exists rw; split; [exact Hk | apply (Hrow _ _ Hrw)]].
  intros c Hc.
  assert (Hpairs : exists ps, address_pairs r = Ok ps /\ Forall named_address ps).
  { unfold address_pairs. rewrite Hr. cbn [get_or get lookup String.eqb Ascii.eqb Bool.eqb].
    unfold Gmail.recipients_value. cbn [as_list bind].
    rewrite <- !map_app.
    destruct (address_pairs_of_recipients
                (Gmail.parse_recipients (Gmail.get_header (headers_of m) "To")
                 ++ Gmail.parse_recipients (Gmail.get_header (headers_of m) "Cc")
                 ++ Gmail.parse_recipients (Gmail.get_header (headers_of m) "Bcc")))
      as (sel & Hs & Hf).
    cbn [mapM]. rewrite Hs. simpl.
    eexists. split; [reflexivity|]. apply set_of_Forall, Hf. }
  destruct Hpairs as (ps & Hps & Hf).
  destruct (ensure_addresses_keep_empty_out ps Hf _ Hc) as (d1 & Hd1 & Hk1).
  unfold insert_message, insert_message_body.
  unfold tbind at 1. unfold lift at 1. rewrite Hps.
  unfold tbind at 1. rewrite Hd1.
  unfold tbind at 1. unfold lift at 1.
  destruct (email_row r (get r "message_id")) as [rw|e] eqn:Erow.
  - unfold tbind at 1. unfold execute at 1.
    assert (Hfail : insert_or_replace_email rw d1 = Raise IntegrityError).
    { unfold insert_or_replace_email. rewrite (Hrow _ _ Erow).
      assert (Ha : forall b : bool,
                 email_address (if b then delete_email_cascade (col 0 rw) d1 else d1)
                 = email_address d1) by (intros []; reflexivity).
      rewrite Ha. simpl. rewrite Hk1. reflexivity. }
    rewrite Hfail. exists IntegrityError. reflexivity.
  - exists e. reflexivity.
Qed.

Lemma C10_witness :
  Gmail.get_header (headers_of no_from_message) "From" = None /\
  Gmail.extract_email_data example_frames no_from_message None = Ok (record_of no_from_message) /\
  has_key (SText EmptyString) (email_address (current fresh)) = false /\
  get (record_of no_from_message) "sender_email" = PStr EmptyString /\
  get (record_of no_from_message) "sender_name" = PNone /\
  (forall rw, email_row (record_of no_from_message)
                        (get (record_of no_from_message) "message_id") = Ok rw ->
              col 2 rw = SText EmptyString) /\
  (forall c, has_key (SText EmptyString) (email_address (current c)) = false ->
     exists e, insert_message (Some c) (record_of no_from_message) true
               = (Some (rollback c), RolledBack e)) /\
  (forall c c' i,
     Gmail.id no_from_message = Some i ->
     integrity (current c) = true ->
     insert_message (Some c) (record_of no_from_message) true = (Some c', Committed) ->
     exists rw, with_key (SText i) (emails (committed c')) = [rw] /\
                col 2 rw = SText EmptyString).
Proof.
  assert (H1 : Gmail.get_header (headers_of no_from_message) "From" = None)
    by (vm_compute; reflexivity).
  assert (H2 : Gmail.extract_email_data example_frames no_from_message None = Ok (record_of no_from_message))
    by (vm_compute; reflexivity).
  split; [exact H1 | split; [exact H2 | split; [reflexivity|]]].
  exact (C10_message_without_sender example_frames no_from_message None _ H1 H2).
Defined.

(** The record of a message without [From], written to an empty database:
    the statement that inserts the parent row fails on the foreign key, the
    write is rolled back, and no parent row exists afterwards. *)
Lemma C10_counterexample :
  exists r,
    Gmail.extract_email_data example_frames no_from_message None = Ok r /\
    get r "sender_email" = PStr EmptyString /\
    insert_message (Some fresh) r true = (Some fresh, RolledBack IntegrityError) /\
    emails (current fresh) = [].
Proof.
  eexists. split; [vm_compute; reflexivity|].
  split; [reflexivity|]. split; [vm_compute; reflexivity | reflexivity].
Qed.

(** With the empty address registered beforehand, the same write commits,
    and the parent row has the empty string as its sender. *)
Example write_with_empty_address_registered :
  exists c',
    insert_message (Some seeded) (record_of no_from_message) true = (Some c', Committed) /\
    map (col 2) (emails (committed c')) = [SText EmptyString].
Proof. eexists. split; [vm_compute; reflexivity | reflexivity]. Qed.

(* ------------------------------------------------------------------ *)
(** ** What every run of the statements of [insert_message] keeps *)

Lemma keeps_ret {A : Type} (P : db -> db -> Prop) (a : A) :
  (forall d, P d d) -> keeps P (ret a).
Proof. intros Hr d d' res [= <- _]. apply Hr. Qed.

Lemma keeps_lift {A : Type} (P : db -> db -> Prop) (r : result A) :
  (forall d, P d d) -> keeps P (lift r).
Proof. intros Hr d d' res [= <- _]. apply Hr. Qed.

Lemma keeps_tbind {A B : Type} (P : db -> db -> Prop) (m : tx A) (f : A -> tx B) :
  (forall d1 d2 d3, P d1 d2 -> P d2 d3 -> P d1 d3) ->
  keeps P m -> (forall a, keeps P (f a)) -> keeps P (tbind m f).
Proof.
  intros Ht Hm Hf d d' res H. unfold tbind in H.
  destruct (m d) as [d1 [a|e]] eqn:E.
  - apply (Ht _ d1); [apply (Hm _ _ _ E) | apply (Hf a _ _ _ H)].
  - injection H as <- _. apply (Hm _ _ _ E).
Qed.

Lemma keeps_for_each {A : Type} (P : db -> db -> Prop) (f : A -> tx unit) (l : list A) :
  (forall d, P d d) ->
  (forall d1 d2 d3, P d1 d2 -> P d2 d3 -> P d1 d3) ->
  (forall x, keeps P (f x)) -> keeps P (for_each f l).
Proof.
  intros Hr Ht Hf. induction l as [|x tl IH]; simpl.
  - apply keeps_ret, Hr.
  - apply keeps_tbind; [exact Ht | apply Hf | intros _; exact IH].
Qed.

Lemma keeps_execute (P : db -> db -> Prop) (stmt : db -> result db) :
  (forall d, P d d) ->
  (forall d d', stmt d = Ok d' -> P d d') -> keeps P (execute stmt).
Proof.
  intros Hr Hs d d' res H. unfold execute in H.
  destruct (stmt d) as [d1|e] eqn:E; injection H as <- _; [apply Hs, E | apply Hr].
Qed.

Lemma keeps_execute_total (P : db -> db -> Prop) (stmt : db -> db) :
  (forall d, P d (stmt d)) -> keeps P (execute_total stmt).
Proof. intros Hs d d' res [= <- _]. apply Hs. Qed.

(** The first column of a row built for the message is the bound id. *)
Lemma email_row_key_bound (r : dict) (message_id : pyval) (rw : row) :
  email_row r message_id = Ok rw ->
  exists mid, bind_param message_id = Ok mid /\ col 0 rw = as_text mid.
Proof.
  unfold email_row. intro H.
  destruct (Json.dumps _) as [to|]; [simpl in H | discriminate H].
  destruct (Json.dumps _) as [cc|]; [simpl in H | discriminate H].
  destruct (Json.dumps _) as [bcc|]; [simpl in H | discriminate H].
  destruct (bind_param message_id) as [mid|]; [simpl in H | discriminate H].
  bind_inv H. injection H as <-. exists mid. split; reflexivity.
Qed.

Lemma child_row_key_bound (t : child) (message_id e : pyval) (rw : row) :
  child_row t message_id e = Ok rw ->
  exists mid, bind_param message_id = Ok mid /\ col 0 rw = as_text mid.
Proof.
  unfold child_row. intro H.
  destruct (mapM _ (child_columns t)) as [vals|]; [simpl in H | discriminate H].
  destruct (bind_param message_id) as [mid|]; [simpl in H | discriminate H].
  destruct (mapM bind_param vals) as [cols|]; [simpl in H | discriminate H].
  injection H as <-. exists mid. split; reflexivity.
Qed.

Lemma tbind_lift_cases {A B : Type} (r : result A) (f : A -> tx B) (d d' : db)
  (res : result B) :
  tbind (lift r) f d = (d', res) ->
  (exists a, r = Ok a /\ f a d = (d', res)) \/ d' = d.
Proof.
  unfold tbind, lift. destruct r as [a|e]; [eauto|].
  intros [= <- _]. right. reflexivity.
Qed.

Section Statements.

Variable P : db -> db -> Prop.
Variable email_data : dict.
Variable message_id : pyval.
Variable k : sqlval.

Hypothesis P_refl : forall d, P d d.
Hypothesis P_trans : forall d1 d2 d3, P d1 d2 -> P d2 d3 -> P d1 d3.
Hypothesis key : forall mid, bind_param message_id = Ok mid -> as_text mid = k.
Hypothesis P_address :
  forall e n d, P d (insert_or_ignore_email_address e n d).
Hypothesis P_parent :
  forall rw d d', col 0 rw = k -> insert_or_replace_email rw d = Ok d' -> P d d'.
Hypothesis P_delete :
  forall t mid d, as_text mid = k -> P d (delete_children t mid d).
Hypothesis P_child :
  forall t rw d d', col 0 rw = k -> insert_child t rw d = Ok d' -> P d d'.

Lemma ensure_address_keeps (t : list pyval) : keeps P (ensure_address t).
Proof.
  destruct t as [|name [|email [|x tl]]]; simpl; try (apply keeps_lift, P_refl).
  apply keeps_tbind; [exact P_trans | apply keeps_lift, P_refl | intro e].
  apply keeps_tbind; [exact P_trans | apply keeps_lift, P_refl | intro n].
  apply keeps_execute_total. intro d. apply P_address.
Qed.

Lemma insert_child_keeps (t : child) (e : pyval) :
  keeps P (tbind (lift (child_row t message_id e)) (fun r => execute (insert_child t r))).
Proof.
  intros d d' res H.
  apply tbind_lift_cases in H. destruct H as [(rw & E & H)| ->]; [|apply P_refl].
  destruct (child_row_key_bound _ _ _ _ E) as (mid & Hb & Hk).
  revert H. apply keeps_execute; [exact P_refl|].
  intros d0 d1. apply P_child. rewrite Hk. apply key, Hb.
Qed.

Lemma replace_children_keeps (t : child) :
  keeps P (replace_children t email_data message_id).
Proof.
  unfold replace_children. intros d d' res H.
  apply tbind_lift_cases in H. destruct H as [(mid & Eb & H)| ->]; [|apply P_refl].
  revert H. apply keeps_tbind; [exact P_trans | |intros _].
  - apply keeps_execute_total. intro d0. apply P_delete, key, Eb.
  - apply keeps_tbind; [exact P_trans | apply keeps_lift, P_refl | intro es].
    apply keeps_for_each; [exact P_refl | exact P_trans | apply insert_child_keeps].
Qed.

Lemma replace_authentication_keeps :
  keeps P (replace_authentication email_data message_id).
Proof.
  unfold replace_authentication.
  destruct (truthy (get email_data "authentication_results"));
    [|apply keeps_ret, P_refl].
  intros d d' res H.
  apply tbind_lift_cases in H. destruct H as [(mid & Eb & H)| ->]; [|apply P_refl].
  revert H. apply keeps_tbind; [exact P_trans | |intros _].
  - apply keeps_execute_total. intro d0. apply P_delete, key, Eb.
  - apply insert_child_keeps.
Qed.

Lemma children_steps_keeps : keeps P (children_steps email_data message_id).
Proof.
  unfold children_steps.
  repeat (apply keeps_tbind; [exact P_trans | apply replace_children_keeps | intros _]).
  apply replace_authentication_keeps.
Qed.

Lemma insert_message_body_keeps : keeps P (insert_message_body email_data message_id).
Proof.
  unfold insert_message_body.
  apply keeps_tbind; [exact P_trans | apply keeps_lift, P_refl | intro ps].
  apply keeps_tbind; [exact P_trans | |intros _].
  { apply keeps_for_each; [exact P_refl | exact P_trans | apply ensure_address_keeps]. }
  intros d d' res H.
  apply tbind_lift_cases in H. destruct H as [(rw & E & H)| ->]; [|apply P_refl].
  destruct (email_row_key_bound _ _ _ E) as (mid & Hb & Hk).
  revert H. apply keeps_tbind; [exact P_trans | |intros _].
  - apply keeps_execute; [exact P_refl|].
    intros d0 d1. apply P_parent. rewrite Hk. apply key, Hb.
  - apply children_steps_keeps.
Qed.

End Statements.
(* ------------------------------------------------------------------ *)
(** ** The foreign keys *)

Lemma consistent_spec (d : db) :
  consistent d = true <->
  (forall t c, In c (table t d) -> fk_ok (col 0 c) (emails d) = true) /\
  (forall r, In r (emails d) -> fk_ok (col 2 r) (email_address d) = true).
Proof.
  unfold consistent, sender_fk.
  rewrite andb_true_iff, integrity_spec, forallb_forall. reflexivity.
Qed.

Lemma fk_ok_app (v : sqlval) (l l' : list row) :
  fk_ok v l = true -> fk_ok v (l ++ l') = true.
Proof.
  destruct v; simpl; intro H; [reflexivity | |]; rewrite has_key_app, H; reflexivity.
Qed.

Lemma fk_ok_without_key (v k : sqlval) (l : list row) :
  fk_ok v l = true -> sql_eq v k = false -> fk_ok v (without_key k l) = true.
Proof.
  intros H Hk.
  assert (G : has_key v l = true -> has_key v (without_key k l) = true).
  { intro Hh. apply has_key_In in Hh. destruct Hh as (p & Hp & Hpv).
    apply has_key_In. exists p. split; [|exact Hpv].
    apply filter_In. split; [exact Hp|].
    apply sql_eq_true in Hpv. destruct Hpv as [-> _]. rewrite Hk. reflexivity. }
  destruct v; [reflexivity | apply G, H | apply G, H].
Qed.

Lemma table_cascade (t : child) (k : sqlval) (d : db) :
  table t (delete_email_cascade k d) = without_key k (table t d).
Proof. destruct t; reflexivity. Qed.

(** Deleting a parent row with its children breaks no foreign key. *)
Lemma cascade_consistent (k : sqlval) (d : db) :
  consistent d = true -> consistent (delete_email_cascade k d) = true.
Proof.
  rewrite !consistent_spec. intros [Hc Hs]. split.
  - intros t c Hin. rewrite table_cascade in Hin.
    apply filter_In in Hin. destruct Hin as [Hin Hne].
    cbn [emails delete_email_cascade].
    apply fk_ok_without_key; [apply (Hc t c Hin)|].
    destruct (sql_eq (col 0 c) k); [discriminate Hne | reflexivity].
  - intros r Hin. cbn [emails email_address delete_email_cascade] in *.
    apply Hs. apply (without_key_incl k _ r Hin).
Qed.

Lemma address_consistent (e n : sqlval) (d : db) :
  consistent d = true -> consistent (insert_or_ignore_email_address e n d) = true.
Proof.
  unfold insert_or_ignore_email_address.
  destruct (has_key _ _); [auto|].
  rewrite !consistent_spec. intros [Hc Hs]. split.
  - intros t c Hin. apply (Hc t c). destruct t; exact Hin.
  - intros r Hin. cbn [emails email_address set_email_address] in *.
    apply fk_ok_app, Hs, Hin.
Qed.

Lemma parent_consistent (rw : row) (d d' : db) :
  insert_or_replace_email rw d = Ok d' ->
  consistent d = true -> consistent d' = true.
Proof.
  unfold insert_or_replace_email. intros H Hd.
  set (d1 := if has_key (col 0 rw) (emails d)
             then delete_email_cascade (col 0 rw) d else d) in *.
  assert (H1 : consistent d1 = true).
  { unfold d1. destruct (has_key _ _); [apply cascade_consistent, Hd | exact Hd]. }
  destruct (fk_ok (col 2 rw) (email_address d1)) eqn:Ef; [|discriminate H].
  injection H as <-. apply consistent_spec in H1. destruct H1 as [Hc Hs].
  apply consistent_spec. split.
  - intros t c Hin. cbn [emails set_emails].
    apply fk_ok_app, (Hc t c). destruct t; exact Hin.
  - intros r Hin. cbn [emails email_address set_emails] in *.
    apply in_app_or in Hin. destruct Hin as [Hin|[<-|[]]]; [apply Hs, Hin | exact Ef].
Qed.

Lemma delete_children_consistent (t : child) (mid : sqlval) (d : db) :
  consistent d = true -> consistent (delete_children t mid d) = true.
Proof.
  rewrite !consistent_spec. intros [Hc Hs]. unfold delete_children. split.
  - intros t' c Hin. rewrite emails_set_table.
    destruct (child_eq_dec t' t) as [->|Hne].
    + rewrite table_set_table_same in Hin. apply (Hc t c), (without_key_incl _ _ c Hin).
    + rewrite (table_set_table_other _ _ _ _ Hne) in Hin. apply (Hc t' c Hin).
  - intros r Hin. rewrite emails_set_table in Hin.
    replace (email_address (set_table t (without_key (as_text mid) (table t d)) d))
      with (email_address d) by (destruct t; reflexivity).
    apply Hs, Hin.
Qed.

Lemma child_consistent (t : child) (rw : row) (d d' : db) :
  insert_child t rw d = Ok d' ->
  consistent d = true -> consistent d' = true.
Proof.
  unfold insert_child. destruct (fk_ok (col 0 rw) (emails d)) eqn:Ef; [|discriminate].
  intros [= <-]. rewrite !consistent_spec. intros [Hc Hs]. split.
  - intros t' c Hin. rewrite emails_set_table.
    destruct (child_eq_dec t' t) as [->|Hne].
    + rewrite table_set_table_same in Hin.
      apply in_app_or in Hin. destruct Hin as [Hin|[<-|[]]]; [apply (Hc t c Hin) | exact Ef].
    + rewrite (table_set_table_other _ _ _ _ Hne) in Hin. apply (Hc t' c Hin).
  - intros r Hin. rewrite emails_set_table in Hin.
    replace (email_address (set_table t (table t d ++ [rw]) d))
      with (email_address d) by (destruct t; reflexivity).
    apply Hs, Hin.
Qed.

Lemma insert_message_body_consistent (r : dict) (message_id : pyval) :
  keeps (fun d d' => consistent d = true -> consistent d' = true)
        (insert_message_body r message_id).
Proof.
  apply (insert_message_body_keeps _ r message_id
           (match bind_param message_id with Ok mid => as_text mid | Raise _ => SNull end)).
  - auto.
  - auto.
  - intros mid ->. reflexivity.
  - intros e n d. apply address_consistent.
  - intros rw d d' _. apply parent_consistent.
  - intros t mid d _. apply delete_children_consistent.
  - intros t rw d d' _. apply child_consistent.
Qed.

(** X1.  [insert_message] keeps the foreign keys: on a connection whose
    tables, committed and current, satisfy the foreign key of every child
    table and that of [sender_email], they are satisfied again after the
    call, whatever the record, the flag and the outcome. *)
Theorem insert_message_keeps_foreign_keys :
  forall (c c' : conn) (r : dict) (u : bool) (o : outcome),
    consistent (committed c) = true ->
    consistent (current c) = true ->
    insert_message (Some c) r u = (Some c', o) ->
    consistent (committed c') = true /\ consistent (current c') = true.
Proof.
  intros c c' r u o Hcm Hcu H. unfold insert_message in H.
  destruct (if u then Ok false
            else bind (bind_param (get r "message_id"))
                      (fun mid => Ok (select_email_exists mid (current c))))
    as [[|]|e]; try (injection H as <- _; auto).
  destruct (insert_message_body r (get r "message_id") (current c)) as [d res] eqn:E.
  pose proof (insert_message_body_consistent _ _ _ _ _ E Hcu) as Hd.
  destruct res as [[]|e]; injection H as <- _; simpl; auto.
Qed.

Lemma insert_message_keeps_foreign_keys_witness :
  exists c',
    consistent (committed fresh) = true /\
    consistent (current fresh) = true /\
    insert_message (Some fresh) (record_of first_fetch) true = (Some c', Committed) /\
    consistent (committed c') = true /\ consistent (current c') = true.
Proof.
  eexists.
  split; [reflexivity|]. split; [reflexivity|].
  split; [vm_compute; reflexivity|].
  refine (insert_message_keeps_foreign_keys fresh _ (record_of first_fetch) true
            Committed _ _ _); vm_compute; reflexivity.
Defined.
(* ------------------------------------------------------------------ *)
(** ** The rows of the other messages *)

Lemma without_key_idem (k : sqlval) (l : list row) :
  without_key k (without_key k l) = without_key k l.
Proof.
  unfold without_key. induction l as [|r tl IH]; simpl; [reflexivity|].
  destruct (sql_eq (col 0 r) k) eqn:E; simpl; [exact IH|].
  rewrite E. simpl. rewrite IH. reflexivity.
Qed.

Lemma without_key_app (k : sqlval) (l1 l2 : list row) :
  without_key k (l1 ++ l2) = without_key k l1 ++ without_key k l2.
Proof. apply filter_app. Qed.

Lemma without_key_own (k : sqlval) (rw : row) (l : list row) :
  k <> SNull -> col 0 rw = k -> without_key k (l ++ [rw]) = without_key k l.
Proof.
  intros Hk Hrw. rewrite without_key_app. unfold without_key at 2. simpl.
  rewrite Hrw, (sql_eq_refl k Hk). simpl. apply app_nil_r.
Qed.

Lemma others_untouched_refl (k : sqlval) (d : db) : others_untouched k d d.
Proof. split; reflexivity. Qed.

Lemma others_untouched_trans (k : sqlval) (d1 d2 d3 : db) :
  others_untouched k d1 d2 -> others_untouched k d2 d3 -> others_untouched k d1 d3.
Proof.
  intros [He Ht] [He' Ht']. split; [congruence|].
  intro t. rewrite Ht', Ht. reflexivity.
Qed.

Lemma cascade_others (k : sqlval) (d : db) :
  others_untouched k d (delete_email_cascade k d).
Proof.
  split; [apply without_key_idem|].
  intro t. rewrite table_cascade. apply without_key_idem.
Qed.

Lemma parent_others (k : sqlval) (rw : row) (d d' : db) :
  k <> SNull -> col 0 rw = k ->
  insert_or_replace_email rw d = Ok d' -> others_untouched k d d'.
Proof.
  intros Hk Hrw. unfold insert_or_replace_email. rewrite Hrw.
  set (d1 := if has_key k (emails d) then delete_email_cascade k d else d).
  assert (H1 : others_untouched k d d1).
  { unfold d1. destruct (has_key _ _); [apply cascade_others | apply others_untouched_refl]. }
  destruct (fk_ok _ _); [|discriminate]. intros [= <-].
  apply (others_untouched_trans _ _ d1); [exact H1|].
  split.
  - cbn [emails set_emails]. apply without_key_own; assumption.
  - intro t. destruct t; reflexivity.
Qed.

Lemma delete_children_others (k : sqlval) (t : child) (mid : sqlval) (d : db) :
  as_text mid = k -> others_untouched k d (delete_children t mid d).
Proof.
  intros <-. unfold delete_children. split.
  - rewrite emails_set_table. reflexivity.
  - intro t'. destruct (child_eq_dec t' t) as [->|Hne].
    + rewrite table_set_table_same. apply without_key_idem.
    + rewrite (table_set_table_other _ _ _ _ Hne). reflexivity.
Qed.

Lemma child_others (k : sqlval) (t : child) (rw : row) (d d' : db) :
  k <> SNull -> col 0 rw = k ->
  insert_child t rw d = Ok d' -> others_untouched k d d'.
Proof.
  intros Hk Hrw. unfold insert_child. destruct (fk_ok _ _); [|discriminate].
  intros [= <-]. split.
  - rewrite emails_set_table. reflexivity.
  - intro t'. destruct (child_eq_dec t' t) as [->|Hne].
    + rewrite table_set_table_same. apply without_key_own; assumption.
    + rewrite (table_set_table_other _ _ _ _ Hne). reflexivity.
Qed.

Lemma address_others (k e n : sqlval) (d : db) :
  others_untouched k d (insert_or_ignore_email_address e n d).
Proof.
  unfold insert_or_ignore_email_address.
  destruct (has_key _ _); [apply others_untouched_refl|].
  split; [reflexivity | intros []; reflexivity].
Qed.

Lemma insert_message_body_others (r : dict) (i : string) :
  keeps (others_untouched (SText i)) (insert_message_body r (PStr i)).
Proof.
  assert (Hk : SText i <> SNull) by discriminate.
  apply (insert_message_body_keeps _ r (PStr i) (SText i)).
  - apply others_untouched_refl.
  - apply others_untouched_trans.
  - intros mid [= <-]. reflexivity.
  - intros e n d. apply address_others.
  - intros rw d d'. apply parent_others, Hk.
  - intros t mid d. apply delete_children_others.
  - intros t rw d d'. apply child_others, Hk.
Qed.

(** X2.  A write for the message [i] touches the rows of no other message: on
    a connection without an open transaction, whatever the outcome of
    [insert_message], the rows of [emails] and of each of the five tables of
    children whose message id is not [i] are afterwards what they were, in
    their order, and no transaction is left open. *)
Theorem insert_message_leaves_other_messages :
  forall (c c' : conn) (r : dict) (u : bool) (i : string) (o : outcome),
    get r "message_id" = PStr i ->
    current c = committed c ->
    insert_message (Some c) r u = (Some c', o) ->
    current c' = committed c' /\
    without_key (SText i) (emails (current c'))
      = without_key (SText i) (emails (current c)) /\
    forall t, without_key (SText i) (table t (current c'))
              = without_key (SText i) (table t (current c)).
Proof.
  intros c c' r u i o Hid Hc H. unfold insert_message in H. rewrite Hid in H.
  destruct (if u then Ok false
            else bind (bind_param (PStr i))
                      (fun mid => Ok (select_email_exists mid (current c))))
    as [[|]|e]; try (injection H as <- _; auto).
  destruct (insert_message_body r (PStr i) (current c)) as [d res] eqn:E.
  pose proof (insert_message_body_others _ _ _ _ _ E) as [He Ht].
  destruct res as [[]|e]; injection H as <- _; simpl.
  - auto.
  - rewrite <- Hc. auto.
Qed.

Lemma insert_message_leaves_other_messages_witness :
  exists c1 c2,
    insert_message (Some fresh) (record_of first_fetch) true = (Some c1, Committed) /\
    get (record_of other_fetch) "message_id" = PStr "m2" /\
    current c1 = committed c1 /\
    insert_message (Some c1) (record_of other_fetch) true = (Some c2, Committed) /\
    email_labels (current c2) = [[SText "m1"; SText "INBOX"]; [SText "m2"; SText "SPAM"]] /\
    current c2 = committed c2 /\
    without_key (SText "m2") (emails (current c2))
      = without_key (SText "m2") (emails (current c1)) /\
    forall t, without_key (SText "m2") (table t (current c2))
              = without_key (SText "m2") (table t (current c1)).
Proof.
  eexists. eexists.
  split; [vm_compute; reflexivity|].
  split; [vm_compute; reflexivity|].
  split; [reflexivity|].
  split; [vm_compute; reflexivity|].
  split; [reflexivity|].
  refine (insert_message_leaves_other_messages _ _ (record_of other_fetch) true "m2"
            Committed _ _ _); vm_compute; reflexivity.
Defined.

(* ------------------------------------------------------------------ *)
(** ** The table of the addresses *)

Lemma addresses_extended_refl (d : db) : addresses_extended d d.
Proof. exists []. rewrite app_nil_r. split; [reflexivity | constructor]. Qed.

Lemma addresses_extended_trans (d1 d2 d3 : db) :
  addresses_extended d1 d2 -> addresses_extended d2 d3 -> addresses_extended d1 d3.
Proof.
  intros (a1 & E1 & F1) (a2 & E2 & F2). exists (a1 ++ a2).
  rewrite E2, E1, app_assoc. split; [reflexivity|].
  apply Forall_app. split; [exact F1|].
  eapply Forall_impl; [|exact F2]. intros a Ha. cbv beta in Ha.
  rewrite E1, has_key_app in Ha. apply orb_false_elim in Ha. apply Ha.
Qed.

Lemma addresses_extended_same (d d' : db) :
  email_address d' = email_address d -> addresses_extended d d'.
Proof. intro H. exists []. rewrite app_nil_r. split; [exact H | constructor]. Qed.

Lemma address_extended (e n : sqlval) (d : db) :
  addresses_extended d (insert_or_ignore_email_address e n d).
Proof.
  unfold insert_or_ignore_email_address.
  destruct (has_key (as_text e) (email_address d)) eqn:E;
    [apply addresses_extended_refl|].
  exists [[as_text e; as_text n]]. split; [reflexivity|].
  constructor; [exact E | constructor].
Qed.

Lemma insert_message_body_addresses (r : dict) (message_id : pyval) :
  keeps addresses_extended (insert_message_body r message_id).
Proof.
  apply (insert_message_body_keeps _ r message_id
           (match bind_param message_id with Ok mid => as_text mid | Raise _ => SNull end)).
  - apply addresses_extended_refl.
  - apply addresses_extended_trans.
  - intros mid ->. reflexivity.
  - apply address_extended.
  - intros rw d d' _. unfold insert_or_replace_email.
    destruct (fk_ok _ _); [|discriminate]. intros [= <-].
    apply addresses_extended_same. destruct (has_key _ _); reflexivity.
  - intros t mid d _. apply addresses_extended_same. destruct t; reflexivity.
  - intros t rw d d' _. unfold insert_child.
    destruct (fk_ok _ _); [|discriminate]. intros [= <-].
    apply addresses_extended_same. destruct t; reflexivity.
Qed.

(** X3.  A committed write only appends to [email_address]: the table holds
    afterwards the rows it held, unchanged and in place, so that an address
    known before keeps the display name it had, followed by rows for
    addresses it did not hold. *)
Theorem insert_message_extends_addresses :
  forall (c c' : conn) (r : dict) (u : bool),
    insert_message (Some c) r u = (Some c', Committed) ->
    exists added,
      email_address (committed c') = email_address (current c) ++ added /\
      Forall (fun a => has_key (col 0 a) (email_address (current c)) = false) added.
Proof.
  intros c c' r u H. unfold insert_message in H.
  destruct (if u then Ok false
            else bind (bind_param (get r "message_id"))
                      (fun mid => Ok (select_email_exists mid (current c))))
    as [[|]|e]; try discriminate H.
  destruct (insert_message_body r (get r "message_id") (current c)) as [d res] eqn:E.
  pose proof (insert_message_body_addresses _ _ _ _ _ E) as Hd.
  destruct res as [[]|e]; [|discriminate H]. injection H as <-. exact Hd.
Qed.

Lemma insert_message_extends_addresses_witness :
  exists c1 c2 added,
    insert_message (Some fresh) (record_of first_fetch) true = (Some c1, Committed) /\
    insert_message (Some c1) (record_of renamed_fetch) true = (Some c2, Committed) /\
    email_address (committed c2)
      = [[SText "alice@x.com"; SText "Alice"]; [SText "bob@y.com"; SText "Bob"]] /\
    email_address (committed c2) = email_address (current c1) ++ added /\
    Forall (fun a => has_key (col 0 a) (email_address (current c1)) = false) added.
Proof.
  eexists. eexists.
  assert (H1 : insert_message (Some fresh) (record_of first_fetch) true
               = (Some (commit (Conn empty_db
                     (fst (insert_message_body (record_of first_fetch) (PStr "m1") empty_db)))),
                  Committed)) by (vm_compute; reflexivity).
  set (c1 := commit (Conn empty_db
                (fst (insert_message_body (record_of first_fetch) (PStr "m1") empty_db)))) in *.
  assert (H2 : insert_message (Some c1) (record_of renamed_fetch) true
               = (Some (commit (Conn (committed c1)
                     (fst (insert_message_body (record_of renamed_fetch) (PStr "m1")
                             (current c1))))),
                  Committed)) by (vm_compute; reflexivity).
  destruct (insert_message_extends_addresses c1 _ (record_of renamed_fetch) true H2)
    as (added & Ha & Hf).
  exists added.
  split; [exact H1|]. split; [exact H2|]. split; [vm_compute; reflexivity|].
  split; [exact Ha | exact Hf].
Defined.
(* ------------------------------------------------------------------ *)
(** ** A write that commits *)

(** The steps of a write that commits. *)
Lemma insert_message_body_ok (r : dict) (message_id : pyval) (d d' : db) :
  insert_message_body r message_id d = (d', Ok tt) ->
  exists ps d1 rw d2,
    address_pairs r = Ok ps /\
    for_each ensure_address ps d = (d1, Ok tt) /\
    email_row r message_id = Ok rw /\
    insert_or_replace_email rw d1 = Ok d2 /\
    children_steps r message_id d2 = (d', Ok tt).
Proof.
  intro H. unfold insert_message_body in H.
  apply tbind_ok in H. destruct H as (d0 & ps & Hps & H).
  apply lift_ok in Hps. destruct Hps as [Hps ->].
  apply tbind_ok in H. destruct H as (d1 & [] & Hfe & H).
  apply tbind_ok in H. destruct H as (d1' & rw & Hrow & H).
  apply lift_ok in Hrow. destruct Hrow as [Hrow ->].
  apply tbind_ok in H. destruct H as (d2 & [] & Hx & H).
  unfold execute in Hx.
  destruct (insert_or_replace_email rw d1) as [d2'|] eqn:Eins; [|discriminate Hx].
  injection Hx as <-.
  exists ps, d1, rw, d2'. auto.
Qed.

Lemma insert_message_committed (c c' : conn) (r : dict) (u : bool) :
  insert_message (Some c) r u = (Some c', Committed) ->
  insert_message_body r (get r "message_id") (current c) = (committed c', Ok tt) /\
  current c' = committed c'.
Proof.
  unfold insert_message.
  destruct (if u then Ok false
            else bind (bind_param (get r "message_id"))
                      (fun mid => Ok (select_email_exists mid (current c))))
    as [[|]|e]; try discriminate.
  destruct (insert_message_body r (get r "message_id") (current c)) as [d [[]|e]];
    [|discriminate].
  intros [= <-]. split; reflexivity.
Qed.

(** Step 3 touches neither [emails] nor [email_address]. *)
Lemma children_steps_parents (r : dict) (message_id : pyval) :
  keeps (fun d d' => emails d' = emails d /\ email_address d' = email_address d)
        (children_steps r message_id).
Proof.
  apply (children_steps_keeps _ r message_id
           (match bind_param message_id with Ok mid => as_text mid | Raise _ => SNull end)).
  - auto.
  - intros d1 d2 d3 [H1 H2] [H3 H4]. split; congruence.
  - intros mid ->. reflexivity.
  - intros t mid d _. unfold delete_children. rewrite emails_set_table.
    split; [reflexivity | destruct t; reflexivity].
  - intros t rw d d' _. unfold insert_child.
    destruct (fk_ok _ _); [|discriminate]. intros [= <-].
    rewrite emails_set_table. split; [reflexivity | destruct t; reflexivity].
Qed.

(** After a write that commits, the message has a parent row. *)
Lemma insert_message_body_parent (r : dict) (i : string) (d d' : db) :
  insert_message_body r (PStr i) d = (d', Ok tt) ->
  has_key (SText i) (emails d') = true.
Proof.
  intro H. apply insert_message_body_ok in H.
  destruct H as (ps & d1 & rw & d2 & _ & _ & Hrow & Hins & Hch).
  destruct (children_steps_parents _ _ _ _ _ Hch) as [He _]. rewrite He.
  apply email_row_key in Hrow.
  unfold insert_or_replace_email in Hins.
  destruct (fk_ok _ _); [|discriminate Hins]. injection Hins as <-.
  cbn [emails set_emails]. rewrite has_key_app.
  apply orb_true_intro. right. simpl. rewrite Hrow, sql_eq_text_refl. reflexivity.
Qed.

(** X4.  Without [update_if_exists], a message that a write has stored is
    left alone: after a committed write of a record of the message [i], a
    call of [insert_message] for any record of that message with
    [update_if_exists=False] is skipped and leaves the connection as it
    is. *)
Theorem insert_message_skips_stored_message :
  forall (c c1 : conn) (r1 r2 : dict) (u : bool) (i : string),
    get r1 "message_id" = PStr i ->
    get r2 "message_id" = PStr i ->
    insert_message (Some c) r1 u = (Some c1, Committed) ->
    insert_message (Some c1) r2 false = (Some c1, Skipped).
Proof.
  intros c c1 r1 r2 u i Hid1 Hid2 H.
  apply insert_message_committed in H. destruct H as [Hb Hc]. rewrite Hid1 in Hb.
  apply insert_message_body_parent in Hb.
  unfold insert_message. rewrite Hid2. cbn [bind_param bind].
  unfold select_email_exists. cbn [as_text]. rewrite Hc, Hb. reflexivity.
Qed.

Lemma insert_message_skips_stored_message_witness :
  exists c1,
    get (record_of first_fetch) "message_id" = PStr "m1" /\
    get (record_of second_fetch) "message_id" = PStr "m1" /\
    insert_message (Some fresh) (record_of first_fetch) false = (Some c1, Committed) /\
    email_labels (current c1) = [[SText "m1"; SText "INBOX"]] /\
    insert_message (Some c1) (record_of second_fetch) false = (Some c1, Skipped).
Proof.
  eexists.
  split; [vm_compute; reflexivity|]. split; [vm_compute; reflexivity|].
  split; [vm_compute; reflexivity|]. split; [reflexivity|].
  refine (insert_message_skips_stored_message fresh _ (record_of first_fetch)
            (record_of second_fetch) false "m1" _ _ _); vm_compute; reflexivity.
Defined.

(* ------------------------------------------------------------------ *)
(** ** The addresses that a write registers *)

Lemma has_key_extended (k : sqlval) (d d' : db) :
  addresses_extended d d' ->
  has_key k (email_address d) = true -> has_key k (email_address d') = true.
Proof.
  intros (added & -> & _) H. rewrite has_key_app, H. reflexivity.
Qed.

Lemma eqb_str_inv (v : pyval) (a : string) :
  Py.eqb v (PStr a) = true -> v = PStr a.
Proof.
  destruct v; simpl; try discriminate. intro H. apply String.eqb_eq in H. congruence.
Qed.

(** A pair with the address [a] stays in the set of the pairs, possibly
    under a name that compares equal. *)
Lemma set_of_address (a : string) (l : list (list pyval)) :
  (exists v, In [v; PStr a] l) -> exists v, In [v; PStr a] (set_of l).
Proof.
  induction l as [|x tl IH]; intros (v & Hin); [destruct Hin|].
  change (set_of (x :: tl))
    with (x :: filter (fun y => negb (Py.eqb (PTuple x) (PTuple y))) (set_of tl)).
  destruct Hin as [->|Hin]; [exists v; left; reflexivity|].
  destruct (IH (ex_intro _ v Hin)) as (v' & Hv').
  destruct (Py.eqb (PTuple x) (PTuple [v'; PStr a])) eqn:E.
  - destruct x as [|x1 [|x2 [|x3 tl']]]; simpl in E; try discriminate E;
      try (rewrite !andb_false_r in E; discriminate E).
    apply andb_true_iff in E. destruct E as [_ E].
    apply andb_true_iff in E. destruct E as [E _].
    apply eqb_str_inv in E. subst x2. exists x1. left. reflexivity.
  - exists v'. right. apply filter_In. split; [exact Hv'|]. rewrite E. reflexivity.
Qed.

Lemma mapM_In {A B : Type} (f : A -> result B) :
  forall l ys x, mapM f l = Ok ys -> In x l -> exists y, f x = Ok y /\ In y ys.
Proof.
  induction l as [|x0 tl IH]; simpl; intros ys x H Hin; [destruct Hin|].
  destruct (f x0) as [y0|] eqn:E; [simpl in H | discriminate H].
  destruct (mapM f tl) as [ys0|] eqn:E0; [simpl in H | discriminate H].
  injection H as <-. destruct Hin as [->|Hin].
  - exists y0. split; [exact E | left; reflexivity].
  - destruct (IH _ _ eq_refl Hin) as (y & Hy & Hiny).
    exists y. split; [exact Hy | right; exact Hiny].
Qed.

(** What [tuple(i) for i in ... if i and i[1]] makes of a pair, tuple or
    list, whose address is a non-empty string. *)
Lemma address_pair_selected (x v : pyval) (a : string) (y : list (list pyval)) :
  x = PTuple [v; PStr a] \/ x = PList [v; PStr a] ->
  Str.is_empty a = false ->
  address_pair x = Ok y -> y = [[v; PStr a]].
Proof.
  intros Hx Ha. unfold address_pair.
  destruct Hx as [-> | ->]; simpl; rewrite Ha; simpl;
    destruct (hashable v && true); intros [= <-]; reflexivity.
Qed.

Lemma ensure_address_registers (ps : list (list pyval)) :
  forall d d1,
    for_each ensure_address ps d = (d1, Ok tt) ->
    forall v a, In [v; PStr a] ps -> has_key (SText a) (email_address d1) = true.
Proof.
  induction ps as [|t tl IH]; simpl; intros d d1 H v a Hin; [destruct Hin|].
  apply tbind_ok in H. destruct H as (d0 & [] & H0 & H).
  destruct Hin as [->|Hin]; [|apply (IH _ _ H _ _ Hin)].
  assert (G : has_key (SText a) (email_address d0) = true).
  { simpl in H0. apply tbind_ok in H0. destruct H0 as (d2 & e & He & H0).
    apply lift_ok in He. destruct He as [He ->]. injection He as <-.
    apply tbind_ok in H0. destruct H0 as (d3 & n & Hn & H0).
    apply lift_ok in Hn. destruct Hn as [_ ->].
    unfold execute_total in H0. injection H0 as <-.
    unfold insert_or_ignore_email_address. cbn [as_text].
    destruct (has_key (SText a) (email_address d)) eqn:E; [exact E|].
    cbn [email_address set_email_address]. rewrite has_key_app.
    apply orb_true_intro. right. simpl. rewrite String.eqb_refl. reflexivity. }
  refine (has_key_extended _ d0 d1 _ G).
  assert (K : keeps addresses_extended (for_each ensure_address tl)).
  { apply keeps_for_each;
      [apply addresses_extended_refl | apply addresses_extended_trans |].
    intro x. apply ensure_address_keeps;
      [apply addresses_extended_refl | apply addresses_extended_trans
      | apply address_extended]. }
  apply (K _ _ _ H).
Qed.

(** X5.  A write that commits has registered the addresses of the record:
    the address of the sender and that of every recipient listed under
    [to_recipients], [cc_recipients] or [bcc_recipients], as a pair or as the
    list that the interchange document makes of it, is a key of
    [email_address] afterwards, provided it is a non-empty string. *)
Theorem insert_message_registers_addresses :
  forall (c c' : conn) (r : dict) (u : bool),
    insert_message (Some c) r u = (Some c', Committed) ->
    (forall a, get r "sender_email" = PStr a -> Str.is_empty a = false ->
               has_key (SText a) (email_address (committed c')) = true) /\
    (forall k l x v a,
        In k ["to_recipients"; "cc_recipients"; "bcc_recipients"] ->
        get_or r k (PList []) = PList l ->
        In x l ->
        x = PTuple [v; PStr a] \/ x = PList [v; PStr a] ->
        Str.is_empty a = false ->
        has_key (SText a) (email_address (committed c')) = true).
Proof.
  intros c c' r u H. apply insert_message_committed in H. destruct H as [H _].
  apply insert_message_body_ok in H.
  destruct H as (ps & d1 & rw & d2 & Hps & Hfe & _ & Hins & Hch).
  assert (Hkeep : forall k, has_key k (email_address d1) = true ->
                            has_key k (email_address (committed c')) = true).
  { intros k Hk. destruct (children_steps_parents _ _ _ _ _ Hch) as [_ ->].
    unfold insert_or_replace_email in Hins.
    destruct (fk_ok _ _); [|discriminate Hins]. injection Hins as <-.
    destruct (has_key (col 0 rw) (emails d1)); exact Hk. }
  unfold address_pairs in Hps.
  destruct (as_list (get_or r "to_recipients" (PList []))) as [to|] eqn:Eto;
    [cbn [bind] in Hps | discriminate Hps].
  destruct (as_list (get_or r "cc_recipients" (PList []))) as [cc|] eqn:Ecc;
    [cbn [bind] in Hps | discriminate Hps].
  destruct (as_list (get_or r "bcc_recipients" (PList []))) as [bcc|] eqn:Ebcc;
    [cbn [bind] in Hps | discriminate Hps].
  destruct (mapM address_pair _) as [sel|] eqn:Esel; [cbn [bind] in Hps | discriminate Hps].
  injection Hps as <-.
  assert (Hsel : forall x v a,
             In x (PTuple [get r "sender_name"; get r "sender_email"] :: to ++ cc ++ bcc) ->
             x = PTuple [v; PStr a] \/ x = PList [v; PStr a] ->
             Str.is_empty a = false ->
             has_key (SText a) (email_address (committed c')) = true).
  { intros x v a Hin Hx Ha.
    destruct (mapM_In _ _ _ _ Esel Hin) as (y & Hy & Hiny).
    rewrite (address_pair_selected _ _ _ _ Hx Ha Hy) in Hiny.
    assert (Hc : exists v0, In [v0; PStr a] (List.concat sel)).
    { exists v. apply in_concat. exists [[v; PStr a]]. split; [exact Hiny | left; reflexivity]. }
    apply set_of_address in Hc. destruct Hc as (v' & Hv').
    apply Hkeep. apply (ensure_address_registers _ _ _ Hfe v' a Hv'). }
  split.
  - intros a Hse Ha.
    apply (Hsel (PTuple [get r "sender_name"; get r "sender_email"])
                (get r "sender_name") a); [left; reflexivity | | exact Ha].
    left. rewrite Hse. reflexivity.
  - intros k l x v a Hk Hl Hin Hx Ha.
    apply (Hsel x v a); [right | exact Hx | exact Ha].
    destruct Hk as [<-|[<-|[<-|[]]]].
    + rewrite Hl in Eto. simpl in Eto. injection Eto as <-.
      apply in_or_app. left. exact Hin.
    + rewrite Hl in Ecc. simpl in Ecc. injection Ecc as <-.
      apply in_or_app. right. apply in_or_app. left. exact Hin.
    + rewrite Hl in Ebcc. simpl in Ebcc. injection Ebcc as <-.
      apply in_or_app. right. apply in_or_app. right. exact Hin.
Qed.

Lemma insert_message_registers_addresses_witness :
  exists c',
    insert_message (Some fresh) (record_of renamed_fetch) true = (Some c', Committed) /\
    get (record_of renamed_fetch) "sender_email" = PStr "alice@x.com" /\
    has_key (SText "alice@x.com") (email_address (committed c')) = true.
Proof.
  eexists.
  assert (H : insert_message (Some fresh) (record_of renamed_fetch) true
              = (Some (commit (Conn empty_db
                    (fst (insert_message_body (record_of renamed_fetch) (PStr "m1") empty_db)))),
                 Committed)) by (vm_compute; reflexivity).
  split; [exact H|]. split; [vm_compute; reflexivity|].
  apply (proj1 (insert_message_registers_addresses fresh _ (record_of renamed_fetch) true H)
               "alice@x.com"); vm_compute; reflexivity.
Defined.

(* ------------------------------------------------------------------ *)
(** ** [delete_email] *)

Lemma without_key_none (k : sqlval) (l : list row) :
  with_key k l = [] -> without_key k l = l.
Proof.
  unfold with_key, without_key. induction l as [|r tl IH]; simpl; [reflexivity|].
  destruct (sql_eq (col 0 r) k); simpl; [discriminate|].
  intro H. rewrite (IH H). reflexivity.
Qed.

(** Where the foreign keys hold, a message without a parent row has no row
    in a table of children. *)
Lemma no_parent_no_children (i : string) (d : db) :
  integrity d = true ->
  has_key (SText i) (emails d) = false ->
  forall t, with_key (SText i) (table t d) = [].
Proof.
  intros Hint Hk t. rewrite integrity_spec in Hint. unfold with_key.
  destruct (filter _ (table t d)) as [|c tl] eqn:Ef; [reflexivity|exfalso].
  assert (Hc : In c (filter (fun r => sql_eq (col 0 r) (SText i)) (table t d)))
    by (rewrite Ef; left; reflexivity).
  apply filter_In in Hc. destruct Hc as [Hin Hck].
  specialize (Hint t c Hin). apply sql_eq_true in Hck. destruct Hck as [Hck _].
  rewrite Hck in Hint. simpl in Hint. rewrite Hk in Hint. discriminate Hint.
Qed.

(** X6.  [delete_email] either deletes and commits or leaves the connection
    as it was.  When it deletes the message [i], no row of the message is
    left in [emails] or in a table of children, the rows of the other
    messages and the addresses are what they were, and the foreign keys,
    if they held, still hold. *)
Theorem delete_email_removes_message :
  forall (c c' : conn) (i : string) (confirm : bool) (user_input : string)
         (o : deletion),
    delete_email (Some c) (PStr i) confirm user_input = (Some c', o) ->
    (o <> Deleted -> c' = c) /\
    (o = Deleted ->
     current c' = committed c' /\
     has_key (SText i) (emails (current c)) = true /\
     has_key (SText i) (emails (committed c')) = false /\
     (forall t, with_key (SText i) (table t (committed c')) = []) /\
     without_key (SText i) (emails (committed c'))
       = without_key (SText i) (emails (current c)) /\
     (forall t, without_key (SText i) (table t (committed c'))
                = without_key (SText i) (table t (current c))) /\
     email_address (committed c') = email_address (current c) /\
     (consistent (current c) = true -> consistent (committed c') = true)).
Proof.
  intros c c' i confirm user_input o. unfold delete_email.
  cbn [bind_param]. unfold select_email_exists. cbn [as_text].
  destruct (has_key (SText i) (emails (current c))) eqn:Ek; cbn [negb].
  - destruct (confirm && negb (String.eqb (Str.lower user_input) "y")).
    + intros [= <- <-]. split; [reflexivity | discriminate].
    + unfold execute_total. intros [= <- <-]. split; [intro H; contradiction H; reflexivity|].
      intros _. simpl.
      split; [reflexivity|]. split; [reflexivity|].
      split.
      { destruct (has_key (SText i) (without_key (SText i) (emails (current c)))) eqn:E;
          [|reflexivity].
        apply has_key_In in E. destruct E as (p & Hp & Hpk).
        apply filter_In in Hp. destruct Hp as [_ Hp]. rewrite Hpk in Hp. discriminate Hp. }
      split; [intro t; rewrite table_cascade; apply with_key_without_key|].
      split; [apply without_key_idem|].
      split; [intro t; rewrite table_cascade; apply without_key_idem|].
      split; [reflexivity | apply cascade_consistent].
  - intros [= <- <-]. split; [reflexivity | discriminate].
Qed.

Lemma delete_email_removes_message_witness :
  exists c1 c2 c3,
    insert_message (Some fresh) (record_of first_fetch) true = (Some c1, Committed) /\
    insert_message (Some c1) (record_of other_fetch) true = (Some c2, Committed) /\
    delete_email (Some c2) (PStr "m1") true "Y" = (Some c3, Deleted) /\
    email_labels (committed c3) = [[SText "m2"; SText "SPAM"]] /\
    email_xheaders (committed c3) = [] /\
    map (col 0) (emails (committed c3)) = [SText "m2"] /\
    has_key (SText "m1") (emails (committed c3)) = false /\
    (forall t, with_key (SText "m1") (table t (committed c3)) = []).
Proof.
  set (c1 := commit (Conn empty_db
                (fst (insert_message_body (record_of first_fetch) (PStr "m1") empty_db)))).
  set (c2 := commit (Conn (committed c1)
                (fst (insert_message_body (record_of other_fetch) (PStr "m2")
                        (current c1))))).
  set (c3 := commit (Conn (committed c2)
                (delete_email_cascade (SText "m1") (current c2)))).
  assert (H : delete_email (Some c2) (PStr "m1") true "Y" = (Some c3, Deleted))
    by (vm_compute; reflexivity).
  exists c1, c2, c3.
  split; [vm_compute; reflexivity|].
  split; [vm_compute; reflexivity|].
  split; [exact H|].
  split; [reflexivity|]. split; [reflexivity|]. split; [reflexivity|].
  pose proof (proj2 (delete_email_removes_message c2 c3 "m1" true "Y" Deleted H) eq_refl)
    as (_ & _ & H3 & H4 & _).
  split; [exact H3 | exact H4].
Defined.

(** X7.  Deleting a message that a write has just stored undoes the write,
    the addresses set aside: when the foreign keys hold and the message [i]
    has no parent row, a committed [insert_message] of a record of [i]
    followed by [delete_email], unconfirmed or confirmed with [y], ends with
    [emails] and the five tables of children exactly as they were. *)
Theorem delete_email_undoes_insert_message :
  forall (c c1 : conn) (r : dict) (u : bool) (i : string) (confirm : bool)
         (user_input : string),
    get r "message_id" = PStr i ->
    integrity (current c) = true ->
    has_key (SText i) (emails (current c)) = false ->
    insert_message (Some c) r u = (Some c1, Committed) ->
    confirm = false \/ Str.lower user_input = "y" ->
    exists c2,
      delete_email (Some c1) (PStr i) confirm user_input = (Some c2, Deleted) /\
      current c2 = committed c2 /\
      emails (committed c2) = emails (current c) /\
      forall t, table t (committed c2) = table t (current c).
Proof.
  intros c c1 r u i confirm user_input Hid Hint Hk H Hconf.
  apply insert_message_committed in H. destruct H as [Hb Hc]. rewrite Hid in Hb.
  pose proof (insert_message_body_parent _ _ _ _ Hb) as Hp.
  destruct (insert_message_body_others _ _ _ _ _ Hb) as [He Ht].
  unfold delete_email. cbn [bind_param]. unfold select_email_exists. cbn [as_text].
  rewrite Hc, Hp. cbn [negb].
  assert (Hgo : confirm && negb (String.eqb (Str.lower user_input) "y") = false).
  { destruct Hconf as [-> | ->]; [reflexivity | apply andb_false_r]. }
  rewrite Hgo. unfold execute_total. eexists. split; [reflexivity|].
  simpl. split; [reflexivity|]. split.
  - rewrite He. apply without_key_none, has_key_false, Hk.
  - intro t. rewrite table_cascade, Ht.
    apply without_key_none, no_parent_no_children; assumption.
Qed.

Lemma delete_email_undoes_insert_message_witness :
  exists c1 c2 c3,
    insert_message (Some fresh) (record_of first_fetch) true = (Some c1, Committed) /\
    get (record_of other_fetch) "message_id" = PStr "m2" /\
    integrity (current c1) = true /\
    has_key (SText "m2") (emails (current c1)) = false /\
    insert_message (Some c1) (record_of other_fetch) true = (Some c2, Committed) /\
    delete_email (Some c2) (PStr "m2") false "" = (Some c3, Deleted) /\
    current c3 = committed c3 /\
    emails (committed c3) = emails (current c1) /\
    forall t, table t (committed c3) = table t (current c1).
Proof.
  eexists. eexists.
  assert (H1 : insert_message (Some fresh) (record_of first_fetch) true
               = (Some (commit (Conn empty_db
                     (fst (insert_message_body (record_of first_fetch) (PStr "m1") empty_db)))),
                  Committed)) by (vm_compute; reflexivity).
  set (c1 := commit (Conn empty_db
                (fst (insert_message_body (record_of first_fetch) (PStr "m1") empty_db)))) in *.
  assert (H2 : insert_message (Some c1) (record_of other_fetch) true
               = (Some (commit (Conn (committed c1)
                     (fst (insert_message_body (record_of other_fetch) (PStr "m2")
                             (current c1))))),
                  Committed)) by (vm_compute; reflexivity).
  assert (Hid : get (record_of other_fetch) "message_id" = PStr "m2")
    by (vm_compute; reflexivity).
  assert (Hint : integrity (current c1) = true) by (vm_compute; reflexivity).
  assert (Hk : has_key (SText "m2") (emails (current c1)) = false)
    by (vm_compute; reflexivity).
  destruct (delete_email_undoes_insert_message c1 _ (record_of other_fetch) true "m2"
              false "" Hid Hint Hk H2 (or_introl eq_refl)) as (c3 & H3 & H4 & H5 & H6).
  exists c3.
  split; [exact H1|]. split; [exact Hid|]. split; [exact Hint|]. split; [exact Hk|].
  split; [exact H2|]. split; [exact H3|]. split; [exact H4|]. split; [exact H5 | exact H6].
Defined.
(* ------------------------------------------------------------------ *)
(** ** The label flags *)

Lemma set_col_nil (n : nat) (v : sqlval) :
  set_col (S n) v [] = SNull :: set_col n v [].
Proof. unfold set_col. simpl. destruct n; reflexivity. Qed.

Lemma set_col_cons (n : nat) (v x : sqlval) (r : row) :
  set_col (S n) v (x :: r) = x :: set_col n v r.
Proof. reflexivity. Qed.

(** An update of a column sets that column and no other. *)
Lemma col_set_col (n : nat) (v : sqlval) :
  forall (r : row) (j : nat),
    col j (set_col n v r) = if j =? n then v else col j r.
Proof.
  unfold col. induction n as [|n IH]; intros r j.
  - destruct r as [|x r]; destruct j as [|j]; try reflexivity.
    unfold set_col. simpl. destruct j; reflexivity.
  - destruct r as [|x r].
    + rewrite set_col_nil. destruct j as [|j]; [reflexivity|].
      simpl. rewrite IH. destruct (j =? n); [reflexivity | destruct j; reflexivity].
    + rewrite set_col_cons. destruct j as [|j]; [reflexivity|].
      simpl. apply IH.
Qed.

Lemma has_label_key (label : sqlval) (d d' : db) (r r' : row) :
  email_labels d' = email_labels d -> col 0 r' = col 0 r ->
  has_label label d' r' = has_label label d r.
Proof. unfold has_label. intros -> ->. reflexivity. Qed.

(** One turn of the loop of [update_email_label_booleans], on one row. *)
Lemma flag_turn (n : nat) (label : string) (d : db) :
  0 < n ->
  let d1 := raise_flag n (SText label) (reset_flag n d) in
  email_address d1 = email_address d /\
  (forall t, table t d1 = table t d) /\
  emails d1 = map (fun r => set_col n (SInt (if has_label (SText label) d r then 1 else 0)) r)
                  (emails d).
Proof.
  intros Hn. cbv zeta. unfold raise_flag, reset_flag.
  split; [reflexivity|]. split; [intros []; reflexivity|].
  cbn [emails set_emails]. rewrite map_map. apply map_ext. intro r.
  assert (Hl : has_label (SText label)
                 (set_emails (map (set_col n (SInt 0)) (emails d)) d)
                 (set_col n (SInt 0) r)
               = has_label (SText label) d r).
  { apply has_label_key; [reflexivity|].
    rewrite col_set_col. destruct n; [inversion Hn | reflexivity]. }
  rewrite Hl. destruct (has_label (SText label) d r); [|reflexivity].
  clear. revert r. induction n as [|n IH]; intros r.
  - destruct r; reflexivity.
  - destruct r as [|x r].
    + rewrite !set_col_nil, set_col_cons, IH. reflexivity.
    + rewrite !set_col_cons, IH. reflexivity.
Qed.

(** What the loop of [update_email_label_booleans] makes of the tables. *)
Lemma backfill_spec :
  forall (c c' : conn),
    update_email_label_booleans (Some c) = Some c' ->
    current c' = committed c' /\
    email_address (committed c') = email_address (current c) /\
    (forall t, table t (committed c') = table t (current c)) /\
    Forall2 (fun r r' =>
               (forall j, j < 17 -> col j r' = col j r) /\
               (forall label n, In (label, n) label_to_column_map ->
                  col n r' = SInt (if has_label (SText label) (current c) r
                                   then 1 else 0)))
            (emails (current c)) (emails (committed c')).
Proof.
  intros c c'. unfold update_email_label_booleans, label_to_column_map.
  cbn [for_each tbind execute_total lift bind_param ret fst snd].
  set (d0 := current c).
  destruct (flag_turn 17 "SPAM" d0 ltac:(lia)) as (A1 & T1 & E1).
  set (d1 := raise_flag 17 (SText "SPAM") (reset_flag 17 d0)) in *.
  destruct (flag_turn 18 "CATEGORY_PROMOTIONS" d1 ltac:(lia)) as (A2 & T2 & E2).
  set (d2 := raise_flag 18 (SText "CATEGORY_PROMOTIONS") (reset_flag 18 d1)) in *.
  destruct (flag_turn 19 "CATEGORY_SOCIAL" d2 ltac:(lia)) as (A3 & T3 & E3).
  set (d3 := raise_flag 19 (SText "CATEGORY_SOCIAL") (reset_flag 19 d2)) in *.
  destruct (flag_turn 20 "CATEGORY_FORUMS" d3 ltac:(lia)) as (A4 & T4 & E4).
  set (d4 := raise_flag 20 (SText "CATEGORY_FORUMS") (reset_flag 20 d3)) in *.
  destruct (flag_turn 21 "CATEGORY_PERSONAL" d4 ltac:(lia)) as (A5 & T5 & E5).
  set (d5 := raise_flag 21 (SText "CATEGORY_PERSONAL") (reset_flag 21 d4)) in *.
  intros [= <-]. cbn [commit committed current].
  split; [reflexivity|]. split; [congruence|].
  split; [intro t; rewrite T5, T4, T3, T2, T1; reflexivity|].
  rewrite E5, E4, E3, E2, E1, !map_map.
  assert (L1 : email_labels d1 = email_labels d0) by apply (T1 Labels).
  assert (L2 : email_labels d2 = email_labels d0) by (rewrite <- L1; apply (T2 Labels)).
  assert (L3 : email_labels d3 = email_labels d0) by (rewrite <- L2; apply (T3 Labels)).
  assert (L4 : email_labels d4 = email_labels d0) by (rewrite <- L3; apply (T4 Labels)).
  clear E1 E2 E3 E4 E5.
  induction (emails d0) as [|r tl IH]; simpl; constructor; [|exact IH].
  rewrite (has_label_key _ d0 d1 r _ L1) by (rewrite col_set_col; reflexivity).
  rewrite (has_label_key _ d0 d2 r _ L2) by (rewrite !col_set_col; reflexivity).
  rewrite (has_label_key _ d0 d3 r _ L3) by (rewrite !col_set_col; reflexivity).
  rewrite (has_label_key _ d0 d4 r _ L4) by (rewrite !col_set_col; reflexivity).
  split.
  - intros j Hj. rewrite !col_set_col.
    destruct (j =? 21) eqn:J1; [apply Nat.eqb_eq in J1; lia|].
    destruct (j =? 20) eqn:J2; [apply Nat.eqb_eq in J2; lia|].
    destruct (j =? 19) eqn:J3; [apply Nat.eqb_eq in J3; lia|].
    destruct (j =? 18) eqn:J4; [apply Nat.eqb_eq in J4; lia|].
    destruct (j =? 17) eqn:J5; [apply Nat.eqb_eq in J5; lia|].
    reflexivity.
  - intros label n Hin. rewrite !col_set_col.
    destruct Hin as [[= <- <-]|[[= <- <-]|[[= <- <-]|[[= <- <-]|[[= <- <-]|[]]]]]];
      reflexivity.
Qed.

(** X8.  [update_email_label_booleans] commits, leaves every table but
    [emails] as it is, and in each row of [emails], kept in place, leaves the
    first seventeen columns as they are and sets each of the five flags to 1
    if [email_labels] holds a row of that message with the label of the flag,
    and to 0 if not. *)
Theorem update_email_label_booleans_backfills :
  forall (c c' : conn),
    update_email_label_booleans (Some c) = Some c' ->
    current c' = committed c' /\
    email_address (committed c') = email_address (current c) /\
    (forall t, table t (committed c') = table t (current c)) /\
    Forall2 (fun r r' =>
               (forall j, j < 17 -> col j r' = col j r) /\
               (forall label n, In (label, n) label_to_column_map ->
                  col n r' = SInt (if has_label (SText label) (current c) r
                                   then 1 else 0)))
            (emails (current c)) (emails (committed c')).
Proof. exact backfill_spec. Qed.

Lemma update_email_label_booleans_backfills_witness :
  exists c1 c2 c3,
    insert_message (Some fresh) (record_of first_fetch) true = (Some c1, Committed) /\
    insert_message (Some c1) (record_of other_fetch) true = (Some c2, Committed) /\
    update_email_label_booleans (Some c2) = Some c3 /\
    map (fun r => (col 0 r, col 17 r, col 18 r)) (emails (committed c3))
      = [(SText "m1", SInt 0, SInt 0); (SText "m2", SInt 1, SInt 0)] /\
    current c3 = committed c3 /\
    (forall t, table t (committed c3) = table t (current c2)).
Proof.
  set (c1 := commit (Conn empty_db
                (fst (insert_message_body (record_of first_fetch) (PStr "m1") empty_db)))).
  set (c2 := commit (Conn (committed c1)
                (fst (insert_message_body (record_of other_fetch) (PStr "m2")
                        (current c1))))).
  set (c3 := match update_email_label_booleans (Some c2) with
             | Some x => x
             | None => c2
             end).
  assert (H : update_email_label_booleans (Some c2) = Some c3)
    by (vm_compute; reflexivity).
  exists c1, c2, c3.
  split; [vm_compute; reflexivity|].
  split; [vm_compute; reflexivity|].
  split; [exact H|].
  split; [vm_compute; reflexivity|].
  pose proof (update_email_label_booleans_backfills c2 c3 H) as (H1 & _ & H3 & _).
  split; [exact H1 | exact H3].
Defined.

(* ------------------------------------------------------------------ *)
(** ** The attachments and the additional parts *)

Lemma classify_parts_with_id (m : Gmail.message) (i : string) :
  Gmail.id m = Some i ->
  forall ps,
    Gmail.classify_parts m ps
    = Ok (map (attachment_entry i) (filter Gmail.has_filename ps),
          map Gmail.additional_part_of (filter is_additional ps)).
Proof.
  intros Hi. induction ps as [|p tl IH]; [reflexivity|].
  cbn [Gmail.classify_parts filter]. unfold is_additional at 1.
  destruct (Gmail.has_filename p).
  - unfold Gmail.attachment_of, Gmail.message_id_item. rewrite Hi, IH. reflexivity.
  - cbn [negb andb]. destruct (negb (Gmail.is_text_part p)); rewrite IH; reflexivity.
Qed.

Lemma classify_parts_without_id (m : Gmail.message) :
  Gmail.id m = None ->
  forall ps,
    Gmail.classify_parts m ps
    = if existsb Gmail.has_filename ps then Raise KeyError
      else Ok ([], map Gmail.additional_part_of (filter is_additional ps)).
Proof.
  intros Hi. induction ps as [|p tl IH]; [reflexivity|].
  cbn [Gmail.classify_parts filter existsb]. unfold is_additional at 1.
  destruct (Gmail.has_filename p).
  - unfold Gmail.attachment_of, Gmail.message_id_item. rewrite Hi. reflexivity.
  - cbn [negb andb orb]. rewrite IH.
    destruct (negb (Gmail.is_text_part p)), (existsb Gmail.has_filename tl); reflexivity.
Qed.

(** X9.  The loop over the parts of the payload looks at the parts directly
    under the payload and no deeper.  For a message with an id, it returns
    one attachment, with the id, the name, the type and the size, for each
    such part that has a non-empty file name, and one additional part for
    each that has none and whose type holds neither [text/plain] nor
    [text/html], both in the order of the parts.  For a message without an
    id it raises [KeyError] as soon as a part has a file name. *)
Theorem classify_parts_top_level :
  forall (m : Gmail.message) (ps : list Gmail.part),
    (forall i, Gmail.id m = Some i ->
       Gmail.classify_parts m ps
       = Ok (map (attachment_entry i) (filter Gmail.has_filename ps),
             map Gmail.additional_part_of (filter is_additional ps))) /\
    (Gmail.id m = None ->
       Gmail.classify_parts m ps
       = if existsb Gmail.has_filename ps then Raise KeyError
         else Ok ([], map Gmail.additional_part_of (filter is_additional ps))).
Proof.
  intros m ps. split.
  - intros i Hi. apply classify_parts_with_id, Hi.
  - intro Hi. apply classify_parts_without_id, Hi.
Qed.

Lemma classify_parts_top_level_witness :
  Gmail.id attached_message = Some "m1" /\
  filter Gmail.has_filename (top_parts attached_message) = [pdf_part] /\
  filter is_additional (top_parts attached_message)
    = [inline_image; multipart "multipart/related" [] [pdf_part]] /\
  Gmail.classify_parts attached_message (top_parts attached_message)
  = Ok (map (attachment_entry "m1")
            (filter Gmail.has_filename (top_parts attached_message)),
        map Gmail.additional_part_of
            (filter is_additional (top_parts attached_message))).
Proof.
  split; [reflexivity|]. split; [vm_compute; reflexivity|].
  split; [vm_compute; reflexivity|].
  exact (proj1 (classify_parts_top_level attached_message (top_parts attached_message))
               "m1" eq_refl).
Defined.

(* ------------------------------------------------------------------ *)
(** ** The rows stored for the children of a message *)

Lemma mapM_total {A B : Type} (f : A -> result B) (h : A -> B) :
  (forall x, f x = Ok (h x)) -> forall l, mapM f l = Ok (map h l).
Proof.
  intros Hf. induction l as [|x tl IH]; simpl; [reflexivity|].
  rewrite Hf, IH. reflexivity.
Qed.

Lemma mapM_map_total {A B C : Type} (f : B -> result C) (g : A -> B) (h : A -> C) :
  (forall x, f (g x) = Ok (h x)) -> forall l, mapM f (map g l) = Ok (map h l).
Proof.
  intros Hf. induction l as [|x tl IH]; simpl; [reflexivity|].
  rewrite Hf, IH. reflexivity.
Qed.

Lemma walk_payload_inv (frames : nat) (m : Gmail.message) bt bh atts adds :
  Gmail.walk_payload frames m (payload_of m) = Ok (bt, bh, atts, adds) ->
  (exists o1 o2, bt = of_opt_str o1 /\ bh = of_opt_str o2) /\
  Gmail.classify_parts m (top_parts m) = Ok (atts, adds).
Proof.
  unfold Gmail.walk_payload, top_parts. intro H.
  destruct (Gmail.parts (payload_of m)) as [ps|].
  - destruct (Gmail.get_body_part frames ps "text/plain") as [o1|]; [simpl in H | discriminate H].
    destruct (Gmail.get_body_part frames ps "text/html") as [o2|]; [simpl in H | discriminate H].
    destruct (Gmail.classify_parts m ps) as [[a b]|]; [simpl in H | discriminate H].
    injection H as <- <- <- <-. split; [exists o1, o2; auto | reflexivity].
  - destruct (Gmail.inline_data (payload_of m)).
    + destruct (Str.opt_eqb _ "text/plain").
      * destruct (Gmail.decode_body _) as [t|]; [simpl in H | discriminate H].
        injection H as <- <- <- <-.
        split; [exists (Some t), None; auto | reflexivity].
      * destruct (Str.opt_eqb _ "text/html").
        -- destruct (Gmail.decode_body _) as [t|]; [simpl in H | discriminate H].
           injection H as <- <- <- <-.
           split; [exists None, (Some t); auto | reflexivity].
        -- injection H as <- <- <- <-. split; [exists None, None; auto | reflexivity].
    + injection H as <- <- <- <-. split; [exists None, None; auto | reflexivity].
Qed.

(** The collections of the record of a message with an id. *)
Lemma extracted_collections (frames : nat) (m : Gmail.message) (raw : option string) (r : dict)
  (i : string) :
  Gmail.extract_email_data frames m raw = Ok r ->
  Gmail.id m = Some i ->
  get r "message_id" = PStr i /\
  get_or r "attachments" (PList [])
    = PList (map (attachment_entry i) (filter Gmail.has_filename (top_parts m))) /\
  get_or r "xheaders" (PList [])
    = PList (map (xheader_entry i) (filter Gmail.is_xheader (headers_of m))) /\
  get_or r "labels" (PList []) = PList (map (label_entry i) (label_ids m)) /\
  get_or r "routing_headers" (PList []) = PList [] /\
  get r "authentication_results"
    = Gmail.parse_auth_results (Gmail.get_header (headers_of m) "Authentication-Results").
Proof.
  intros H Hi.
  destruct (extract_email_data_inv _ _ _ _ H)
    as (bt & bh & atts & adds & xs & ls & idms & rawv & Hw & Hx & Hl & _ & _ & ->).
  apply walk_payload_inv in Hw. destruct Hw as [_ Hc].
  rewrite (classify_parts_with_id m i Hi) in Hc. injection Hc as <- <-.
  rewrite (mapM_total (Gmail.xheader_of m) (xheader_entry i)) in Hx
    by (intro h; unfold Gmail.xheader_of, Gmail.message_id_item; rewrite Hi; reflexivity).
  injection Hx as <-.
  rewrite (mapM_total (Gmail.label_of m) (label_entry i)) in Hl
    by (intro l; unfold Gmail.label_of, Gmail.message_id_item; rewrite Hi; reflexivity).
  injection Hl as <-.
  rewrite Hi. repeat split; reflexivity.
Qed.

Lemma attachment_rows_inv (i : string) :
  forall ps rows,
    mapM (child_row Attachments (PStr i)) (map (attachment_entry i) ps) = Ok rows ->
    rows = map (attachment_row i) ps.
Proof.
  induction ps as [|p tl IH]; simpl; intros rows H; [injection H as <-; reflexivity|].
  destruct (child_row Attachments (PStr i) (attachment_entry i p)) as [rw|] eqn:E;
    [simpl in H | discriminate H].
  destruct (mapM _ (map (attachment_entry i) tl)) as [rs|] eqn:E0;
    [simpl in H | discriminate H].
  injection H as <-. rewrite (IH _ eq_refl). f_equal.
  unfold child_row, attachment_entry in E. cbn in E.
  unfold attachment_row.
  destruct (Gmail.filename p), (Gmail.mimeType p), (Gmail.body_size p) as [z|];
    cbn in E;
    try (destruct ((- 9223372036854775808 <=? z)%Z && (z <? 9223372036854775808)%Z);
         cbn in E; [|discriminate E]);
    injection E as <-; reflexivity.
Qed.

Lemma authentication_rows (i : string) (h : option string) (rows : list row) :
  mapM (child_row Authentication (PStr i))
       (if truthy (Gmail.parse_auth_results h) then [Gmail.parse_auth_results h] else [])
    = Ok rows ->
  List.length rows <= 1 /\
  Forall (fun rw => col 0 rw = SText i /\ col 5 rw = SNull /\ col 7 rw = SNull) rows.
Proof.
  unfold Gmail.parse_auth_results.
  destruct h as [hv|]; [|intros [= <-]; split; [simpl; lia | constructor]].
  destruct (Str.is_empty hv); [intros [= <-]; split; [simpl; lia | constructor]|].
  destruct (Re.search Gmail.spf_re hv), (Re.search Gmail.dkim_re hv),
    (Re.search Gmail.dmarc_re hv); cbn; intros [= <-];
    (split; [simpl; lia | repeat constructor]).
Qed.

(** X10.  What a committed write leaves in the tables of children for the
    record extracted from a message with the id [i], on a database whose
    foreign keys hold: one row of [email_labels] for each label of the
    message, one row of [email_xheaders] for each header whose name starts
    with [x-], the case of letters set aside, with its name and value, one
    row of [email_attachments] for each part directly under the payload that
    has a file name, with the name, the type and the size, each in the order
    of the message; no row of [email_routing_headers]; and at most one row of
    [email_authentication], whose [dkim_selector] and [dmarc_policy] are
    [NULL]. *)
Theorem stored_children_of_message :
  forall (frames : nat) (m : Gmail.message) (raw : option string) (r : dict) (i : string)
         (c c' : conn) (u : bool),
    Gmail.extract_email_data frames m raw = Ok r ->
    Gmail.id m = Some i ->
    integrity (current c) = true ->
    insert_message (Some c) r u = (Some c', Committed) ->
    with_key (SText i) (email_labels (committed c')) = map (label_row i) (label_ids m) /\
    with_key (SText i) (email_xheaders (committed c'))
      = map (xheader_row i) (filter Gmail.is_xheader (headers_of m)) /\
    with_key (SText i) (email_attachments (committed c'))
      = map (attachment_row i) (filter Gmail.has_filename (top_parts m)) /\
    with_key (SText i) (email_routing_headers (committed c')) = [] /\
    List.length (with_key (SText i) (email_authentication (committed c'))) <= 1 /\
    Forall (fun rw => col 5 rw = SNull /\ col 7 rw = SNull)
           (with_key (SText i) (email_authentication (committed c'))).
Proof.
  intros frames m raw r i c c' u Hex Hi Hint H.
  destruct (extracted_collections _ _ _ _ _ Hex Hi) as (Hid & Ha & Hx & Hl & Hr & Hu).
  apply insert_message_committed in H. destruct H as [Hb _]. rewrite Hid in Hb.
  destruct (insert_message_body_spec _ _ _ _ Hint Hid Hb) as (_ & Hrows & _).
  split; [|split; [|split; [|split]]].
  - destruct (Hrows Labels) as (rows & Hro & Hw).
    unfold rows_of, entries_of in Hro. cbn [child_key] in Hro.
    rewrite Hl, Hid in Hro. cbn [py_iter bind] in Hro.
    rewrite (mapM_map_total _ _ (label_row i)) in Hro by (intro l; reflexivity).
    injection Hro as <-. exact Hw.
  - destruct (Hrows XHeaders) as (rows & Hro & Hw).
    unfold rows_of, entries_of in Hro. cbn [child_key] in Hro.
    rewrite Hx, Hid in Hro. cbn [py_iter bind] in Hro.
    rewrite (mapM_map_total _ _ (xheader_row i)) in Hro by (intro l; reflexivity).
    injection Hro as <-. exact Hw.
  - destruct (Hrows Attachments) as (rows & Hro & Hw).
    unfold rows_of, entries_of in Hro. cbn [child_key] in Hro.
    rewrite Ha, Hid in Hro. cbn [py_iter bind] in Hro.
    apply attachment_rows_inv in Hro. rewrite <- Hro. exact Hw.
  - destruct (Hrows Routing) as (rows & Hro & Hw).
    unfold rows_of, entries_of in Hro. cbn [child_key] in Hro.
    rewrite Hr, Hid in Hro. cbn in Hro. injection Hro as <-. exact Hw.
  - destruct (Hrows Authentication) as (rows & Hro & Hw).
    unfold rows_of, entries_of in Hro. rewrite Hu, Hid in Hro.
    assert (Hro' : mapM (child_row Authentication (PStr i))
                     (if truthy (Gmail.parse_auth_results
                                   (Gmail.get_header (headers_of m) "Authentication-Results"))
                      then [Gmail.parse_auth_results
                              (Gmail.get_header (headers_of m) "Authentication-Results")]
                      else []) = Ok rows).
    { destruct (truthy _); exact Hro. }
    apply authentication_rows in Hro'. destruct Hro' as [Hlen Hf].
    change (email_authentication (committed c')) with (table Authentication (committed c')).
    rewrite Hw. split; [exact Hlen|].
    eapply Forall_impl; [|exact Hf]. intros rw (_ & H5 & H7). auto.
Qed.

Lemma stored_children_of_message_witness :
  exists r c',
    Gmail.extract_email_data example_frames attached_message None = Ok r /\
    Gmail.id attached_message = Some "m1" /\
    integrity (current fresh) = true /\
    insert_message (Some fresh) r true = (Some c', Committed) /\
    email_attachments (committed c')
      = [[SText "m1"; SText "report.pdf"; SText "application/pdf"; SInt 1024]] /\
    with_key (SText "m1") (email_xheaders (committed c'))
      = [[SText "m1"; SText "X-Mailer"; SText "mutt"]; [SText "m1"; SText "x-spam"; SText "no"]] /\
    with_key (SText "m1") (email_attachments (committed c'))
      = map (attachment_row "m1") (filter Gmail.has_filename (top_parts attached_message)).
Proof.
  exists (record_of attached_message).
  set (c' := commit (Conn empty_db
                (fst (insert_message_body (record_of attached_message) (PStr "m1")
                        empty_db)))).
  exists c'.
  assert (H1 : Gmail.extract_email_data example_frames attached_message None
               = Ok (record_of attached_message)) by (vm_compute; reflexivity).
  assert (H2 : insert_message (Some fresh) (record_of attached_message) true
               = (Some c', Committed)) by (vm_compute; reflexivity).
  split; [exact H1|]. split; [reflexivity|]. split; [reflexivity|].
  split; [exact H2|]. split; [vm_compute; reflexivity|]. split; [vm_compute; reflexivity|].
  exact (proj1 (proj2 (proj2
           (stored_children_of_message example_frames attached_message None _ "m1" fresh c' true
              H1 eq_refl eq_refl H2)))).
Defined.

(* ------------------------------------------------------------------ *)
(** ** From the labels of a message to its flags *)

(** The parent row that [insert_message] builds has its five flags at 0. *)
Lemma email_row_flags (r : dict) (mid : pyval) (rw : row) :
  email_row r mid = Ok rw ->
  forall label n, In (label, n) label_to_column_map -> col n rw = SInt 0.
Proof.
  unfold email_row, text_columns. intro H. cbn [mapM] in H.
  destruct (Json.dumps _) as [to|]; [simpl in H | discriminate H].
  destruct (Json.dumps _) as [cc|]; [simpl in H | discriminate H].
  destruct (Json.dumps _) as [bcc|]; [simpl in H | discriminate H].
  destruct (bind_param mid) as [m|]; [simpl in H | discriminate H].
  destruct (bind_param (get r "thread_id")) as [v1|]; [simpl in H | discriminate H].
  destruct (bind_param (get r "sender_email")) as [v2|]; [simpl in H | discriminate H].
  destruct (bind_param (get r "subject")) as [v3|]; [simpl in H | discriminate H].
  destruct (bind_param (get r "body_text")) as [v4|]; [simpl in H | discriminate H].
  destruct (bind_param (get r "body_html")) as [v5|]; [simpl in H | discriminate H].
  destruct (bind_param (get r "sent_timestamp")) as [v6|]; [simpl in H | discriminate H].
  destruct (bind_param (get r "internal_date_ms")) as [v7|]; [simpl in H | discriminate H].
  destruct (bind_param (get r "date_received")) as [v8|]; [simpl in H | discriminate H].
  destruct (bind_param (get r "mime_type")) as [v9|]; [simpl in H | discriminate H].
  destruct (bind_param (get r "content_transfer_encoding")) as [v10|];
    [simpl in H | discriminate H].
  destruct (bind_param (get r "charset")) as [v11|]; [simpl in H | discriminate H].
  destruct (bind_param (get r "return_path")) as [v12|]; [simpl in H | discriminate H].
  destruct (bind_param (get r "header_sender")) as [v13|]; [simpl in H | discriminate H].
  injection H as <-.
  intros label n Hin.
  destruct Hin as [[= <- <-]|[[= <- <-]|[[= <- <-]|[[= <- <-]|[[= <- <-]|[]]]]]];
    reflexivity.
Qed.

Lemma sql_eq_sym (a b : sqlval) : sql_eq a b = sql_eq b a.
Proof.
  destruct a, b; simpl; try reflexivity; [apply Z.eqb_sym | apply String.eqb_sym].
Qed.

Lemma existsb_with_key (f : row -> bool) (k : sqlval) (rows : list row) :
  existsb (fun l => f l && sql_eq k (col 0 l)) rows = existsb f (with_key k rows).
Proof.
  unfold with_key. induction rows as [|l tl IH]; simpl; [reflexivity|].
  rewrite (sql_eq_sym k). destruct (sql_eq (col 0 l) k); simpl.
  - rewrite andb_true_r, IH. reflexivity.
  - rewrite andb_false_r. exact IH.
Qed.

Lemma with_key_Forall2 (R : row -> row -> Prop) (k : sqlval) (l l' : list row) :
  (forall r r', R r r' -> col 0 r' = col 0 r) ->
  Forall2 R l l' -> Forall2 R (with_key k l) (with_key k l').
Proof.
  intros HR. unfold with_key. induction 1 as [|r r' tl tl' Hr _ IH]; simpl; [constructor|].
  rewrite (HR _ _ Hr). destruct (sql_eq (col 0 r) k); [constructor; assumption | exact IH].
Qed.

(** X11.  The way from the labels of a message to its flags.  After a
    committed write of the record extracted from a message with the id [i],
    on a database whose foreign keys hold, the parent row of the message has
    its five flags at 0, whatever the labels of the message; after
    [update_email_label_booleans] each flag of that row is 1 if the label of
    the flag is among the labels of the message and 0 if not. *)
Theorem labels_reach_flags_after_backfill :
  forall (frames : nat) (m : Gmail.message) (raw : option string) (r : dict) (i : string)
         (c c1 c2 : conn) (u : bool),
    Gmail.extract_email_data frames m raw = Ok r ->
    Gmail.id m = Some i ->
    integrity (current c) = true ->
    insert_message (Some c) r u = (Some c1, Committed) ->
    update_email_label_booleans (Some c1) = Some c2 ->
    exists rw1 rw2,
      with_key (SText i) (emails (committed c1)) = [rw1] /\
      (forall label n, In (label, n) label_to_column_map -> col n rw1 = SInt 0) /\
      with_key (SText i) (emails (committed c2)) = [rw2] /\
      (forall label n, In (label, n) label_to_column_map ->
         col n rw2 = SInt (if existsb (fun l => String.eqb l label) (label_ids m)
                           then 1 else 0)).
Proof.
  intros frames m raw r i c c1 c2 u Hex Hi Hint H Hup.
  destruct (extracted_collections _ _ _ _ _ Hex Hi) as (Hid & _ & _ & Hl & _ & _).
  apply insert_message_committed in H. destruct H as [Hb Hcc]. rewrite Hid in Hb.
  destruct (insert_message_body_spec _ _ _ _ Hint Hid Hb) as ((rw1 & Hrow & Hp) & Hrows & _).
  destruct (Hrows Labels) as (rows & Hro & Hw).
  unfold rows_of, entries_of in Hro. cbn [child_key] in Hro.
  rewrite Hl, Hid in Hro. cbn [py_iter bind] in Hro.
  rewrite (mapM_map_total _ _ (label_row i)) in Hro by (intro l; reflexivity).
  injection Hro as <-.
  destruct (backfill_spec _ _ Hup) as (_ & _ & _ & HF).
  apply (with_key_Forall2 _ (SText i)) in HF;
    [|intros x x' [Hx _]; apply (Hx 0); lia].
  rewrite Hcc, Hp in HF.
  inversion HF as [|x rw2 tl tl' [_ Hflags] Htl Ex Ey]. subst x tl.
  inversion Htl. subst tl'.
  exists rw1, rw2.
  split; [exact Hp|]. split; [apply (email_row_flags _ _ _ Hrow)|].
  split; [reflexivity|].
  intros label n Hin. rewrite (Hflags label n Hin).
  assert (Hb' : has_label (SText label) (committed c1) rw1
                = existsb (fun l => String.eqb l label) (label_ids m)).
  { unfold has_label. rewrite (email_row_key _ _ _ Hrow).
    rewrite (existsb_with_key (fun l => sql_eq (col 1 l) (SText label)) (SText i)).
    change (email_labels (committed c1)) with (table Labels (committed c1)).
    rewrite Hw. clear. induction (label_ids m) as [|x tl IH]; simpl; [reflexivity|].
    rewrite IH. reflexivity. }
  rewrite Hb'. reflexivity.
Qed.

Lemma labels_reach_flags_after_backfill_witness :
  exists r c1 c2 rw1 rw2,
    Gmail.extract_email_data example_frames other_fetch None = Ok r /\
    Gmail.id other_fetch = Some "m2" /\
    integrity (current fresh) = true /\
    insert_message (Some fresh) r true = (Some c1, Committed) /\
    update_email_label_booleans (Some c1) = Some c2 /\
    with_key (SText "m2") (emails (committed c1)) = [rw1] /\
    col 17 rw1 = SInt 0 /\
    with_key (SText "m2") (emails (committed c2)) = [rw2] /\
    col 17 rw2 = SInt 1 /\ col 18 rw2 = SInt 0.
Proof.
  exists (record_of other_fetch).
  set (c1 := commit (Conn empty_db
                (fst (insert_message_body (record_of other_fetch) (PStr "m2") empty_db)))).
  set (c2 := match update_email_label_booleans (Some c1) with
             | Some x => x
             | None => c1
             end).
  assert (H1 : Gmail.extract_email_data example_frames other_fetch None = Ok (record_of other_fetch))
    by (vm_compute; reflexivity).
  assert (H2 : insert_message (Some fresh) (record_of other_fetch) true
               = (Some c1, Committed)) by (vm_compute; reflexivity).
  assert (H3 : update_email_label_booleans (Some c1) = Some c2)
    by (vm_compute; reflexivity).
  destruct (labels_reach_flags_after_backfill example_frames other_fetch None _ "m2" fresh c1 c2 true
              H1 eq_refl eq_refl H2 H3) as (rw1 & rw2 & Ha & Hb & Hc & Hd).
  exists c1, c2, rw1, rw2.
  split; [exact H1|]. split; [reflexivity|]. split; [reflexivity|].
  split; [exact H2|]. split; [exact H3|]. split; [exact Ha|].
  split; [apply (Hb "SPAM" 17); left; reflexivity|].
  split; [exact Hc|].
  split; [apply (Hd "SPAM" 17); left; reflexivity
         | apply (Hd "CATEGORY_PROMOTIONS" 18); right; left; reflexivity].
Defined.

(* ------------------------------------------------------------------ *)
(** ** Persisting a record read back from its document *)

Lemma get_reloaded (r : dict) (k : string) :
  get (reloaded_record r) k = reloaded (get r k).
Proof.
  unfold get, get_or, reloaded_record. rewrite lookup_map.
  destruct (lookup k r); reflexivity.
Qed.

Lemma get_or_reloaded (r : dict) (k : string) :
  get_or (reloaded_record r) k (PList []) = reloaded (get_or r k (PList [])).
Proof.
  unfold get_or, reloaded_record. rewrite lookup_map.
  destruct (lookup k r); reflexivity.
Qed.

(** The driver of the database binds a timestamp as the string that the
    document holds for it. *)
Lemma bind_param_reloaded (v : pyval) : bind_param (reloaded v) = bind_param v.
Proof. destruct v; reflexivity. Qed.

Lemma reloaded_opt_str (o : option string) : reloaded (of_opt_str o) = of_opt_str o.
Proof. destruct o; reflexivity. Qed.

Lemma reloaded_entries {A : Type} (g : A -> pyval) (l : list A) :
  (forall x, reloaded (g x) = g x) -> reloaded (PList (map g l)) = PList (map g l).
Proof.
  intro Hg. simpl. f_equal. rewrite map_map. apply map_ext. exact Hg.
Qed.

Lemma reloaded_auth_results (h : option string) :
  reloaded (Gmail.parse_auth_results h) = Gmail.parse_auth_results h.
Proof.
  unfold Gmail.parse_auth_results.
  destruct h as [hv|]; [|reflexivity].
  destruct (Str.is_empty hv); [reflexivity|].
  destruct (Re.search Gmail.spf_re hv), (Re.search Gmail.dkim_re hv),
    (Re.search Gmail.dmarc_re hv); reflexivity.
Qed.

(** The sender and the recipients of an extracted record. *)
Lemma extracted_addresses (frames : nat) (m : Gmail.message) (raw : option string) (r : dict) :
  Gmail.extract_email_data frames m raw = Ok r ->
  get r "sender_name"
    = of_opt_str (snd (Gmail.parse_sender (Gmail.get_header (headers_of m) "From"))) /\
  get r "sender_email"
    = PStr (fst (Gmail.parse_sender (Gmail.get_header (headers_of m) "From"))) /\
  get_or r "to_recipients" (PList [])
    = Gmail.recipients_value (Gmail.parse_recipients (Gmail.get_header (headers_of m) "To")) /\
  get_or r "cc_recipients" (PList [])
    = Gmail.recipients_value (Gmail.parse_recipients (Gmail.get_header (headers_of m) "Cc")) /\
  get_or r "bcc_recipients" (PList [])
    = Gmail.recipients_value (Gmail.parse_recipients (Gmail.get_header (headers_of m) "Bcc")).
Proof.
  intro H.
  destruct (extract_email_data_inv _ _ _ _ H)
    as (bt & bh & atts & adds & xs & ls & idms & rawv & _ & _ & _ & _ & _ & ->).
  repeat split; reflexivity.
Qed.

(** A pair is selected and read the same way as a tuple and as a list. *)
Lemma address_pair_reloaded (n a : string) :
  address_pair (reloaded (PTuple [PStr n; PStr a])) = address_pair (PTuple [PStr n; PStr a]).
Proof. reflexivity. Qed.

Lemma mapM_ext_map {A B C : Type} (f : B -> result C) (g h : A -> B) (l : list A) :
  (forall x, f (g x) = f (h x)) -> mapM f (map g l) = mapM f (map h l).
Proof.
  intro Hf. induction l as [|x tl IH]; simpl; [reflexivity|].
  rewrite Hf, IH. reflexivity.
Qed.

Lemma reloaded_recipients (l : list (string * string)) :
  reloaded (Gmail.recipients_value l)
  = PList (map (fun p => PList [PStr (fst p); PStr (snd p)]) l).
Proof. unfold Gmail.recipients_value. simpl. rewrite map_map. reflexivity. Qed.

(** [json.dumps] writes a list of pairs and a list of two-element lists the
    same way. *)
Lemma dumps_recipients (l : list (string * string)) :
  Json.dumps (reloaded (Gmail.recipients_value l)) = Json.dumps (Gmail.recipients_value l).
Proof.
  rewrite reloaded_recipients. unfold Gmail.recipients_value.
  cbn [Json.dumps]. f_equal.
  induction l as [|p tl IH]; [reflexivity|].
  cbn [map]. rewrite IH. reflexivity.
Qed.

(** X12.  Persisting the record read back from its interchange document has
    the effect of persisting the record itself.  For the record extracted
    from a message with a non-empty id, [import_ExtractedEmailData] returns,
    from the file that [save_extracted_email_as_json] wrote, a record on
    which [insert_message] ends with the same outcome and the same tables as
    on the original, on every connection: the timestamp that came back as a
    string is bound as the same text, and the recipients that came back as
    lists are read and serialised as the pairs were. *)
Theorem reloaded_record_persists_alike :
  forall (frames : nat) (m : Gmail.message) (raw : option string) (r : dict) (i : string)
         (fs : Gmail.files),
    Gmail.extract_email_data frames m raw = Ok r ->
    Gmail.id m = Some i ->
    i <> EmptyString ->
    exists r',
      import_ExtractedEmailData (PStr i) (Gmail.save_extracted_email_as_json r fs)
        = Some (PDict r') /\
      forall (c : option conn) (u : bool), insert_message c r' u = insert_message c r u.
Proof.
  intros frames m raw r i fs Hex Hi Hne.
  destruct (extracted_collections _ _ _ _ _ Hex Hi) as (Hid & Ha & Hx & Hl & Hr & Hu).
  destruct (extracted_addresses _ _ _ _ Hex) as (Hsn & Hse & Hto & Hcc & Hbcc).
  exists (reloaded_record r). split.
  - unfold Gmail.save_extracted_email_as_json, import_ExtractedEmailData.
    rewrite Hid. simpl.
    destruct i as [|ch i']; [contradiction|]. simpl.
    rewrite Ascii.eqb_refl, String.eqb_refl. simpl.
    f_equal. f_equal. unfold reloaded_record. rewrite map_map.
    apply map_ext_Forall, Forall_forall.
    intros [k x] _. simpl. now rewrite load_dump.
  - intros [c|] u; [|reflexivity].
    assert (Hmid : get (reloaded_record r) "message_id" = get r "message_id")
      by (rewrite get_reloaded, Hid; reflexivity).
    assert (Hpairs : address_pairs (reloaded_record r) = address_pairs r).
    { unfold address_pairs. rewrite !get_or_reloaded, !get_reloaded.
      rewrite Hsn, Hse, Hto, Hcc, Hbcc, reloaded_opt_str, !reloaded_recipients.
      unfold Gmail.recipients_value. cbn [as_list bind reloaded].
      rewrite <- !map_app. cbn [mapM].
      rewrite (mapM_ext_map address_pair
                 (fun p => PList [PStr (fst p); PStr (snd p)])
                 (fun p => PTuple [PStr (fst p); PStr (snd p)]))
        by (intro p; reflexivity).
      reflexivity. }
    assert (Hrow : forall mid, email_row (reloaded_record r) mid = email_row r mid).
    { intro mid. unfold email_row, text_columns. cbn [mapM].
      rewrite !get_or_reloaded, !get_reloaded, !bind_param_reloaded.
      rewrite Hto, Hcc, Hbcc, !dumps_recipients. reflexivity. }
    assert (Hch : forall t, t <> Authentication ->
                  get_or (reloaded_record r) (child_key t) (PList [])
                  = get_or r (child_key t) (PList [])).
    { intros t Ht. rewrite get_or_reloaded.
      destruct t; cbn [child_key]; try contradiction.
      - rewrite Ha. apply reloaded_entries. intro p. unfold attachment_entry.
        destruct (Gmail.filename p), (Gmail.mimeType p), (Gmail.body_size p); reflexivity.
      - rewrite Hx. apply reloaded_entries. intro h. reflexivity.
      - rewrite Hl. apply reloaded_entries. intro l. reflexivity.
      - rewrite Hr. reflexivity. }
    assert (Hauth : get (reloaded_record r) "authentication_results"
                    = get r "authentication_results")
      by (rewrite get_reloaded, Hu; apply reloaded_auth_results).
    unfold insert_message, insert_message_body, replace_children, replace_authentication.
    rewrite Hmid, Hpairs, Hrow, Hauth.
    rewrite (Hch Attachments), (Hch XHeaders), (Hch Labels), (Hch Routing) by discriminate.
    reflexivity.
Qed.

Lemma reloaded_record_persists_alike_witness :
  exists r r' c',
    Gmail.extract_email_data example_frames dated_message None = Ok r /\
    Gmail.id dated_message = Some "m1" /\
    "m1" <> EmptyString /\
    import_ExtractedEmailData (PStr "m1") (Gmail.save_extracted_email_as_json r [])
      = Some (PDict r') /\
    get r "sent_timestamp" = PDatetime apr15_pdt /\
    get r' "sent_timestamp" = PStr "2025-04-15 10:30:00-07:00" /\
    insert_message (Some fresh) r true = (Some c', Committed) /\
    insert_message (Some fresh) r' true = (Some c', Committed).
Proof.
  assert (H1 : Gmail.extract_email_data example_frames dated_message None = Ok (record_of dated_message))
    by (vm_compute; reflexivity).
  assert (H3 : "m1" <> EmptyString) by discriminate.
  destruct (reloaded_record_persists_alike example_frames dated_message None _ "m1" [] H1 eq_refl H3)
    as (r' & Himp & Hsame).
  set (c' := commit (Conn empty_db
                (fst (insert_message_body (record_of dated_message) (PStr "m1")
                        empty_db)))).
  assert (H2 : insert_message (Some fresh) (record_of dated_message) true
               = (Some c', Committed)) by (vm_compute; reflexivity).
  exists (record_of dated_message), r', c'.
  split; [exact H1|]. split; [reflexivity|]. split; [exact H3|]. split; [exact Himp|].
  split; [reflexivity|].
  split.
  - vm_compute in Himp. injection Himp as <-. reflexivity.
  - split; [exact H2 | rewrite Hsame; exact H2].
Defined.

(* ------------------------------------------------------------------ *)
(** ** When a write commits *)

Lemma bind_param_opt_str (o : option string) : bind_param (of_opt_str o) = Ok (opt_text o).
Proof. destruct o; reflexivity. Qed.

Lemma bind_param_int (z : Z) : fits_int64 z -> bind_param (PInt z) = Ok (SInt z).
Proof.
  unfold fits_int64. intros [H1 H2]. unfold bind_param.
  assert (E1 : (- 2 ^ 63 <=? z)%Z = true) by (apply Z.leb_le; exact H1).
  assert (E2 : (z <? 2 ^ 63)%Z = true) by (apply Z.ltb_lt; exact H2).
  rewrite E1, E2. reflexivity.
Qed.

Lemma named_is_address_tuple (t : list pyval) : named_address t -> address_tuple t.
Proof. intros (n & a & -> & Ha). exists (Some n), a. auto. Qed.

(** Step 1 cannot fail on pairs of a name and a non-empty address. *)
Lemma ensure_addresses_ok (ps : list (list pyval)) :
  Forall address_tuple ps ->
  forall d, exists d1, for_each ensure_address ps d = (d1, Ok tt).
Proof.
  induction 1 as [|t tl (o & a & -> & Ha) _ IH]; intros d; simpl.
  - exists d. reflexivity.
  - unfold tbind at 1. cbn [ensure_address]. unfold tbind, lift, execute_total.
    cbn [bind_param]. rewrite bind_param_opt_str. apply IH.
Qed.

(** The pairs of an extracted record whose sender has an address: the pair
    of the sender is among them, and each is a name and a non-empty
    address. *)
Lemma extracted_address_pairs (frames : nat) (m : Gmail.message) (raw : option string) (r : dict) :
  Gmail.extract_email_data frames m raw = Ok r ->
  Str.is_empty (fst (Gmail.parse_sender (Gmail.get_header (headers_of m) "From"))) = false ->
  exists ps,
    address_pairs r = Ok ps /\
    Forall address_tuple ps /\
    exists v, In [v; PStr (fst (Gmail.parse_sender
                                  (Gmail.get_header (headers_of m) "From")))] ps.
Proof.
  intros Hex Hs.
  destruct (extracted_addresses _ _ _ _ Hex) as (Hsn & Hse & Hto & Hcc & Hbcc).
  unfold address_pairs. rewrite Hsn, Hse, Hto, Hcc, Hbcc.
  unfold Gmail.recipients_value. cbn [as_list bind].
  rewrite <- !map_app.
  destruct (address_pairs_of_recipients
              (Gmail.parse_recipients (Gmail.get_header (headers_of m) "To")
               ++ Gmail.parse_recipients (Gmail.get_header (headers_of m) "Cc")
               ++ Gmail.parse_recipients (Gmail.get_header (headers_of m) "Bcc")))
    as (sel & Hsel & Hf).
  cbn [mapM]. rewrite Hsel.
  set (se := fst (Gmail.parse_sender (Gmail.get_header (headers_of m) "From"))) in *.
  set (sn := snd (Gmail.parse_sender (Gmail.get_header (headers_of m) "From"))) in *.
  assert (Hp : address_pair (PTuple [of_opt_str sn; PStr se])
               = Ok [[of_opt_str sn; PStr se]]).
  { unfold address_pair. simpl. rewrite Hs. simpl. destruct sn; reflexivity. }
  rewrite Hp. cbn [bind List.concat app].
  eexists. split; [reflexivity|]. split.
  - apply set_of_Forall. constructor.
    + exists sn, se. auto.
    + eapply Forall_impl; [|exact Hf]. apply named_is_address_tuple.
  - exists (of_opt_str sn). left. reflexivity.
Qed.

Lemma dumps_recipients_ok (l : list (string * string)) :
  exists s, Json.dumps (Gmail.recipients_value l) = Ok s.
Proof.
  unfold Gmail.recipients_value. cbn [Json.dumps].
  assert (H : exists ss,
             (fix dumps_list (l0 : list pyval) : result (list string) :=
                match l0 with
                | [] => Ok []
                | x :: tl => bind (Json.dumps x)
                               (fun s => bind (dumps_list tl) (fun ss => Ok (s :: ss)))
                end) (map (fun r => PTuple [PStr (fst r); PStr (snd r)]) l) = Ok ss).
  { induction l as [|p tl (ss & IH)]; [exists []; reflexivity|].
    cbn [map]. rewrite IH. cbn. eexists. reflexivity. }
  destruct H as (ss & ->). cbn. eexists. reflexivity.
Qed.

(** The scalar fields of an extracted record. *)
Lemma extracted_scalars (frames : nat) (m : Gmail.message) (raw : option string) (r : dict) :
  Gmail.extract_email_data frames m raw = Ok r ->
  exists o1 o2 idms,
    Gmail.internal_date_ms m = Ok idms /\
    get r "thread_id" = of_opt_str (Gmail.threadId m) /\
    get r "subject" = of_opt_str (Gmail.get_header (headers_of m) "Subject") /\
    get r "body_text" = of_opt_str o1 /\
    get r "body_html" = of_opt_str o2 /\
    get r "sent_timestamp"
      = Gmail.of_opt_datetime (Gmail.parse_date (Gmail.get_header (headers_of m) "Date")) /\
    get r "internal_date_ms" = PInt idms /\
    get r "date_received" = of_opt_str (Gmail.get_header (headers_of m) "Received") /\
    get r "mime_type" = of_opt_str (Gmail.mimeType (payload_of m)) /\
    get r "content_transfer_encoding"
      = of_opt_str (Gmail.get_header (headers_of m) "Content-Transfer-Encoding") /\
    get r "charset" = PNone /\
    get r "return_path" = of_opt_str (Gmail.get_header (headers_of m) "Return-Path") /\
    get r "header_sender" = of_opt_str (Gmail.get_header (headers_of m) "Sender").
Proof.
  intro H.
  destruct (extract_email_data_inv _ _ _ _ H)
    as (bt & bh & atts & adds & xs & ls & idms & rawv & Hw & _ & _ & Hd & _ & ->).
  apply walk_payload_inv in Hw. destruct Hw as [(o1 & o2 & -> & ->) _].
  exists o1, o2, idms. repeat split; try reflexivity. exact Hd.
Qed.

Lemma bind_param_opt_datetime (o : option datetime) :
  exists v, bind_param (Gmail.of_opt_datetime o) = Ok v.
Proof. destruct o; eexists; reflexivity. Qed.

(** Step 2 builds a parent row for an extracted record whose internal date
    fits 64 bits. *)
Lemma extracted_email_row (frames : nat) (m : Gmail.message) (raw : option string) (r : dict)
  (i : string) :
  Gmail.extract_email_data frames m raw = Ok r ->
  (forall z, Gmail.internal_date_ms m = Ok z -> fits_int64 z) ->
  exists rw, email_row r (PStr i) = Ok rw.
Proof.
  intros Hex Hfit.
  destruct (extracted_addresses _ _ _ _ Hex) as (_ & Hse & Hto & Hcc & Hbcc).
  destruct (extracted_scalars _ _ _ _ Hex)
    as (o1 & o2 & idms & Hd & H1 & H2 & H3 & H4 & H5 & H6 & H7 & H8 & H9 & H10 & H11 & H12).
  unfold email_row, text_columns. cbn [mapM].
  rewrite Hto, Hcc, Hbcc.
  destruct (dumps_recipients_ok
              (Gmail.parse_recipients (Gmail.get_header (headers_of m) "To"))) as (s1 & ->).
  destruct (dumps_recipients_ok
              (Gmail.parse_recipients (Gmail.get_header (headers_of m) "Cc"))) as (s2 & ->).
  destruct (dumps_recipients_ok
              (Gmail.parse_recipients (Gmail.get_header (headers_of m) "Bcc"))) as (s3 & ->).
  rewrite Hse, H1, H2, H3, H4, H5, H6, H7, H8, H9, H10, H11, H12.
  rewrite !bind_param_opt_str, (bind_param_int idms (Hfit _ Hd)).
  destruct (bind_param_opt_datetime
              (Gmail.parse_date (Gmail.get_header (headers_of m) "Date"))) as (v & ->).
  cbn. eexists. reflexivity.
Qed.

(** The loop that inserts the rows of a collection goes through when each
    entry gives a row and the message has its parent row. *)
Lemma insert_children_ok (t : child) (i : string) :
  forall es d,
    (forall e, In e es -> exists rw, child_row t (PStr i) e = Ok rw) ->
    has_key (SText i) (emails d) = true ->
    exists d',
      for_each (fun e => r <~ lift (child_row t (PStr i) e) ;; execute (insert_child t r))
               es d = (d', Ok tt) /\
      emails d' = emails d.
Proof.
  induction es as [|e tl IH]; intros d Hes Hk; simpl.
  - exists d. split; reflexivity.
  - destruct (Hes e (or_introl eq_refl)) as (rw & Hrw).
    unfold tbind at 1. unfold tbind at 1. unfold lift at 1. rewrite Hrw.
    unfold execute, insert_child. rewrite (child_row_key _ _ _ _ Hrw). cbn [fk_ok].
    rewrite Hk.
    destruct (IH (set_table t (table t d ++ [rw]) d)) as (d' & Hd' & He').
    + intros e' He'. apply Hes. right. exact He'.
    + rewrite emails_set_table. exact Hk.
    + exists d'. split; [exact Hd'|]. rewrite He', emails_set_table. reflexivity.
Qed.

Lemma replace_children_ok (t : child) (r : dict) (i : string) (es : list pyval) (d : db) :
  get_or r (child_key t) (PList []) = PList es ->
  (forall e, In e es -> exists rw, child_row t (PStr i) e = Ok rw) ->
  has_key (SText i) (emails d) = true ->
  exists d', replace_children t r (PStr i) d = (d', Ok tt) /\ emails d' = emails d.
Proof.
  intros Hes Hrows Hk. unfold replace_children.
  unfold tbind at 1. unfold lift at 1. cbn [bind_param].
  unfold tbind at 1. unfold execute_total at 1.
  unfold tbind at 1. unfold lift at 1. rewrite Hes. cbn [py_iter].
  destruct (insert_children_ok t i es (delete_children t (SText i) d) Hrows)
    as (d' & Hd' & He').
  - unfold delete_children. rewrite emails_set_table. exact Hk.
  - exists d'. split; [exact Hd'|]. rewrite He'. unfold delete_children.
    apply emails_set_table.
Qed.

Lemma attachment_child_row (i : string) (p : Gmail.part) :
  (forall z, Gmail.body_size p = Some z -> fits_int64 z) ->
  exists rw, child_row Attachments (PStr i) (attachment_entry i p) = Ok rw.
Proof.
  intro Hfit. unfold child_row, attachment_entry. cbn.
  rewrite !bind_param_opt_str. cbn [bind].
  destruct (Gmail.body_size p) as [z|]; cbn [of_opt_Z].
  - rewrite (bind_param_int z (Hfit z eq_refl)). cbn. eexists. reflexivity.
  - cbn. eexists. reflexivity.
Qed.

Lemma authentication_ok (r : dict) (i : string) (h : option string) (d : db) :
  get r "authentication_results" = Gmail.parse_auth_results h ->
  has_key (SText i) (emails d) = true ->
  exists d', replace_authentication r (PStr i) d = (d', Ok tt).
Proof.
  intros Hu Hk. unfold replace_authentication. rewrite Hu.
  destruct (truthy (Gmail.parse_auth_results h)) eqn:Et; [|eexists; reflexivity].
  assert (Hrow : exists rw, child_row Authentication (PStr i) (Gmail.parse_auth_results h)
                            = Ok rw).
  { revert Et. unfold Gmail.parse_auth_results.
    destruct h as [hv|]; [|discriminate].
    destruct (Str.is_empty hv); [discriminate|].
    destruct (Re.search Gmail.spf_re hv), (Re.search Gmail.dkim_re hv),
      (Re.search Gmail.dmarc_re hv); cbn; intro Et; try discriminate Et;
      eexists; reflexivity. }
  destruct Hrow as (rw & Hrw).
  unfold tbind at 1. unfold lift at 1. cbn [bind_param].
  unfold tbind at 1. unfold execute_total at 1.
  unfold tbind at 1. unfold lift at 1. rewrite Hrw.
  unfold execute, insert_child. rewrite (child_row_key _ _ _ _ Hrw). cbn [fk_ok].
  unfold delete_children. rewrite emails_set_table, Hk. eexists. reflexivity.
Qed.

(** X13.  When a write goes through.  The record that [extract_email_data]
    returns for a message is stored by [insert_message], with
    [update_if_exists], on every open connection, provided the message has
    an id, the address found in its [From] header is not empty, and its
    internal date and the sizes of its attachments fit 64 bits. *)
Theorem insert_message_commits :
  forall (frames : nat) (m : Gmail.message) (raw : option string) (r : dict) (i : string) (c : conn),
    Gmail.extract_email_data frames m raw = Ok r ->
    Gmail.id m = Some i ->
    Str.is_empty (fst (Gmail.parse_sender (Gmail.get_header (headers_of m) "From")))
      = false ->
    (forall z, Gmail.internal_date_ms m = Ok z -> fits_int64 z) ->
    (forall p z, In p (top_parts m) -> Gmail.body_size p = Some z -> fits_int64 z) ->
    exists c', insert_message (Some c) r true = (Some c', Committed).
Proof.
  intros frames m raw r i c Hex Hi Hs Hdate Hsizes.
  destruct (extracted_collections _ _ _ _ _ Hex Hi) as (Hid & Ha & Hx & Hl & Hr & Hu).
  destruct (extracted_address_pairs _ _ _ _ Hex Hs) as (ps & Hps & Hf & (v & Hin)).
  destruct (ensure_addresses_ok ps Hf (current c)) as (d1 & Hd1).
  pose proof (ensure_address_registers _ _ _ Hd1 _ _ Hin) as Hreg.
  destruct (extracted_email_row _ _ _ _ i Hex Hdate) as (rw & Hrw).
  destruct (email_row_sender _ _ _ Hrw) as (sv & Hsv & Hcol2).
  destruct (extracted_addresses _ _ _ _ Hex) as (_ & Hse & _).
  rewrite Hse in Hsv. injection Hsv as <-. cbn [as_text] in Hcol2.
  pose proof (email_row_key _ _ _ Hrw) as Hcol0.
  set (d1' := if has_key (col 0 rw) (emails d1)
              then delete_email_cascade (col 0 rw) d1 else d1).
  assert (Hins : insert_or_replace_email rw d1 = Ok (set_emails (emails d1' ++ [rw]) d1')).
  { unfold insert_or_replace_email. fold d1'. rewrite Hcol2.
    assert (Hea : email_address d1' = email_address d1)
      by (unfold d1'; destruct (has_key (col 0 rw) (emails d1)); reflexivity).
    cbn [fk_ok]. rewrite Hea, Hreg. reflexivity. }
  set (d2 := set_emails (emails d1' ++ [rw]) d1') in *.
  assert (Hk2 : has_key (SText i) (emails d2) = true).
  { unfold d2. cbn [emails set_emails]. rewrite has_key_app.
    apply orb_true_intro. right. simpl. rewrite Hcol0, sql_eq_text_refl. reflexivity. }
  destruct (replace_children_ok Attachments r i _ d2 Ha) as (d3 & H3 & E3).
  { intros e He. apply in_map_iff in He. destruct He as (p & <- & Hp).
    apply attachment_child_row. intros z Hz. apply (Hsizes p z); [|exact Hz].
    apply filter_In in Hp. apply Hp. }
  { exact Hk2. }
  destruct (replace_children_ok XHeaders r i _ d3 Hx) as (d4 & H4 & E4).
  { intros e He. apply in_map_iff in He. destruct He as (h & <- & _).
    eexists. reflexivity. }
  { rewrite E3. exact Hk2. }
  destruct (replace_children_ok Labels r i _ d4 Hl) as (d5 & H5 & E5).
  { intros e He. apply in_map_iff in He. destruct He as (l & <- & _).
    eexists. reflexivity. }
  { rewrite E4, E3. exact Hk2. }
  destruct (replace_children_ok Routing r i _ d5 Hr) as (d6 & H6 & E6).
  { intros e []. }
  { rewrite E5, E4, E3. exact Hk2. }
  destruct (authentication_ok r i _ d6 Hu) as (d7 & H7).
  { rewrite E6, E5, E4, E3. exact Hk2. }
  exists (commit (Conn (committed c) d7)).
  unfold insert_message. rewrite Hid. cbn iota.
  assert (Hbody : insert_message_body r (PStr i) (current c) = (d7, Ok tt)).
  { unfold insert_message_body.
    unfold tbind at 1. unfold lift at 1. rewrite Hps.
    unfold tbind at 1. rewrite Hd1.
    unfold tbind at 1. unfold lift at 1. rewrite Hrw.
    unfold tbind at 1. unfold execute at 1. rewrite Hins.
    unfold tbind at 1. rewrite H3.
    unfold tbind at 1. rewrite H4.
    unfold tbind at 1. rewrite H5.
    unfold tbind at 1. rewrite H6.
    exact H7. }
  rewrite Hbody. reflexivity.
Qed.

Lemma insert_message_commits_witness :
  exists c',
    Gmail.extract_email_data example_frames attached_message None = Ok (record_of attached_message) /\
    Gmail.id attached_message = Some "m1" /\
    Str.is_empty (fst (Gmail.parse_sender
                         (Gmail.get_header (headers_of attached_message) "From"))) = false /\
    (forall z, Gmail.internal_date_ms attached_message = Ok z -> fits_int64 z) /\
    (forall p z, In p (top_parts attached_message) ->
                 Gmail.body_size p = Some z -> fits_int64 z) /\
    insert_message (Some fresh) (record_of attached_message) true = (Some c', Committed).
Proof.
  assert (H1 : Gmail.extract_email_data example_frames attached_message None
               = Ok (record_of attached_message)) by (vm_compute; reflexivity).
  assert (H3 : Str.is_empty (fst (Gmail.parse_sender
                 (Gmail.get_header (headers_of attached_message) "From"))) = false)
    by (vm_compute; reflexivity).
  assert (H4 : forall z, Gmail.internal_date_ms attached_message = Ok z -> fits_int64 z).
  { intros z Hz. vm_compute in Hz. injection Hz as <-. unfold fits_int64. lia. }
  assert (H5 : forall p z, In p (top_parts attached_message) ->
                           Gmail.body_size p = Some z -> fits_int64 z).
  { intros p z Hp Hz. unfold fits_int64.
    destruct Hp as [<-|[<-|[<-|[<-|[]]]]]; vm_compute in Hz;
      try discriminate Hz; injection Hz as <-; lia. }
  destruct (insert_message_commits example_frames attached_message None _ "m1" fresh H1 eq_refl H3 H4 H5)
    as (c' & Hc').
  exists c'. split; [exact H1|]. split; [reflexivity|]. split; [exact H3|].
  split; [exact H4|]. split; [exact H5 | exact Hc'].
Defined.

(* ------------------------------------------------------------------ *)
(** ** The primary keys *)

Lemma has_key_without_key_own (k : sqlval) (l : list row) :
  has_key k (without_key k l) = false.
Proof.
  destruct (has_key k (without_key k l)) eqn:E; [|reflexivity].
  apply has_key_In in E. destruct E as (p & Hp & Hpk).
  apply filter_In in Hp. destruct Hp as [_ Hp]. rewrite Hpk in Hp. discriminate Hp.
Qed.

Lemma has_key_without_key_none (k k' : sqlval) (l : list row) :
  has_key k l = false -> has_key k (without_key k' l) = false.
Proof.
  intro H. destruct (has_key k (without_key k' l)) eqn:E; [|reflexivity].
  apply has_key_In in E. destruct E as (p & Hp & Hpk).
  apply filter_In in Hp. destruct Hp as [Hp _].
  assert (Ht : has_key k l = true) by (apply has_key_In; exists p; auto).
  rewrite H in Ht. discriminate Ht.
Qed.

Lemma unique_without_key (k : sqlval) (l : list row) :
  unique_keys l = true -> unique_keys (without_key k l) = true.
Proof.
  induction l as [|r tl IH]; simpl; [reflexivity|].
  intro H. apply andb_true_iff in H. destruct H as [Hr Ht].
  change (without_key k (r :: tl))
    with (if negb (sql_eq (col 0 r) k) then r :: without_key k tl else without_key k tl).
  destruct (negb (sql_eq (col 0 r) k)); [|apply IH, Ht].
  simpl. rewrite (IH Ht), andb_true_r.
  apply negb_true_iff in Hr. rewrite (has_key_without_key_none _ k _ Hr). reflexivity.
Qed.

Lemma unique_app_one (l : list row) (r : row) :
  unique_keys l = true -> has_key (col 0 r) l = false -> unique_keys (l ++ [r]) = true.
Proof.
  induction l as [|x tl IH]; simpl; intros Hu Hk; [reflexivity|].
  apply andb_true_iff in Hu. destruct Hu as [Hx Ht].
  apply orb_false_elim in Hk. destruct Hk as [Hxr Hk].
  rewrite (IH Ht Hk), andb_true_r, has_key_app.
  apply negb_true_iff in Hx. rewrite Hx. simpl.
  rewrite sql_eq_sym, Hxr. reflexivity.
Qed.

Lemma unique_same_keys (l l' : list row) :
  Forall2 (fun r r' => col 0 r' = col 0 r) l l' -> unique_keys l' = unique_keys l.
Proof.
  induction 1 as [|r r' tl tl' Hr Ht IH]; simpl; [reflexivity|].
  rewrite IH, Hr. f_equal. f_equal. unfold has_key. clear -Ht.
  induction Ht as [|x x' tl tl' Hx _ IH]; simpl; [reflexivity|].
  rewrite IH, Hx. reflexivity.
Qed.

Lemma address_keys_unique (e n : sqlval) (d : db) :
  keys_unique d = true -> keys_unique (insert_or_ignore_email_address e n d) = true.
Proof.
  unfold insert_or_ignore_email_address.
  destruct (has_key (as_text e) (email_address d)) eqn:E; [auto|].
  unfold keys_unique. cbn [emails email_address set_email_address].
  intro H. apply andb_true_iff in H. destruct H as [H1 H2].
  rewrite H1. simpl. apply unique_app_one; [exact H2 | exact E].
Qed.

Lemma cascade_keys_unique (k : sqlval) (d : db) :
  keys_unique d = true -> keys_unique (delete_email_cascade k d) = true.
Proof.
  unfold keys_unique. cbn [emails email_address delete_email_cascade].
  intro H. apply andb_true_iff in H. destruct H as [H1 H2].
  rewrite (unique_without_key k _ H1), H2. reflexivity.
Qed.

Lemma parent_keys_unique (rw : row) (d d' : db) :
  insert_or_replace_email rw d = Ok d' ->
  keys_unique d = true -> keys_unique d' = true.
Proof.
  unfold insert_or_replace_email. intros H Hd.
  set (d1 := if has_key (col 0 rw) (emails d)
             then delete_email_cascade (col 0 rw) d else d) in *.
  assert (H1 : keys_unique d1 = true /\ has_key (col 0 rw) (emails d1) = false).
  { unfold d1. destruct (has_key (col 0 rw) (emails d)) eqn:E.
    - split; [apply cascade_keys_unique, Hd | apply has_key_without_key_own].
    - split; [exact Hd | exact E]. }
  destruct H1 as [Hu Hk].
  destruct (fk_ok _ _); [|discriminate H]. injection H as <-.
  unfold keys_unique in *. cbn [emails email_address set_emails].
  apply andb_true_iff in Hu. destruct Hu as [H1 H2].
  rewrite H2, andb_true_r. apply unique_app_one; assumption.
Qed.

Lemma insert_message_body_keys_unique (r : dict) (message_id : pyval) :
  keeps (fun d d' => keys_unique d = true -> keys_unique d' = true)
        (insert_message_body r message_id).
Proof.
  apply (insert_message_body_keeps _ r message_id
           (match bind_param message_id with Ok mid => as_text mid | Raise _ => SNull end)).
  - auto.
  - auto.
  - intros mid ->. reflexivity.
  - intros e n d. apply address_keys_unique.
  - intros rw d d' _. apply parent_keys_unique.
  - intros t mid d _. unfold delete_children, keys_unique. rewrite emails_set_table.
    replace (email_address (set_table t (without_key (as_text mid) (table t d)) d))
      with (email_address d) by (destruct t; reflexivity).
    auto.
  - intros t rw d d' _. unfold insert_child.
    destruct (fk_ok _ _); [|discriminate]. intros [= <-].
    unfold keys_unique. rewrite emails_set_table.
    replace (email_address (set_table t (table t d ++ [rw]) d))
      with (email_address d) by (destruct t; reflexivity).
    auto.
Qed.

(** X14.  The three operations that write to the database keep the primary
    keys unique: on a connection whose tables, committed and current, hold
    no two rows of [emails] with the same message id and no two rows of
    [email_address] with the same address, this is so again after
    [insert_message], after [delete_email] and after
    [update_email_label_booleans], whatever their arguments and outcome. *)
Theorem writes_keep_primary_keys_unique :
  forall (c : conn),
    keys_unique (committed c) = true ->
    keys_unique (current c) = true ->
    (forall r u c' o,
        insert_message (Some c) r u = (Some c', o) ->
        keys_unique (committed c') = true /\ keys_unique (current c') = true) /\
    (forall message_id confirm user_input c' o,
        delete_email (Some c) message_id confirm user_input = (Some c', o) ->
        keys_unique (committed c') = true /\ keys_unique (current c') = true) /\
    (forall c',
        update_email_label_booleans (Some c) = Some c' ->
        keys_unique (committed c') = true /\ keys_unique (current c') = true).
Proof.
  intros c Hcm Hcu. split; [|split].
  - intros r u c' o H. unfold insert_message in H.
    destruct (if u then Ok false
              else bind (bind_param (get r "message_id"))
                        (fun mid => Ok (select_email_exists mid (current c))))
      as [[|]|e]; try (injection H as <- _; auto).
    destruct (insert_message_body r (get r "message_id") (current c)) as [d res] eqn:E.
    pose proof (insert_message_body_keys_unique _ _ _ _ _ E Hcu) as Hd.
    destruct res as [[]|e]; injection H as <- _; simpl; auto.
  - intros message_id confirm user_input c' o H. unfold delete_email in H.
    destruct (bind_param message_id) as [mid|e]; [|injection H as <- _; auto].
    destruct (negb (select_email_exists mid (current c))); [injection H as <- _; auto|].
    destruct (confirm && negb (String.eqb (Str.lower user_input) "y"));
      [injection H as <- _; auto|].
    unfold execute_total in H. injection H as <- _. simpl.
    split; apply cascade_keys_unique, Hcu.
  - intros c' H. destruct (backfill_spec _ _ H) as (Hcc & Ha & _ & HF).
    rewrite Hcc.
    assert (Hk : keys_unique (committed c') = true).
    { unfold keys_unique in *. rewrite Ha.
      rewrite (unique_same_keys (emails (current c)) (emails (committed c'))); [exact Hcu|].
      eapply Forall2_impl; [|exact HF].
      intros x x' [Hx _]. apply (Hx 0). lia. }
    split; exact Hk.
Qed.

Lemma writes_keep_primary_keys_unique_witness :
  exists c1 c2,
    keys_unique (committed fresh) = true /\
    keys_unique (current fresh) = true /\
    insert_message (Some fresh) (record_of first_fetch) true = (Some c1, Committed) /\
    insert_message (Some c1) (record_of second_fetch) true = (Some c2, Committed) /\
    keys_unique (committed c1) = true /\
    map (col 0) (emails (committed c2)) = [SText "m1"] /\
    keys_unique (committed c2) = true.
Proof.
  set (c1 := commit (Conn empty_db
                (fst (insert_message_body (record_of first_fetch) (PStr "m1") empty_db)))).
  set (c2 := commit (Conn (committed c1)
                (fst (insert_message_body (record_of second_fetch) (PStr "m1")
                        (current c1))))).
  assert (H1 : insert_message (Some fresh) (record_of first_fetch) true
               = (Some c1, Committed)) by (vm_compute; reflexivity).
  assert (H2 : insert_message (Some c1) (record_of second_fetch) true
               = (Some c2, Committed)) by (vm_compute; reflexivity).
  pose proof (proj1 (writes_keep_primary_keys_unique fresh eq_refl eq_refl) _ _ _ _ H1)
    as [K1 K1'].
  pose proof (proj1 (writes_keep_primary_keys_unique c1 K1 K1') _ _ _ _ H2) as [K2 _].
  exists c1, c2.
  split; [reflexivity|]. split; [reflexivity|]. split; [exact H1|]. split; [exact H2|].
  split; [exact K1|]. split; [vm_compute; reflexivity | exact K2].
Defined.

(* ------------------------------------------------------------------ *)
(** ** Writing the same record again *)

Lemma set_of_incl (l : list (list pyval)) : incl (set_of l) l.
Proof.
  induction l as [|x tl IH]; simpl; intros y Hy; [exact Hy|].
  destruct Hy as [<-|Hy]; [left; reflexivity|].
  right. apply IH. apply filter_In in Hy. apply Hy.
Qed.

(** The address of a pair that step 1 selects is truthy. *)
Lemma address_pair_truthy (x : pyval) (y : list (list pyval)) :
  address_pair x = Ok y ->
  forall t name email, In t y -> t = [name; email] -> truthy email = true.
Proof.
  unfold address_pair. destruct (truthy x); [|intros [= <-] t name email []].
  destruct (subscript1 x) as [v|] eqn:Es; [cbn [bind] | discriminate].
  destruct (truthy v) eqn:Ev; [|intros [= <-] t name email []].
  destruct (py_iter x) as [l|] eqn:Ei; [cbn [bind] | discriminate].
  destruct (forallb hashable l); [|discriminate].
  intros [= <-] t name email Hin Ht. destruct Hin as [Hl|[]]. subst t. subst l.
  destruct x; try discriminate Es; simpl in Es, Ei.
  - destruct s as [|c1 [|c2 s']]; simpl in Es; try discriminate Es.
    injection Es as <-. simpl in Ei.
    destruct s'; [|discriminate Ei]. injection Ei as _ <-. reflexivity.
  - injection Ei as ->. simpl in Es. injection Es as <-. exact Ev.
  - injection Ei as ->. simpl in Es. injection Es as <-. exact Ev.
Qed.

Lemma address_pairs_truthy (r : dict) (ps : list (list pyval)) :
  address_pairs r = Ok ps ->
  forall t name email, In t ps -> t = [name; email] -> truthy email = true.
Proof.
  unfold address_pairs. intro H.
  destruct (as_list (get_or r "to_recipients" (PList []))) as [to|];
    [cbn [bind] in H | discriminate H].
  destruct (as_list (get_or r "cc_recipients" (PList []))) as [cc|];
    [cbn [bind] in H | discriminate H].
  destruct (as_list (get_or r "bcc_recipients" (PList []))) as [bcc|];
    [cbn [bind] in H | discriminate H].
  destruct (mapM address_pair _) as [sel|] eqn:Esel; [cbn [bind] in H | discriminate H].
  injection H as <-. intros t name email Hin Ht.
  apply set_of_incl in Hin. apply in_concat in Hin. destruct Hin as (y & Hy & Hty).
  assert (Hall : Forall (fun y => forall t name email,
                           In t y -> t = [name; email] -> truthy email = true) sel).
  { revert Esel. apply mapM_Forall. intros x y0. apply address_pair_truthy. }
  rewrite Forall_forall in Hall. apply (Hall y Hy t name email Hty Ht).
Qed.

Lemma bound_truthy_not_null (v : pyval) (e : sqlval) :
  truthy v = true -> bind_param v = Ok e -> as_text e <> SNull.
Proof.
  destruct v; simpl; try discriminate; intros _.
  - intros [= <-]. discriminate.
  - destruct (_ && _)%bool; [|discriminate]. intros [= <-]. discriminate.
  - intros [= <-]. discriminate.
  - intros [= <-]. discriminate.
Qed.

(** Step 1 on addresses that are all registered changes nothing. *)
Lemma ensure_addresses_again (ps : list (list pyval)) :
  (forall t name email, In t ps -> t = [name; email] -> truthy email = true) ->
  forall d d',
    for_each ensure_address ps d = (d', Ok tt) ->
    forall d2,
      (forall k, has_key k (email_address d') = true ->
                 has_key k (email_address d2) = true) ->
      for_each ensure_address ps d2 = (d2, Ok tt).
Proof.
  induction ps as [|t tl IH]; intros Htr d d' H d2 Hd2; [reflexivity|].
  simpl in H. apply tbind_ok in H. destruct H as (d0 & [] & H0 & H).
  assert (K : keeps addresses_extended (for_each ensure_address tl)).
  { apply keeps_for_each;
      [apply addresses_extended_refl | apply addresses_extended_trans |].
    intro x. apply ensure_address_keeps;
      [apply addresses_extended_refl | apply addresses_extended_trans
      | apply address_extended]. }
  destruct t as [|name [|email [|x tl']]]; try discriminate H0.
  cbn [ensure_address] in H0.
  apply tbind_ok in H0. destruct H0 as (d3 & e & He & H0).
  apply lift_ok in He. destruct He as [He ->].
  apply tbind_ok in H0. destruct H0 as (d4 & n & Hn & H0).
  apply lift_ok in Hn. destruct Hn as [Hn ->].
  unfold execute_total in H0. injection H0 as <-.
  assert (Hreg : has_key (as_text e)
                   (email_address (insert_or_ignore_email_address e n d)) = true).
  { unfold insert_or_ignore_email_address.
    destruct (has_key (as_text e) (email_address d)) eqn:E; [exact E|].
    cbn [email_address set_email_address]. rewrite has_key_app.
    apply orb_true_intro. right. simpl. rewrite orb_false_r.
    apply sql_eq_refl.
    apply (bound_truthy_not_null email e); [|exact He].
    apply (Htr [name; email] name email); [left; reflexivity | reflexivity]. }
  cbn [for_each]. unfold tbind at 1. cbn [ensure_address].
  unfold tbind at 1. unfold lift at 1. rewrite He.
  unfold tbind at 1. unfold lift at 1. rewrite Hn.
  unfold execute_total, insert_or_ignore_email_address.
  rewrite (Hd2 _ (has_key_extended _ _ _ (K _ _ _ H) Hreg)).
  apply (IH (fun t0 n0 e0 Hin => Htr t0 n0 e0 (or_intror Hin)) _ _ H d2 Hd2).
Qed.

(** A run of the statements of a collection that went through goes through
    again wherever the message has its parent row. *)
Lemma replace_children_again (t : child) (r : dict) (i : string) (dx dy : db) :
  replace_children t r (PStr i) dx = (dy, Ok tt) ->
  forall d, has_key (SText i) (emails d) = true ->
  exists d', replace_children t r (PStr i) d = (d', Ok tt) /\ emails d' = emails d.
Proof.
  intros H d Hk. unfold replace_children in H.
  apply tbind_ok in H. destruct H as (d1 & mid & Hb & H).
  apply lift_ok in Hb. destruct Hb as [Hb ->]. simpl in Hb. injection Hb as <-.
  apply tbind_ok in H. destruct H as (d2 & [] & Hdel & H).
  apply tbind_ok in H. destruct H as (d3 & es & Hes & H).
  apply lift_ok in Hes. destruct Hes as [Hes ->].
  destruct (insert_children_spec _ _ _ _ _ H) as (rows & Hm & _).
  unfold replace_children.
  unfold tbind at 1. unfold lift at 1. cbn [bind_param].
  unfold tbind at 1. unfold execute_total at 1.
  unfold tbind at 1. unfold lift at 1. rewrite Hes.
  destruct (insert_children_ok t i es (delete_children t (SText i) d)) as (d' & Hd' & He').
  - intros e He. destruct (mapM_In _ _ _ _ Hm He) as (rw & Hrw & _). exists rw. exact Hrw.
  - unfold delete_children. rewrite emails_set_table. exact Hk.
  - exists d'. split; [exact Hd'|]. rewrite He'. unfold delete_children.
    apply emails_set_table.
Qed.

Lemma replace_authentication_again (r : dict) (i : string) (dx dy : db) :
  replace_authentication r (PStr i) dx = (dy, Ok tt) ->
  forall d, has_key (SText i) (emails d) = true ->
  exists d', replace_authentication r (PStr i) d = (d', Ok tt).
Proof.
  unfold replace_authentication.
  destruct (truthy (get r "authentication_results")); [|intros _ d _; eexists; reflexivity].
  intros H d Hk.
  apply tbind_ok in H. destruct H as (d1 & mid & Hb & H).
  apply lift_ok in Hb. destruct Hb as [Hb ->]. simpl in Hb. injection Hb as <-.
  apply tbind_ok in H. destruct H as (d2 & [] & Hdel & H).
  apply tbind_ok in H. destruct H as (d3 & rw & Hrow & H).
  apply lift_ok in Hrow. destruct Hrow as [Hrow ->].
  unfold tbind at 1. unfold lift at 1. cbn [bind_param].
  unfold tbind at 1. unfold execute_total at 1.
  unfold tbind at 1. unfold lift at 1. rewrite Hrow.
  unfold execute, insert_child. rewrite (child_row_key _ _ _ _ Hrow). cbn [fk_ok].
  unfold delete_children. rewrite emails_set_table, Hk. eexists. reflexivity.
Qed.

Lemma children_steps_again (r : dict) (i : string) (dx dy : db) :
  children_steps r (PStr i) dx = (dy, Ok tt) ->
  forall d, has_key (SText i) (emails d) = true ->
  exists d', children_steps r (PStr i) d = (d', Ok tt).
Proof.
  intros H d Hk. unfold children_steps in H.
  apply tbind_ok in H. destruct H as (x1 & [] & HA & H).
  apply tbind_ok in H. destruct H as (x2 & [] & HX & H).
  apply tbind_ok in H. destruct H as (x3 & [] & HL & H).
  apply tbind_ok in H. destruct H as (x4 & [] & HR & H).
  destruct (replace_children_again _ _ _ _ _ HA d Hk) as (d3 & H3 & E3).
  destruct (replace_children_again _ _ _ _ _ HX d3) as (d4 & H4 & E4);
    [rewrite E3; exact Hk|].
  destruct (replace_children_again _ _ _ _ _ HL d4) as (d5 & H5 & E5);
    [rewrite E4, E3; exact Hk|].
  destruct (replace_children_again _ _ _ _ _ HR d5) as (d6 & H6 & E6);
    [rewrite E5, E4, E3; exact Hk|].
  destruct (replace_authentication_again _ _ _ _ H d6) as (d7 & H7);
    [rewrite E6, E5, E4, E3; exact Hk|].
  exists d7. unfold children_steps.
  unfold tbind at 1. rewrite H3.
  unfold tbind at 1. rewrite H4.
  unfold tbind at 1. rewrite H5.
  unfold tbind at 1. rewrite H6.
  exact H7.
Qed.

Lemma with_key_of_without_key (k k' : sqlval) (l : list row) :
  k <> k' -> with_key k (without_key k' l) = with_key k l.
Proof.
  intro Hne. unfold with_key, without_key.
  induction l as [|r tl IH]; simpl; [reflexivity|].
  destruct (sql_eq (col 0 r) k') eqn:E'; simpl.
  - destruct (sql_eq (col 0 r) k) eqn:E; [|exact IH].
    apply sql_eq_true in E, E'. destruct E as [E _], E' as [E' _].
    exfalso. apply Hne. congruence.
  - rewrite IH. reflexivity.
Qed.

Lemma with_key_others (k k' : sqlval) (l l' : list row) :
  k <> k' -> without_key k' l' = without_key k' l -> with_key k l' = with_key k l.
Proof.
  intros Hne H.
  rewrite <- (with_key_of_without_key k k' l' Hne), H.
  apply with_key_of_without_key, Hne.
Qed.

(** X15.  [insert_message] is idempotent.  On a database whose foreign keys
    hold, after a committed write of a record of the message [i], writing
    the same record again with [update_if_exists] commits too and changes
    nothing: [email_address] is what it was, and so are, for every message,
    its rows in [emails] and in each of the five tables of children, in
    their order.  (The rows of the message written move to the end of their
    tables.) *)
Theorem insert_message_is_idempotent :
  forall (c c1 : conn) (r : dict) (i : string),
    integrity (current c) = true ->
    get r "message_id" = PStr i ->
    insert_message (Some c) r true = (Some c1, Committed) ->
    exists c2,
      insert_message (Some c1) r true = (Some c2, Committed) /\
      email_address (committed c2) = email_address (committed c1) /\
      (forall k, with_key k (emails (committed c2)) = with_key k (emails (committed c1))) /\
      (forall t k, with_key k (table t (committed c2))
                   = with_key k (table t (committed c1))).
Proof.
  intros c c1 r i Hint Hid H.
  apply insert_message_committed in H. destruct H as [Hb Hcc]. rewrite Hid in Hb.
  pose proof (insert_message_body_parent _ _ _ _ Hb) as Hparent.
  destruct (insert_message_body_spec _ _ _ _ Hint Hid Hb) as ((rw0 & Hrw0 & Hp1) & Hrows1 & Hint1).
  destruct (insert_message_body_ok _ _ _ _ Hb)
    as (ps & dA & rw & dB & Hps & Hfe & Hrow & Hins & Hch).
  rewrite Hrow in Hrw0. injection Hrw0 as <-.
  destruct (children_steps_parents _ _ _ _ _ Hch) as [HeB HaB].
  assert (HaA : email_address dB = email_address dA).
  { unfold insert_or_replace_email in Hins.
    destruct (fk_ok _ _); [|discriminate Hins]. injection Hins as <-.
    destruct (has_key (col 0 rw) (emails dA)); reflexivity. }
  assert (Hfk : fk_ok (col 2 rw) (email_address (committed c1)) = true).
  { rewrite HaB, HaA. unfold insert_or_replace_email in Hins.
    destruct (fk_ok (col 2 rw) _) eqn:Ef; [|discriminate Hins].
    destruct (has_key (col 0 rw) (emails dA)); exact Ef. }
  set (d1 := committed c1) in *.
  assert (Hfe2 : for_each ensure_address ps d1 = (d1, Ok tt)).
  { apply (ensure_addresses_again ps (address_pairs_truthy _ _ Hps) _ _ Hfe).
    intros k Hk. rewrite HaB, HaA. exact Hk. }
  pose proof (email_row_key _ _ _ Hrow) as Hcol0.
  set (d2 := set_emails (emails (delete_email_cascade (SText i) d1) ++ [rw])
                        (delete_email_cascade (SText i) d1)).
  assert (Hins2 : insert_or_replace_email rw d1 = Ok d2).
  { unfold insert_or_replace_email. rewrite Hcol0, Hparent.
    cbn [email_address delete_email_cascade]. rewrite Hfk. reflexivity. }
  assert (Hk2 : has_key (SText i) (emails d2) = true).
  { unfold d2. cbn [emails set_emails]. rewrite has_key_app.
    apply orb_true_intro. right. simpl. rewrite Hcol0, sql_eq_text_refl. reflexivity. }
  destruct (children_steps_again _ _ _ _ Hch d2 Hk2) as (d3 & Hch2).
  assert (Hb2 : insert_message_body r (PStr i) d1 = (d3, Ok tt)).
  { unfold insert_message_body.
    unfold tbind at 1. unfold lift at 1. rewrite Hps.
    unfold tbind at 1. rewrite Hfe2.
    unfold tbind at 1. unfold lift at 1. rewrite Hrow.
    unfold tbind at 1. unfold execute at 1. rewrite Hins2.
    exact Hch2. }
  exists (commit (Conn (committed c1) d3)).
  split.
  { unfold insert_message. rewrite Hid, Hcc. fold d1. rewrite Hb2. reflexivity. }
  cbn [commit committed current].
  destruct (insert_message_body_spec _ _ _ _ Hint1 Hid Hb2) as ((rw2 & Hrw2 & Hp2) & Hrows2 & _).
  rewrite Hrow in Hrw2. injection Hrw2 as <-.
  destruct (insert_message_body_others _ _ _ _ _ Hb2) as [Ho Hot].
  destruct (children_steps_parents _ _ _ _ _ Hch2) as [_ Ha3].
  split; [rewrite Ha3; reflexivity|].
  split.
  - intro k. destruct (sqlval_eqb k (SText i)) eqn:Ek.
    + destruct k; try discriminate Ek. simpl in Ek. apply String.eqb_eq in Ek. subst s.
      rewrite Hp2, Hp1. reflexivity.
    + apply (with_key_others k (SText i)); [|exact Ho].
      intros ->. simpl in Ek. rewrite String.eqb_refl in Ek. discriminate Ek.
  - intros t k. destruct (sqlval_eqb k (SText i)) eqn:Ek.
    + destruct k; try discriminate Ek. simpl in Ek. apply String.eqb_eq in Ek. subst s.
      destruct (Hrows1 t) as (rows1 & Hr1 & ->).
      destruct (Hrows2 t) as (rows2 & Hr2 & ->).
      rewrite Hr1 in Hr2. injection Hr2 as <-. reflexivity.
    + apply (with_key_others k (SText i)); [|apply Hot].
      intros ->. simpl in Ek. rewrite String.eqb_refl in Ek. discriminate Ek.
Qed.

Lemma insert_message_is_idempotent_witness :
  exists c0 c1 c2,
    insert_message (Some fresh) (record_of other_fetch) true = (Some c0, Committed) /\
    integrity (current c0) = true /\
    get (record_of first_fetch) "message_id" = PStr "m1" /\
    insert_message (Some c0) (record_of first_fetch) true = (Some c1, Committed) /\
    insert_message (Some c1) (record_of first_fetch) true = (Some c2, Committed) /\
    email_address (committed c2) = email_address (committed c1) /\
    (forall k, with_key k (emails (committed c2)) = with_key k (emails (committed c1))) /\
    (forall t k, with_key k (table t (committed c2))
                 = with_key k (table t (committed c1))).
Proof.
  set (c0 := commit (Conn empty_db
                (fst (insert_message_body (record_of other_fetch) (PStr "m2") empty_db)))).
  set (c1 := commit (Conn (committed c0)
                (fst (insert_message_body (record_of first_fetch) (PStr "m1")
                        (current c0))))).
  assert (H0 : insert_message (Some fresh) (record_of other_fetch) true
               = (Some c0, Committed)) by (vm_compute; reflexivity).
  assert (Hint : integrity (current c0) = true) by (vm_compute; reflexivity).
  assert (Hid : get (record_of first_fetch) "message_id" = PStr "m1")
    by (vm_compute; reflexivity).
  assert (H1 : insert_message (Some c0) (record_of first_fetch) true
               = (Some c1, Committed)) by (vm_compute; reflexivity).
  destruct (insert_message_is_idempotent c0 c1 (record_of first_fetch) "m1" Hint Hid H1)
    as (c2 & H2 & Ha & He & Ht).
  exists c0, c1, c2.
  split; [exact H0|]. split; [exact Hint|]. split; [exact Hid|]. split; [exact H1|].
  split; [exact H2|]. split; [exact Ha | split; [exact He | exact Ht]].
Defined.

(* ------------------------------------------------------------------ *)
(** ** What a match of a pattern is made of *)

(** A run of the matcher that succeeds went through the pattern. *)
Lemma run_sound (r : Re.regex) :
  forall st k res,
    Re.run r st k = Some res -> exists st1, steps r st st1 /\ k st1 = Some res.
Proof.
  induction r as [ | p | r1 IH1 r2 IH2 | r1 IH1 r2 IH2 | r1 IH1 | n r1 IH1 | ];
    intros st k res H; simpl in H.
  - exists st. split; [constructor | exact H].
  - destruct st as [pr [|c tl] cs]; simpl in H; [discriminate H|].
    destruct (p c) eqn:Ep; [|discriminate H].
    eexists. split; [constructor; exact Ep | exact H].
  - apply IH1 in H. destruct H as (st1 & H1 & H).
    apply IH2 in H. destruct H as (st2 & H2 & H).
    exists st2. split; [econstructor; eassumption | exact H].
  - destruct (Re.run r1 st k) as [st'|] eqn:E.
    + injection H as <-. apply IH1 in E. destruct E as (st1 & H1 & Hk).
      exists st1. split; [apply steps_AltL, H1 | exact Hk].
    + apply IH2 in H. destruct H as (st1 & H2 & Hk).
      exists st1. split; [apply steps_AltR, H2 | exact Hk].
  - revert H. generalize (List.length (Re.rest st)). intro n. revert st.
    induction n as [|n IHn]; intros st H.
    + exists st. split; [constructor | exact H].
    + match type of H with
      | match ?m with _ => _ end = _ => destruct m as [st'|] eqn:E
      end.
      * injection H as <-. apply IH1 in E. destruct E as (st1 & H1 & Hk).
        destruct (List.length (Re.rest st1) <? List.length (Re.rest st)); [|discriminate Hk].
        apply IHn in Hk. destruct Hk as (st2 & H2 & Hk).
        exists st2. split; [econstructor; eassumption | exact Hk].
      * exists st. split; [constructor | exact H].
  - apply IH1 in H. destruct H as (st1 & H1 & Hk).
    eexists. split; [constructor; exact H1 | exact Hk].
  - destruct (xorb _ _); [|discriminate H].
    exists st. split; [constructor | exact H].
Qed.

Lemma match_at_sound (r : Re.regex) (p : option ascii) (l : list ascii) (st : Re.mstate) :
  Re.match_at r p l = Some st -> steps r (Re.MState p l []) st.
Proof.
  unfold Re.match_at. intro H. apply run_sound in H.
  destruct H as (st1 & H1 & [= <-]). exact H1.
Qed.

Lemma findall_from_match (r : Re.regex) :
  forall fuel p l st,
    In st (Re.findall_from fuel r p l) -> exists p' l', Re.match_at r p' l' = Some st.
Proof.
  induction fuel as [|fuel IH]; intros p l st H; [destruct H|].
  cbn [Re.findall_from] in H.
  assert (Hnext : In st match l with
                        | [] => []
                        | c :: tl => Re.findall_from fuel r (Some c) tl
                        end -> exists p' l', Re.match_at r p' l' = Some st).
  { destruct l as [|c tl]; [intros [] | apply IH]. }
  destruct (Re.match_at r p l) as [m|] eqn:E; [|apply Hnext, H].
  destruct (List.length (Re.rest m) <? List.length l).
  - destruct H as [<-|H]; [exists p, l; exact E | apply (IH _ _ _ H)].
  - destruct H as [<-|H]; [exists p, l; exact E | apply Hnext, H].
Qed.

Lemma search_from_match (r : Re.regex) :
  forall l p st,
    Re.search_from r p l = Some st -> exists p' l', Re.match_at r p' l' = Some st.
Proof.
  induction l as [|c tl IH]; intros p st H; simpl in H.
  - destruct (Re.match_at r p []) eqn:E; [|discriminate H].
    injection H as <-. exists p, []. exact E.
  - destruct (Re.match_at r p (c :: tl)) eqn:E.
    + injection H as <-. exists p, (c :: tl). exact E.
    + apply (IH _ _ H).
Qed.

(** The text that a pattern went through is made of characters of its
    classes. *)
Lemma steps_classes (Q : ascii -> Prop) (r : Re.regex) (st st1 : Re.mstate) :
  steps r st st1 -> classes Q r ->
  exists w, Re.rest st = w ++ Re.rest st1 /\ Forall Q w.
Proof.
  induction 1 as [ st | p c pr tl cs Hp | r1 r2 st st1 st2 _ IH1 _ IH2
                 | r1 r2 st st' _ IH | r1 r2 st st' _ IH | r st
                 | r st st1 st2 _ IH1 _ IH2 | n r st st1 _ IH | st ];
    intro Hc; simpl in Hc.
  - exists []. split; [reflexivity | constructor].
  - exists [c]. split; [reflexivity | constructor; [apply Hc, Hp | constructor]].
  - destruct (IH1 (proj1 Hc)) as (w1 & E1 & F1).
    destruct (IH2 (proj2 Hc)) as (w2 & E2 & F2).
    exists (w1 ++ w2). rewrite E1, E2, app_assoc. split; [reflexivity|].
    apply Forall_app. auto.
  - apply IH, Hc.
  - apply IH, Hc.
  - exists []. split; [reflexivity | constructor].
  - destruct (IH1 Hc) as (w1 & E1 & F1).
    destruct (IH2 Hc) as (w2 & E2 & F2).
    exists (w1 ++ w2). rewrite E1, E2, app_assoc. split; [reflexivity|].
    apply Forall_app. auto.
  - destruct (IH Hc) as (w & E & F). exists w. split; [exact E | exact F].
  - exists []. split; [reflexivity | constructor].
Qed.

Lemma classes_excludes (x : ascii) (r : Re.regex) :
  excludes x r = true -> classes (fun c => c <> x) r.
Proof.
  induction r as [ | p | r1 IH1 r2 IH2 | r1 IH1 r2 IH2 | r1 IH1 | n r1 IH1 | ];
    simpl; intro H; auto.
  - intros c Hc ->. rewrite Hc in H. discriminate H.
  - apply andb_true_iff in H. destruct H. auto.
  - apply andb_true_iff in H. destruct H. auto.
Qed.

(** A pattern without a group leaves the groups as they are. *)
Lemma steps_groupless (r : Re.regex) (st st1 : Re.mstate) :
  steps r st st1 -> groupless r = true -> Re.caps st1 = Re.caps st.
Proof.
  induction 1 as [ st | p c pr tl cs Hp | r1 r2 st st1 st2 _ IH1 _ IH2
                 | r1 r2 st st' _ IH | r1 r2 st st' _ IH | r st
                 | r st st1 st2 _ IH1 _ IH2 | n r st st1 _ IH | st ];
    simpl; intro Hg; try reflexivity.
  - apply andb_true_iff in Hg. destruct Hg as [G1 G2]. rewrite (IH2 G2). apply IH1, G1.
  - apply andb_true_iff in Hg. apply IH, Hg.
  - apply andb_true_iff in Hg. apply IH, Hg.
  - rewrite (IH2 Hg). apply IH1, Hg.
  - discriminate Hg.
Qed.

Lemma consumed_text (st st1 : Re.mstate) (w : list ascii) :
  Re.rest st = w ++ Re.rest st1 -> Re.consumed st st1 = w.
Proof.
  intro H. unfold Re.consumed. rewrite H, length_app.
  replace (List.length w + List.length (Re.rest st1) - List.length (Re.rest st1))
    with (List.length w) by lia.
  rewrite firstn_app, firstn_all, Nat.sub_diag. simpl. apply app_nil_r.
Qed.

(** What a group whose body has no group records: the text its body went
    through, made of characters of its classes. *)
Lemma steps_group (Q : ascii -> Prop) (n : nat) (r : Re.regex) (st st' : Re.mstate) :
  steps (Re.Group n r) st st' -> groupless r = true -> classes Q r ->
  exists w s1,
    steps r st s1 /\
    Re.rest st = w ++ Re.rest s1 /\
    Forall Q w /\
    Re.caps st' = (n, w) :: filter (fun c => negb (fst c =? n)) (Re.caps st).
Proof.
  intros H Hg Hc. inversion H as [ | | | | | | | n' r' s s1 Hs | ]. subst.
  destruct (steps_classes Q _ _ _ Hs Hc) as (w & E & F).
  exists w, s1. split; [exact Hs|]. split; [exact E|]. split; [exact F|].
  simpl. rewrite (consumed_text _ _ _ E), (steps_groupless _ _ _ Hs Hg). reflexivity.
Qed.

Lemma steps_cat (r1 r2 : Re.regex) (st st2 : Re.mstate) :
  steps (Re.Cat r1 r2) st st2 -> exists st1, steps r1 st st1 /\ steps r2 st1 st2.
Proof. intro H. inversion H. subst. eauto. Qed.

(** A pattern that starts with a class goes through at least one
    character. *)
Lemma steps_first_char (p : ascii -> bool) (r : Re.regex) (st st1 : Re.mstate)
  (w : list ascii) :
  steps (Re.Cat (Re.Chr p) r) st st1 -> Re.rest st = w ++ Re.rest st1 -> w <> [].
Proof.
  intros H E ->. simpl in E. apply steps_cat in H. destruct H as (s & H & H').
  destruct (steps_classes (fun _ => True) _ _ _ H') as (w' & E' & _).
  { clear. induction r; simpl; auto. }
  inversion H. subst. simpl in *.
  assert (L : List.length (c :: tl) = List.length (Re.rest st1)) by (rewrite <- E; reflexivity).
  rewrite E' in L. simpl in L. rewrite length_app in L. lia.
Qed.

Lemma chars_str (l : list ascii) : Str.chars (Str.str l) = l.
Proof. apply list_ascii_of_string_of_list_ascii. Qed.

Lemma str_chars (s : string) : Str.str (Str.chars s) = s.
Proof. apply string_of_list_ascii_of_string. Qed.

Lemma is_empty_str (l : list ascii) : Str.is_empty (Str.str l) = false -> l <> [].
Proof. intros H ->. discriminate H. Qed.
(* ------------------------------------------------------------------ *)
(** ** What [parse_recipients] and the parsing of the sender return *)

(** A match of the pattern of [parse_recipients]: either groups 1 and 2, a
    name and the non-empty text between the angle brackets, or group 3
    alone. *)
Lemma recipients_match (p : option ascii) (l : list ascii) (st : Re.mstate) :
  Re.match_at Gmail.recipients_re p l = Some st ->
  (exists w1 w2,
      Re.caps st = [(2, w2); (1, w1)] /\ Forall name_text w1 /\
      Forall (fun c => c <> ">"%char) w2) \/
  (exists w3, Re.caps st = [(3, w3)] /\ Forall (fun c => c <> ">"%char) w3).
Proof.
  intro H. apply match_at_sound in H.
  unfold Gmail.recipients_re in H.
  cbn [Re.cats Re.lit Re.lit_chars Str.chars list_ascii_of_string Re.lit_char] in H.
  inversion H as [ | | | r1 r2 s s' HL | r1 r2 s s' HR | | | | ]; subst.
  - left.
    apply steps_cat in HL. destruct HL as (sa & H1 & HL).
    apply steps_cat in HL. destruct HL as (sb & H2 & HL).
    apply steps_cat in HL. destruct HL as (sc & H3 & HL).
    apply steps_cat in HL. destruct HL as (sd & H4 & H5).
    destruct (steps_group name_text _ _ _ _ H1 eq_refl) as (w1 & s1 & _ & _ & F1 & C1).
    { simpl. repeat match goal with |- _ /\ _ => split end; intros c Hc;
        unfold name_text; repeat match goal with |- _ /\ _ => split end;
        intros ->; discriminate Hc. }
    destruct (steps_group (fun c => c <> ">"%char) _ _ _ _ H4 eq_refl)
      as (w2 & s2 & _ & _ & F2 & C2).
    { simpl. repeat match goal with |- _ /\ _ => split end;
        intros c Hc ->; discriminate Hc. }
    exists w1, w2. split; [|split; [exact F1 | exact F2]].
    rewrite (steps_groupless _ _ _ H5 eq_refl), C2.
    rewrite (steps_groupless _ _ _ H3 eq_refl), (steps_groupless _ _ _ H2 eq_refl), C1.
    reflexivity.
  - right.
    destruct (steps_group (fun c => c <> ">"%char) _ _ _ _ HR eq_refl) as (w3 & s3 & _ & _ & F3 & C3).
    { apply classes_excludes. reflexivity. }
    exists w3. split; [exact C3 | exact F3].
Qed.

Lemma lstrip_Forall (Q : ascii -> Prop) (l : list ascii) :
  Forall Q l -> Forall Q (Str.lstrip_chars l).
Proof.
  induction 1 as [|c tl Hc Ht IH]; simpl; [constructor|].
  destruct (Str.is_space c); [exact IH | constructor; assumption].
Qed.

Lemma strip_Forall (Q : ascii -> Prop) (s : string) :
  Forall Q (Str.chars s) -> Forall Q (Str.chars (Str.strip s)).
Proof.
  intro H. unfold Str.strip. rewrite chars_str.
  apply Forall_rev, lstrip_Forall, Forall_rev, lstrip_Forall, H.
Qed.

Lemma skipn_Forall {A : Type} (Q : A -> Prop) (n : nat) (l : list A) :
  Forall Q l -> Forall Q (skipn n l).
Proof.
  revert l. induction n as [|n IH]; intros l H; [exact H|].
  destruct H as [|x tl Hx Ht]; [constructor | apply IH, Ht].
Qed.

(** Deleting the occurrences of a text adds no character. *)
Lemma replace_chars_Forall (Q : ascii -> Prop) (old : list ascii) :
  forall fuel l, Forall Q l -> Forall Q (Str.replace_chars fuel old [] l).
Proof.
  induction fuel as [|fuel IH]; intros l H; [exact H|].
  destruct H as [|c tl Hc Ht]; [constructor|]. cbn [Str.replace_chars].
  destruct (Str.starts_with old (c :: tl)).
  - simpl app. apply IH, skipn_Forall. constructor; assumption.
  - constructor; [exact Hc | apply IH, Ht].
Qed.

Lemma replace_Forall (Q : ascii -> Prop) (s old : string) :
  Forall Q (Str.chars s) -> Forall Q (Str.chars (Str.replace s old EmptyString)).
Proof.
  intro H. unfold Str.replace. destruct (Str.chars old) as [|o tl]; [exact H|].
  rewrite chars_str. apply replace_chars_Forall, H.
Qed.

(** X16.  What [parse_recipients] returns is clean: in every pair of a name
    and an address that it returns, for whatever header, the address is not
    empty and holds no [>], and the name holds neither [<], nor a comma, nor
    a double or single quote. *)
Theorem parse_recipients_pairs_are_clean :
  forall (header_value : option string) (n a : string),
    In (n, a) (Gmail.parse_recipients header_value) ->
    Str.is_empty a = false /\
    Forall (fun c => c <> ">"%char) (Str.chars a) /\
    Forall (fun c => c <> "<"%char /\ c <> ","%char /\ c <> Str.chr 34 /\ c <> "'"%char)
           (Str.chars n).
Proof.
  intros hv n a H. unfold Gmail.parse_recipients in H.
  destruct hv as [h|]; [|destruct H].
  destruct (Str.is_empty h); [destruct H|].
  apply in_flat_map in H. destruct H as (m & Hm & H).
  apply findall_from_match in Hm. destruct Hm as (p & l & Hm).
  apply recipients_match in Hm. unfold Re.group in H.
  destruct Hm as [(w1 & w2 & Hc & F1 & F2) | (w3 & Hc & F3)]; rewrite Hc in H;
    cbn [find fst snd Nat.eqb] in H.
  - destruct (Str.is_empty (Str.str w2)) eqn:E; cbn [negb Str.is_empty] in H;
      [destruct H|].
    destruct H as [[= <- <-]|[]].
    split; [exact E|]. rewrite chars_str. split; [exact F2|].
    apply replace_Forall, strip_Forall. rewrite chars_str. exact F1.
  - cbn [negb Str.is_empty] in H.
    destruct (Str.is_empty (Str.str w3)) eqn:E; cbn [negb] in H; [destruct H|].
    destruct H as [[= <- <-]|[]].
    split; [exact E|]. rewrite chars_str. split; [exact F3 | constructor].
Qed.

Lemma parse_recipients_pairs_are_clean_witness :
  In ("Bob Jones", "bob@y.com")
     (Gmail.parse_recipients (Some "Bob Jones <bob@y.com>, carol@z.com")) /\
  Str.is_empty "bob@y.com" = false /\
  Forall (fun c => c <> ">"%char) (Str.chars "bob@y.com") /\
  Forall (fun c => c <> "<"%char /\ c <> ","%char /\ c <> Str.chr 34 /\ c <> "'"%char)
         (Str.chars "Bob Jones").
Proof.
  assert (H : In ("Bob Jones", "bob@y.com")
                 (Gmail.parse_recipients (Some "Bob Jones <bob@y.com>, carol@z.com")))
    by (vm_compute; left; reflexivity).
  split; [exact H|].
  exact (parse_recipients_pairs_are_clean _ _ _ H).
Defined.

(* ------------------------------------------------------------------ *)
(** ** The sender *)

Lemma before_char_Forall (sep : ascii) (l : list ascii) :
  Forall (fun c => c <> sep) (Str.before_char sep l).
Proof.
  induction l as [|c tl IH]; simpl; [constructor|].
  destruct (Ascii.eqb c sep) eqn:E; [constructor|].
  constructor; [|exact IH]. intros ->. rewrite Ascii.eqb_refl in E. discriminate E.
Qed.

(** Deleting the occurrences of a character leaves none. *)
Lemma replace_chars_removes (q : ascii) :
  forall fuel l,
    List.length l <= fuel -> Forall (fun c => c <> q) (Str.replace_chars fuel [q] [] l).
Proof.
  induction fuel as [|fuel IH]; intros l Hl.
  - destruct l; [constructor | simpl in Hl; lia].
  - destruct l as [|c tl]; [constructor|]. cbn [Str.replace_chars Str.starts_with].
    simpl in Hl. destruct (Ascii.eqb q c) eqn:E; cbn [andb].
    + simpl. apply IH. lia.
    + constructor; [|apply IH; lia].
      intros ->. rewrite Ascii.eqb_refl in E. discriminate E.
Qed.

(** A match of the pattern of the sender: the subject starts with [<], a
    non-empty text without [>], which is group 1, and [>]. *)
Lemma angle_match (p : option ascii) (l : list ascii) (st : Re.mstate) :
  Re.match_at Gmail.angle_re p l = Some st ->
  exists w post,
    l = "<"%char :: w ++ ">"%char :: post /\
    Re.caps st = [(1, w)] /\ w <> [] /\ Forall (fun c => c <> ">"%char) w.
Proof.
  intro H. apply match_at_sound in H.
  unfold Gmail.angle_re in H.
  cbn [Re.cats Re.lit Re.lit_chars Str.chars list_ascii_of_string Re.lit_char] in H.
  apply steps_cat in H. destruct H as (sa & H1 & H).
  apply steps_cat in H. destruct H as (sb & H2 & H3).
  inversion H2 as [ | | | | | | | n' r' s s1 Hs | ]. subst.
  destruct (steps_classes (fun c => c <> ">"%char) _ _ _ Hs) as (w & E & F).
  { simpl. repeat match goal with |- _ /\ _ => split end;
      intros c Hc ->; discriminate Hc. }
  assert (C : Re.caps (Re.set_cap 1 (Re.consumed sa s1) s1)
              = (1, w) :: filter (fun c => negb (fst c =? 1)) (Re.caps sa)).
  { simpl. rewrite (consumed_text _ _ _ E), (steps_groupless _ _ _ Hs eq_refl).
    reflexivity. }
  assert (W : w <> []) by apply (steps_first_char _ _ _ _ _ Hs E).
  inversion H1 as [ | q c pr tl cs Hq | | | | | | | ]. subst.
  inversion H3 as [ | q' c' pr' tl' cs' Hq' Ha Hb | | | | | | | ]. subst.
  apply Ascii.eqb_eq in Hq, Hq'. subst c c'.
  cbn [Re.rest Re.set_cap] in *.
  exists w, tl'. split; [|split; [|split; [exact W | exact F]]].
  - rewrite E. f_equal. f_equal. symmetry. assumption.
  - simpl in C. simpl. exact C.
Qed.

(** The text before the first occurrence of a character that occurs. *)
Lemma before_char_split (sep : ascii) (pre post : list ascii) :
  exists rest,
    pre ++ sep :: post = Str.before_char sep (pre ++ sep :: post) ++ sep :: rest.
Proof.
  induction pre as [|c tl [rest IH]]; simpl.
  - rewrite Ascii.eqb_refl. exists post. reflexivity.
  - destruct (Ascii.eqb c sep) eqn:E.
    + apply Ascii.eqb_eq in E. subst c. exists (tl ++ sep :: post). reflexivity.
    + exists rest. simpl. f_equal. exact IH.
Qed.

Lemma run_star_chr_cons (q : ascii -> bool) (K : Re.mstate -> option Re.mstate)
  (pr : option ascii) (c : ascii) (tl : list ascii) (cs : list (nat * list ascii)) :
  q c = true ->
  Re.run (Re.Star (Re.Chr q)) (Re.MState pr (c :: tl) cs) K =
    match Re.run (Re.Star (Re.Chr q)) (Re.MState (Some c) tl cs) K with
    | Some st' => Some st'
    | None => K (Re.MState pr (c :: tl) cs)
    end.
Proof.
  intro H. cbn [Re.run Re.rest List.length]. rewrite H.
  assert (L : (List.length tl <? S (List.length tl)) = true) by (apply Nat.ltb_lt; lia).
  rewrite L. reflexivity.
Qed.

Lemma run_star_chr_stop (q : ascii -> bool) (K : Re.mstate -> option Re.mstate)
  (pr : option ascii) (c : ascii) (tl : list ascii) (cs : list (nat * list ascii)) :
  q c = false ->
  Re.run (Re.Star (Re.Chr q)) (Re.MState pr (c :: tl) cs) K
    = K (Re.MState pr (c :: tl) cs).
Proof. intro H. cbn [Re.run Re.rest List.length]. rewrite H. reflexivity. Qed.

(** A repetition of a class finds the end of a run of its characters, when
    what follows is accepted after that run. *)
Lemma run_star_chr_complete (q : ascii -> bool) (K : Re.mstate -> option Re.mstate)
  (stop : ascii) (post : list ascii) :
  q stop = false ->
  (forall pr cs, K (Re.MState pr (stop :: post) cs) <> None) ->
  forall w pr cs,
    Forall (fun c => q c = true) w ->
    Re.run (Re.Star (Re.Chr q)) (Re.MState pr (w ++ stop :: post) cs) K <> None.
Proof.
  intros Hstop HK. induction w as [|c tl IH]; intros pr cs F.
  - simpl app. rewrite run_star_chr_stop by exact Hstop. apply HK.
  - inversion F as [|c' tl' Hc Ht]. subst. simpl app.
    rewrite run_star_chr_cons by exact Hc.
    specialize (IH (Some c) cs Ht).
    destruct (Re.run _ _ K); [discriminate | contradiction].
Qed.

(** The pattern of the sender matches wherever the subject starts with [<],
    a non-empty text without [>], and [>]. *)
Lemma angle_match_complete (p : option ascii) (w post : list ascii) :
  w <> [] -> Forall (fun c => c <> ">"%char) w ->
  Re.match_at Gmail.angle_re p ("<"%char :: w ++ ">"%char :: post) <> None.
Proof.
  intros Hw F. destruct w as [|c tl]; [contradiction|].
  inversion F as [|c' tl' Hc Ht]. subst.
  assert (Q : forall x : ascii, x <> ">"%char -> negb (Str.code x =? 62) = true).
  { intros x Hx. apply negb_true_iff, Nat.eqb_neq. intro E. apply Hx.
    unfold Str.code in E. rewrite <- (ascii_nat_embedding x), E. reflexivity. }
  set (np := fun x : ascii => negb (Str.code x =? 62)).
  set (st := Re.MState (Some "<"%char) (c :: tl ++ ">"%char :: post) []).
  assert (E : Re.match_at Gmail.angle_re p ("<"%char :: (c :: tl) ++ ">"%char :: post)
              = if np c
                then Re.run (Re.Star (Re.Chr np))
                       (Re.MState (Some c) (tl ++ ">"%char :: post) [])
                       (fun st1 => Re.run (Re.lit_char ">"%char)
                                     (Re.set_cap 1 (Re.consumed st st1) st1) Some)
                else None) by reflexivity.
  rewrite E. unfold np at 1. rewrite (Q c Hc).
  apply (run_star_chr_complete np _ ">"%char post).
  - reflexivity.
  - intros pr cs. unfold Re.lit_char, Re.set_cap. cbn [Re.run Re.rest Re.prev Re.caps].
    rewrite Ascii.eqb_refl. discriminate.
  - eapply Forall_impl; [|exact Ht]. intros x Hx. apply (Q x Hx).
Qed.

(** A search finds the first position at which the pattern matches, and
    fails only when it matches at none. *)
Lemma search_from_leftmost (r : Re.regex) :
  forall l p st,
    Re.search_from r p l = Some st ->
    exists pre p' l',
      l = pre ++ l' /\ Re.match_at r p' l' = Some st /\
      forall a b, l = a ++ b -> List.length a < List.length pre ->
                  exists q, Re.match_at r q b = None.
Proof.
  induction l as [|c tl IH]; intros p st H; simpl in H.
  - destruct (Re.match_at r p []) eqn:E; [|discriminate H].
    injection H as <-. exists [], p, []. split; [reflexivity|]. split; [exact E|].
    intros a b _ Hl. simpl in Hl. lia.
  - destruct (Re.match_at r p (c :: tl)) eqn:E.
    + injection H as <-. exists [], p, (c :: tl).
      split; [reflexivity|]. split; [exact E|]. intros a b _ Hl. simpl in Hl. lia.
    + destruct (IH _ _ H) as (pre & p' & l' & -> & Hm & Hleft).
      exists (c :: pre), p', l'. split; [reflexivity|]. split; [exact Hm|].
      intros a b Hab Hl. destruct a as [|x a'].
      * simpl in Hab. subst b. exists p. exact E.
      * simpl in Hab. injection Hab as <- Hab. apply (Hleft a' b Hab).
        simpl in Hl. lia.
Qed.

Lemma search_from_none (r : Re.regex) :
  forall l p,
    Re.search_from r p l = None ->
    forall a b, l = a ++ b -> exists q, Re.match_at r q b = None.
Proof.
  induction l as [|c tl IH]; intros p H a b Hab; simpl in H.
  - destruct (Re.match_at r p []) eqn:E; [discriminate H|].
    destruct a; [|discriminate Hab]. simpl in Hab. subst b. exists p. exact E.
  - destruct (Re.match_at r p (c :: tl)) eqn:E; [discriminate H|].
    destruct a as [|x a'].
    + simpl in Hab. subst b. exists p. exact E.
    + simpl in Hab. injection Hab as <- Hab. apply (IH _ H a' b Hab).
Qed.

(** X17.  What the parsing of the [From] header returns.  When it returns a
    name, the header holds a [<], then the address, then a [>]: the address
    is a non-empty text without [>] between angle brackets, and the first
    such text of the header; and the name is the text before the first [<]
    of the header, with the white space at its ends and then every double
    quote removed, so that it holds neither [<] nor a double quote.  When it
    returns no name, the header holds no such text between angle brackets,
    and the address is the whole header with the white space at its ends
    removed, or the empty string for an absent or empty header. *)
Theorem parse_sender_shape :
  forall (sender_header : option string) (e : string) (n : option string),
    Gmail.parse_sender sender_header = (e, n) ->
    match n with
    | Some name =>
        exists h pre before rest,
          sender_header = Some h /\
          bracketed (Str.chars h) pre (Str.chars e) /\
          (forall pre' w', bracketed (Str.chars h) pre' w' ->
                           List.length pre <= List.length pre') /\
          Str.is_empty e = false /\
          Str.chars h = before ++ "<"%char :: rest /\
          Forall (fun c => c <> "<"%char) before /\
          name = Str.replace (Str.strip (Str.str before)) Gmail.dquote EmptyString /\
          Forall (fun c => c <> "<"%char /\ c <> Str.chr 34) (Str.chars name)
    | None =>
        e = match sender_header with
            | Some h => if Str.is_empty h then EmptyString else Str.strip h
            | None => EmptyString
            end /\
        forall h pre w, sender_header = Some h -> ~ bracketed (Str.chars h) pre w
    end.
Proof.
  intros hdr e n H. unfold Gmail.parse_sender in H.
  destruct hdr as [h|]; [|injection H as <- <-; split; [reflexivity | discriminate]].
  destruct (Str.is_empty h) eqn:Eh.
  { injection H as <- <-. split; [reflexivity|].
    intros h' pre w [= <-] (_ & _ & post & Hb).
    destruct h; [|discriminate Eh]. destruct pre; discriminate Hb. }
  destruct (Re.search Gmail.angle_re h) as [m|] eqn:Es.
  2:{ injection H as <- <-. split; [reflexivity|].
      intros h' pre w [= <-] (Hw & F & post & Hb).
      destruct (search_from_none _ _ _ Es pre _ Hb) as [q Hq].
      apply (angle_match_complete q w post Hw F Hq). }
  injection H as <- <-.
  unfold Re.search in Es. apply search_from_leftmost in Es.
  destruct Es as (pre & p & l & Hh & Hm & Hleft).
  apply angle_match in Hm. destruct Hm as (w & post & -> & Hc & Hw & F).
  destruct (before_char_split "<"%char pre (w ++ ">"%char :: post)) as [rest Hb].
  rewrite <- Hh in Hb.
  exists h, pre, (Str.before_char "<"%char (Str.chars h)), rest.
  unfold Re.group. rewrite Hc. cbn [find fst snd Nat.eqb]. rewrite chars_str.
  split; [reflexivity|].
  split; [split; [exact Hw | split; [exact F | exists post; exact Hh]]|].
  split.
  { intros pre' w' (Hw' & F' & post' & Hb').
    destruct (Nat.le_gt_cases (List.length pre) (List.length pre')) as [L|L]; [exact L|].
    destruct (Hleft pre' _ Hb' L) as [q Hq].
    exfalso. apply (angle_match_complete q w' post' Hw' F' Hq). }
  split; [destruct w; [contradiction | reflexivity]|].
  split; [exact Hb|].
  split; [apply before_char_Forall|]. split; [reflexivity|].
  unfold Str.replace, Gmail.dquote.
  cbn [Str.chars list_ascii_of_string]. rewrite chars_str.
  apply Forall_and.
  - apply replace_chars_Forall.
    pose proof (strip_Forall (fun c => c <> "<"%char)
                  (Str.str (Str.before_char "<" (Str.chars h)))) as Hs.
    rewrite chars_str in Hs. apply Hs, before_char_Forall.
  - apply replace_chars_removes. apply Nat.le_refl.
Qed.

Lemma parse_sender_shape_witness :
  Gmail.parse_sender (Some "Alice Smith <alice@x.com>") = ("alice@x.com", Some "Alice Smith") /\
  Gmail.parse_sender (Some " alice@x.com ") = ("alice@x.com", None) /\
  exists h pre before rest,
    Some "Alice Smith <alice@x.com>" = Some h /\
    bracketed (Str.chars h) pre (Str.chars "alice@x.com") /\
    (forall pre' w', bracketed (Str.chars h) pre' w' ->
                     List.length pre <= List.length pre') /\
    Str.is_empty "alice@x.com" = false /\
    Str.chars h = before ++ "<"%char :: rest /\
    Forall (fun c => c <> "<"%char) before /\
    "Alice Smith" = Str.replace (Str.strip (Str.str before)) Gmail.dquote EmptyString /\
    Forall (fun c => c <> "<"%char /\ c <> Str.chr 34) (Str.chars "Alice Smith").
Proof.
  assert (H : Gmail.parse_sender (Some "Alice Smith <alice@x.com>")
              = ("alice@x.com", Some "Alice Smith")) by (vm_compute; reflexivity).
  split; [exact H|]. split; [vm_compute; reflexivity|].
  exact (parse_sender_shape _ _ _ H).
Defined.

(* ------------------------------------------------------------------ *)
(** ** The verdicts of the authentication *)

(** A match of the pattern of a verdict with its domain: a literal, group 1
    of word characters, white space, anything, a literal, group 2. *)
Lemma verdict_match (a b : string) (p : option ascii) (l : list ascii) (st : Re.mstate) :
  groupless (Re.lit a) = true ->
  groupless (Re.lit b) = true ->
  Re.match_at (Re.cats [ Re.lit a; Re.Group 1 (Re.Plus Re.word); Re.space;
                         Re.Star Re.dot; Re.lit b;
                         Re.Group 2 (Re.Plus (Re.Chr Gmail.domain_word)) ]) p l
    = Some st ->
  exists w1 w2,
    Re.caps st = [(2, w2); (1, w1)] /\
    w1 <> [] /\ w2 <> [] /\
    Forall (fun c => Gmail.domain_word c = true) w1 /\
    Forall (fun c => Gmail.domain_word c = true) w2.
Proof.
  intros Ga Gb H. apply match_at_sound in H. cbn [Re.cats] in H.
  apply steps_cat in H. destruct H as (sa & H1 & H).
  apply steps_cat in H. destruct H as (sb & H2 & H).
  apply steps_cat in H. destruct H as (sc & H3 & H).
  apply steps_cat in H. destruct H as (sd & H4 & H).
  apply steps_cat in H. destruct H as (se & H5 & H6).
  destruct (steps_group (fun c => Gmail.domain_word c = true) _ _ _ _ H2 eq_refl)
    as (w1 & s1 & Hs1 & E1 & F1 & C1).
  { simpl. split; intros c Hc; unfold Gmail.domain_word; rewrite Hc; reflexivity. }
  destruct (steps_group (fun c => Gmail.domain_word c = true) _ _ _ _ H6 eq_refl)
    as (w2 & s2 & Hs2 & E2 & F2 & C2).
  { simpl. split; intros c Hc; exact Hc. }
  exists w1, w2.
  split; [|split; [apply (steps_first_char _ _ _ _ _ Hs1 E1)
                  |split; [apply (steps_first_char _ _ _ _ _ Hs2 E2)
                          |split; [exact F1 | exact F2]]]].
  rewrite C2, (steps_groupless _ _ _ H5 Gb), (steps_groupless _ _ _ H4 eq_refl),
    (steps_groupless _ _ _ H3 eq_refl), C1, (steps_groupless _ _ _ H1 Ga).
  reflexivity.
Qed.

Lemma dmarc_match (p : option ascii) (l : list ascii) (st : Re.mstate) :
  Re.match_at Gmail.dmarc_re p l = Some st ->
  exists w, Re.caps st = [(1, w)] /\ w <> [] /\
            Forall (fun c => Gmail.domain_word c = true) w.
Proof.
  intro H. apply match_at_sound in H. unfold Gmail.dmarc_re in H. cbn [Re.cats] in H.
  apply steps_cat in H. destruct H as (sa & H1 & H2).
  destruct (steps_group (fun c => Gmail.domain_word c = true) _ _ _ _ H2 eq_refl)
    as (w & s1 & Hs & E & F & C).
  { simpl. split; intros c Hc; unfold Gmail.domain_word; rewrite Hc; reflexivity. }
  exists w. split; [|split; [apply (steps_first_char _ _ _ _ _ Hs E) | exact F]].
  rewrite C, (steps_groupless _ _ _ H1 eq_refl). reflexivity.
Qed.

Lemma lookup_In (k : string) (v : pyval) (d : dict) :
  lookup k d = Some v -> In (k, v) d.
Proof.
  induction d as [|[k' x] tl IH]; simpl; [discriminate|].
  destruct (String.eqb k k') eqn:E.
  - intros [= ->]. apply String.eqb_eq in E. subst. left. reflexivity.
  - intro H. right. apply IH, H.
Qed.

Lemma str_not_empty (w : list ascii) : w <> [] -> Str.is_empty (Str.str w) = false.
Proof. destruct w; [contradiction | reflexivity]. Qed.

(** X18.  The verdicts that [parse_auth_results] returns are clean tokens:
    every value of the dict it returns, for whatever header, is a non-empty
    string made of letters, digits, underscores, dots and hyphens only. *)
Theorem parse_auth_results_values_are_tokens :
  forall (header_value : option string) (d : dict) (k : string) (v : pyval),
    Gmail.parse_auth_results header_value = PDict d ->
    lookup k d = Some v ->
    exists s,
      v = PStr s /\ Str.is_empty s = false /\
      Forall (fun c => Gmail.domain_word c = true) (Str.chars s).
Proof.
  intros hv d k v H Hk. apply lookup_In in Hk.
  assert (Hall : Forall (fun kv => exists s,
                           snd kv = PStr s /\ Str.is_empty s = false /\
                           Forall (fun c => Gmail.domain_word c = true) (Str.chars s)) d).
  { unfold Gmail.parse_auth_results in H.
    destruct hv as [h|]; [|discriminate H].
    destruct (Str.is_empty h); [discriminate H|].
    assert (Hspf : Forall (fun kv => exists s,
                             snd kv = PStr s /\ Str.is_empty s = false /\
                             Forall (fun c => Gmail.domain_word c = true) (Str.chars s))
                     match Re.search Gmail.spf_re h with
                     | Some m => [("spf_status", PStr (Re.group 1 m));
                                  ("spf_domain", PStr (Re.group 2 m))]
                     | None => []
                     end).
    { destruct (Re.search Gmail.spf_re h) as [m|] eqn:Es; [|constructor].
      unfold Re.search in Es. apply search_from_match in Es. destruct Es as (p & l & Hm).
      apply (verdict_match "spf=" "header.from=") in Hm; [|reflexivity|reflexivity].
      destruct Hm as (w1 & w2 & Hc & N1 & N2 & F1 & F2).
      unfold Re.group. rewrite Hc. cbn [find fst snd Nat.eqb].
      repeat constructor; eexists; (split; [reflexivity|]); rewrite chars_str;
        (split; [apply str_not_empty; assumption | assumption]). }
    assert (Hdkim : Forall (fun kv => exists s,
                              snd kv = PStr s /\ Str.is_empty s = false /\
                              Forall (fun c => Gmail.domain_word c = true) (Str.chars s))
                      match Re.search Gmail.dkim_re h with
                      | Some m => [("dkim_status", PStr (Re.group 1 m));
                                   ("dkim_domain", PStr (Re.group 2 m))]
                      | None => []
                      end).
    { destruct (Re.search Gmail.dkim_re h) as [m|] eqn:Es; [|constructor].
      unfold Re.search in Es. apply search_from_match in Es. destruct Es as (p & l & Hm).
      apply (verdict_match "dkim=" "header.d=") in Hm; [|reflexivity|reflexivity].
      destruct Hm as (w1 & w2 & Hc & N1 & N2 & F1 & F2).
      unfold Re.group. rewrite Hc. cbn [find fst snd Nat.eqb].
      repeat constructor; eexists; (split; [reflexivity|]); rewrite chars_str;
        (split; [apply str_not_empty; assumption | assumption]). }
    assert (Hdmarc : Forall (fun kv => exists s,
                               snd kv = PStr s /\ Str.is_empty s = false /\
                               Forall (fun c => Gmail.domain_word c = true) (Str.chars s))
                       match Re.search Gmail.dmarc_re h with
                       | Some m => [("dmarc_status", PStr (Re.group 1 m))]
                       | None => []
                       end).
    { destruct (Re.search Gmail.dmarc_re h) as [m|] eqn:Es; [|constructor].
      unfold Re.search in Es. apply search_from_match in Es. destruct Es as (p & l & Hm).
      apply dmarc_match in Hm. destruct Hm as (w & Hc & N & F).
      unfold Re.group. rewrite Hc. cbn [find fst snd Nat.eqb].
      repeat constructor; eexists; (split; [reflexivity|]); rewrite chars_str;
        (split; [apply str_not_empty; assumption | assumption]). }
    pose proof (proj2 (Forall_app _ _ _) (conj Hspf (proj2 (Forall_app _ _ _) (conj Hdkim Hdmarc))))
      as Hall.
    destruct (_ ++ _ ++ _) as [|x tl] eqn:E; [discriminate H|].
    injection H as <-. exact Hall. }
  rewrite Forall_forall in Hall. apply (Hall (k, v) Hk).
Qed.

Lemma parse_auth_results_values_are_tokens_witness :
  exists d,
    Gmail.parse_auth_results
      (Some "mx.example.org; spf=pass (ok) header.from=x.com; dmarc=fail") = PDict d /\
    lookup "spf_domain" d = Some (PStr "x.com") /\
    lookup "dmarc_status" d = Some (PStr "fail") /\
    exists s,
      PStr "x.com" = PStr s /\ Str.is_empty s = false /\
      Forall (fun c => Gmail.domain_word c = true) (Str.chars s).
Proof.
  eexists.
  assert (H : Gmail.parse_auth_results
                (Some "mx.example.org; spf=pass (ok) header.from=x.com; dmarc=fail")
              = PDict [("spf_status", PStr "pass"); ("spf_domain", PStr "x.com");
                       ("dmarc_status", PStr "fail")]) by (vm_compute; reflexivity).
  split; [exact H|]. split; [reflexivity|]. split; [reflexivity|].
  exact (parse_auth_results_values_are_tokens _ _ "spf_domain" _ H eq_refl).
Defined.

(* ------------------------------------------------------------------ *)
(** ** A run of [main] without [--update] *)

Lemma sql_eq_neq (a b : sqlval) : a <> b -> sql_eq a b = false.
Proof.
  intro H. destruct (sql_eq a b) eqn:E; [|reflexivity].
  apply sql_eq_true in E. destruct E as [E _]. contradiction.
Qed.

Lemma with_key_app_other (k : sqlval) (l : list row) (rw : row) :
  col 0 rw <> k -> with_key k (l ++ [rw]) = with_key k l.
Proof.
  intro H. rewrite with_key_app. unfold with_key at 2. simpl.
  rewrite (sql_eq_neq _ _ H). apply app_nil_r.
Qed.

(** The statements of a write for one key leave the rows of every other
    key. *)
Lemma insert_message_body_same_rows (r : dict) (message_id : pyval) (k0 k : sqlval) :
  (forall mid, bind_param message_id = Ok mid -> as_text mid = k0) ->
  k <> k0 ->
  keeps (same_rows k) (insert_message_body r message_id).
Proof.
  intros Hkey Hne.
  assert (Hne' : k0 <> k) by (intro E; apply Hne; symmetry; exact E).
  apply (insert_message_body_keeps _ r message_id k0).
  - intro d. split; reflexivity.
  - intros d1 d2 d3 [A1 B1] [A2 B2]. split; [congruence|].
    intro t. rewrite B2. apply B1.
  - exact Hkey.
  - intros e n d. unfold insert_or_ignore_email_address.
    destruct (has_key _ _); split; reflexivity.
  - intros rw d d' Hrw. unfold insert_or_replace_email. rewrite Hrw.
    destruct (fk_ok _ _); [|discriminate]. intros [= <-].
    destruct (has_key k0 (emails d)).
    + split.
      * cbn [emails set_emails delete_email_cascade].
        rewrite with_key_app_other by (rewrite Hrw; exact Hne').
        apply with_key_of_without_key, Hne.
      * intro t.
        replace (table t (set_emails (emails (delete_email_cascade k0 d) ++ [rw])
                                     (delete_email_cascade k0 d)))
          with (table t (delete_email_cascade k0 d)) by (destruct t; reflexivity).
        rewrite table_cascade. apply with_key_of_without_key, Hne.
    + split.
      * cbn [emails set_emails]. apply with_key_app_other. rewrite Hrw. exact Hne'.
      * intros []; reflexivity.
  - intros t mid d <-. unfold delete_children. split.
    + rewrite emails_set_table. reflexivity.
    + intro t'. destruct (child_eq_dec t' t) as [->|Hn].
      * rewrite table_set_table_same. apply with_key_of_without_key, Hne.
      * rewrite (table_set_table_other _ _ _ _ Hn). reflexivity.
  - intros t rw d d' Hrw. unfold insert_child.
    destruct (fk_ok _ _); [|discriminate]. intros [= <-]. split.
    + rewrite emails_set_table. reflexivity.
    + intro t'. destruct (child_eq_dec t' t) as [->|Hn].
      * rewrite table_set_table_same. apply with_key_app_other. rewrite Hrw. exact Hne'.
      * rewrite (table_set_table_other _ _ _ _ Hn). reflexivity.
Qed.

Lemma has_key_with_key (k : sqlval) (l : list row) :
  has_key k l = match with_key k l with [] => false | _ => true end.
Proof.
  unfold has_key, with_key. induction l as [|r tl IH]; simpl; [reflexivity|].
  destruct (sql_eq (col 0 r) k); [reflexivity | exact IH].
Qed.

(** What a call without [update_if_exists] does to a message that is
    stored, on a connection without an open transaction. *)
Lemma insert_message_spares_stored (c c' : conn) (r : dict) (o : outcome) (k : sqlval) :
  current c = committed c ->
  has_key k (emails (current c)) = true ->
  insert_message (Some c) r false = (Some c', o) ->
  current c' = committed c' /\ same_rows k (current c) (current c').
Proof.
  intros Hc Hk H. unfold insert_message in H.
  destruct (bind_param (get r "message_id")) as [mid|e] eqn:Eb; cbn [bind] in H;
    [|injection H as <- _; split; [exact Hc | split; reflexivity]].
  unfold select_email_exists in H.
  destruct (has_key (as_text mid) (emails (current c))) eqn:Ex;
    [injection H as <- _; split; [exact Hc | split; reflexivity]|].
  assert (Hne : k <> as_text mid) by (intros ->; rewrite Hk in Ex; discriminate Ex).
  destruct (insert_message_body r (get r "message_id") (current c)) as [d res] eqn:E.
  pose proof (insert_message_body_same_rows r _ (as_text mid) k
                ltac:(intros m0 Hm0; rewrite Eb in Hm0; injection Hm0 as <-; reflexivity)
                Hne _ _ _ E) as Hs.
  destruct res as [[]|e]; injection H as <- _; simpl.
  - split; [reflexivity | exact Hs].
  - rewrite <- Hc. split; [reflexivity | split; reflexivity].
Qed.

Lemma process_message_spares_stored (frames : nat) (svc : Main.service) (existing : list sqlval)
  (c c' : conn) (message_id : string) (k : sqlval) :
  current c = committed c ->
  has_key k (emails (current c)) = true ->
  Main.process_message frames svc false existing c message_id = Ok c' ->
  current c' = committed c' /\ same_rows k (current c) (current c').
Proof.
  intros Hc Hk H. unfold Main.process_message in H.
  assert (Hsame : current c = committed c /\ same_rows k (current c) (current c))
    by (split; [exact Hc | split; reflexivity]).
  destruct (negb false && existsb (sqlval_eqb (SText message_id)) existing);
    [injection H as <-; exact Hsame|].
  destruct (Gmail.get_email_by_message_id _) as [[r|]|e]; cbn [bind] in H;
    [| injection H as <-; exact Hsame | discriminate H].
  destruct (truthy (PDict r)); [|injection H as <-; exact Hsame].
  destruct (insert_message (Some c) r false) as [[c1|] o] eqn:E.
  - destruct o; try discriminate H; injection H as <-;
      apply (insert_message_spares_stored _ _ _ _ _ Hc Hk E).
  - destruct o; try discriminate H; injection H as <-; exact Hsame.
Qed.

Lemma same_rows_has_key (k : sqlval) (d d' : db) :
  same_rows k d d' -> has_key k (emails d') = has_key k (emails d).
Proof. intros [H _]. rewrite !has_key_with_key, H. reflexivity. Qed.

Lemma process_messages_spares_stored (frames : nat) (svc : Main.service) (existing : list sqlval)
  (k : sqlval) :
  forall ids c c' e,
    current c = committed c ->
    has_key k (emails (current c)) = true ->
    Main.process_messages frames svc false existing c ids = (c', e) ->
    current c' = committed c' /\ same_rows k (current c) (current c').
Proof.
  induction ids as [|i tl IH]; intros c c' e Hc Hk H; simpl in H.
  - injection H as <- _. split; [exact Hc | split; reflexivity].
  - destruct (Main.process_message frames svc false existing c i) as [c1|err] eqn:E.
    + destruct (process_message_spares_stored _ _ _ _ _ _ _ Hc Hk E) as [Hc1 Hs1].
      destruct (IH _ _ _ Hc1 ltac:(rewrite (same_rows_has_key _ _ _ Hs1); exact Hk) H)
        as [Hc' Hs'].
      split; [exact Hc'|]. destruct Hs1 as [A1 B1], Hs' as [A2 B2].
      split; [congruence | intro t; rewrite B2; apply B1].
    + injection H as <- _. split; [exact Hc | split; reflexivity].
Qed.

Lemma process_labels_spares_stored (frames : nat) (svc : Main.service) (existing : list sqlval)
  (k : sqlval) :
  forall labels c c' e,
    current c = committed c ->
    has_key k (emails (current c)) = true ->
    Main.process_labels frames svc false existing c labels = (c', e) ->
    current c' = committed c' /\ same_rows k (current c) (current c').
Proof.
  induction labels as [|l tl IH]; intros c c' e Hc Hk H; simpl in H.
  - injection H as <- _. split; [exact Hc | split; reflexivity].
  - destruct (Main.process_messages frames svc false existing c (Main.message_ids svc l))
      as [c1 [err|]] eqn:E.
    + injection H as <- _. apply (process_messages_spares_stored _ _ _ _ _ _ _ _ Hc Hk E).
    + destruct (process_messages_spares_stored _ _ _ _ _ _ _ _ Hc Hk E) as [Hc1 Hs1].
      destruct (IH _ _ _ Hc1 ltac:(rewrite (same_rows_has_key _ _ _ Hs1); exact Hk) H)
        as [Hc' Hs'].
      split; [exact Hc'|]. destruct Hs1 as [A1 B1], Hs' as [A2 B2].
      split; [congruence | intro t; rewrite B2; apply B1].
Qed.

(** X19.  Without [--update], a run of [main] changes no message that is
    stored.  On a connection without an open transaction, whatever the
    service returns, whichever labels are asked for and however the run
    ends, a message that has a parent row when the run starts has, when the
    run ends, the rows it had in [emails] and in each of the five tables of
    children, and no transaction is left open. *)
Theorem main_without_update_spares_stored_messages :
  forall (frames : nat) (svc : Main.service) (label : option (list string)) (c c' : conn)
         (e : option pyerror) (k : sqlval),
    current c = committed c ->
    has_key k (emails (current c)) = true ->
    Main.main frames svc false label c = (c', e) ->
    current c' = committed c' /\
    with_key k (emails (current c')) = with_key k (emails (current c)) /\
    forall t, with_key k (table t (current c')) = with_key k (table t (current c)).
Proof.
  intros frames svc label c c' e k Hc Hk H. unfold Main.main in H.
  destruct (Main.labels_to_process _ _) as [labels|].
  - apply (process_labels_spares_stored _ _ _ _ _ _ _ _ Hc Hk H).
  - injection H as <- _. split; [exact Hc | split; reflexivity].
Qed.

Lemma main_without_update_spares_stored_messages_witness :
  exists c1 c2,
    insert_message (Some fresh) (record_of first_fetch) true = (Some c1, Committed) /\
    current c1 = committed c1 /\
    has_key (SText "m1") (emails (current c1)) = true /\
    Main.main example_frames example_service false None c1 = (c2, None) /\
    map (col 0) (emails (current c2)) = [SText "m1"; SText "m2"] /\
    email_labels (current c2) = [[SText "m1"; SText "INBOX"]; [SText "m2"; SText "SPAM"]] /\
    current c2 = committed c2 /\
    with_key (SText "m1") (emails (current c2)) = with_key (SText "m1") (emails (current c1)) /\
    forall t, with_key (SText "m1") (table t (current c2))
              = with_key (SText "m1") (table t (current c1)).
Proof.
  set (c1 := commit (Conn empty_db
                (fst (insert_message_body (record_of first_fetch) (PStr "m1") empty_db)))).
  set (c2 := fst (Main.main example_frames example_service false None c1)).
  assert (H1 : insert_message (Some fresh) (record_of first_fetch) true
               = (Some c1, Committed)) by (vm_compute; reflexivity).
  assert (H2 : current c1 = committed c1) by (vm_compute; reflexivity).
  assert (H3 : has_key (SText "m1") (emails (current c1)) = true)
    by (vm_compute; reflexivity).
  assert (H4 : Main.main example_frames example_service false None c1 = (c2, None))
    by (vm_compute; reflexivity).
  exists c1, c2.
  split; [exact H1|]. split; [exact H2|]. split; [exact H3|]. split; [exact H4|].
  split; [vm_compute; reflexivity|]. split; [vm_compute; reflexivity|].
  exact (main_without_update_spares_stored_messages example_frames example_service None c1 c2 None
           (SText "m1") H2 H3 H4).
Defined.

(* ------------------------------------------------------------------ *)
(** ** The labels that a run processes *)

Lemma labels_to_process_sound (available : option (list string))
  (label : option (list string)) (ls : list string) :
  Main.labels_to_process available label = Some ls ->
  forall l, In l ls ->
    (exists a, available = Some a /\ In l a) /\
    Str.contains "Delete_Status" l = false /\
    (forall rq, label = Some rq -> rq <> [] -> In l rq).
Proof.
  unfold Main.labels_to_process. intros H l Hl.
  destruct available as [[|a0 a]|]; try discriminate H.
  set (filtered := filter (fun l0 => negb (Str.contains "Delete_Status" l0)) (a0 :: a)) in *.
  assert (Hf : forall x, In x filtered ->
                 In x (a0 :: a) /\ Str.contains "Delete_Status" x = false).
  { intros x Hx. apply filter_In in Hx. destruct Hx as [Hx Hc].
    split; [exact Hx | apply negb_true_iff, Hc]. }
  destruct label as [[|q rq]|].
  - injection H as <-. destruct (Hf l Hl) as [Ha Hc].
    split; [exists (a0 :: a); auto|]. split; [exact Hc|].
    intros rq' [= <-] Hne. contradiction.
  - destruct (filter _ (q :: rq)) as [|v vs] eqn:Ev; [discriminate H|].
    injection H as <-. rewrite <- Ev in Hl. apply filter_In in Hl.
    destruct Hl as [Hrq Hex]. apply existsb_exists in Hex.
    destruct Hex as (x & Hx & Exl). apply String.eqb_eq in Exl. subst x.
    destruct (Hf l Hx) as [Ha Hc].
    split; [exists (a0 :: a); auto|]. split; [exact Hc|].
    intros rq' [= <-] _. exact Hrq.
  - injection H as <-. destruct (Hf l Hl) as [Ha Hc].
    split; [exists (a0 :: a); auto|]. split; [exact Hc|].
    intros rq' Hd. discriminate Hd.
Qed.

Lemma process_messages_ext (frames : nat) (svc svc' : Main.service) (update : bool)
  (existing : list sqlval) :
  (forall i, Main.get_message svc i = Main.get_message svc' i) ->
  forall ids c,
    Main.process_messages frames svc update existing c ids
    = Main.process_messages frames svc' update existing c ids.
Proof.
  intros Hg. induction ids as [|i tl IH]; intro c; simpl; [reflexivity|].
  unfold Main.process_message. rewrite (Hg i).
  destruct (negb update && _)%bool; [apply IH|].
  destruct (Gmail.get_email_by_message_id _) as [[r|]|e]; cbn [bind];
    [| apply IH | reflexivity].
  destruct (truthy (PDict r)); [|apply IH].
  destruct (insert_message (Some c) r update) as [[c1|] o]; destruct o;
    try reflexivity; apply IH.
Qed.

(** X21.  A run of [main] sets the labels that hold [Delete_Status] aside.
    The labels it processes are available labels that do not hold that
    text, and are among the labels asked for when some are; and what the
    service lists under a label that holds it has no influence on the run:
    two services that agree on everything else leave the same connection
    and end the same way. *)
Theorem main_sets_excluded_labels_aside :
  forall (frames : nat) (svc svc' : Main.service) (update : bool) (label : option (list string))
         (c : conn),
    Main.list_tags svc = Main.list_tags svc' ->
    (forall i, Main.get_message svc i = Main.get_message svc' i) ->
    (forall l, Str.contains "Delete_Status" l = false ->
               Main.message_ids svc l = Main.message_ids svc' l) ->
    (forall ls l,
        Main.labels_to_process (Main.list_tags svc) label = Some ls -> In l ls ->
        (exists a, Main.list_tags svc = Some a /\ In l a) /\
        Str.contains "Delete_Status" l = false /\
        (forall rq, label = Some rq -> rq <> [] -> In l rq)) /\
    Main.main frames svc update label c = Main.main frames svc' update label c.
Proof.
  intros frames svc svc' update label c Ht Hg Hm. split.
  - intros ls l H. apply (labels_to_process_sound _ _ _ H).
  - unfold Main.main. rewrite <- Ht.
    destruct (Main.labels_to_process (Main.list_tags svc) label) as [ls|] eqn:E;
      [|reflexivity].
    pose proof (labels_to_process_sound _ _ _ E) as Hs.
    assert (Hall : forall l, In l ls -> Str.contains "Delete_Status" l = false)
      by (intros l Hl; apply (Hs l Hl)).
    clear E Hs. generalize (Main.existing_ids update c). intro existing.
    revert c. induction ls as [|l tl IH]; intro c; simpl; [reflexivity|].
    rewrite <- (Hm l (Hall l (or_introl eq_refl))).
    rewrite (process_messages_ext frames svc svc' update existing Hg).
    destruct (Main.process_messages frames svc' update existing c (Main.message_ids svc l))
      as [c1 [e|]]; [reflexivity|].
    apply IH. intros x Hx. apply Hall. right. exact Hx.
Qed.

Lemma main_sets_excluded_labels_aside_witness :
  Main.list_tags example_service = Main.list_tags other_service /\
  (forall i, Main.get_message example_service i = Main.get_message other_service i) /\
  (forall l, Str.contains "Delete_Status" l = false ->
             Main.message_ids example_service l = Main.message_ids other_service l) /\
  Main.message_ids example_service "Delete_Status/Old"
    <> Main.message_ids other_service "Delete_Status/Old" /\
  Main.labels_to_process (Main.list_tags example_service) None = Some ["INBOX"] /\
  Main.main example_frames example_service true None fresh = Main.main example_frames other_service true None fresh.
Proof.
  assert (H1 : Main.list_tags example_service = Main.list_tags other_service)
    by reflexivity.
  assert (H2 : forall i, Main.get_message example_service i
                         = Main.get_message other_service i) by reflexivity.
  assert (H3 : forall l, Str.contains "Delete_Status" l = false ->
                         Main.message_ids example_service l
                         = Main.message_ids other_service l).
  { intros l Hl. unfold other_service. cbn [Main.message_ids]. rewrite Hl. reflexivity. }
  split; [exact H1|]. split; [exact H2|]. split; [exact H3|].
  split; [vm_compute; discriminate|]. split; [vm_compute; reflexivity|].
  exact (proj2 (main_sets_excluded_labels_aside example_frames example_service other_service true None
                  fresh H1 H2 H3)).
Defined.

(* ------------------------------------------------------------------ *)
(** ** The keys of a record, and the columns they never fill *)

Lemma email_row_charset (r : dict) (mid : pyval) (rw : row) :
  email_row r mid = Ok rw ->
  exists v, bind_param (get r "charset") = Ok v /\ col 11 rw = as_text v.
Proof.
  unfold email_row, text_columns. intro H. cbn [mapM] in H.
  destruct (Json.dumps _) as [to|]; [simpl in H | discriminate H].
  destruct (Json.dumps _) as [cc|]; [simpl in H | discriminate H].
  destruct (Json.dumps _) as [bcc|]; [simpl in H | discriminate H].
  destruct (bind_param mid) as [m|]; [simpl in H | discriminate H].
  destruct (bind_param (get r "thread_id")) as [v1|]; [simpl in H | discriminate H].
  destruct (bind_param (get r "sender_email")) as [v2|]; [simpl in H | discriminate H].
  destruct (bind_param (get r "subject")) as [v3|]; [simpl in H | discriminate H].
  destruct (bind_param (get r "body_text")) as [v4|]; [simpl in H | discriminate H].
  destruct (bind_param (get r "body_html")) as [v5|]; [simpl in H | discriminate H].
  destruct (bind_param (get r "sent_timestamp")) as [v6|]; [simpl in H | discriminate H].
  destruct (bind_param (get r "internal_date_ms")) as [v7|]; [simpl in H | discriminate H].
  destruct (bind_param (get r "date_received")) as [v8|]; [simpl in H | discriminate H].
  destruct (bind_param (get r "mime_type")) as [v9|]; [simpl in H | discriminate H].
  destruct (bind_param (get r "content_transfer_encoding")) as [v10|];
    [simpl in H | discriminate H].
  destruct (bind_param (get r "charset")) as [v11|]; [simpl in H | discriminate H].
  destruct (bind_param (get r "return_path")) as [v12|]; [simpl in H | discriminate H].
  destruct (bind_param (get r "header_sender")) as [v13|]; [simpl in H | discriminate H].
  injection H as <-. exists v11. split; reflexivity.
Qed.

(** X22.  Every record that [extract_email_data] returns has the same
    twenty-five keys, in the same order, whatever the message; [charset] is
    not among them, so that the [charset] column of the parent row that a
    committed write stores for the record is always [NULL]. *)
Theorem extracted_record_has_fixed_keys :
  forall (frames : nat) (m : Gmail.message) (raw : option string) (r : dict),
    Gmail.extract_email_data frames m raw = Ok r ->
    map fst r = record_keys /\
    lookup "charset" r = None /\
    forall (i : string) (c c' : conn) (u : bool),
      Gmail.id m = Some i ->
      integrity (current c) = true ->
      insert_message (Some c) r u = (Some c', Committed) ->
      exists rw, with_key (SText i) (emails (committed c')) = [rw] /\ col 11 rw = SNull.
Proof.
  intros frames m raw r Hex.
  destruct (extract_email_data_inv _ _ _ _ Hex)
    as (bt & bh & atts & adds & xs & ls & idms & rawv & _ & _ & _ & _ & _ & Hr).
  assert (Hch : lookup "charset" r = None) by (rewrite Hr; reflexivity).
  split; [rewrite Hr; reflexivity|]. split; [exact Hch|].
  intros i c c' u Hi Hint H.
  assert (Hid : get r "message_id" = PStr i) by (rewrite Hr; cbn; rewrite Hi; reflexivity).
  apply insert_message_committed in H. destruct H as [Hb _]. rewrite Hid in Hb.
  destruct (insert_message_body_spec _ _ _ _ Hint Hid Hb) as ((rw & Hrw & Hp) & _ & _).
  exists rw. split; [exact Hp|].
  destruct (email_row_charset _ _ _ Hrw) as (v & Hv & ->).
  unfold get, get_or in Hv. rewrite Hch in Hv. injection Hv as <-. reflexivity.
Qed.

Lemma extracted_record_has_fixed_keys_witness :
  exists r c' rw,
    Gmail.extract_email_data example_frames attached_message None = Ok r /\
    map fst r = record_keys /\
    Gmail.id attached_message = Some "m1" /\
    integrity (current fresh) = true /\
    insert_message (Some fresh) r true = (Some c', Committed) /\
    with_key (SText "m1") (emails (committed c')) = [rw] /\ col 11 rw = SNull.
Proof.
  set (c' := commit (Conn empty_db
                (fst (insert_message_body (record_of attached_message) (PStr "m1")
                        empty_db)))).
  assert (H1 : Gmail.extract_email_data example_frames attached_message None
               = Ok (record_of attached_message)) by (vm_compute; reflexivity).
  assert (H2 : insert_message (Some fresh) (record_of attached_message) true
               = (Some c', Committed)) by (vm_compute; reflexivity).
  destruct (extracted_record_has_fixed_keys example_frames attached_message None _ H1) as (Hk & _ & Hrow).
  destruct (Hrow "m1" fresh c' true eq_refl eq_refl H2) as (rw & Hp & Hc).
  exists (record_of attached_message), c', rw.
  split; [exact H1|]. split; [exact Hk|]. split; [reflexivity|]. split; [reflexivity|].
  split; [exact H2|]. split; [exact Hp | exact Hc].
Defined.

(* ------------------------------------------------------------------ *)
(** ** The parent row stored for a message *)

Lemma extracted_bodies (frames : nat) (m : Gmail.message) (raw : option string) (r : dict) :
  Gmail.extract_email_data frames m raw = Ok r ->
  exists o1 o2 atts adds,
    Gmail.walk_payload frames m (payload_of m) = Ok (of_opt_str o1, of_opt_str o2, atts, adds) /\
    get r "body_text" = of_opt_str o1 /\
    get r "body_html" = of_opt_str o2.
Proof.
  intro H.
  destruct (extract_email_data_inv _ _ _ _ H)
    as (bt & bh & atts & adds & xs & ls & idms & rawv & Hw & _ & _ & _ & _ & ->).
  destruct (walk_payload_inv _ _ _ _ _ _ Hw) as [(o1 & o2 & -> & ->) _].
  exists o1, o2, atts, adds. split; [exact Hw|]. split; reflexivity.
Qed.

Lemma as_text_opt_text (o : option string) : as_text (opt_text o) = opt_text o.
Proof. destruct o; reflexivity. Qed.

Lemma bind_param_timestamp (o : option datetime) :
  bind_param (Gmail.of_opt_datetime o) = Ok (opt_text (option_map str_of_datetime o)).
Proof. destruct o; reflexivity. Qed.

(** X23.  The parent row of a message, end to end.  After a committed write
    of the record extracted from a message with the id [i], on a database
    whose foreign keys hold, the message has one row in [emails], whose
    columns are: the id, the thread id, the address parsed from [From], the
    [Subject], the two bodies found in the payload, the parsed [Date] as
    [str] prints it, the internal date as an integer, the first [Received]
    header, the type of the payload, the [Content-Transfer-Encoding], [NULL]
    for the charset, the three recipient lists as [json.dumps] writes them,
    the [Return-Path], the [Sender], and the five flags at 0; a field that
    the message lacks is [NULL]. *)
Theorem stored_parent_row_of_message :
  forall (frames : nat) (m : Gmail.message) (raw : option string) (r : dict) (i : string)
         (c c' : conn) (u : bool),
    Gmail.extract_email_data frames m raw = Ok r ->
    Gmail.id m = Some i ->
    integrity (current c) = true ->
    insert_message (Some c) r u = (Some c', Committed) ->
    exists o1 o2 atts adds idms to cc bcc,
      Gmail.walk_payload frames m (payload_of m) = Ok (of_opt_str o1, of_opt_str o2, atts, adds) /\
      Gmail.internal_date_ms m = Ok idms /\
      Json.dumps (Gmail.recipients_value
                    (Gmail.parse_recipients (Gmail.get_header (headers_of m) "To")))
        = Ok to /\
      Json.dumps (Gmail.recipients_value
                    (Gmail.parse_recipients (Gmail.get_header (headers_of m) "Cc")))
        = Ok cc /\
      Json.dumps (Gmail.recipients_value
                    (Gmail.parse_recipients (Gmail.get_header (headers_of m) "Bcc")))
        = Ok bcc /\
      with_key (SText i) (emails (committed c'))
      = [[ SText i;
           opt_text (Gmail.threadId m);
           SText (fst (Gmail.parse_sender (Gmail.get_header (headers_of m) "From")));
           opt_text (Gmail.get_header (headers_of m) "Subject");
           opt_text o1;
           opt_text o2;
           opt_text (option_map str_of_datetime
                       (Gmail.parse_date (Gmail.get_header (headers_of m) "Date")));
           SInt idms;
           opt_text (Gmail.get_header (headers_of m) "Received");
           opt_text (Gmail.mimeType (payload_of m));
           opt_text (Gmail.get_header (headers_of m) "Content-Transfer-Encoding");
           SNull;
           SText to; SText cc; SText bcc;
           opt_text (Gmail.get_header (headers_of m) "Return-Path");
           opt_text (Gmail.get_header (headers_of m) "Sender");
           SInt 0; SInt 0; SInt 0; SInt 0; SInt 0 ]].
Proof.
  intros frames m raw r i c c' u Hex Hi Hint H.
  destruct (extracted_collections _ _ _ _ _ Hex Hi) as (Hid & _).
  destruct (extracted_addresses _ _ _ _ Hex) as (_ & Hse & Hto & Hcc & Hbcc).
  destruct (extracted_scalars _ _ _ _ Hex)
    as (o1' & o2' & idms & Hd & H1 & H2 & _ & _ & H5 & H6 & H7 & H8 & H9 & H10 & H11 & H12).
  destruct (extracted_bodies _ _ _ _ Hex) as (o1 & o2 & atts & adds & Hw & H3 & H4).
  apply insert_message_committed in H. destruct H as [Hb _]. rewrite Hid in Hb.
  destruct (insert_message_body_spec _ _ _ _ Hint Hid Hb) as ((rw & Hrw & Hp) & _ & _).
  destruct (dumps_recipients_ok
              (Gmail.parse_recipients (Gmail.get_header (headers_of m) "To"))) as (s1 & D1).
  destruct (dumps_recipients_ok
              (Gmail.parse_recipients (Gmail.get_header (headers_of m) "Cc"))) as (s2 & D2).
  destruct (dumps_recipients_ok
              (Gmail.parse_recipients (Gmail.get_header (headers_of m) "Bcc"))) as (s3 & D3).
  exists o1, o2, atts, adds, idms, s1, s2, s3.
  split; [exact Hw|]. split; [exact Hd|]. split; [exact D1|]. split; [exact D2|].
  split; [exact D3|].
  rewrite Hp. f_equal.
  unfold email_row, text_columns in Hrw. cbn [mapM] in Hrw.
  rewrite Hto, Hcc, Hbcc, D1, D2, D3 in Hrw.
  rewrite Hse, H1, H2, H3, H4, H5, H6, H7, H8, H9, H10, H11, H12 in Hrw.
  rewrite !bind_param_opt_str, bind_param_timestamp in Hrw.
  cbn [bind bind_param] in Hrw.
  destruct ((- 2 ^ 63 <=? idms)%Z && (idms <? 2 ^ 63)%Z); cbn [bind] in Hrw;
    [|discriminate Hrw].
  injection Hrw as <-.
  rewrite !as_text_opt_text. reflexivity.
Qed.

Lemma stored_parent_row_of_message_witness :
  exists c',
    Gmail.extract_email_data example_frames dated_message None = Ok (record_of dated_message) /\
    Gmail.id dated_message = Some "m1" /\
    integrity (current fresh) = true /\
    insert_message (Some fresh) (record_of dated_message) true = (Some c', Committed) /\
    map (firstn 12) (emails (committed c'))
    = [[ SText "m1"; SText "t1"; SText "alice@x.com"; SNull; SText "plain body"; SNull;
         SText "2025-04-15 10:30:00-07:00"; SInt 1700000000000; SNull;
         SText "multipart/mixed"; SNull; SNull ]] /\
    map (skipn 13) (emails (committed c'))
    = [[ SText "[]"; SText "[]"; SNull; SNull;
         SInt 0; SInt 0; SInt 0; SInt 0; SInt 0 ]] /\
    exists rw, with_key (SText "m1") (emails (committed c')) = [rw].
Proof.
  set (c' := commit (Conn empty_db
                (fst (insert_message_body (record_of dated_message) (PStr "m1")
                        empty_db)))).
  assert (H1 : Gmail.extract_email_data example_frames dated_message None
               = Ok (record_of dated_message)) by (vm_compute; reflexivity).
  assert (H2 : insert_message (Some fresh) (record_of dated_message) true
               = (Some c', Committed)) by (vm_compute; reflexivity).
  destruct (stored_parent_row_of_message example_frames dated_message None _ "m1" fresh c' true
              H1 eq_refl eq_refl H2)
    as (o1 & o2 & atts & adds & idms & to & cc & bcc & _ & _ & _ & _ & _ & Hrow).
  exists c'.
  split; [exact H1|]. split; [reflexivity|]. split; [reflexivity|]. split; [exact H2|].
  split; [vm_compute; reflexivity|]. split; [vm_compute; reflexivity|].
  eexists. exact Hrow.
Defined.

(* ------------------------------------------------------------------ *)
(** ** What a run of [main] keeps *)

Lemma insert_message_sound (c c' : conn) (r : dict) (u : bool) (o : outcome) :
  sound_connection c ->
  insert_message (Some c) r u = (Some c', o) ->
  sound_connection c'.
Proof.
  intros (A & B & C & D) H. unfold insert_message in H.
  destruct (if u then Ok false
            else bind (bind_param (get r "message_id"))
                      (fun mid => Ok (select_email_exists mid (current c))))
    as [[|]|e]; try (injection H as <- _; repeat split; assumption).
  destruct (insert_message_body r (get r "message_id") (current c)) as [d res] eqn:E.
  pose proof (insert_message_body_consistent _ _ _ _ _ E B) as Hd.
  pose proof (insert_message_body_keys_unique _ _ _ _ _ E D) as Hk.
  destruct res as [[]|e]; injection H as <- _; repeat split; simpl; assumption.
Qed.

Lemma process_messages_sound (frames : nat) (svc : Main.service) (update : bool)
  (existing : list sqlval) :
  forall ids c c' e,
    sound_connection c ->
    Main.process_messages frames svc update existing c ids = (c', e) ->
    sound_connection c'.
Proof.
  induction ids as [|i tl IH]; intros c c' e Hc H; simpl in H.
  - injection H as <- _. exact Hc.
  - destruct (Main.process_message frames svc update existing c i) as [c1|err] eqn:E;
      [|injection H as <- _; exact Hc].
    apply (IH c1 c' e); [|exact H].
    unfold Main.process_message in E.
    destruct (negb update && _)%bool; [injection E as <-; exact Hc|].
    destruct (Gmail.get_email_by_message_id _) as [[r|]|err]; cbn [bind] in E;
      [| injection E as <-; exact Hc | discriminate E].
    destruct (truthy (PDict r)); [|injection E as <-; exact Hc].
    destruct (insert_message (Some c) r update) as [[c2|] o] eqn:Ei.
    + destruct o; try discriminate E; injection E as <-;
        apply (insert_message_sound _ _ _ _ _ Hc Ei).
    + destruct o; try discriminate E; injection E as <-; exact Hc.
Qed.

(** X24.  A run of [main] keeps the database sound.  On a connection whose
    tables, committed and current, satisfy their foreign keys and have
    unique primary keys, they do so again when the run ends, whatever the
    service returns, with or without [--update], whichever labels are asked
    for and however the run ends. *)
Theorem main_keeps_the_database_sound :
  forall (frames : nat) (svc : Main.service) (update : bool) (label : option (list string))
         (c c' : conn) (e : option pyerror),
    consistent (committed c) = true ->
    consistent (current c) = true ->
    keys_unique (committed c) = true ->
    keys_unique (current c) = true ->
    Main.main frames svc update label c = (c', e) ->
    consistent (committed c') = true /\ consistent (current c') = true /\
    keys_unique (committed c') = true /\ keys_unique (current c') = true.
Proof.
  intros frames svc update label c c' e A B C D H.
  assert (Hc : sound_connection c) by (repeat split; assumption).
  clear A B C D. unfold Main.main in H.
  destruct (Main.labels_to_process _ _) as [labels|]; [|injection H as <- _; exact Hc].
  revert H. generalize (Main.existing_ids update c). intros existing H.
  revert c Hc H. induction labels as [|l tl IH]; intros c Hc H; simpl in H.
  - injection H as <- _. exact Hc.
  - destruct (Main.process_messages frames svc update existing c (Main.message_ids svc l))
      as [c1 [err|]] eqn:E.
    + injection H as <- _. apply (process_messages_sound _ _ _ _ _ _ _ _ Hc E).
    + apply (IH c1); [apply (process_messages_sound _ _ _ _ _ _ _ _ Hc E) | exact H].
Qed.

Lemma main_keeps_the_database_sound_witness :
  exists c',
    consistent (committed fresh) = true /\
    consistent (current fresh) = true /\
    keys_unique (committed fresh) = true /\
    keys_unique (current fresh) = true /\
    Main.main example_frames example_service true None fresh = (c', None) /\
    map (col 0) (emails (committed c')) = [SText "m1"; SText "m2"] /\
    consistent (committed c') = true /\ consistent (current c') = true /\
    keys_unique (committed c') = true /\ keys_unique (current c') = true.
Proof.
  set (c' := fst (Main.main example_frames example_service true None fresh)).
  assert (H : Main.main example_frames example_service true None fresh = (c', None))
    by (vm_compute; reflexivity).
  exists c'.
  split; [reflexivity|]. split; [reflexivity|]. split; [reflexivity|].
  split; [reflexivity|]. split; [exact H|]. split; [vm_compute; reflexivity|].
  exact (main_keeps_the_database_sound example_frames example_service true None fresh c' None
           eq_refl eq_refl eq_refl eq_refl H).
Defined.
